(* ===== verification/_CoqProject ===== *)
-Q . S2P
Prelude.v
RustStr.v
RustFloat.v
RustFloatFacts.v
Model.v
ModelRead.v
MetricsError.v
MetricsCpu.v
MetricsMemory.v
MetricsDisk.v
MetricsPower.v
MetricsTemperature.v
MetricsUptime.v
MetricsMetadata.v
Config.v
Discovery.v
JsonPrint.v
Watch.v
MqttProtocol.v
MqttMachine.v
MqttSupervisor.v
Collector.v
Command.v
CollectorReports.v
CollectorSources.v
CollectorSystem.v
Daemon.v
DaemonService.v
DaemonFacts.v
PacketSize.v
DaemonShutdown.v
Program.v
Supervision.v
Recovery.v
Availability.v
Cli.v
Diagnostics.v
DiagnosticsFacts.v
Main.v
