(* ===== verification/Prelude.v ===== *)
(** * Verification of rpi-health-mqtt

    rpi-health-mqtt is a daemon that reads the health of a Raspberry Pi (CPU,
    memory, disk, temperature, power flags) and publishes it over MQTT for Home
    Assistant.  This library models the program in Rocq and proves what makes it
    correct.  Definitions keep the names of the source; an operation is written
    the way the code writes it, with errors as values of [result], machine
    integers as [Z] with their bounds written out, floating-point numbers as
    binary64 values of the Standard Library's [SpecFloat], strings as lists of
    Unicode scalar values ([str]) and the effects of the code as explicit state
    passing or as step relations.

    ** The program and the files that model it

    The process ([src/src/main.rs], [cli.rs]) loads a configuration, then prints
    one snapshot, runs the preflight diagnostics, or starts the daemon.  The
    daemon ([daemon.rs]) runs three concurrent tasks that share two watch
    channels (the newest collection request, the newest serialised state) and a
    busy flag: the MQTT supervisor ([mqtt.rs]), the blocking collection worker
    and the collection scheduler.  The worker calls the collector
    ([collector.rs]), which feeds what it reads to pure parsers ([metrics/*.rs])
    and builds a [TelemetryState] ([model.rs]).  Home Assistant learns about the
    entities from a Discovery document ([discovery.rs]).

    - [Prelude], [RustStr], [RustFloat], [RustFloatFacts]: the parts of Rust's
      standard library the program uses: [Result] and [?], checked and saturating
      [u64] arithmetic, [Duration], UTF-8, splitting, trimming, integer and
      binary64 parsing and printing, [f64] operations with the exact rounding of
      the standard, and the relation of rounding to real bounds.  [Prelude] also
      has the runs of a step relation with their invariant, measure, potential and
      reachability rules, the tactics [simplify_result] and [simplify_checked] and the hint database [rpi].
    - [Model] ([model.rs]): the payload, [HealthStatus.evaluate], the rounding of
      measurements and the serialisation to a JSON value; [ModelRead]: reading a
      payload back.
    - [MetricsError], [MetricsCpu], [MetricsMemory], [MetricsDisk],
      [MetricsPower], [MetricsTemperature], [MetricsUptime], [MetricsMetadata]
      ([metrics/*.rs]): every parser and calculation, with its error texts.
    - [Config] ([config.rs]): loading, defaults, validation, derived topics and
      credentials.  The file system and the TOML parser are the classes
      [FileSystem] and [TomlParser].
    - [Discovery] ([discovery.rs]): the table of components and the document.
      [JsonPrint]: compact JSON text and its length, the class [CompactJson] for
      the printer; [PacketSize]: how large the Discovery packet is.
    - [Watch]: tokio's watch channel as the class [Watch] with its documented
      laws [WatchLaws], and an instance with version counters.
    - [MqttProtocol] ([mqtt.rs]): the bootstrap state machine, the retry delays
      and their jitter.  [MqttMachine]: its runs as lists of operations, with a
      ghost session, and the invariant of every run.
    - [MqttSupervisor] ([mqtt.rs]): the supervisor's loop body [iterate] with
      [graceful_shutdown], and its refinement of the machine.
    - [Collector] ([collector.rs]): a cycle as a state monad over the error list,
      the CPU sample and the world; the world is accessed through the classes
      [SystemSource], [CommandRunner] and [Clock], the traits of the source.
      [CollectorReports]: what a cycle reports; [CollectorSources]: that the
      sources are independent, the utilisation over the cycles, and what a cycle
      waits for; [CollectorSystem]: the sources, the clock and the runner on the
      operating system, with what the theorems ask of them discharged.
    - [Command] ([collector.rs], [ProcessCommandRunner]): the polling loop with its
      deadline, the calls it makes then, which may not return, and the bounded
      output reader.
    - [Daemon] ([daemon.rs]): the worker and the scheduler as step functions, the
      supervision of the tasks and [run].  [DaemonService]: the three tasks
      interleaved, as a step relation; [DaemonShutdown]: the end of its runs;
      [Program]: the service with the collector its worker owns; [Supervision]: the
      tasks with [run_service] itself, the shutdown channel and the points at which
      each task notices it, and the time that passes in its waits; [Recovery]: a working session is never out of reach;
      [Availability]: what a stopped daemon leaves on the availability topic;
      [DaemonFacts]: the result of the service and the agreement of the Discovery
      document with the topics in use.
    - [Diagnostics] ([diagnostics.rs]) and [DiagnosticsFacts]: the checks, the
      connection probe, the report; [Cli], [Main]: arguments, commands and exit
      codes.

    ** What the theorems show

    - The running service.  In every interleaving a published state was observed
      after the connection it is published on ([DaemonService]), and everything
      published is the Discovery document, an availability message or a reading of
      the daemon's own device, each on its topic ([Program]); the requests
      handed to the MQTT client are the outputs of the bootstrap machine
      ([supervisor_refines_machine]), whose runs publish Discovery, then
      availability, then fresh states, then offline ([MqttMachine]).  A connection
      with a responsive broker goes online, a shutdown goes offline and stops
      even when the broker is silent, network errors are always retried with
      bounded delays, pending requests are served, no task stops by itself, a
      requested shutdown ends every interleaving of the tasks and of their
      supervision within sixteen steps and the time the service manager allows,
      and the result of the service names the cause of its end ([Supervision]).
      Before that a working session can be reached from every state
      ([Recovery]), and a clean stop leaves the device offline, by its last
      publication or by the last will ([Availability]).
    - A collection cycle.  Its error list names exactly the sources that failed,
      one missing source never affects another, what it waits for is bounded, the
      polling loop of a firmware command always ends, and only an absurdly large
      load average or temperature can keep a payload from being serialised.
    - The parsers.  Round trips with the kernel's and the firmware's formats,
      equivalence with reference computations, and bounds: what is accepted fits
      its type and can be published.  A payload can be read back.
    - Configuration, Discovery, diagnostics, exit codes.  Validation accepts
      exactly the configurations that satisfy [valid]; derived topics are legal
      and distinct; entity ids are distinct and templates read fields that exist;
      the Discovery packet's size follows from the configuration, and the accepted
      base topics that make it exceed the client's limit are known;
      the diagnostics succeed exactly when nothing they check stands in the way
      and say nothing about the password; every exit code names its cause.

    ** Fuel and bounds

    The polling loop of a command has one unit of fuel per poll interval of its
    timeout and two more; [process_run_deadline] proves that this is enough.
    Printing an integer uses its binary logarithm plus one, enough for any radix
    from two ([print_radix_fuel]); [f64::powi] squares at most 32 times, enough for
    an [i32] exponent.  [worker_run] iterates the worker's step a given
    number of times; eleven steps serve a pending request from any point; [daemon_can_recover]
    needs twenty-seven.  Loops
    over what a peer delivers (the graceful shutdown, the connection probe) are
    structural in the list delivered before their deadline.  Request ids are
    [u64]; theorems about freshness assume that fewer than [2^64 - 1] requests
    were made, after which the source saturates.

    ** What is not modelled

    - The operating system: its calls are the classes [OperatingSystem], [Process]
      and [FileSystem], and the theorems assume what their types and documentation
      say (stable sources, a clock that does not go back).  A firmware command
      that outlives its deadline because its output stays open is a run that
      [Blocks] in [Command]; the collector is modelled on hosts whose runs return.  The builds for other
      systems than Linux, which only report that a call is missing.
    - tokio, rumqttc, serde_json, toml, time, clap: inputs of the definitions
      (what an event loop delivers, how a task ended, the parsed document), with
      documented behaviour as named hypotheses or class laws where a theorem
      needs it.  Time inside tokio appears as the branch a [select!]
      takes and, in [Supervision], as the time that passes while a stop waits: for
      the sleep of a retry, the timeout of the farewell and that on the collector,
      never while a step the stop needs could be taken.
    - Panics of a task: [service_result] covers them as failed joins, [Supervision]
      does not, since the release profile of [src/Cargo.toml] ends the process on
      a panic.
    - Logging ([initialize_logging], tracing events), which has no effect on the
      state, and [Debug] output other than that of the credentials.
    - How JSON is read and printed and its error messages, which are
      [serde_json]'s; [CompactJson] is what the size of a packet needs of it. *)

From stdpp Require Export prelude strings list gmap.
From Stdlib Require Export ZArith Lia.

Local Open Scope Z_scope.

(** ** Results

    [Result<A, E>] of the source; the [?] operator is the monadic bind, written
    with stdpp's do-notation. *)

Inductive result (E A : Type) : Type :=
  | Ok (a : A)
  | Err (e : E).
Arguments Ok {E A} a.
Arguments Err {E A} e.

#[export] Instance result_ret {E} : MRet (result E) := fun A a => Ok a.
#[export] Instance result_bind {E} : MBind (result E) := fun A B f r =>
  match r with Ok a => f a | Err e => Err e end.
#[export] Instance result_fmap {E} : FMap (result E) := fun A B f r =>
  match r with Ok a => Ok (f a) | Err e => Err e end.

#[export] Instance result_eq_dec {E A} `{EqDecision E} `{EqDecision A} :
  EqDecision (result E A).
Proof. solve_decision. Defined.

(** [Option::ok_or], [Result::map_err], [Result::ok], [Result::and]. *)
Definition ok_or {E A} (o : option A) (e : E) : result E A :=
  match o with Some a => Ok a | None => Err e end.

Definition map_err {E F A} (f : E -> F) (r : result E A) : result F A :=
  match r with Ok a => Ok a | Err e => Err (f e) end.

Definition result_ok {E A} (r : result E A) : option A :=
  match r with Ok a => Some a | Err _ => None end.

Definition result_and {E A B} (r : result E A) (s : result E B) : result E B :=
  match r with Ok _ => s | Err e => Err e end.

Definition is_ok {E A} (r : result E A) : bool :=
  match r with Ok _ => true | Err _ => false end.

(** Inversion of the monadic operations, used by [simplify_result]. *)
Section result_lemmas.
Context {E F A B : Type}.
Implicit Types (r : result E A) (f : A -> result E B).

Lemma result_bind_Ok r f b :
  r ≫= f = Ok b <-> exists a, r = Ok a /\ f a = Ok b.
Proof. destruct r; simpl; naive_solver. Qed.

Lemma result_bind_Err r f e :
  r ≫= f = Err e <-> r = Err e \/ exists a, r = Ok a /\ f a = Err e.
Proof. destruct r; simpl; naive_solver. Qed.

Lemma ok_or_Ok (o : option A) (e : E) a : ok_or o e = Ok a <-> o = Some a.
Proof. destruct o; simpl; naive_solver. Qed.

Lemma ok_or_Err (o : option A) (e e' : E) :
  ok_or o e = Err e' <-> o = None /\ e' = e.
Proof. destruct o; simpl; naive_solver. Qed.

Lemma result_ok_Some r a : result_ok r = Some a <-> r = Ok a.
Proof. destruct r; simpl; naive_solver. Qed.

Lemma result_ok_None r : result_ok r = None <-> exists e, r = Err e.
Proof. destruct r; simpl; naive_solver. Qed.

Lemma map_err_Ok (g : E -> F) r a : map_err g r = Ok a <-> r = Ok a.
Proof. destruct r; simpl; naive_solver. Qed.

Lemma result_and_Ok r (s : result E B) b :
  result_and r s = Ok b <-> (exists a, r = Ok a) /\ s = Ok b.
Proof. destruct r; simpl; naive_solver. Qed.
End result_lemmas.

(** Breaks every hypothesis [m ≫= f = Ok _] (and the other combinators above)
    into the results of its steps. *)
Ltac simplify_result :=
  repeat match goal with
  | H : _ ≫= _ = Ok _ |- _ =>
      apply result_bind_Ok in H as (? & ? & ?)
  | H : ok_or _ _ = Ok _ |- _ => apply ok_or_Ok in H
  | H : map_err _ _ = Ok _ |- _ => apply map_err_Ok in H
  | H : result_ok _ = Some _ |- _ => apply result_ok_Some in H
  | H : Ok _ = Ok _ |- _ => injection H as H
  | H : Err _ = Err _ |- _ => injection H as H
  | H : Ok _ = Err _ |- _ => discriminate H
  | H : Err _ = Ok _ |- _ => discriminate H
  end.

(** ** Lists *)

Lemma existsb_false {A} (p : A -> bool) l : existsb p l = false <-> Forall (fun x => p x = false) l.
Proof.
  induction l as [|x l IH]; simpl; [split; [constructor|done]|].
  by rewrite orb_false_iff, IH, Forall_cons.
Qed.

(** ** Machine integers

    Unsigned integers of width [w] are values of [Z]; the operations write out
    what Rust does at the bounds. *)

Definition u16_max : Z := 2 ^ 16 - 1.
Definition u32_max : Z := 2 ^ 32 - 1.
Definition u64_max : Z := 2 ^ 64 - 1.
Definition i64_min : Z := - 2 ^ 63.
Definition i64_max : Z := 2 ^ 63 - 1.

Definition is_u64 (z : Z) : Prop := 0 <= z <= u64_max.

Definition checked_add (a b : Z) : option Z :=
  if a + b <=? u64_max then Some (a + b) else None.
Definition checked_sub (a b : Z) : option Z :=
  if b <=? a then Some (a - b) else None.
Definition checked_mul (a b : Z) : option Z :=
  if a * b <=? u64_max then Some (a * b) else None.
Definition saturating_add (a b : Z) : Z := Z.min (a + b) u64_max.
Definition saturating_sub (a b : Z) : Z := Z.max (a - b) 0.
Definition saturating_mul (a b : Z) : Z := Z.min (a * b) u64_max.

Section integer_lemmas.
Implicit Types a b c : Z.

Lemma checked_add_Some a b c :
  checked_add a b = Some c <-> c = a + b /\ a + b <= u64_max.
Proof. unfold checked_add. destruct (Z.leb_spec (a + b) u64_max); naive_solver lia. Qed.

Lemma checked_sub_Some a b c : checked_sub a b = Some c <-> c = a - b /\ b <= a.
Proof. unfold checked_sub. destruct (Z.leb_spec b a); naive_solver lia. Qed.

Lemma checked_mul_Some a b c :
  checked_mul a b = Some c <-> c = a * b /\ a * b <= u64_max.
Proof. unfold checked_mul. destruct (Z.leb_spec (a * b) u64_max); naive_solver lia. Qed.

Lemma checked_add_None a b : checked_add a b = None <-> u64_max < a + b.
Proof. unfold checked_add. destruct (Z.leb_spec (a + b) u64_max); naive_solver lia. Qed.

Lemma checked_sub_None a b : checked_sub a b = None <-> a < b.
Proof. unfold checked_sub. destruct (Z.leb_spec b a); naive_solver lia. Qed.

Lemma checked_mul_None a b : checked_mul a b = None <-> u64_max < a * b.
Proof. unfold checked_mul. destruct (Z.leb_spec (a * b) u64_max); naive_solver lia. Qed.

Lemma saturating_add_u64 a b : is_u64 a -> is_u64 b -> is_u64 (saturating_add a b).
Proof. unfold is_u64, saturating_add. lia. Qed.

Lemma saturating_mul_u64 a b : is_u64 a -> is_u64 b -> is_u64 (saturating_mul a b).
Proof. unfold is_u64, saturating_mul. nia. Qed.
End integer_lemmas.

Create HintDb rpi discriminated.
#[export] Hint Resolve saturating_add_u64 saturating_mul_u64 : rpi.

(** Reduces the checked operations in hypotheses to arithmetic. *)
Ltac simplify_checked :=
  repeat match goal with
  | H : checked_add _ _ = Some _ |- _ => apply checked_add_Some in H as [? ?]
  | H : checked_sub _ _ = Some _ |- _ => apply checked_sub_Some in H as [? ?]
  | H : checked_mul _ _ = Some _ |- _ => apply checked_mul_Some in H as [? ?]
  | H : checked_add _ _ = None |- _ => apply checked_add_None in H
  | H : checked_sub _ _ = None |- _ => apply checked_sub_None in H
  | H : checked_mul _ _ = None |- _ => apply checked_mul_None in H
  end.

(** ** Durations

    [std::time::Duration] as a number of nanoseconds: whole seconds in [u64]
    plus fewer than [10^9] nanoseconds. *)

Definition nanos_per_sec : Z := 10 ^ 9.
Definition Duration : Type := Z.
Definition duration_max : Z := 2 ^ 64 * nanos_per_sec - 1.

Definition from_secs (s : Z) : Duration := s * nanos_per_sec.
Definition from_millis (ms : Z) : Duration := ms * 10 ^ 6.
Definition as_secs (d : Duration) : Z := d / nanos_per_sec.
Definition as_millis (d : Duration) : Z := d / 10 ^ 6.
Definition duration_saturating_sub (a b : Duration) : Duration := Z.max (a - b) 0.

Lemma as_secs_from_secs s : as_secs (from_secs s) = s.
Proof. unfold as_secs, from_secs. by apply Z.div_mul. Qed.

(** ** Finite transition sequences

    Reflexive-transitive closure of a labelled step relation, with the list of
    the labels taken: the runs of the state machines of the development. *)

Section runs.
Context {S L : Type} (step : S -> L -> S -> Prop).

Inductive run : S -> list L -> S -> Prop :=
  | run_nil s : run s [] s
  | run_cons s1 l s2 ls s3 : step s1 l s2 -> run s2 ls s3 -> run s1 (l :: ls) s3.

Lemma run_app s1 ls1 s2 ls2 s3 :
  run s1 ls1 s2 -> run s2 ls2 s3 -> run s1 (ls1 ++ ls2) s3.
Proof. induction 1; simpl; eauto using run. Qed.

Lemma run_snoc s1 ls s2 l s3 :
  run s1 ls s2 -> step s2 l s3 -> run s1 (ls ++ [l]) s3.
Proof. intros ??. eapply run_app; eauto using run. Qed.

(** An invariant of every step is an invariant of every run. *)
Lemma run_invariant (I : S -> Prop) s1 ls s2 :
  (forall s l s', I s -> step s l s' -> I s') -> I s1 -> run s1 ls s2 -> I s2.
Proof. intros Hstep Hinit Hrun. induction Hrun; eauto. Qed.

(** A run of steps that decrease a measure is no longer than the measure. *)
Lemma run_measure (I : S -> Prop) (P : L -> Prop) (m : S -> nat) s1 ls s2 :
  (forall s l s', I s -> P l -> step s l s' -> I s' /\ (m s' < m s)%nat) ->
  I s1 -> Forall P ls -> run s1 ls s2 -> I s2 /\ (length ls + m s2 <= m s1)%nat.
Proof.
  intros Hstep Hinit Hls Hrun. induction Hrun as [|s1 l s2 ls s3 H1 _ IH]; [done|].
  apply Forall_cons in Hls as [Hl Hls]. destruct (Hstep _ _ _ Hinit Hl H1) as [Hi Hm].
  destruct (IH Hi Hls) as [? ?]. split; [done|]. cbn [length]. lia.
Qed.

(** When every state that is not final has a step that decreases a measure, a
    final state can be reached. *)
Lemma run_reaches (I final : S -> Prop) `{forall s, Decision (final s)} (P : L -> Prop) (m : S -> nat) :
  (forall s, I s -> ~ final s -> exists l s', P l /\ step s l s' /\ I s' /\ (m s' < m s)%nat) ->
  forall s, I s -> exists ls s', Forall P ls /\ run s ls s' /\ I s' /\ final s'.
Proof.
  intros Hstep s. remember (m s) as n eqn:Hn. revert s Hn. induction (lt_wf n) as [n _ IH]. intros s -> Hi.
  destruct (decide (final s)); [exists [], s; split_and!; [constructor|constructor|done|done]|].
  destruct (Hstep s) as (l & s1 & Hl & H1 & Hi1 & Hm); [done..|].
  destruct (IH (m s1) Hm s1 eq_refl Hi1) as (ls & s2 & Hls & Hrun & Hi2 & Hf).
  exists (l :: ls), s2. split_and!; [by constructor|by econstructor|done|done].
Qed.

(** What the steps of a run cost is paid from a potential. *)
Definition total (cost : L -> Z) (ls : list L) : Z := foldr (fun l n => cost l + n) 0 ls.
Lemma run_potential (I : S -> Prop) (potential : S -> Z) (cost : L -> Z) s1 ls s2 :
  (forall s l s', I s -> step s l s' -> I s' /\ potential s' + cost l <= potential s) ->
  I s1 -> run s1 ls s2 -> potential s2 + total cost ls <= potential s1.
Proof.
  intros Hstep Hinit Hrun. induction Hrun as [s|s1 l s2 ls s3 H1 _ IH]; [cbn; lia|].
  destruct (Hstep _ _ _ Hinit H1) as [Hi Hc]. specialize (IH Hi). cbn [total foldr] in *. unfold total in *. lia.
Qed.

(** A state with [Q] can be reached within [n] steps. *)
Definition can_reach (n : nat) (Q : S -> Prop) (s : S) : Prop :=
  exists ls s', (length ls <= n)%nat /\ run s ls s' /\ Q s'.

Lemma can_reach_now n (Q : S -> Prop) s : Q s -> can_reach n Q s.
Proof. intros HQ. exists [], s. split; [cbn; lia|]. by split; [constructor|]. Qed.

Lemma can_reach_step l s s' (Q : S -> Prop) : step s l s' -> Q s' -> can_reach 1 Q s.
Proof. intros Hs HQ. exists [l], s'. split; [done|]. split; [|done]. by econstructor; [|constructor]. Qed.

Lemma can_reach_trans n m (P Q : S -> Prop) s :
  can_reach n P s -> (forall s', P s' -> can_reach m Q s') -> can_reach (n + m) Q s.
Proof.
  intros (ls & s1 & Hn & H1 & HP) HQ. destruct (HQ s1 HP) as (ls' & s2 & Hm & H2 & HQ2).
  exists (ls ++ ls'), s2. split; [rewrite length_app; lia|]. split; [by eapply run_app|done].
Qed.

Lemma can_reach_weaken n m (P Q : S -> Prop) s :
  (n <= m)%nat -> (forall s', P s' -> Q s') -> can_reach n P s -> can_reach m Q s.
Proof. intros Hnm HPQ (ls & s1 & Hn & H1 & HP). exists ls, s1. split; [lia|]. by split; [|apply HPQ]. Qed.

(** The measure bounds how far a final state is. *)
Lemma can_reach_measure (I final : S -> Prop) (m : S -> nat) :
  (forall s, I s -> final s \/ exists l s', step s l s' /\ (final s' \/ I s' /\ (m s' < m s)%nat)) ->
  forall s, I s -> can_reach (1 + m s) final s.
Proof.
  intros Hstep s. remember (m s) as n eqn:Hn. revert s Hn. induction (lt_wf n) as [n _ IH]. intros s -> Hi.
  destruct (Hstep s Hi) as [Hf|(l & s1 & H1 & [Hf|[Hi1 Hm]])]; [by apply can_reach_now| |].
  - apply (can_reach_weaken 1 _ final); [lia|done|]. by eapply can_reach_step.
  - apply (can_reach_weaken (1 + (1 + m s1)) _ final); [lia|done|].
    apply (can_reach_trans _ _ (eq s1)); [by eapply can_reach_step|]. intros s' <-. by eapply IH.
Qed.
End runs.
