(* ===== verification/RustStr.v ===== *)
(** * Rust strings

    The part of Rust's [str], [char], [String] and integer parsing and printing
    that the program uses.  A [str] is the list of its Unicode scalar values;
    [len] is its length in UTF-8 bytes and [utf8_encode]/[utf8_decode] relate
    it to [&[u8]].  A Rocq string literal denotes the [str] of its UTF-8 source
    text through the coercion [lit].  The second half holds the lemmas (splits,
    trimming, number round trips) the parsers share. *)

From S2P Require Import Prelude.

Local Open Scope Z_scope.

Definition str : Type := list Z.

#[export] Instance str_eq_dec : EqDecision str := _.
#[export] Instance str_countable : Countable str := _.

(** ** Characters *)

(** [char::is_whitespace]: the Unicode [White_Space] property. *)
Definition is_whitespace (c : Z) : bool :=
  ((9 <=? c) && (c <=? 13)) || (c =? 32) || (c =? 133) || (c =? 160) || (c =? 5760)
  || ((8192 <=? c) && (c <=? 8202)) || (c =? 8232) || (c =? 8233) || (c =? 8239)
  || (c =? 8287) || (c =? 12288).

(** [char::is_control]: the Unicode general category [Cc]. *)
Definition is_control (c : Z) : bool := (c <? 32) || ((127 <=? c) && (c <=? 159)).

Definition is_ascii (c : Z) : bool := c <? 128.
Definition is_ascii_digit (c : Z) : bool := (48 <=? c) && (c <=? 57).
Definition is_ascii_uppercase (c : Z) : bool := (65 <=? c) && (c <=? 90).
Definition is_ascii_lowercase (c : Z) : bool := (97 <=? c) && (c <=? 122).
Definition is_ascii_alphanumeric (c : Z) : bool :=
  is_ascii_digit c || is_ascii_uppercase c || is_ascii_lowercase c.
(** [char::is_ascii_whitespace]: space, tab, LF, FF, CR (not VT). *)
Definition is_ascii_whitespace (c : Z) : bool :=
  (c =? 32) || (c =? 9) || (c =? 10) || (c =? 12) || (c =? 13).
Definition to_ascii_lowercase (c : Z) : Z :=
  if is_ascii_uppercase c then c + 32 else c.

(** A Unicode scalar value: the values a Rust [char] can take. *)
Definition is_scalar (c : Z) : bool :=
  ((0 <=? c) && (c <=? 55295)) || ((57344 <=? c) && (c <=? 1114111)).

(** ** UTF-8 *)

Definition char_len (c : Z) : Z :=
  if c <? 128 then 1 else if c <? 2048 then 2 else if c <? 65536 then 3 else 4.

(** [str::len]: the number of UTF-8 bytes. *)
Fixpoint len (s : str) : Z :=
  match s with [] => 0 | c :: s => char_len c + len s end.

Definition utf8_encode_char (c : Z) : list Z :=
  if c <? 128 then [c]
  else if c <? 2048 then [192 + c / 64; 128 + c mod 64]
  else if c <? 65536 then [224 + c / 4096; 128 + (c / 64) mod 64; 128 + c mod 64]
  else [240 + c / 262144; 128 + (c / 4096) mod 64; 128 + (c / 64) mod 64; 128 + c mod 64].

(** [str::as_bytes]. *)
Definition utf8_encode (s : str) : list Z := concat (utf8_encode_char <$> s).

Definition is_continuation (b : Z) : bool := (128 <=? b) && (b <=? 191).

(** [String::from_utf8]: [None] on any ill-formed sequence (overlong forms,
    surrogates, values above U+10FFFF, truncated sequences). *)
Fixpoint utf8_decode (bs : list Z) : option str :=
  match bs with
  | [] => Some []
  | b1 :: t1 =>
    if (0 <=? b1) && (b1 <? 128) then cons b1 <$> utf8_decode t1 else
    match t1 with
    | [] => None
    | b2 :: t2 =>
      if (194 <=? b1) && (b1 <=? 223) then
        if is_continuation b2 then cons ((b1 - 192) * 64 + (b2 - 128)) <$> utf8_decode t2
        else None
      else
      match t2 with
      | [] => None
      | b3 :: t3 =>
        if (224 <=? b1) && (b1 <=? 239) then
          let c := (b1 - 224) * 4096 + (b2 - 128) * 64 + (b3 - 128) in
          if is_continuation b2 && is_continuation b3 && (2048 <=? c) && is_scalar c
          then cons c <$> utf8_decode t3 else None
        else
        match t3 with
        | [] => None
        | b4 :: t4 =>
          let c := (b1 - 240) * 262144 + (b2 - 128) * 4096 + (b3 - 128) * 64 + (b4 - 128) in
          if (240 <=? b1) && (b1 <=? 244) && is_continuation b2 && is_continuation b3
             && is_continuation b4 && (65536 <=? c) && is_scalar c
          then cons c <$> utf8_decode t4 else None
        end
      end
    end
  end.

(** The [str] a source literal denotes. *)
Definition lit (s : string) : str :=
  default [] (utf8_decode ((fun a => Z.of_nat (Ascii.nat_of_ascii a)) <$> String.list_ascii_of_string s)).
Coercion lit : string >-> str.
Arguments lit : simpl never.

(** ** Searching, splitting, trimming *)

(** [str::split] with a character predicate. *)
Fixpoint split_pred (p : Z -> bool) (s : str) : list str :=
  match s with
  | [] => [[]]
  | c :: s =>
    if p c then [] :: split_pred p s
    else match split_pred p s with
         | w :: ws => (c :: w) :: ws
         | [] => [[c]]
         end
  end.

Definition is_empty (s : str) : bool := match s with [] => true | _ => false end.

(** [str::split_whitespace], [str::split_ascii_whitespace]. *)
Definition split_whitespace (s : str) : list str :=
  List.filter (fun w => negb (is_empty w)) (split_pred is_whitespace s).
Definition split_ascii_whitespace (s : str) : list str :=
  List.filter (fun w => negb (is_empty w)) (split_pred is_ascii_whitespace s).

(** [str::split_once] with a character. *)
Fixpoint split_once (d : Z) (s : str) : option (str * str) :=
  match s with
  | [] => None
  | c :: s =>
    if c =? d then Some ([], s)
    else '(k, v) ← split_once d s; Some (c :: k, v)
  end.

Fixpoint strip_prefix (p s : str) : option str :=
  match p, s with
  | [], _ => Some s
  | c :: p, d :: s => if c =? d then strip_prefix p s else None
  | _ :: _, [] => None
  end.

Definition strip_suffix (p s : str) : option str :=
  reverse <$> strip_prefix (reverse p) (reverse s).

Definition starts_with (p s : str) : bool := bool_decide (is_Some (strip_prefix p s)).
Definition ends_with (p s : str) : bool := bool_decide (is_Some (strip_suffix p s)).

(** [str::contains] with a string pattern. *)
Fixpoint contains (p s : str) : bool :=
  starts_with p s || match s with [] => false | _ :: s => contains p s end.

Fixpoint trim_start_matches (p : Z -> bool) (s : str) : str :=
  match s with
  | [] => []
  | c :: s' => if p c then trim_start_matches p s' else s
  end.
Definition trim_end_matches (p : Z -> bool) (s : str) : str :=
  reverse (trim_start_matches p (reverse s)).
Definition trim_matches (p : Z -> bool) (s : str) : str :=
  trim_end_matches p (trim_start_matches p s).
Definition trim (s : str) : str := trim_matches is_whitespace s.

(** [str::lines]: LF-terminated, a CR directly before the LF is dropped, a final
    unterminated line is kept as it is unless it is empty. *)
Definition strip_cr (l : str) : str := default l (strip_suffix [13] l).
Fixpoint lines_of (pieces : list str) : list str :=
  match pieces with
  | [] => []
  | [l] => if is_empty l then [] else [l]
  | l :: ps => strip_cr l :: lines_of ps
  end.
Definition lines (s : str) : list str := lines_of (split_pred (Z.eqb 10) s).

(** [slice::join]. *)
Fixpoint join (sep : str) (ws : list str) : str :=
  match ws with
  | [] => []
  | [w] => w
  | w :: ws => w ++ sep ++ join sep ws
  end.

(** Lexicographic order on strings: comparing scalar values is comparing the
    UTF-8 bytes ([Ord for str]). *)
Fixpoint str_leb (s t : str) : bool :=
  match s, t with
  | [], _ => true
  | _ :: _, [] => false
  | c :: s, d :: t => (c <? d) || ((c =? d) && str_leb s t)
  end.

(** ** Integers as text *)

Definition digit_value (radix c : Z) : option Z :=
  let d := if is_ascii_digit c then c - 48
           else if is_ascii_lowercase c then c - 87
           else if is_ascii_uppercase c then c - 55
           else radix in
  if d <? radix then Some d else None.

Fixpoint parse_digits (radix max acc : Z) (s : str) : option Z :=
  match s with
  | [] => Some acc
  | c :: s =>
    d ← digit_value radix c;
    if acc * radix + d <=? max then parse_digits radix max (acc * radix + d) s else None
  end.

(** [uN::from_str_radix] (and [str::parse::<uN>] at radix 10): an optional [+],
    then at least one digit; overflow is an error. *)
Definition parse_unsigned (radix max : Z) (s : str) : option Z :=
  match s with
  | [] => None
  | [c] => if (c =? 43) || (c =? 45) then None else parse_digits radix max 0 s
  | c :: s' => if c =? 43 then parse_digits radix max 0 s' else parse_digits radix max 0 s
  end.

Definition parse_u64 : str -> option Z := parse_unsigned 10 u64_max.
Definition parse_u32 : str -> option Z := parse_unsigned 10 u32_max.
Definition u32_from_str_radix_16 : str -> option Z := parse_unsigned 16 u32_max.

(** [str::parse::<i64>]. *)
Definition parse_i64 (s : str) : option Z :=
  match s with
  | [] => None
  | [c] => if (c =? 43) || (c =? 45) then None else parse_digits 10 i64_max 0 s
  | c :: s' =>
    if c =? 43 then parse_digits 10 i64_max 0 s'
    else if c =? 45 then Z.opp <$> parse_digits 10 (- i64_min) 0 s'
    else parse_digits 10 i64_max 0 s
  end.

(** [Display] and [LowerHex] of an unsigned integer; the fuel is the number of
    bits, at least the number of digits at any radix. *)
Definition digit_char (d : Z) : Z := if d <? 10 then 48 + d else 87 + d.
Fixpoint print_digits (fuel : nat) (radix n : Z) (acc : str) : str :=
  match fuel with
  | O => acc
  | S fuel =>
    let acc := digit_char (n mod radix) :: acc in
    if n / radix =? 0 then acc else print_digits fuel radix (n / radix) acc
  end.
Definition print_radix (radix n : Z) : str :=
  print_digits (S (Z.to_nat (Z.log2 n))) radix n [].
Definition to_string (n : Z) : str := print_radix 10 n.
Definition to_hex (n : Z) : str := print_radix 16 n.

(** ** Facts: UTF-8 *)

Section utf8.
Implicit Types (s : str) (bs : list Z).

Lemma char_len_bounds c : 1 <= char_len c <= 4.
Proof. unfold char_len. repeat case_match; lia. Qed.

Lemma len_nonneg s : 0 <= len s.
Proof. induction s as [|c s IH]; simpl; [lia|]. pose proof (char_len_bounds c). lia. Qed.

Lemma len_app s t : len (s ++ t) = len s + len t.
Proof. induction s; simpl; lia. Qed.

Lemma len_ge_length s : Z.of_nat (length s) <= len s.
Proof. induction s as [|c s IH]; simpl; [lia|]. pose proof (char_len_bounds c). lia. Qed.

Lemma len_nil_iff s : len s = 0 <-> s = [].
Proof.
  destruct s as [|c s]; simpl; [done|].
  pose proof (char_len_bounds c); pose proof (len_nonneg s). split; [lia|done].
Qed.

Lemma len_ascii s : Forall (fun c => is_ascii c = true) s -> len s = Z.of_nat (length s).
Proof.
  induction 1 as [|c s Hc _ IH]; simpl; [done|].
  rewrite IH. unfold is_ascii in Hc. unfold char_len. rewrite Hc. lia.
Qed.

Lemma utf8_encode_cons c s : utf8_encode (c :: s) = utf8_encode_char c ++ utf8_encode s.
Proof. reflexivity. Qed.

Lemma utf8_encode_length s : Z.of_nat (length (utf8_encode s)) = len s.
Proof.
  induction s as [|c s IH]; [done|].
  rewrite utf8_encode_cons, length_app, Nat2Z.inj_add, IH. simpl. f_equal.
  unfold utf8_encode_char, char_len. by repeat case_match.
Qed.

(** Decoding undoes encoding, in front of any further bytes. *)
Lemma utf8_decode_encode_char c bs :
  is_scalar c = true ->
  utf8_decode (utf8_encode_char c ++ bs) = cons c <$> utf8_decode bs.
Proof.
  intros Hc. unfold utf8_encode_char.
  assert (0 <= c <= 1114111 /\ (c <= 55295 \/ 57344 <= c)) as [Hr Hs].
  { revert Hc. unfold is_scalar.
    destruct (Z.leb_spec 0 c), (Z.leb_spec c 55295), (Z.leb_spec 57344 c),
      (Z.leb_spec c 1114111); simpl; (lia || discriminate). }
  assert (c mod 64 = c - 64 * (c / 64)) as -> by (rewrite Z.mod_eq; lia).
  assert ((c / 64) mod 64 = c / 64 - 64 * (c / 4096)) as ->
    by (rewrite Z.mod_eq, Z.div_div by lia; done).
  assert ((c / 4096) mod 64 = c / 4096 - 64 * (c / 262144)) as ->
    by (rewrite Z.mod_eq, Z.div_div by lia; done).
  pose proof (Z.div_mod c 64 ltac:(lia)); pose proof (Z.mod_pos_bound c 64 ltac:(lia)).
  pose proof (Z.div_mod (c / 64) 64 ltac:(lia)) as H64;
    pose proof (Z.mod_pos_bound (c / 64) 64 ltac:(lia)).
  rewrite Z.div_div in H64 by lia.
  pose proof (Z.div_mod (c / 4096) 64 ltac:(lia)) as H4096;
    pose proof (Z.mod_pos_bound (c / 4096) 64 ltac:(lia)).
  rewrite Z.div_div in H4096 by lia. change (64 * 64) with 4096 in *. change (4096 * 64) with 262144 in *.
  destruct (Z.ltb_spec c 128); [|destruct (Z.ltb_spec c 2048); [|destruct (Z.ltb_spec c 65536)]];
    cbn [app utf8_decode]; unfold is_continuation, is_scalar;
    repeat match goal with
    | |- context [?a <=? ?b] => destruct (Z.leb_spec a b); try lia
    | |- context [?a <? ?b] => destruct (Z.ltb_spec a b); try lia
    end; cbn [andb orb]; f_equal; f_equal; lia.
Qed.

Lemma utf8_decode_encode_app s bs :
  Forall (fun c => is_scalar c = true) s ->
  utf8_decode (utf8_encode s ++ bs) = app s <$> utf8_decode bs.
Proof.
  induction 1 as [|c s Hc _ IH].
  - simpl. by destruct (utf8_decode bs).
  - rewrite utf8_encode_cons, <-app_assoc, utf8_decode_encode_char, IH by done.
    by destruct (utf8_decode bs).
Qed.

Lemma utf8_decode_encode s :
  Forall (fun c => is_scalar c = true) s -> utf8_decode (utf8_encode s) = Some s.
Proof.
  intros Hs. pose proof (utf8_decode_encode_app s [] Hs) as H.
  rewrite app_nil_r in H. rewrite H. simpl. by rewrite app_nil_r.
Qed.

(** A decoded text has as many UTF-8 bytes as the input. *)
Lemma utf8_decode_len bs s : utf8_decode bs = Some s -> len s = Z.of_nat (length bs).
Proof.
  remember (length bs) as n eqn:Hn. revert bs s Hn.
  induction (lt_wf n) as [n _ IH]. intros bs s -> H.
  destruct bs as [|b1 t1]; simpl in H; [by simplify_eq|].
  destruct ((0 <=? b1) && (b1 <? 128)) eqn:E1.
  { destruct (utf8_decode t1) as [s'|] eqn:E; simplify_eq/=.
    apply andb_prop in E1 as [_ E1]. unfold char_len. rewrite E1.
    rewrite (IH (length t1) ltac:(simpl; lia) t1 s') by done. lia. }
  destruct t1 as [|b2 t2]; [done|].
  destruct ((194 <=? b1) && (b1 <=? 223)) eqn:E2.
  { destruct (is_continuation b2) eqn:Ec; [|done].
    destruct (utf8_decode t2) as [s'|] eqn:E; simplify_eq/=.
    rewrite (IH (length t2) ltac:(simpl; lia) t2 s') by done.
    unfold is_continuation in Ec. unfold char_len. repeat case_match; lia. }
  destruct t2 as [|b3 t3]; [done|].
  destruct ((224 <=? b1) && (b1 <=? 239)) eqn:E3.
  { case_match eqn:Ec; [|done].
    destruct (utf8_decode t3) as [s'|] eqn:E; simplify_eq/=.
    rewrite (IH (length t3) ltac:(simpl; lia) t3 s') by done.
    unfold is_continuation in Ec. unfold char_len. repeat case_match; lia. }
  destruct t3 as [|b4 t4]; [done|].
  case_match eqn:Ec; [|done].
  destruct (utf8_decode t4) as [s'|] eqn:E; simplify_eq/=.
  rewrite (IH (length t4) ltac:(simpl; lia) t4 s') by done.
  unfold is_continuation in Ec. unfold char_len. repeat case_match; lia.
Qed.
End utf8.

(** ** Facts: splitting and trimming *)

Section splitting.
Implicit Types (s t w k v : str) (p : Z -> bool).

(** No character of [s] satisfies [p]. *)
Definition none p s : Prop := Forall (fun c => p c = false) s.

Lemma none_app p s t : none p (s ++ t) <-> none p s /\ none p t.
Proof. apply Forall_app. Qed.

Lemma split_pred_none p s : none p s -> split_pred p s = [s].
Proof. induction 1 as [|c s Hc _ IH]; simpl; [done|]. by rewrite Hc, IH. Qed.

Lemma split_pred_cons p s : exists w ws, split_pred p s = w :: ws.
Proof. induction s as [|c s (w & ws & IH)]; simpl; [eauto|]. rewrite IH. case_match; eauto. Qed.

(** The piece before the first separator is split off. *)
Lemma split_pred_app p s d t :
  none p s -> p d = true -> split_pred p (s ++ d :: t) = s :: split_pred p t.
Proof.
  intros Hs Hd. induction Hs as [|c s Hc _ IH]; simpl; [by rewrite Hd|].
  by rewrite Hc, IH.
Qed.

Lemma split_pred_app_sep p s d t :
  p d = true -> split_pred p (s ++ d :: t) = split_pred p s ++ split_pred p t.
Proof.
  intros Hd. induction s as [|c s IH]; simpl; [by rewrite Hd|]. rewrite IH.
  destruct (p c); [done|]. by destruct (split_pred_cons p s) as (w & ws & ->).
Qed.

(** What follows the last separator is determined. *)
Lemma last_piece_inj p d s t s' t' :
  p d = true -> none p t -> none p t' -> s ++ d :: t = s' ++ d :: t' -> s = s' /\ t = t'.
Proof.
  intros Hd Ht Ht' E. assert (t = t') as <-.
  { apply (f_equal (split_pred p)) in E. rewrite !split_pred_app_sep, (split_pred_none p t), (split_pred_none p t') in E by done.
    by apply app_inj_tail in E as [_ E]. }
  split; [|done]. by apply app_inv_tail in E.
Qed.

Lemma split_whitespace_word w s :
  w <> [] -> none is_whitespace w ->
  split_whitespace (w ++ 32 :: s) = w :: split_whitespace s.
Proof.
  intros Hw Hn. unfold split_whitespace. rewrite split_pred_app by done.
  simpl. by destruct w.
Qed.

Lemma split_whitespace_single w :
  w <> [] -> none is_whitespace w -> split_whitespace w = [w].
Proof.
  intros Hw Hn. unfold split_whitespace. rewrite split_pred_none by done. by destruct w.
Qed.

Lemma split_whitespace_sep c s :
  is_whitespace c = true -> split_whitespace (c :: s) = split_whitespace s.
Proof. intros Hc. unfold split_whitespace. simpl. by rewrite Hc. Qed.

Lemma split_once_app d k v :
  none (fun c => c =? d) k -> split_once d (k ++ d :: v) = Some (k, v).
Proof.
  induction 1 as [|c k Hc _ IH]; simpl; [by rewrite Z.eqb_refl|]. by rewrite Hc, IH.
Qed.

Lemma split_once_Some d s k v :
  split_once d s = Some (k, v) -> s = k ++ d :: v /\ none (fun c => c =? d) k.
Proof.
  revert k. induction s as [|c s IH]; intros k H; simplify_eq/=.
  destruct (c =? d) eqn:E.
  - apply Z.eqb_eq in E as ->. simplify_eq. by split; [|constructor].
  - destruct (split_once d s) as [[k' v']|]; simplify_eq/=.
    destruct (IH k' eq_refl) as [-> ?]. by split; [|constructor].
Qed.

Lemma split_once_None d s : split_once d s = None <-> none (fun c => c =? d) s.
Proof.
  unfold none. induction s as [|c s IH]; simpl; [by split; [constructor|]|].
  rewrite Forall_cons. destruct (c =? d); [naive_solver|].
  destruct (split_once d s) as [[??]|]; naive_solver.
Qed.

Lemma strip_prefix_Some (p : str) s t : strip_prefix p s = Some t <-> s = p ++ t.
Proof.
  revert s. induction p as [|c p IH]; intros [|d s]; simpl; [naive_solver..|].
  destruct (Z.eqb_spec c d) as [->|]; [rewrite IH|]; naive_solver.
Qed.

Lemma strip_suffix_Some (p : str) s t : strip_suffix p s = Some t <-> s = t ++ p.
Proof.
  unfold strip_suffix. rewrite fmap_Some. setoid_rewrite strip_prefix_Some. split.
  - intros (x & Hx & ->). apply (f_equal reverse) in Hx.
    by rewrite reverse_involutive, reverse_app, reverse_involutive in Hx.
  - intros ->. exists (reverse t). by rewrite reverse_app, reverse_involutive.
Qed.

Lemma starts_with_spec (p : str) s : starts_with p s = true <-> exists t, s = p ++ t.
Proof.
  unfold starts_with. rewrite bool_decide_eq_true.
  split; intros [t Ht]; exists t; by apply strip_prefix_Some.
Qed.

Lemma ends_with_spec (p : str) s : ends_with p s = true <-> exists t, s = t ++ p.
Proof.
  unfold ends_with. rewrite bool_decide_eq_true.
  split; intros [t Ht]; exists t; by apply strip_suffix_Some.
Qed.

Lemma contains_spec (p : str) s : contains p s = true <-> exists u t, s = u ++ p ++ t.
Proof.
  induction s as [|c s IH]; simpl.
  - rewrite orb_false_r, starts_with_spec. split.
    + intros [t ?]. by exists [], t.
    + intros (u & t & H). destruct u; [by exists t|done].
  - rewrite orb_true_iff, starts_with_spec, IH. split.
    + intros [[t ->]|(u & t & ->)]; [by exists [], t|by exists (c :: u), t].
    + intros (u & t & H). destruct u as [|d u]; [left; by exists t|].
      right. simplify_eq/=. eauto.
Qed.

Lemma trim_start_matches_none p c s : p c = false -> trim_start_matches p (c :: s) = c :: s.
Proof. intros Hc. simpl. by rewrite Hc. Qed.

Lemma trim_start_matches_sep p c s :
  p c = true -> trim_start_matches p (c :: s) = trim_start_matches p s.
Proof. intros Hc. simpl. by rewrite Hc. Qed.

Lemma trim_end_matches_none p c s : p c = false -> trim_end_matches p (s ++ [c]) = s ++ [c].
Proof.
  intros Hc. unfold trim_end_matches.
  by rewrite reverse_snoc, trim_start_matches_none, <-reverse_snoc, reverse_involutive.
Qed.

Lemma trim_end_matches_sep p c s :
  p c = true -> trim_end_matches p (s ++ [c]) = trim_end_matches p s.
Proof.
  intros Hc. unfold trim_end_matches. by rewrite reverse_snoc, trim_start_matches_sep.
Qed.

Lemma none_reverse p s : none p s -> none p (reverse s).
Proof. unfold none. by rewrite Forall_reverse. Qed.

Lemma trim_matches_none p s : none p s -> trim_matches p s = s.
Proof.
  intros Hs. unfold trim_matches.
  assert (forall t, none p t -> trim_start_matches p t = t) as Hid.
  { intros [|c t] Ht; [done|]. inversion Ht. by apply trim_start_matches_none. }
  rewrite Hid by done. unfold trim_end_matches.
  by rewrite Hid, reverse_involutive by by apply none_reverse.
Qed.

(** Trimmed text neither starts nor ends with a trimmed character. *)
Lemma trim_start_matches_head p s c t : trim_start_matches p s = c :: t -> p c = false.
Proof. induction s as [|d s IH]; simpl; [done|]. case_match; naive_solver. Qed.

Lemma trim_start_matches_suffix p s : exists u, s = u ++ trim_start_matches p s.
Proof.
  induction s as [|c s [u IH]]; simpl; [by exists []|].
  case_match; [exists (c :: u); simpl; by f_equal|by exists []].
Qed.

Lemma lines_cons l s :
  none (Z.eqb 10) l -> lines (l ++ 10 :: s) = strip_cr l :: lines s.
Proof.
  intros Hl. unfold lines. rewrite split_pred_app by done.
  destruct (split_pred_cons (Z.eqb 10) s) as (w & ws & ->). done.
Qed.

Lemma lines_last l : l <> [] -> none (Z.eqb 10) l -> lines l = [l].
Proof.
  intros Hne Hl. unfold lines. rewrite split_pred_none by done. by destruct l.
Qed.

Lemma strip_cr_none l : none (Z.eqb 13) l -> strip_cr l = l.
Proof.
  intros Hl. unfold strip_cr. destruct (strip_suffix _ _) as [t|] eqn:E; [|done].
  apply strip_suffix_Some in E as ->. apply none_app in Hl as [_ Hl].
  inversion Hl; simplify_eq.
Qed.
End splitting.

(** ** Facts: integers as text *)

Section numbers.
Implicit Types (n m radix max acc : Z) (s t : str).

Lemma digit_value_char radix d :
  2 <= radix <= 16 -> 0 <= d < radix -> digit_value radix (digit_char d) = Some d.
Proof.
  intros Hr Hd. unfold digit_value, digit_char.
  destruct (Z.ltb_spec d 10).
  - assert (is_ascii_digit (48 + d) = true) as -> by (unfold is_ascii_digit; lia).
    replace (48 + d - 48) with d by lia. by rewrite (proj2 (Z.ltb_lt _ _)) by lia.
  - assert (is_ascii_digit (87 + d) = false) as -> by (unfold is_ascii_digit; lia).
    assert (is_ascii_lowercase (87 + d) = true) as -> by (unfold is_ascii_lowercase; lia).
    replace (87 + d - 87) with d by lia. by rewrite (proj2 (Z.ltb_lt _ _)) by lia.
Qed.

(** The characters [print_radix] produces. *)
Definition is_digit_char c : bool := is_ascii_digit c || ((97 <=? c) && (c <=? 102)).

Lemma digit_char_is_digit radix n :
  2 <= radix <= 16 -> is_digit_char (digit_char (n mod radix)) = true.
Proof.
  intros Hr. pose proof (Z.mod_pos_bound n radix ltac:(lia)).
  unfold is_digit_char, is_ascii_digit, digit_char. destruct (Z.ltb_spec (n mod radix) 10); lia.
Qed.

Lemma print_digits_acc fuel radix n (acc : str) :
  print_digits fuel radix n acc = print_digits fuel radix n [] ++ acc.
Proof.
  revert n acc. induction fuel as [|fuel IH]; intros n acc; simpl; [done|].
  case_match; [done|]. rewrite IH, (IH _ [_]). by rewrite <-app_assoc.
Qed.

Lemma parse_digits_app radix max acc s t :
  parse_digits radix max acc (s ++ t) =
    acc' ← parse_digits radix max acc s; parse_digits radix max acc' t.
Proof.
  revert acc. induction s as [|c s IH]; intros acc; simpl; [done|].
  destruct (digit_value radix c); simpl; [|done]. by case_match.
Qed.

Lemma parse_print_digits fuel radix max n :
  2 <= radix <= 16 -> 0 <= n <= max -> n < radix ^ Z.of_nat fuel -> (0 < fuel)%nat ->
  parse_digits radix max 0 (print_digits fuel radix n []) = Some n.
Proof.
  intros Hr. revert n. induction fuel as [|fuel IH]; intros n Hn Hf Hpos; [lia|].
  cbn [print_digits].
  pose proof (Z.div_mod n radix ltac:(lia)) as Hdm.
  pose proof (Z.mod_pos_bound n radix ltac:(lia)) as Hmod.
  pose proof (Z.div_pos n radix ltac:(lia) ltac:(lia)) as Hdiv.
  destruct (Z.eqb_spec (n / radix) 0) as [E|E].
  - simpl. rewrite digit_value_char by done. simpl.
    replace (n mod radix) with n by nia. by rewrite (proj2 (Z.leb_le _ _)) by lia.
  - rewrite print_digits_acc, parse_digits_app, IH.
    + simpl. rewrite digit_value_char by done. simpl.
      replace (n / radix * radix + n mod radix) with n by nia.
      by rewrite (proj2 (Z.leb_le _ _)) by lia.
    + nia.
    + rewrite Nat2Z.inj_succ, Z.pow_succ_r in Hf by lia.
      apply Z.div_lt_upper_bound; lia.
    + destruct fuel; [|lia]. change (Z.of_nat 1) with 1 in Hf. rewrite Z.pow_1_r in Hf.
      rewrite Z.div_small in E by lia. done.
Qed.

Lemma print_radix_fuel radix n :
  2 <= radix -> 0 <= n -> n < radix ^ Z.of_nat (S (Z.to_nat (Z.log2 n))).
Proof.
  intros Hr Hn. pose proof (Z.log2_nonneg n).
  rewrite Nat2Z.inj_succ, Z2Nat.id by done.
  destruct (Z.eq_dec n 0) as [->|]; [apply Z.pow_pos_nonneg; lia|].
  eapply Z.lt_le_trans; [apply Z.log2_spec; lia|]. apply Z.pow_le_mono_l; lia.
Qed.

Lemma print_radix_digits radix n :
  2 <= radix <= 16 -> Forall (fun c => is_digit_char c = true) (print_radix radix n).
Proof.
  intros Hr. unfold print_radix. generalize (S (Z.to_nat (Z.log2 n))) as fuel.
  intros fuel. revert n. induction fuel as [|fuel IH]; intros n; cbn [print_digits]; [done|].
  case_match; [by repeat constructor; apply digit_char_is_digit|].
  rewrite print_digits_acc, Forall_app. split; [done|].
  by repeat constructor; apply digit_char_is_digit.
Qed.

Lemma print_radix_nonempty radix n : print_radix radix n <> [].
Proof.
  unfold print_radix. cbn [print_digits]. case_match; [done|].
  rewrite print_digits_acc. by destruct (print_digits _ _ _ []).
Qed.

(** A digit is no separator of the texts parsed by the program. *)
Lemma print_radix_none p radix n :
  2 <= radix <= 16 -> (forall c, is_digit_char c = true -> p c = false) ->
  none p (print_radix radix n).
Proof. intros Hr Hp. eapply Forall_impl; [by apply print_radix_digits|]. simpl; eauto. Qed.

Lemma digit_not_whitespace c : is_digit_char c = true -> is_whitespace c = false.
Proof. unfold is_digit_char, is_ascii_digit, is_whitespace. lia. Qed.

(** [from_str_radix] inverts [Display]/[LowerHex]. *)
Lemma parse_unsigned_print radix max n :
  2 <= radix <= 16 -> 0 <= n <= max ->
  parse_unsigned radix max (print_radix radix n) = Some n.
Proof.
  intros Hr Hn.
  pose proof (print_radix_digits radix n Hr) as Hd.
  pose proof (print_radix_nonempty radix n) as Hne.
  pose proof (print_radix_fuel radix n ltac:(lia) ltac:(lia)) as Hf.
  pose proof (parse_print_digits _ radix max n Hr Hn Hf ltac:(lia)) as Hp.
  fold (print_radix radix n) in Hp.
  unfold parse_unsigned. destruct (print_radix radix n) as [|c [|d s]]; [done|..].
  - inversion_clear Hd as [|?? Hc _].
    unfold is_digit_char, is_ascii_digit in Hc.
    by replace ((c =? 43) || (c =? 45)) with false by lia.
  - inversion_clear Hd as [|?? Hc _].
    unfold is_digit_char, is_ascii_digit in Hc.
    by replace (c =? 43) with false by lia.
Qed.

(** Parsed integers fit their type. *)
Lemma digit_value_bounds radix c d : digit_value radix c = Some d -> d < radix.
Proof. unfold digit_value. intros H. repeat case_match; simplify_eq; lia. Qed.

Lemma digit_value_nonneg radix c d : 0 <= radix -> digit_value radix c = Some d -> 0 <= d.
Proof.
  unfold digit_value, is_ascii_digit, is_ascii_lowercase, is_ascii_uppercase.
  intros Hr H. repeat case_match; simplify_eq; lia.
Qed.

Lemma parse_digits_bounds radix max acc s n :
  0 <= radix -> 0 <= acc <= max -> parse_digits radix max acc s = Some n -> 0 <= n <= max.
Proof.
  intros Hr. revert acc. induction s as [|c s IH]; intros acc Hacc H; simpl in H.
  - by simplify_eq.
  - destruct (digit_value radix c) as [d|] eqn:Ed; simpl in H; [|done].
    pose proof (digit_value_nonneg _ _ _ Hr Ed).
    destruct (Z.leb_spec (acc * radix + d) max); [|done].
    eapply IH; [|done]. nia.
Qed.

Lemma parse_unsigned_bounds radix max s n :
  0 <= radix -> 0 <= max -> parse_unsigned radix max s = Some n -> 0 <= n <= max.
Proof.
  intros Hr Hm H. unfold parse_unsigned in H.
  repeat case_match; try discriminate;
    refine (parse_digits_bounds radix max 0 _ n Hr _ H); lia.
Qed.

Lemma parse_u64_bounds s n : parse_u64 s = Some n -> is_u64 n.
Proof. by apply parse_unsigned_bounds. Qed.

Lemma parse_u64_to_string n : is_u64 n -> parse_u64 (to_string n) = Some n.
Proof. intros. by apply parse_unsigned_print. Qed.
End numbers.

#[export] Hint Resolve print_radix_nonempty parse_u64_bounds : rpi.

(** ** Sanity checks on literals *)

Example lit_degree : lit "°C" = [176; 67].
Proof. reflexivity. Qed.

Example lines_example :
  lines (lit "a" ++ [13; 10; 10] ++ lit "b") = [lit "a"; []; lit "b"].
Proof. reflexivity. Qed.

Example trim_example : trim (lit "  throttled = 0X5  ") = lit "throttled = 0X5".
Proof. reflexivity. Qed.

Example print_example : to_hex 327685 = lit "50005".
Proof. reflexivity. Qed.

(** ** Space-separated words *)

Definition word (w : str) : Prop := w <> [] /\ none is_whitespace w.

(** Each word preceded by a space. *)
Definition spaced (ws : list str) : str := concat (cons 32 <$> ws).

Lemma spaced_cons w ws : spaced (w :: ws) = 32 :: w ++ spaced ws.
Proof. reflexivity. Qed.

Lemma split_whitespace_spaced_after w ws :
  word w -> Forall word ws -> split_whitespace (w ++ spaced ws) = w :: ws.
Proof.
  intros Hw Hws. revert w Hw. induction Hws as [|v ws Hv _ IH]; intros w [Hne Hn].
  - change (spaced []) with (@nil Z). rewrite app_nil_r. by apply split_whitespace_single.
  - rewrite spaced_cons, split_whitespace_word by done. by rewrite IH.
Qed.

Lemma split_whitespace_spaced ws : Forall word ws -> split_whitespace (spaced ws) = ws.
Proof.
  intros Hws. destruct Hws as [|w ws Hw Hws]; [done|].
  rewrite spaced_cons, split_whitespace_sep by done.
  by apply split_whitespace_spaced_after.
Qed.

Lemma word_to_string n : word (to_string n).
Proof.
  split; [apply print_radix_nonempty|]. apply print_radix_none; [lia|].
  apply digit_not_whitespace.
Qed.

Lemma whitespace_newline c : is_whitespace c = false -> (10 =? c) = false /\ (13 =? c) = false.
Proof. unfold is_whitespace. lia. Qed.

Lemma word_no_newline w : word w -> none (Z.eqb 10) w /\ none (Z.eqb 13) w.
Proof.
  intros [_ Hw]. split; (eapply Forall_impl; [exact Hw|]);
    intros c Hc; by apply whitespace_newline in Hc as [? ?].
Qed.

Lemma spaced_no_newline ws :
  Forall word ws -> none (Z.eqb 10) (spaced ws) /\ none (Z.eqb 13) (spaced ws).
Proof.
  induction 1 as [|w ws Hw _ [IH10 IH13]]; [by split; constructor|].
  rewrite spaced_cons. apply word_no_newline in Hw as [? ?].
  split; (constructor; [done|]); by apply none_app.
Qed.

#[export] Hint Resolve word_to_string : rpi.

(** ** Padding *)

Definition blank (s : str) : Prop := Forall (fun c => is_whitespace c = true) s.

Lemma trim_start_matches_app (p : Z -> bool) (pre s : str) :
  Forall (fun c => p c = true) pre -> trim_start_matches p (pre ++ s) = trim_start_matches p s.
Proof. induction 1 as [|c pre Hc _ IH]; simpl; [done|]. by rewrite Hc. Qed.

(** Text that neither starts nor ends with whitespace. *)
Definition trimmed (s : str) : Prop :=
  exists c s1 s2 d, s = c :: s1 /\ s = s2 ++ [d] /\ is_whitespace c = false /\ is_whitespace d = false.

Lemma trim_padded (pre s post : str) :
  blank pre -> blank post -> trimmed s -> trim (pre ++ s ++ post) = s.
Proof.
  intros Hpre Hpost (c & s1 & s2 & d & E1 & E2 & Hc & Hd). unfold trim, trim_matches.
  rewrite trim_start_matches_app by done.
  rewrite E1 at 1. simpl app. rewrite trim_start_matches_none by done.
  change (c :: s1 ++ post) with ((c :: s1) ++ post). rewrite <-E1, E2.
  unfold trim_end_matches. rewrite reverse_app, trim_start_matches_app by by apply Forall_reverse.
  by rewrite reverse_snoc, trim_start_matches_none, <-reverse_snoc, reverse_involutive.
Qed.

Lemma trim_trimmed (s : str) : trimmed s -> trim s = s.
Proof.
  intros Hs. pose proof (trim_padded [] s []) as H. rewrite app_nil_r in H. by apply H; [constructor..|].
Qed.

Lemma trimmed_word w : word w -> trimmed w.
Proof.
  intros [Hne Hn]. destruct w as [|c w]; [done|].
  destruct (exists_last Hne) as (s2 & d & E).
  exists c, w, s2, d. split_and!; [done|done| |].
  - by inversion Hn.
  - rewrite E in Hn. apply none_app in Hn as [_ Hn]. by inversion Hn.
Qed.

Lemma trimmed_app s t : trimmed s -> trimmed t -> forall m, trimmed (s ++ m ++ t).
Proof.
  intros (c & s1 & _ & _ & -> & _ & Hc & _) (_ & _ & t2 & d & _ & -> & _ & Hd) m.
  exists c, (s1 ++ m ++ t2 ++ [d]), ((c :: s1) ++ m ++ t2), d.
  split_and!; [done| |done|done]. by rewrite <-!app_assoc.
Qed.

Lemma split_whitespace_pad n s : split_whitespace (replicate n 32 ++ s) = split_whitespace s.
Proof. induction n; simpl; [done|]. by rewrite split_whitespace_sep. Qed.

(** ** Decimal digits *)

Lemma parse_digits_10_fold max acc s :
  Forall (fun c => is_ascii_digit c = true) s -> 0 <= acc ->
  parse_digits 10 max acc s = Some (fold_left (fun a c => a * 10 + (c - 48)) s acc)
  \/ parse_digits 10 max acc s = None.
Proof.
  intros Hs. revert acc. induction Hs as [|c s Hc _ IH]; intros acc Hacc; simpl; [by left|].
  unfold digit_value. rewrite Hc. unfold is_ascii_digit in Hc.
  destruct (Z.ltb_spec (c - 48) 10); [|lia]. simpl.
  destruct (acc * 10 + (c - 48) <=? max); [apply IH; lia|by right].
Qed.

Lemma to_string_digits n : 0 <= n -> Forall (fun c => is_ascii_digit c = true) (to_string n).
Proof.
  intros Hn. unfold to_string, print_radix. generalize (S (Z.to_nat (Z.log2 n))) as fuel.
  intros fuel. revert n Hn.
  assert (forall n, is_ascii_digit (digit_char (n mod 10)) = true) as Hd.
  { intros n. pose proof (Z.mod_pos_bound n 10 ltac:(lia)).
    unfold is_ascii_digit, digit_char. destruct (Z.ltb_spec (n mod 10) 10); lia. }
  induction fuel as [|fuel IH]; intros n Hn; cbn [print_digits]; [done|].
  case_match; [by repeat constructor|].
  rewrite print_digits_acc, Forall_app. split; [apply IH, Z.div_pos; lia|by repeat constructor].
Qed.

(** Reading the digits of [to_string n] gives [n] back, at any magnitude. *)
Lemma to_string_value n :
  0 <= n -> fold_left (fun a c => a * 10 + (c - 48)) (to_string n) 0 = n.
Proof.
  intros Hn. destruct (parse_digits_10_fold n 0 (to_string n)) as [H|H];
    [by apply to_string_digits|lia|..];
    pose proof (parse_print_digits _ 10 n n ltac:(lia) ltac:(lia)
                  (print_radix_fuel 10 n ltac:(lia) ltac:(lia)) ltac:(lia)) as Hp;
    change (parse_digits 10 n 0 (to_string n) = Some n) in Hp; congruence.
Qed.

(** ** Text files

    Lines, each with its line feed, before some rest. *)

Fixpoint terminated (ls : list str) (rest : str) : str :=
  match ls with [] => rest | l :: ls => l ++ 10 :: terminated ls rest end.

Lemma lines_terminated ls rest :
  Forall (none (Z.eqb 10)) ls -> lines (terminated ls rest) = (strip_cr <$> ls) ++ lines rest.
Proof. induction 1 as [|l ls Hl _ IH]; simpl; [done|]. by rewrite lines_cons, IH. Qed.

Lemma find_app_skip {A} (f : A -> bool) l1 l2 :
  Forall (fun a => f a = false) l1 -> List.find f (l1 ++ l2) = List.find f l2.
Proof. induction 1 as [|a l1 Ha _ IH]; simpl; [done|]. by rewrite Ha. Qed.
