(* ===== verification/RustFloat.v ===== *)
(** * Rust's [f64]

    IEEE 754 binary64 arithmetic on the Standard Library's [spec_float], at
    precision 53 and maximal exponent 1024, round to nearest even: the
    conversions, operations, comparisons and decimal parsing the program uses.
    The facts about them are in [RustFloatFacts]. *)

From Stdlib Require Export SpecFloat.
From S2P Require Import Prelude RustStr.

Local Open Scope Z_scope.

Definition f64 : Type := spec_float.

#[export] Instance f64_eq_dec : EqDecision f64.
Proof. unfold f64. solve_decision. Defined.

(** [z as f64] for an integer [z]. *)
Definition f64_of_Z (z : Z) : f64 := binary_normalize 53 1024 z 0 false.

Definition f64_add : f64 -> f64 -> f64 := SFadd 53 1024.
Definition f64_mul : f64 -> f64 -> f64 := SFmul 53 1024.
Definition f64_div : f64 -> f64 -> f64 := SFdiv 53 1024.

(** The [PartialOrd]/[PartialEq] operators: false on NaN, and [-0.0 == 0.0]. *)
Definition f64_ltb : f64 -> f64 -> bool := SFltb.
Definition f64_leb : f64 -> f64 -> bool := SFleb.
Definition f64_eqb : f64 -> f64 -> bool := SFeqb.

Arguments f64_of_Z : simpl never.
Arguments f64_add : simpl never.
Arguments f64_mul : simpl never.
Arguments f64_div : simpl never.

Definition f64_zero : f64 := S754_zero false.
Definition f64_one : f64 := f64_of_Z 1.

(** [f64::is_finite], [f64::is_sign_negative] (the sign of a NaN is not
    represented; the program tests it only after [is_finite]). *)
Definition is_finite (x : f64) : bool :=
  match x with S754_zero _ | S754_finite _ _ _ => true | _ => false end.
Definition is_sign_negative (x : f64) : bool :=
  match x with
  | S754_zero s | S754_infinity s | S754_finite s _ _ => s
  | S754_nan => false
  end.

(** [f64::clamp]. *)
Definition f64_clamp (x lo hi : f64) : f64 :=
  let x := if f64_ltb x lo then lo else x in
  if f64_ltb hi x then hi else x.

(** The integer part of a finite value, towards zero. *)
Definition f64_integer_part (x : f64) : Z :=
  match x with
  | S754_finite s m e =>
    cond_Zopp s (if 0 <=? e then Zpos m * 2 ^ e else Zpos m / 2 ^ (- e))
  | _ => 0
  end.

(** [f64::trunc]. *)
Definition f64_trunc (x : f64) : f64 :=
  match x with
  | S754_finite s m e =>
    if 0 <=? e then x
    else binary_normalize 53 1024 (f64_integer_part x) 0 s
  | _ => x
  end.

(** [f64::round]: to the nearest integer, halves away from zero. *)
Definition f64_round (x : f64) : f64 :=
  match x with
  | S754_finite s m e =>
    if 0 <=? e then x
    else binary_normalize 53 1024
           (cond_Zopp s ((Zpos m + 2 ^ (- e - 1)) / 2 ^ (- e))) 0 s
  | _ => x
  end.

(** [x as u64]: saturating, NaN to zero. *)
Definition f64_as_u64 (x : f64) : Z :=
  match x with
  | S754_nan => 0
  | S754_infinity s => if s then 0 else u64_max
  | _ => Z.min (Z.max (f64_integer_part x) 0) u64_max
  end.

(** [f64::powi] by repeated squaring, for exponents that fit the fuel. *)
Fixpoint f64_powi_go (fuel : nat) (a r : f64) (n : Z) : f64 :=
  match fuel with
  | O => r
  | S fuel =>
    let r := if Z.odd n then f64_mul r a else r in
    if n / 2 =? 0 then r else f64_powi_go fuel (f64_mul a a) r (n / 2)
  end.
Definition f64_powi (a : f64) (n : Z) : f64 := f64_powi_go 32 a f64_one n.

(** The value [± m * 10^e], correctly rounded. *)
Definition f64_of_decimal (s : bool) (m e : Z) : f64 :=
  if m =? 0 then S754_zero s
  else if 0 <=? e then binary_normalize 53 1024 (cond_Zopp s (m * 10 ^ e)) 0 s
  else let '(q, e', l) := SFdiv_core_binary 53 1024 m 0 (10 ^ (- e)) 0 in
       binary_round_aux 53 1024 s q e' l.

(** ** [str::parse::<f64>]

    An optional sign, then [inf], [infinity] or [nan] in any case, or digits
    with an optional point (at least one digit) and an optional exponent. *)

Fixpoint take_digits (s : str) : str * str :=
  match s with
  | c :: s' =>
    if is_ascii_digit c then let '(ds, rest) := take_digits s' in (c :: ds, rest) else ([], s)
  | [] => ([], [])
  end.

Definition digits_value (ds : str) : Z := fold_left (fun acc c => acc * 10 + (c - 48)) ds 0.

(** The exponent part: [e] or [E], an optional sign, at least one digit. *)
Definition parse_exponent (s : str) : option Z :=
  match s with
  | [] => Some 0
  | c :: s =>
    if (c =? 101) || (c =? 69) then
      let '(neg, s) := match s with
                       | d :: s' => if d =? 45 then (true, s')
                                    else if d =? 43 then (false, s') else (false, s)
                       | [] => (false, s)
                       end in
      match take_digits s with
      | (c0 :: ds, []) => Some (cond_Zopp neg (digits_value (c0 :: ds)))
      | _ => None
      end
    else None
  end.

Definition parse_decimal (neg : bool) (s : str) : option f64 :=
  let '(ip, rest) := take_digits s in
  let '(fp, rest) := match rest with
                     | c :: rest' => if c =? 46 then take_digits rest' else ([], rest)
                     | [] => ([], [])
                     end in
  if is_empty (ip ++ fp) then None
  else e ← parse_exponent rest;
       Some (f64_of_decimal neg (digits_value (ip ++ fp)) (e - Z.of_nat (length fp))).

Definition parse_special (neg : bool) (s : str) : option f64 :=
  let s := to_ascii_lowercase <$> s in
  if bool_decide (s = lit "inf") || bool_decide (s = lit "infinity")
  then Some (S754_infinity neg)
  else if bool_decide (s = lit "nan") then Some S754_nan else None.

Definition parse_f64 (s : str) : option f64 :=
  match s with
  | [] => None
  | c :: s' =>
    let '(neg, s) := if c =? 45 then (true, s') else if c =? 43 then (false, s') else (false, s) in
    if is_empty s then None
    else match parse_decimal neg s with
         | Some x => Some x
         | None => parse_special neg s
         end
  end.

(** Shorthand for the decimal literals of the source. *)
Definition f64_lit (s : string) : f64 := default S754_nan (parse_f64 s).

(** ** [Duration::from_secs_f64]

    In nanoseconds: the exact value times [10^9] rounded half to even.  [None]
    where the standard library panics (negative, not finite, or more than
    [u64::MAX] seconds). *)

(** [p / q] rounded half to even. *)
Definition div_half_even (p q : Z) : Z :=
  let d := p / q in
  match Z.compare (2 * (p mod q)) q with
  | Lt => d
  | Gt => d + 1
  | Eq => if Z.even d then d else d + 1
  end.

Definition duration_from_secs_f64 (x : f64) : option Z :=
  match x with
  | S754_zero _ => Some 0
  | S754_finite false m e =>
    let ns := if 0 <=? e then Zpos m * 2 ^ e * nanos_per_sec
              else div_half_even (Zpos m * nanos_per_sec) (2 ^ (- e)) in
    if ns <? 2 ^ 64 * nanos_per_sec then Some ns else None
  | _ => None
  end.

(** ** Sanity checks against the source's own test vectors *)

Example parse_f64_half : parse_f64 (lit "0.25") = Some (S754_finite false (2 ^ 52) (-54)).
Proof. reflexivity. Qed.
Example parse_f64_neg_zero : parse_f64 (lit "-0.0") = Some (S754_zero true).
Proof. reflexivity. Qed.
Example parse_f64_nan : parse_f64 (lit "NaN") = Some S754_nan.
Proof. reflexivity. Qed.
Example parse_f64_dot : parse_f64 (lit ".") = None /\ parse_f64 (lit "e5") = None.
Proof. split; reflexivity. Qed.
Example parse_f64_scaled : parse_f64 (lit "49875e-3") = parse_f64 (lit "49.875").
Proof. reflexivity. Qed.
Example duration_example : duration_from_secs_f64 (f64_lit "1.6") = Some 1600000000.
Proof. reflexivity. Qed.
