(* ===== verification/RustFloatFacts.v ===== *)
(** * Facts about [f64] rounding

    The program's percentages, delays and roundings are compositions of
    correctly rounded operations.  This file gives the one lemma they all need:
    a correctly rounded result stays between any two representable values that
    bracket the exact value ([round_aux_between], and its instances for the
    conversion from integers, multiplication, addition and division).  Values
    are compared through [V], the exact value of a non-negative finite float in
    units of [2^-3000], an integer. *)

From S2P Require Import Prelude RustStr RustFloat.

Local Open Scope Z_scope.

(** ** Values *)

Definition sv (m e : Z) : Z := m * 2 ^ (e + 3000).

Definition V (x : f64) : Z :=
  match x with S754_finite _ m e => sv (Zpos m) e | _ => 0 end.

Definition canonical (m : positive) (e : Z) : Prop :=
  e = fexp 53 1024 (Zpos (digits2_pos m) + e) /\ e <= 971.

(** Non-negative, finite and canonically represented. *)
Definition nnf (x : f64) : Prop :=
  match x with
  | S754_zero s => s = false
  | S754_finite s m e => s = false /\ canonical m e
  | _ => False
  end.

Lemma fexp_eq e : fexp 53 1024 e = Z.max (e - 53) (-1074).
Proof. reflexivity. Qed.

Lemma digits2_pos_bounds p : 2 ^ (Zpos (digits2_pos p) - 1) <= Zpos p < 2 ^ Zpos (digits2_pos p).
Proof.
  induction p as [p IH|p IH|]; simpl digits2_pos; [..|simpl; lia].
  all: rewrite Pos2Z.inj_succ; unfold Z.succ; rewrite Z.add_simpl_r, Z.pow_add_r by lia;
    assert (2 ^ Zpos (digits2_pos p) = 2 * 2 ^ (Zpos (digits2_pos p) - 1)) as E
      by (rewrite <-Z.pow_succ_r by lia; f_equal; lia);
    change (2 ^ 1) with 2; lia.
Qed.

Lemma digits2_unique p d : 2 ^ (d - 1) <= Zpos p < 2 ^ d -> 0 < d -> Zpos (digits2_pos p) = d.
Proof.
  intros [Hl Hu] Hd. destruct (digits2_pos_bounds p) as [Hl' Hu'].
  assert (d - 1 < Zpos (digits2_pos p)) by (apply (Z.pow_lt_mono_r_iff 2); lia).
  assert (Zpos (digits2_pos p) - 1 < d) by (apply (Z.pow_lt_mono_r_iff 2); lia).
  lia.
Qed.

Lemma sv_shift m e n : 0 <= n -> -3000 <= e -> sv (m * 2 ^ n) e = sv m (e + n).
Proof.
  intros. unfold sv. rewrite <-Z.mul_assoc, <-Z.pow_add_r by lia. do 2 f_equal. lia.
Qed.

Lemma sv_lt_mono m m' e : -3000 <= e -> m < m' <-> sv m e < sv m' e.
Proof. intros. unfold sv. apply Z.mul_lt_mono_pos_r. apply Z.pow_pos_nonneg; lia. Qed.

Lemma sv_le_mono m m' e : -3000 <= e -> m <= m' <-> sv m e <= sv m' e.
Proof. intros. unfold sv. apply Z.mul_le_mono_pos_r. apply Z.pow_pos_nonneg; lia. Qed.

Lemma sv_pow_lt a b : -3000 <= a -> a < b <-> sv 1 a < sv 1 b.
Proof.
  intros. unfold sv. rewrite !Z.mul_1_l. split; intros H1.
  - apply Z.pow_lt_mono_r; lia.
  - destruct (Z.lt_ge_cases b (-3000)).
    + rewrite (Z.pow_neg_r 2 (b + 3000)) in H1 by lia.
      pose proof (Z.pow_pos_nonneg 2 (a + 3000)); lia.
    + apply (Z.pow_lt_mono_r_iff 2) in H1; lia.
Qed.

Lemma sv_pow_mono a b : -3000 <= a -> a < b -> sv 1 a < sv 1 b.
Proof. intros. by rewrite <-sv_pow_lt. Qed.

(** A canonical value lies in its binade. *)
Lemma canonical_lt m e : canonical m e -> -1074 <= e /\ sv (Zpos m) e < sv 1 (e + 53).
Proof.
  intros [He _]. rewrite fexp_eq in He.
  pose proof (digits2_pos_bounds m) as [_ Hm].
  split; [lia|]. replace (e + 53) with (e + 53) by lia.
  rewrite <-(sv_shift 1 e 53) by lia. apply sv_lt_mono; [lia|].
  eapply Z.lt_le_trans; [exact Hm|]. rewrite Z.mul_1_l. apply Z.pow_le_mono_r; lia.
Qed.

Lemma V_nonneg x : nnf x -> 0 <= V x.
Proof.
  destruct x as [?|?| |? m e]; simpl; [lia..|]. intros [_ Hc].
  unfold sv. apply Z.mul_nonneg_nonneg; [lia|]. apply Z.pow_nonneg; lia.
Qed.

Lemma V_lt_max x : nnf x -> V x < sv 1 1024.
Proof.
  destruct x as [?|?| |? m e]; simpl; [intros; unfold sv; lia..|].
  intros [_ Hc]. pose proof (canonical_lt m e Hc) as [? Hlt]. destruct Hc as [_ ?].
  eapply Z.lt_le_trans; [exact Hlt|].
  destruct (Z.eq_dec (e + 53) 1024) as [->|]; [lia|].
  apply Z.lt_le_incl, sv_pow_mono; lia.
Qed.

(** A float not below a binade is a multiple of the binade's unit. *)
Lemma V_multiple x e : nnf x -> -1074 <= e -> e = -1074 \/ sv 1 (e + 52) <= V x ->
  exists k, V x = sv k e.
Proof.
  intros Hx He Hb. destruct x as [?|?| |s m ex]; simpl in *; try done.
  - exists 0. done.
  - destruct Hx as [_ Hc]. pose proof (canonical_lt m ex Hc) as [? Hlt].
    assert (e <= ex) as Hle.
    { destruct Hb as [->|Hb]; [lia|].
      assert (sv 1 (e + 52) < sv 1 (ex + 53)) as H1 by lia.
      rewrite <-sv_pow_lt in H1 by lia. lia. }
    exists (Zpos m * 2 ^ (ex - e)). rewrite sv_shift by lia. f_equal. lia.
Qed.

(** ** Shifting with sticky bits *)

Definition inexact (r : shr_record) : bool := shr_r r || shr_s r.

Definition shifted (n : Z) (x y : shr_record) : Prop :=
  shr_m y = shr_m x / 2 ^ n
  /\ (inexact y = false <-> inexact x = false /\ shr_m x mod 2 ^ n = 0).

Lemma shifted_trans a b x y z :
  0 <= a -> 0 <= b -> shifted a x y -> shifted b y z -> shifted (a + b) x z.
Proof.
  intros Ha Hb [Hm Hi] [Hm' Hi'].
  pose proof (Z.pow_pos_nonneg 2 a ltac:(lia) Ha). pose proof (Z.pow_pos_nonneg 2 b ltac:(lia) Hb).
  split.
  - rewrite Hm', Hm, Z.div_div, Z.pow_add_r by lia. done.
  - rewrite Hi', Hi, Hm, Z.pow_add_r by lia.
    rewrite Z.rem_mul_r by lia.
    pose proof (Z.mod_pos_bound (shr_m x) (2 ^ a) ltac:(lia)).
    pose proof (Z.mod_pos_bound (shr_m x / 2 ^ a) (2 ^ b) ltac:(lia)).
    split; [intros [[-> Hx] Hy]|intros [-> Hx]]; [rewrite Hx, Hy|]; split_and!; nia.
Qed.

Lemma shifted_1 x : 0 <= shr_m x -> shifted 1 x (shr_1 x).
Proof.
  destruct x as [[|[p|p|]|] r s]; simpl; intros Hx; try lia; unfold shifted, inexact; simpl.
  - split; [done|]. by destruct r, s; simpl; naive_solver.
  - split; [by rewrite Pos2Z.inj_xI, Z.mul_comm, Z.div_add_l by lia|].
    rewrite Pos2Z.inj_xI. change (Z.pow_pos 2 1) with 2.
    rewrite Z.add_comm, Z.mul_comm, Z.mod_add by lia. naive_solver.
  - split; [by rewrite Pos2Z.inj_xO, Z.mul_comm, Z.div_mul by lia|].
    rewrite Pos2Z.inj_xO. change (Z.pow_pos 2 1) with 2.
    rewrite Z.mul_comm, Z.mod_mul by lia. by destruct r, s; simpl; naive_solver.
  - split; [done|]. naive_solver.
Qed.

Lemma shifted_iter n x : 0 <= shr_m x -> shifted (Zpos n) x (iter_pos shr_1 n x).
Proof.
  assert (forall n (y : shr_record), 0 <= shr_m y -> 0 <= shr_m y / 2 ^ Zpos n) as Hpos.
  { intros n' y Hy. apply Z.div_pos; [done|]. apply Z.pow_pos_nonneg; lia. }
  revert x. induction n as [n IH|n IH|]; intros x Hx; simpl iter_pos.
  - pose proof (shifted_1 x Hx) as H1.
    assert (0 <= shr_m (shr_1 x)) as Hx1 by (destruct H1 as [-> _]; by apply Hpos).
    pose proof (IH _ Hx1) as H2.
    assert (0 <= shr_m (iter_pos shr_1 n (shr_1 x))) as Hx2 by (destruct H2 as [-> _]; by apply Hpos).
    replace (Zpos n~1) with (1 + (Zpos n + Zpos n)) by lia.
    eapply shifted_trans; [lia..|done|]. eapply shifted_trans; [lia..|done|]. by apply IH.
  - pose proof (IH _ Hx) as H2.
    assert (0 <= shr_m (iter_pos shr_1 n x)) as Hx2 by (destruct H2 as [-> _]; by apply Hpos).
    replace (Zpos n~0) with (Zpos n + Zpos n) by lia.
    eapply shifted_trans; [lia..|done|]. by apply IH.
  - by apply shifted_1.
Qed.

(** ** Rounding *)

#[export] Instance location_eq_dec : EqDecision location.
Proof. solve_decision. Defined.

Lemma inexact_record m l : inexact (shr_record_of_loc m l) = false <-> l = loc_Exact.
Proof. destruct l as [|[]]; unfold inexact; simpl; naive_solver. Qed.

Lemma shr_m_record m l : shr_m (shr_record_of_loc m l) = m.
Proof. by destruct l as [|[]]. Qed.

(** Shifting to the exponent of the format. *)
Lemma shr_fexp_spec m e l :
  0 <= m ->
  let e1 := Z.max e (fexp 53 1024 (Zdigits2 m + e)) in
  exists r, shr_fexp 53 1024 m e l = (r, e1) /\ shifted (e1 - e) (shr_record_of_loc m l) r.
Proof.
  intros Hm e1. unfold shr_fexp, shr.
  set (f := fexp 53 1024 (Zdigits2 m + e)) in *.
  assert (forall r, shifted 0 r r) as Hrefl.
  { intros r. split; [by rewrite Z.pow_0_r, Z.div_1_r|]. rewrite Z.pow_0_r, Z.mod_1_r. naive_solver. }
  destruct (f - e) as [|p|p] eqn:E.
  - exists (shr_record_of_loc m l). replace e1 with e by lia. by rewrite Z.sub_diag.
  - eexists. split; [f_equal; lia|]. replace (e1 - e) with (Zpos p) by lia.
    apply shifted_iter. by rewrite shr_m_record.
  - exists (shr_record_of_loc m l). replace e1 with e by lia. by rewrite Z.sub_diag.
Qed.

Lemma round_nearest_even_cases r :
  let m2 := round_nearest_even (shr_m r) (loc_of_shr_record r) in
  m2 = shr_m r \/ m2 = shr_m r + 1 /\ inexact r = true.
Proof. destruct r as [m [] []]; simpl; unfold inexact; simpl; repeat case_match; auto. Qed.

Lemma Zdigits2_lt m k : 0 <= k -> 0 <= m < 2 ^ k -> Zdigits2 m <= k.
Proof.
  intros Hk Hm. destruct m as [|p|p]; simpl; [lia| |lia].
  destruct (digits2_pos_bounds p) as [Hl _].
  assert (Zpos (digits2_pos p) - 1 < k) by (apply (Z.pow_lt_mono_r_iff 2); lia). lia.
Qed.

(** The last step of rounding: a mantissa of at most 53 bits, or exactly
    [2^53], is representable unless it overflows. *)
Lemma round_pack m2 e1 :
  0 <= m2 <= 2 ^ 53 -> -1074 <= e1 -> e1 = -1074 \/ 2 ^ 52 <= m2 ->
  let r := (let '(mrs, e) := shr_fexp 53 1024 m2 e1 loc_Exact in
            match shr_m mrs with
            | Z0 => S754_zero false
            | Zpos m => if e <=? 1024 - 53 then S754_finite false m e else S754_infinity false
            | Zneg _ => S754_nan
            end) in
  (sv m2 e1 < sv 1 1024 -> nnf r /\ V r = sv m2 e1)
  /\ (nnf r -> sv m2 e1 < sv 1 1024).
Proof.
  intros Hm He Hn r.
  destruct (shr_fexp_spec m2 e1 loc_Exact) as (y & Hy & Hs); [lia|].
  subst r. rewrite Hy. destruct Hs as [Hsm _]. rewrite shr_m_record in Hsm.
  destruct (Z.eq_dec m2 (2 ^ 53)) as [->|Hne].
  - (* carry out of the mantissa *)
    replace (Zdigits2 (2 ^ 53)) with 54 in * by done. rewrite fexp_eq in *.
    replace (Z.max e1 _) with (e1 + 1) in * by lia.
    replace (e1 + 1 - e1) with 1 in * by lia.
    replace (2 ^ 53 / 2 ^ 1) with (2 ^ 52) in * by done. rewrite Hsm.
    change (2 ^ 52) with (Zpos (2 ^ 52)) at 1 2 3.
    assert (sv (2 ^ 53) e1 = sv 1 (e1 + 53)) as Hv
      by (rewrite <-(sv_shift 1 e1 53) by lia; done).
    assert (canonical (2 ^ 52) (e1 + 1) <-> e1 + 1 <= 971) as Hc.
    { unfold canonical. change (Zpos (digits2_pos (2 ^ 52))) with 53. rewrite fexp_eq. lia. }
    rewrite Hv. replace (1024 - 53) with 971 by lia.
    destruct (Z.leb_spec (e1 + 1) 971) as [Hle|Hgt]; simpl.
    + rewrite Hc. split; [|intros _; apply sv_pow_mono; lia].
      intros _. split; [done|].
      replace (Zpos (2 ^ 52)) with (1 * 2 ^ 52) by done. rewrite sv_shift by lia. f_equal; lia.
    + split; [|done]. intros Hlt. rewrite <-sv_pow_lt in Hlt by lia. lia.
  - assert (Zdigits2 m2 <= 53) as Hd by (apply Zdigits2_lt; lia).
    rewrite fexp_eq in *. replace (Z.max e1 _) with e1 in * by lia.
    rewrite Z.sub_diag, Z.pow_0_r, Z.div_1_r in Hsm. rewrite Hsm.
    destruct m2 as [|p|p]; [|..]; [|clear Hy|lia].
    + simpl. split; [done|]. intros _. unfold sv. rewrite Z.mul_0_l.
      apply Z.mul_pos_pos; [lia|]. apply Z.pow_pos_nonneg; lia.
    + assert (e1 = -1074 \/ Zpos (digits2_pos p) = 53) as Hdig.
      { destruct Hn as [->|Hn]; [by left|right]. apply digits2_unique; [|lia].
        simpl in *. lia. }
      assert (canonical p e1 <-> e1 <= 971) as Hc.
      { unfold canonical. rewrite fexp_eq. simpl in Hd. lia. }
      replace (1024 - 53) with 971 by lia.
      destruct (Z.leb_spec e1 971) as [Hle|Hgt]; simpl.
      * rewrite Hc. split; [done|]. intros _.
        apply (V_lt_max (S754_finite false p e1)). simpl. by rewrite Hc.
      * split; [|done]. intros Hlt. exfalso.
        assert (sv 1 (e1 + 52) <= sv (Zpos p) e1) as Hge.
        { rewrite <-(sv_shift 1 e1 52) by lia. apply sv_le_mono; lia. }
        assert (sv 1 (e1 + 52) < sv 1 1024) as Hlt' by lia.
        rewrite <-sv_pow_lt in Hlt' by lia. lia.
Qed.

Section between.
Context (mx ex : Z) (lx : location).
Context (Hmx : 0 <= mx) (Hex : -2500 <= ex).
Context (Hfexp : ex <= fexp 53 1024 (Zdigits2 mx + ex)).

Let e1 := fexp 53 1024 (Zdigits2 mx + ex).
Let m1 := mx / 2 ^ (e1 - ex).

Lemma Zdigits2_bounds : 0 < mx -> 2 ^ (Zdigits2 mx - 1) <= mx < 2 ^ Zdigits2 mx /\ 0 < Zdigits2 mx.
Proof. destruct mx as [|p|p]; try lia. intros _. split; [apply digits2_pos_bounds|done]. Qed.

Lemma floor_facts :
  -1074 <= e1 /\ 0 <= m1 < 2 ^ 53 /\ (e1 = -1074 \/ 2 ^ 52 <= m1)
  /\ sv m1 e1 <= sv mx ex /\ (mx mod 2 ^ (e1 - ex) <> 0 -> sv m1 e1 < sv mx ex).
Proof.
  assert (0 < 2 ^ (e1 - ex)) as Hp by (apply Z.pow_pos_nonneg; lia).
  pose proof (Z.div_mod mx (2 ^ (e1 - ex)) ltac:(lia)) as Hdm.
  pose proof (Z.mod_pos_bound mx (2 ^ (e1 - ex)) Hp) as Hmod. fold m1 in Hdm.
  assert (0 <= m1) by (apply Z.div_pos; lia).
  assert (e1 = Z.max (Zdigits2 mx + ex - 53) (-1074)) as He1 by reflexivity.
  assert (sv m1 e1 = m1 * 2 ^ (e1 - ex) * 2 ^ (ex + 3000)) as Hsv.
  { unfold sv. rewrite <-Z.mul_assoc, <-Z.pow_add_r by lia. do 2 f_equal. lia. }
  assert (0 < 2 ^ (ex + 3000)) by (apply Z.pow_pos_nonneg; lia).
  split_and!.
  - lia.
  - lia.
  - destruct (Z.eq_dec mx 0) as [->|]; [unfold m1; rewrite Z.div_0_l; lia|].
    destruct Zdigits2_bounds as [[_ Hu] _]; [lia|].
    apply Z.div_lt_upper_bound; [done|].
    eapply Z.lt_le_trans; [exact Hu|]. rewrite <-Z.pow_add_r by lia.
    apply Z.pow_le_mono_r; lia.
  - destruct (Z.eq_dec e1 (-1074)) as [|Hne]; [by left|right].
    destruct (Z.eq_dec mx 0) as [E|]; [simpl in He1; rewrite E in He1; simpl in He1; lia|].
    destruct Zdigits2_bounds as [[Hl _] ?]; [lia|].
    apply Z.div_le_lower_bound; [done|].
    rewrite <-Z.pow_add_r by lia. etrans; [|exact Hl]. apply Z.pow_le_mono_r; lia.
  - rewrite Hsv. unfold sv. nia.
  - intros ?. rewrite Hsv. unfold sv. nia.
Qed.

(** A correctly rounded value stays between representable values: the exact
    value is [mx * 2^ex], or lies strictly above it and below the next one
    when [lx] is inexact. *)
Lemma round_aux_between lo hi :
  nnf lo -> nnf hi -> V lo < sv (mx + 1) ex -> sv mx ex <= V hi -> (lx <> loc_Exact -> sv mx ex < V hi) ->
  let r := binary_round_aux 53 1024 false mx ex lx in
  nnf r /\ V lo <= V r <= V hi.
Proof.
  intros Hlo Hhi Hl Hu Hstrict r.
  destruct floor_facts as (He1 & Hm1 & Hn & Hfl & Hfs).
  destruct (shr_fexp_spec mx ex lx) as (y & Hy & Hs); [done|].
  replace (Z.max ex (fexp 53 1024 (Zdigits2 mx + ex))) with e1 in * by lia.
  destruct Hs as [Hsm Hsi]. rewrite shr_m_record in Hsm, Hsi. fold m1 in Hsm.
  rewrite inexact_record in Hsi.
  subst r. unfold binary_round_aux. rewrite Hy.
  set (m2 := round_nearest_even (shr_m y) (loc_of_shr_record y)).
  assert (m2 = m1 \/ m2 = m1 + 1 /\ sv m1 e1 < V hi) as Hm2.
  { destruct (round_nearest_even_cases y) as [E|[E Hi]]; fold m2 in E; rewrite Hsm in E; [by left|].
    right. split; [done|].
    destruct (decide (lx = loc_Exact)) as [Hlx|Hlx]; [|specialize (Hstrict Hlx); lia].
    assert (mx mod 2 ^ (e1 - ex) <> 0) as Hmod by (intros Hmod; rewrite (proj2 Hsi) in Hi; done).
    specialize (Hfs Hmod). lia. }
  assert (sv m2 e1 <= V hi) as Hle.
  { destruct Hm2 as [->|[-> Hlt]]; [lia|].
    destruct (V_multiple hi e1 Hhi He1) as [k Hk].
    { destruct Hn as [->|Hn]; [by left|right].
      rewrite <-(sv_shift 1 e1 52) by lia.
      apply (sv_le_mono _ _ e1) in Hn; [|lia]. rewrite Z.mul_1_l. lia. }
    rewrite Hk in *. apply sv_le_mono; [lia|]. apply sv_lt_mono in Hlt; lia. }
  assert (V lo <= sv m2 e1) as Hge.
  { trans (sv m1 e1); [|apply sv_le_mono; lia].
    assert (e1 = -1074 \/ sv 1 (e1 + 52) <= V lo \/ V lo < sv m1 e1) as Hcase.
    { destruct Hn as [->|Hn]; [by left|right].
      rewrite <-(sv_shift 1 e1 52) by lia. rewrite Z.mul_1_l.
      apply (sv_le_mono _ _ e1) in Hn; lia. }
    assert (e1 = -1074 \/ sv 1 (e1 + 52) <= V lo -> V lo <= sv m1 e1) as Hmult; [|destruct Hcase as [?|[?|?]]; auto; lia].
    intros Hb. destruct (V_multiple lo e1 Hlo He1 Hb) as [k Hk]. rewrite Hk in *.
    apply sv_le_mono; [lia|].
    assert (0 < 2 ^ (e1 - ex)) by (apply Z.pow_pos_nonneg; lia).
    apply Z.div_le_lower_bound; [done|].
    unfold sv in Hl.
    replace (2 ^ (e1 + 3000)) with (2 ^ (e1 - ex) * 2 ^ (ex + 3000)) in Hl
      by (rewrite <-Z.pow_add_r by lia; f_equal; lia).
    assert (0 < 2 ^ (ex + 3000)) by (apply Z.pow_pos_nonneg; lia). nia. }
  pose proof (V_lt_max hi Hhi) as Hmax.
  destruct (round_pack m2 e1) as [Hpack _]; [lia|done|destruct Hm2 as [->|[-> _]]; lia|].
  destruct Hpack as [Hnn HV]; [lia|].
  rewrite HV. split; [exact Hnn|lia].
Qed.
End between.

Lemma sv_succ m e : -3000 <= e -> sv m e < sv (m + 1) e.
Proof. intros. apply sv_lt_mono; lia. Qed.

Lemma Zdigits2_shift p n : Zdigits2 (Zpos (Pos.iter xO p n)) = Zdigits2 (Zpos p) + Zpos n.
Proof.
  simpl. induction n as [|n IH] using Pos.peano_ind; simpl; [by rewrite Pos2Z.inj_succ|].
  rewrite Pos.iter_succ. simpl. rewrite !Pos2Z.inj_succ, IH. lia.
Qed.

Lemma iter_xO p n : Zpos (Pos.iter xO p n) = Zpos p * 2 ^ Zpos n.
Proof.
  induction n as [|n IH] using Pos.peano_ind; simpl; [lia|].
  rewrite Pos.iter_succ, Pos2Z.inj_succ, Z.pow_succ_r by lia. rewrite Pos2Z.inj_xO, IH. lia.
Qed.

(** Conversion of an integer, or of a sum aligned at [e]. *)
Lemma binary_normalize_between m e lo hi :
  0 <= m -> -2500 <= e -> nnf lo -> nnf hi -> V lo <= sv m e <= V hi ->
  let r := binary_normalize 53 1024 m e false in nnf r /\ V lo <= V r <= V hi.
Proof.
  intros Hm He Hlo Hhi [Hl Hu]. destruct m as [|p|p]; simpl; [|..|lia].
  { unfold sv in *. simpl in *. lia. }
  unfold binary_round, shl_align.
  set (f := fexp 53 1024 (Zpos (digits2_pos p) + e)).
  assert (f = Z.max (Zpos (digits2_pos p) + e - 53) (-1074)) as Hf by reflexivity.
  destruct (f - e) as [|d|d] eqn:Ed; simpl;
    apply round_aux_between; try done; try lia;
    try (pose proof (sv_succ (Zpos p) e); lia).
  - change (e <= f). lia.
  - change (e <= f). lia.
  - rewrite Zdigits2_shift. simpl. replace (Zpos (digits2_pos p) + Zpos d + f) with (Zpos (digits2_pos p) + e) by lia.
    change (f <= f). lia.
  - eapply Z.le_lt_trans; [|apply sv_succ; lia]. rewrite iter_xO, sv_shift by lia.
    replace (f + Zpos d) with e by lia. done.
  - rewrite iter_xO, sv_shift by lia. replace (f + Zpos d) with e by lia. done.
Qed.

(** ** The operations *)

Definition scale : Z := 2 ^ 3000.

Lemma scale_pos : 0 < scale.
Proof. unfold scale. apply Z.pow_pos_nonneg; lia. Qed.

Lemma sv_scale m : sv m 0 = m * scale.
Proof. reflexivity. Qed.

#[global] Opaque scale.

Lemma f64_of_Z_between z lo hi :
  0 <= z -> nnf lo -> nnf hi -> V lo <= z * scale <= V hi ->
  nnf (f64_of_Z z) /\ V lo <= V (f64_of_Z z) <= V hi.
Proof. intros. apply binary_normalize_between; rewrite ?sv_scale; auto; lia. Qed.

Lemma sv_mul m1 e1 m2 e2 :
  -1500 <= e1 -> -1500 <= e2 -> sv m1 e1 * sv m2 e2 = sv (m1 * m2) (e1 + e2) * scale.
Proof.
  intros. unfold sv. change scale with (2 ^ 3000).
  assert (2 ^ (e1 + 3000) * 2 ^ (e2 + 3000) = 2 ^ (e1 + e2 + 3000) * 2 ^ 3000) as E
    by (rewrite <-!Z.pow_add_r by lia; f_equal; lia).
  rewrite <-(Z.mul_assoc (m1 * m2)), <-E. ring.
Qed.

Lemma digits2_pos_mul p q :
  Zpos (digits2_pos p) + Zpos (digits2_pos q) - 1 <= Zpos (digits2_pos (p * q)).
Proof.
  destruct (digits2_pos_bounds p) as [Hp _], (digits2_pos_bounds q) as [Hq _],
    (digits2_pos_bounds (p * q)) as [_ Hpq].
  rewrite Pos2Z.inj_mul in Hpq.
  assert (2 ^ (Zpos (digits2_pos p) - 1 + (Zpos (digits2_pos q) - 1))
          < 2 ^ Zpos (digits2_pos (p * q))) as H.
  { rewrite Z.pow_add_r by lia. eapply Z.le_lt_trans; [|exact Hpq].
    apply Z.mul_le_mono_nonneg; try apply Z.pow_nonneg; lia. }
  apply Z.pow_lt_mono_r_iff in H; lia.
Qed.

Lemma f64_mul_between x y lo hi :
  nnf x -> nnf y -> nnf lo -> nnf hi ->
  V lo * scale <= V x * V y <= V hi * scale ->
  nnf (f64_mul x y) /\ V lo <= V (f64_mul x y) <= V hi.
Proof.
  pose proof scale_pos as Hs. intros Hx Hy Hlo Hhi Hb.
  pose proof (V_nonneg lo Hlo). pose proof (V_nonneg hi Hhi).
  destruct x as [[]|?| |[] mx ex], y as [[]|?| |[] my ey]; simpl in Hx, Hy; try naive_solver;
    try (simpl in Hb; simpl; split; [done|]; nia).
  destruct Hx as [_ Hx], Hy as [_ Hy].
  pose proof (canonical_lt _ _ Hx) as [He1 _]. pose proof (canonical_lt _ _ Hy) as [He2 _].
  cbn [V] in Hb. rewrite sv_mul in Hb by lia.
  unfold f64_mul. cbn [SFmul xorb].
  apply round_aux_between; try done; rewrite ?Pos2Z.inj_mul; try lia; try nia.
  - cbn [Zdigits2]. rewrite <-Pos2Z.inj_mul. cbn [Zdigits2].
    pose proof (digits2_pos_mul mx my). destruct Hx as [Hx _], Hy as [Hy _].
    rewrite fexp_eq in *. lia.
  - eapply Z.le_lt_trans; [|apply sv_succ; lia]. nia.
Qed.

Lemma f64_add_between x y lo hi :
  nnf x -> nnf y -> nnf lo -> nnf hi -> V lo <= V x + V y <= V hi ->
  nnf (f64_add x y) /\ V lo <= V (f64_add x y) <= V hi.
Proof.
  intros Hx Hy Hlo Hhi Hb.
  destruct x as [[]|?| |[] mx ex], y as [[]|?| |[] my ey]; simpl in Hx, Hy; try naive_solver;
    try (unfold f64_add; cbn [V SFadd nnf] in *; split; [done|lia]).
  destruct Hx as [_ Hx], Hy as [_ Hy].
  pose proof (canonical_lt _ _ Hx) as [He1 _]. pose proof (canonical_lt _ _ Hy) as [He2 _].
  unfold f64_add. cbn [SFadd cond_Zopp].
  assert (forall m e, Z.min ex ey <= e ->
    sv (Zpos (fst (shl_align m e (Z.min ex ey)))) (Z.min ex ey) = sv (Zpos m) e) as Hshl.
  { intros m e Hle. unfold shl_align. destruct (Z.min ex ey - e) as [|d|d] eqn:E; simpl.
    - f_equal; lia.
    - lia.
    - rewrite iter_xO, sv_shift by lia. f_equal; lia. }
  assert (forall a b e, sv (a + b) e = sv a e + sv b e) as Hadd.
  { intros. unfold sv. ring. }
  apply binary_normalize_between; try done; try lia.
  rewrite Hadd, !Hshl by lia. done.
Qed.

Lemma new_location_exact n k : new_location n k = loc_Exact <-> k = 0.
Proof.
  unfold new_location, new_location_even, new_location_odd.
  assert (forall c, (if k =? 0 then loc_Exact else loc_Inexact c) = loc_Exact <-> k = 0) as H
    by (intros c; destruct (Z.eqb_spec k 0); split; congruence).
  by destruct (Z.even n); apply H.
Qed.

Lemma Zdigits2_le m k : 0 <= k -> 2 ^ k <= m -> k < Zdigits2 m.
Proof.
  intros Hk Hm. destruct m as [|p|p]; simpl.
  - pose proof (Z.pow_pos_nonneg 2 k); lia.
  - destruct (digits2_pos_bounds p) as [_ Hu]. apply (Z.pow_lt_mono_r_iff 2); lia.
  - pose proof (Z.pow_pos_nonneg 2 k); lia.
Qed.

(** The quotient of two positive integers scaled by powers of two. *)
Lemma SFdiv_core_between m1 e1 m2 e2 lo hi :
  -1074 <= e1 <= 971 -> -1074 <= e2 <= 971 -> nnf lo -> nnf hi ->
  V lo * sv (Zpos m2) e2 <= sv (Zpos m1) e1 * scale <= V hi * sv (Zpos m2) e2 ->
  let '(q, e', l) := SFdiv_core_binary 53 1024 (Zpos m1) e1 (Zpos m2) e2 in
  let r := binary_round_aux 53 1024 false q e' l in
  nnf r /\ V lo <= V r <= V hi.
Proof.
  intros He1 He2 Hlo Hhi Hb. unfold SFdiv_core_binary. cbn [Zdigits2].
  set (d1 := Zpos (digits2_pos m1)). set (d2 := Zpos (digits2_pos m2)).
  set (f := fexp 53 1024 (d1 + e1 - (d2 + e2))).
  assert (f = Z.max (d1 + e1 - (d2 + e2) - 53) (-1074)) as Hf by reflexivity.
  set (e' := Z.min f (e1 - e2)).
  assert (-2500 <= e') by lia.
  set (s := e1 - e2 - e'). assert (0 <= s) as Hs by lia.
  assert (match s with Z0 => Zpos m1 | Zpos _ => Z.shiftl (Zpos m1) s | Zneg _ => 0 end
          = Zpos m1 * 2 ^ s) as ->.
  { destruct s; [by rewrite Z.pow_0_r, Z.mul_1_r|by rewrite Z.shiftl_mul_pow2 by lia|lia]. }
  set (m' := Zpos m1 * 2 ^ s).
  pose proof (Z_div_mod m' (Zpos m2) ltac:(lia)) as Hdm.
  destruct (Z.div_eucl m' (Zpos m2)) as [q r] eqn:Eq. destruct Hdm as [Hq Hr].
  assert (0 < 2 ^ s) by (apply Z.pow_pos_nonneg; lia).
  assert (0 <= q) as Hq0 by nia.
  (* the exact value, times the divisor *)
  assert (sv (Zpos m1) e1 * scale = m' * 2 ^ (e' + 3000) * 2 ^ (e2 + 3000)) as Hexact.
  { unfold sv, m'. change scale with (2 ^ 3000). rewrite <-!Z.mul_assoc, <-!Z.pow_add_r by lia.
    do 2 f_equal. lia. }
  assert (0 < 2 ^ (e' + 3000)) as HP1 by (apply Z.pow_pos_nonneg; lia).
  assert (0 < 2 ^ (e2 + 3000)) as HP2 by (apply Z.pow_pos_nonneg; lia).
  rewrite Hexact in Hb. unfold sv in Hb.
  assert (V lo * Zpos m2 <= m' * 2 ^ (e' + 3000) <= V hi * Zpos m2) as [Hl Hu] by nia.
  apply round_aux_between; try done.
  - (* the quotient keeps enough bits *)
    assert (d1 + s - d2 <= Zdigits2 q) as Hd; [|rewrite fexp_eq; lia].
    destruct (digits2_pos_bounds m1) as [Hm1 _], (digits2_pos_bounds m2) as [_ Hm2].
    fold d1 in Hm1. fold d2 in Hm2.
    destruct (Z.le_gt_cases (d1 + s - d2) 0) as [Hneg|Hp].
    { destruct q; simpl; lia. }
    enough (d1 + s - d2 - 1 < Zdigits2 q) by lia.
    apply Zdigits2_le; [lia|].
    assert (2 ^ (d1 - 1 + s) = 2 ^ (d1 + s - d2 - 1) * 2 ^ d2) as Hpow
      by (rewrite <-Z.pow_add_r by lia; f_equal; lia).
    rewrite Z.pow_add_r in Hpow by lia.
    assert (2 ^ (d1 - 1) * 2 ^ s <= m') by (unfold m'; nia).
    assert (0 < 2 ^ (d1 + s - d2 - 1)) by (apply Z.pow_pos_nonneg; lia).
    assert (2 ^ (d1 + s - d2 - 1) * Zpos m2 < m' + 1) by nia. nia.
  - unfold sv. nia.
  - unfold sv. nia.
  - intros Hl'. assert (r <> 0) by (intros E; apply Hl', new_location_exact, E).
    unfold sv. nia.
Qed.

Lemma f64_div_between x y lo hi :
  nnf x -> nnf y -> 0 < V y -> nnf lo -> nnf hi ->
  V lo * V y <= V x * scale <= V hi * V y ->
  nnf (f64_div x y) /\ V lo <= V (f64_div x y) <= V hi.
Proof.
  intros Hx Hy Hpos Hlo Hhi Hb.
  pose proof (V_nonneg lo Hlo). pose proof (V_nonneg hi Hhi).
  destruct y as [[]|?| |[] my ey]; simpl in Hy; try naive_solver; [simpl in Hpos; lia|].
  destruct x as [[]|?| |[] mx ex]; simpl in Hx; try naive_solver.
  - simpl in Hb |- *. split; [done|]. simpl in Hpos. nia.
  - destruct Hx as [_ Hx], Hy as [_ Hy].
    pose proof (canonical_lt _ _ Hx) as [? _]. pose proof (canonical_lt _ _ Hy) as [? _].
    destruct Hx as [_ ?], Hy as [_ ?].
    pose proof (SFdiv_core_between mx ex my ey lo hi) as Hcore.
    unfold f64_div. cbn [SFdiv xorb].
    destruct (SFdiv_core_binary 53 1024 (Zpos mx) ex (Zpos my) ey) as [[q e'] l].
    by apply Hcore.
Qed.

(** ** Integers and their representable neighbours *)

Lemma Zdigits2_spec z : 0 < z -> 2 ^ (Zdigits2 z - 1) <= z < 2 ^ Zdigits2 z.
Proof. destruct z as [|p|p]; try lia. intros _. apply digits2_pos_bounds. Qed.

Lemma nnf_intro m e :
  2 ^ 52 <= m < 2 ^ 53 -> -1074 <= e <= 971 -> nnf (S754_finite false (Z.to_pos m) e).
Proof.
  intros Hm He. split; [done|]. unfold canonical.
  rewrite (digits2_unique (Z.to_pos m) 53) by (rewrite ?Z2Pos.id by lia; simpl in *; lia).
  rewrite fexp_eq. lia.
Qed.

Lemma V_of_pos m e : 0 < m -> V (S754_finite false (Z.to_pos m) e) = sv m e.
Proof. intros Hm. cbn [V]. by rewrite Z2Pos.id. Qed.

(** Integers of at most 53 bits are representable. *)
Lemma exact_repr z : 0 <= z < 2 ^ 53 -> exists x, nnf x /\ V x = z * scale.
Proof.
  intros Hz. destruct (Z.eq_dec z 0) as [->|Hne]; [exists (S754_zero false); done|].
  pose proof (Zdigits2_spec z ltac:(lia)) as Hd.
  pose proof (Zdigits2_lt z 53 ltac:(lia) ltac:(lia)).
  pose proof (Zdigits2_le z 0 ltac:(lia) ltac:(simpl; lia)).
  set (n := 53 - Zdigits2 z). exists (S754_finite false (Z.to_pos (z * 2 ^ n)) (- n)).
  assert (2 ^ (52 - n) * 2 ^ n = 2 ^ 52) by (rewrite <-Z.pow_add_r by lia; f_equal; lia).
  assert (2 ^ (53 - n) * 2 ^ n = 2 ^ 53) by (rewrite <-Z.pow_add_r by lia; f_equal; lia).
  assert (0 < 2 ^ n) by (apply Z.pow_pos_nonneg; lia).
  replace (Zdigits2 z - 1) with (52 - n) in Hd by lia.
  replace (Zdigits2 z) with (53 - n) in Hd by lia.
  assert (2 ^ 52 <= z * 2 ^ n < 2 ^ 53) by nia.
  split; [apply nnf_intro; lia|]. rewrite V_of_pos by lia.
  rewrite sv_shift by lia. rewrite <-sv_scale. f_equal. lia.
Qed.

(** Any integer below [2^1000] has representable integer neighbours within a
    relative distance of [2^-52]. *)
Lemma neighbours z :
  0 <= z < 2 ^ 1000 ->
  exists lo hi l h, nnf lo /\ nnf hi /\ V lo = l * scale /\ V hi = h * scale
    /\ 0 <= l <= z /\ z <= h /\ z * (2 ^ 52 - 1) <= l * 2 ^ 52 /\ h * 2 ^ 52 <= z * (2 ^ 52 + 1).
Proof.
  intros Hz. destruct (Z.lt_ge_cases z (2 ^ 53)) as [Hlt|Hge].
  { destruct (exact_repr z ltac:(lia)) as (x & Hx & HV).
    exists x, x, z, z. split_and!; try done; lia. }
  pose proof (Zdigits2_spec z ltac:(lia)) as Hd.
  pose proof (Zdigits2_le z 53 ltac:(lia) ltac:(lia)).
  pose proof (Zdigits2_lt z 1000 ltac:(lia) ltac:(lia)).
  set (n := Zdigits2 z - 53). set (q := z / 2 ^ n).
  assert (0 < 2 ^ n) as Hn by (apply Z.pow_pos_nonneg; lia).
  pose proof (Z.div_mod z (2 ^ n) ltac:(lia)) as Hdm. fold q in Hdm.
  pose proof (Z.mod_pos_bound z (2 ^ n) Hn).
  replace (Zdigits2 z - 1) with (52 + n) in Hd by lia.
  replace (Zdigits2 z) with (53 + n) in Hd by lia.
  rewrite !Z.pow_add_r in Hd by lia.
  assert (2 ^ 52 <= q < 2 ^ 53) as Hq.
  { split; [apply Z.div_le_lower_bound|apply Z.div_lt_upper_bound]; nia. }
  assert (forall k, 2 ^ 52 <= k < 2 ^ 53 -> exists x, nnf x /\ V x = k * 2 ^ n * scale) as Hmk.
  { intros k Hk. exists (S754_finite false (Z.to_pos k) n). split; [apply nnf_intro; lia|].
    rewrite V_of_pos, <-sv_scale, sv_shift by lia. done. }
  destruct (Hmk q Hq) as (lo & Hlo & HVlo).
  assert (exists x, nnf x /\ V x = (q + 1) * 2 ^ n * scale) as (hi & Hhi & HVhi).
  { destruct (Z.eq_dec (q + 1) (2 ^ 53)) as [E|]; [|apply Hmk; lia].
    exists (S754_finite false (Z.to_pos (2 ^ 52)) (n + 1)). split; [apply nnf_intro; lia|].
    rewrite E, V_of_pos, <-sv_scale, sv_shift by lia.
    rewrite <-(Z.mul_1_l (2 ^ 52)), <-(Z.mul_1_l (2 ^ 53)).
    rewrite !sv_shift by lia. f_equal. lia. }
  exists lo, hi, (q * 2 ^ n), ((q + 1) * 2 ^ n).
  split_and!; try done; nia.
Qed.

Lemma f64_of_Z_exact z : 0 <= z < 2 ^ 53 -> nnf (f64_of_Z z) /\ V (f64_of_Z z) = z * scale.
Proof.
  intros Hz. destruct (exact_repr z Hz) as (x & Hx & HV).
  destruct (f64_of_Z_between z x x) as [Hnn ?]; try done; lia || (split; [done|lia]).
Qed.

(** The conversion from [u64] is within a relative error of [2^-52]. *)
Lemma f64_of_Z_error z :
  0 <= z <= u64_max ->
  nnf (f64_of_Z z)
  /\ z * (2 ^ 52 - 1) * scale <= V (f64_of_Z z) * 2 ^ 52 <= z * (2 ^ 52 + 1) * scale.
Proof.
  intros Hz. destruct (neighbours z) as (lo & hi & l & h & Hlo & Hhi & El & Eh & ? & ? & ? & ?).
  { unfold u64_max in Hz. assert (2 ^ 64 < 2 ^ 1000) by (apply Z.pow_lt_mono_r; lia). lia. }
  pose proof scale_pos.
  destruct (f64_of_Z_between z lo hi) as [Hnn ?]; try done; [lia|nia|].
  split; [done|nia].
Qed.

(** ** Comparisons *)

Lemma canonical_lt_iff m1 e1 m2 e2 :
  canonical m1 e1 -> canonical m2 e2 -> e1 < e2 -> sv (Zpos m1) e1 < sv (Zpos m2) e2.
Proof.
  intros H1 H2 Hlt. pose proof (canonical_lt _ _ H1) as [? Hu]. pose proof (canonical_lt _ _ H2) as [? _].
  eapply Z.lt_le_trans; [exact Hu|]. trans (sv 1 (e2 + 52)).
  - destruct (Z.eq_dec (e1 + 53) (e2 + 52)) as [->|]; [done|]. apply Z.lt_le_incl, sv_pow_mono; lia.
  - rewrite <-(sv_shift 1 e2 52) by lia. apply sv_le_mono; [lia|].
    destruct H2 as [He _]. rewrite fexp_eq in He.
    destruct (digits2_pos_bounds m2) as [Hl _]. rewrite Z.mul_1_l.
    etrans; [|exact Hl]. apply Z.pow_le_mono_r; lia.
Qed.

Lemma V_pos_finite m e : -3000 <= e -> 0 < sv (Zpos m) e.
Proof. intros. unfold sv. apply Z.mul_pos_pos; [lia|]. apply Z.pow_pos_nonneg; lia. Qed.

(** The order of non-negative floats is the order of their values. *)
Lemma f64_compare_V x y : nnf x -> nnf y -> SFcompare x y = Some (Z.compare (V x) (V y)).
Proof.
  destruct x as [[]|?| |[] mx ex], y as [[]|?| |[] my ey]; intros Hx Hy; simpl in Hx, Hy;
    try naive_solver; cbn [SFcompare V]; f_equal; symmetry.
  - apply Z.compare_lt_iff, V_pos_finite. destruct Hy as [_ Hy]. apply canonical_lt in Hy. lia.
  - apply Z.compare_gt_iff, V_pos_finite. destruct Hx as [_ Hx]. apply canonical_lt in Hx. lia.
  - destruct Hx as [_ Hx], Hy as [_ Hy].
    pose proof (canonical_lt _ _ Hx) as [? _].
    change IntDef.Z.compare with Z.compare.
    destruct (Z.compare_spec ex ey) as [->|Hlt|Hgt].
    + change (PosDef.Pos.compare_cont Eq mx my) with (Z.compare (Zpos mx) (Zpos my)).
      destruct (Z.compare_spec (Zpos mx) (Zpos my)) as [->|Hl|Hg].
      * apply Z.compare_refl.
      * apply Z.compare_lt_iff. apply sv_lt_mono; lia.
      * apply Z.compare_gt_iff. apply sv_lt_mono; lia.
    + by apply Z.compare_lt_iff, canonical_lt_iff.
    + by apply Z.compare_gt_iff, canonical_lt_iff.
Qed.

Lemma f64_leb_V x y : nnf x -> nnf y -> f64_leb x y = (V x <=? V y).
Proof.
  intros Hx Hy. unfold f64_leb, SFleb. rewrite f64_compare_V by done.
  unfold Z.leb. by destruct (V x ?= V y).
Qed.

Lemma nnf_is_finite x : nnf x -> is_finite x = true /\ is_sign_negative x = false.
Proof. destruct x as [[]|?| |[] m e]; simpl; naive_solver. Qed.

#[export] Hint Resolve V_nonneg : rpi.

(** ** Percentages

    [100.0 * used as f64 / total as f64] for [used <= total], as the program
    computes it four times.  The result can exceed 100 by a few units in the
    last place for totals beyond [2^46]; it never exceeds [percent_hi], and
    rounding to one decimal brings it back to at most 100. *)

Definition percent_of (used total : Z) : f64 :=
  f64_div (f64_mul (f64_of_Z 100) (f64_of_Z used)) (f64_of_Z total).

Definition percent_hi : f64 := S754_finite false (100 * 2 ^ 46 + 7) (-46).

Lemma sv_neg m e n : n = - e -> 0 <= n <= 3000 -> sv m e * 2 ^ n = m * scale.
Proof.
  intros -> Hn. unfold sv. change scale with (2 ^ 3000).
  rewrite <-Z.mul_assoc, <-Z.pow_add_r by lia. do 2 f_equal. lia.
Qed.

Lemma nnf_percent_hi : nnf percent_hi.
Proof. split; [done|]. by vm_compute. Qed.

Lemma V_percent_hi : V percent_hi * 2 ^ 46 = (100 * 2 ^ 46 + 7) * scale.
Proof. apply (sv_neg (100 * 2 ^ 46 + 7) (-46) 46); lia. Qed.

Lemma nnf_zero : nnf f64_zero.
Proof. done. Qed.

Lemma f64_of_Z_pos z : 0 < z <= u64_max -> 0 < V (f64_of_Z z).
Proof. intros Hz. pose proof scale_pos. destruct (f64_of_Z_error z); [lia|]. nia. Qed.

Lemma percent_of_exact u t :
  0 <= u <= t -> 0 < t <= 2 ^ 46 ->
  nnf (percent_of u t) /\ V (percent_of u t) <= 100 * scale.
Proof.
  intros Hu Ht. pose proof scale_pos.
  destruct (f64_of_Z_exact 100) as [H100 V100]; [lia|].
  destruct (f64_of_Z_exact u) as [HU VU]; [lia|]. destruct (f64_of_Z_exact t) as [HT VT]; [lia|].
  destruct (exact_repr (100 * u)) as (m & Hm & Vm); [lia|].
  unfold percent_of.
  destruct (f64_mul_between (f64_of_Z 100) (f64_of_Z u) m m H100 HU Hm Hm) as [HM ?]; [nia|].
  destruct (f64_div_between _ (f64_of_Z t) f64_zero (f64_of_Z 100) HM HT ltac:(nia) nnf_zero H100)
    as [HP ?]; [|split; [exact HP|lia]].
  change (V f64_zero) with 0. rewrite V100, VT.
  assert (V (f64_mul (f64_of_Z 100) (f64_of_Z u)) = 100 * u * scale) as -> by lia. nia.
Qed.

Lemma percent_of_between u t :
  0 <= u <= t -> 0 < t <= u64_max ->
  nnf (percent_of u t) /\ V (percent_of u t) <= V percent_hi.
Proof.
  intros Hu Ht. pose proof scale_pos as HS. pose proof V_percent_hi as Vhi.
  destruct (Z.le_gt_cases t (2 ^ 46)) as [Hsmall|Hbig].
  { destruct (percent_of_exact u t) as [? ?]; [lia..|]. split; [done|]. nia. }
  destruct (f64_of_Z_exact 100) as [H100 V100]; [lia|].
  destruct (f64_of_Z_error u) as [HU VU]; [lia|]. destruct (f64_of_Z_error t) as [HT VT]; [lia|].
  set (z := 100 * u * (2 ^ 52 + 1) / 2 ^ 52 + 1).
  pose proof (Z.div_mod (100 * u * (2 ^ 52 + 1)) (2 ^ 52) ltac:(lia)) as Hdm.
  pose proof (Z.mod_pos_bound (100 * u * (2 ^ 52 + 1)) (2 ^ 52) ltac:(lia)) as Hmod.
  assert (100 * u * (2 ^ 52 + 1) <= z * 2 ^ 52 <= 100 * u * (2 ^ 52 + 1) + 2 ^ 52) as Hz
    by (unfold z; lia).
  assert (0 <= z) by (unfold z; nia).
  destruct (neighbours z) as (lo & hi & l & h & _ & Hhi & _ & Eh & _ & Hzh & _ & Hh).
  { split; [done|]. unfold u64_max in Ht.
    assert (2 ^ 80 < 2 ^ 1000) by (apply Z.pow_lt_mono_r; lia). lia. }
  unfold percent_of.
  destruct (f64_mul_between (f64_of_Z 100) (f64_of_Z u) f64_zero hi H100 HU nnf_zero Hhi)
    as [HM [_ HMh]].
  { pose proof (V_nonneg _ HU). rewrite V100, Eh. change (V f64_zero) with 0.
    assert (100 * V (f64_of_Z u) <= h * scale) by nia. nia. }
  assert (h * 2 ^ 98 <= (100 * 2 ^ 46 + 7) * (t * (2 ^ 52 - 1))) as Hfinal by lia.
  pose proof (V_nonneg _ HM).
  destruct (f64_div_between _ (f64_of_Z t) f64_zero percent_hi HM HT
    (f64_of_Z_pos t Ht) nnf_zero nnf_percent_hi) as [HP ?]; [|split; [exact HP|lia]].
  change (V f64_zero) with 0. split; [nia|].
  rewrite Eh in HMh.
  set (T := V (f64_of_Z t)) in *. set (P := V percent_hi) in *.
  set (M := V (f64_mul _ _)) in *.
  apply Z.mul_le_mono_pos_r with (p := 2 ^ 98); [lia|].
  trans (h * 2 ^ 98 * scale * scale); [nia|].
  trans ((100 * 2 ^ 46 + 7) * (t * (2 ^ 52 - 1)) * scale * scale); [nia|].
  replace (P * T * 2 ^ 98) with ((P * 2 ^ 46) * (T * 2 ^ 52)) by ring.
  rewrite Vhi. nia.
Qed.

(** [f64::round] does not go past an integer more than half a unit away. *)
Lemma f64_round_le x n :
  nnf x -> 0 <= n < 2 ^ 53 -> 2 * V x < (2 * n + 1) * scale ->
  nnf (f64_round x) /\ V (f64_round x) <= n * scale.
Proof.
  intros Hx Hn HV. pose proof scale_pos as HS.
  destruct x as [[]|?| |[] m e]; simpl in Hx; try naive_solver; [simpl; nia|].
  cbn [f64_round]. destruct (Z.leb_spec 0 e) as [He|He].
  - split; [done|]. cbn [V] in *.
    assert (sv (Zpos m) e = Zpos m * 2 ^ e * scale) as E
      by (rewrite <-sv_scale, sv_shift by lia; done).
    rewrite E in *. set (a := Zpos m * 2 ^ e) in *. clearbody a.
    assert (a <= n) by nia. nia.
  - destruct Hx as [_ Hc]. apply canonical_lt in Hc as [He' _].
    pose proof (sv_neg (Zpos m) e (- e) ltac:(lia) ltac:(lia)) as E. cbn [V] in HV.
    assert (2 ^ (- e) = 2 * 2 ^ (- e - 1)) as Ep
      by (rewrite <-Z.pow_succ_r by lia; f_equal; lia).
    assert (0 < 2 ^ (- e - 1)) by (apply Z.pow_pos_nonneg; lia).
    set (k := (Zpos m + 2 ^ (- e - 1)) / 2 ^ (- e)).
    assert (0 <= k) by (apply Z.div_pos; lia).
    assert (k <= n).
    { apply Z.lt_succ_r, Z.div_lt_upper_bound; [lia|].
      assert (2 * Zpos m < (2 * n + 1) * 2 ^ (- e)) by nia. nia. }
    destruct (f64_of_Z_exact n Hn) as [Hnn Vn].
    change (binary_normalize 53 1024 (cond_Zopp false k) 0 false) with (f64_of_Z k).
    destruct (f64_of_Z_between k f64_zero (f64_of_Z n) ltac:(lia) nnf_zero Hnn) as [Hk ?];
      [|split; [exact Hk|lia]].
    change (V f64_zero) with 0. nia.
Qed.

(** ** Signs

    Every operation is symmetric in the sign of its first argument, so facts
    about non-negative values carry over to negative ones. *)

Lemma binary_round_aux_opp s m e l :
  binary_round_aux 53 1024 (negb s) m e l = SFopp (binary_round_aux 53 1024 s m e l).
Proof.
  unfold binary_round_aux.
  destruct (shr_fexp 53 1024 m e l) as [r e1].
  destruct (shr_fexp 53 1024 (round_nearest_even (shr_m r) (loc_of_shr_record r)) e1 loc_Exact) as [r2 e2].
  destruct (shr_m r2); [done| |done]. by destruct (e2 <=? 1024 - 53).
Qed.

Lemma binary_normalize_opp m e s :
  binary_normalize 53 1024 (- m) e (negb s) = SFopp (binary_normalize 53 1024 m e s).
Proof.
  assert (forall t p, binary_round 53 1024 (negb t) p e = SFopp (binary_round 53 1024 t p e)) as Hr.
  { intros t p. unfold binary_round. destruct (shl_align p e _) as [mz ez]. apply binary_round_aux_opp. }
  destruct m as [|p|p]; [done|exact (Hr false p)|exact (Hr true p)].
Qed.

Lemma f64_of_Z_opp z : z <> 0 -> f64_of_Z (- z) = SFopp (f64_of_Z z).
Proof.
  intros Hz. unfold f64_of_Z. rewrite <-binary_normalize_opp. destruct z; done.
Qed.

Lemma f64_mul_opp x y : f64_mul (SFopp x) y = SFopp (f64_mul x y).
Proof.
  unfold f64_mul. destruct x as [s|s| |s m e], y as [s'|s'| |s' m' e']; cbn [SFopp SFmul]; try done;
    rewrite <-?negb_xorb_l; try done.
  apply binary_round_aux_opp.
Qed.

Lemma f64_div_opp x y : f64_div (SFopp x) y = SFopp (f64_div x y).
Proof.
  unfold f64_div. destruct x as [s|s| |s m e], y as [s'|s'| |s' m' e']; cbn [SFopp SFdiv]; try done;
    rewrite <-?negb_xorb_l; try done.
  destruct (SFdiv_core_binary 53 1024 (Zpos m) e (Zpos m') e') as [[q e2] l].
  apply binary_round_aux_opp.
Qed.

Lemma f64_round_opp x : f64_round (SFopp x) = SFopp (f64_round x).
Proof.
  destruct x as [s|s| |s m e]; try done. cbn [SFopp f64_round].
  destruct (0 <=? e); [done|]. rewrite <-binary_normalize_opp. f_equal.
  destruct s; cbn [negb cond_Zopp]; lia.
Qed.

Lemma is_finite_opp x : is_finite (SFopp x) = is_finite x.
Proof. by destruct x. Qed.

(** A bound that is a power of two survives rounding to an integer. *)
Lemma f64_round_pow x k :
  nnf x -> 53 <= k <= 1000 -> V x <= sv 1 k -> nnf (f64_round x) /\ V (f64_round x) <= sv 1 k.
Proof.
  intros Hx Hk HV. destruct x as [[]|?| |[] m e]; simpl in Hx; try naive_solver.
  cbn [f64_round]. destruct (Z.leb_spec 0 e) as [He|He]; [by split|].
  destruct Hx as [_ Hc]. apply canonical_lt in Hc as [He' Hlt].
  set (j := (Zpos m + 2 ^ (- e - 1)) / 2 ^ (- e)).
  assert (0 < 2 ^ (- e)) by (apply Z.pow_pos_nonneg; lia).
  assert (0 < 2 ^ (- e - 1)) by (apply Z.pow_pos_nonneg; lia).
  assert (0 <= j) by (apply Z.div_pos; lia).
  assert (sv (Zpos m) e < sv (2 ^ 53) e) as Hm
    by (rewrite <-(Z.mul_1_l (2 ^ 53)), sv_shift by lia; exact Hlt).
  apply sv_lt_mono in Hm; [|lia].
  assert (2 ^ (- e) = 2 * 2 ^ (- e - 1)) as Ep
    by (rewrite <-Z.pow_succ_r by lia; f_equal; lia).
  assert (j <= 2 ^ 52).
  { apply Z.lt_succ_r, Z.div_lt_upper_bound; [lia|].
    assert (2 ^ 52 * 2 <= 2 ^ 52 * 2 ^ (- e)) by (apply Z.mul_le_mono_nonneg_l; [lia|]; rewrite Ep; lia).
    lia. }
  assert (0 <= 2 ^ 52 < 2 ^ 53) as H52 by lia.
  destruct (f64_of_Z_exact (2 ^ 52) H52) as [H52n V52].
  change (binary_normalize 53 1024 (cond_Zopp false j) 0 false) with (f64_of_Z j).
  pose proof scale_pos.
  destruct (f64_of_Z_between j f64_zero (f64_of_Z (2 ^ 52)) ltac:(lia) nnf_zero H52n) as [Hj ?].
  { change (V f64_zero) with 0. rewrite V52.
    split; [|apply Z.mul_le_mono_nonneg_r]; lia. }
  split; [exact Hj|]. rewrite V52, <-sv_scale in *.
  assert (sv (2 ^ 52) 0 <= sv 1 k); [|lia].
  rewrite <-(Z.mul_1_l (2 ^ 52)), sv_shift by lia. unfold sv.
  rewrite !Z.mul_1_l. apply Z.pow_le_mono_r; lia.
Qed.

Lemma pow2_nnf k : -1022 <= k <= 1000 -> exists x, nnf x /\ V x = sv 1 k.
Proof.
  intros Hk. exists (S754_finite false (Z.to_pos (2 ^ 52)) (k - 52)). split; [apply nnf_intro; lia|].
  rewrite V_of_pos by lia. rewrite <-(Z.mul_1_l (2 ^ 52)), sv_shift by lia. f_equal. lia.
Qed.

(** [|x| <= 2^k], of either sign. *)
Definition magnitude_le (x : f64) (k : Z) : Prop :=
  exists s y, nnf y /\ V y <= sv 1 k /\ x = if (s : bool) then SFopp y else y.

Lemma magnitude_le_map (f : f64 -> f64) (x : f64) (k k' : Z) :
  (forall y, f (SFopp y) = SFopp (f y)) ->
  (forall y, nnf y -> V y <= sv 1 k -> nnf (f y) /\ V (f y) <= sv 1 k') ->
  magnitude_le x k -> magnitude_le (f x) k'.
Proof.
  intros Hopp Hf (s & y & Hy & HV & ->). destruct (Hf y Hy HV).
  exists s, (f y). split_and!; [done..|]. destruct s; [apply Hopp|done].
Qed.

Lemma magnitude_le_finite x k : magnitude_le x k -> is_finite x = true.
Proof.
  intros (s & y & Hy & _ & ->). apply nnf_is_finite in Hy as [Hy _].
  destruct s; [by rewrite is_finite_opp|done].
Qed.

Lemma magnitude_le_of_Z z k : 0 <= k <= 1000 -> - 2 ^ k <= z <= 2 ^ k -> magnitude_le (f64_of_Z z) k.
Proof.
  intros Hk Hz. destruct (pow2_nnf k ltac:(lia)) as (hi & Hhi & Vhi).
  assert (sv 1 k = 2 ^ k * scale) as Ek by (rewrite <-sv_scale, <-(Z.mul_1_l (2 ^ k)), sv_shift by lia; done).
  assert (Hpos : forall a, 0 <= a <= 2 ^ k -> nnf (f64_of_Z a) /\ V (f64_of_Z a) <= sv 1 k).
  { intros a Ha. pose proof scale_pos. rewrite <-Vhi.
    destruct (f64_of_Z_between a f64_zero hi ltac:(lia) nnf_zero Hhi) as [? [_ ?]]; [|by split].
    change (V f64_zero) with 0. rewrite Vhi, Ek. split; [|apply Z.mul_le_mono_nonneg_r]; lia. }
  destruct (Z.le_gt_cases 0 z) as [H0|H0].
  - destruct (Hpos z ltac:(lia)). by exists false, (f64_of_Z z).
  - destruct (Hpos (- z) ltac:(lia)). exists true, (f64_of_Z (- z)). split_and!; [done..|].
    rewrite <-f64_of_Z_opp by lia. f_equal. lia.
Qed.

Lemma magnitude_le_mul x y j k :
  nnf y -> V y <= sv 1 j -> 0 <= j -> 0 <= k -> j + k <= 1000 ->
  magnitude_le x k -> magnitude_le (f64_mul x y) (k + j).
Proof.
  intros Hy HVy Hj Hk Hjk. apply (magnitude_le_map (fun x => f64_mul x y)).
  { intros z. apply f64_mul_opp. }
  intros z Hz HVz. destruct (pow2_nnf (k + j) ltac:(lia)) as (hi & Hhi & Vhi). rewrite <-Vhi.
  pose proof (V_nonneg _ Hz). pose proof (V_nonneg _ Hy).
  destruct (f64_mul_between z y f64_zero hi Hz Hy nnf_zero Hhi) as [? [_ ?]]; [|by split].
  change (V f64_zero) with 0. rewrite Vhi. pose proof (sv_mul 1 k 1 j ltac:(lia) ltac:(lia)) as Em.
  change (1 * 1) with 1 in Em. rewrite <-Em. split; [|apply Z.mul_le_mono_nonneg]; lia.
Qed.

Lemma magnitude_le_div x y k :
  nnf y -> scale <= V y -> 0 <= k <= 1000 -> magnitude_le x k -> magnitude_le (f64_div x y) k.
Proof.
  intros Hy HVy Hk. pose proof scale_pos as HS. apply (magnitude_le_map (fun x => f64_div x y)).
  { intros z. apply f64_div_opp. }
  intros z Hz HVz. destruct (pow2_nnf k ltac:(lia)) as (hi & Hhi & Vhi). rewrite <-Vhi.
  pose proof (V_nonneg _ Hz).
  destruct (f64_div_between z y f64_zero hi Hz Hy ltac:(lia) nnf_zero Hhi) as [? [_ ?]]; [|by split].
  change (V f64_zero) with 0. rewrite Vhi. split; [lia|].
  apply Z.mul_le_mono_nonneg; lia.
Qed.

Lemma magnitude_le_round x k : 53 <= k <= 1000 -> magnitude_le x k -> magnitude_le (f64_round x) k.
Proof. intros Hk. apply magnitude_le_map; [apply f64_round_opp|]. intros. by apply f64_round_pow. Qed.

(** ** Scaled integers *)

(** Multiples of [2^e] with at most 53 bits are representable. *)
Lemma exact_repr_scaled z e :
  0 <= z < 2 ^ 53 -> -1000 <= e <= 0 -> exists x, nnf x /\ V x = sv z e.
Proof.
  intros Hz He. destruct (Z.eq_dec z 0) as [->|Hne]; [exists (S754_zero false); done|].
  pose proof (Zdigits2_spec z ltac:(lia)) as Hd.
  pose proof (Zdigits2_lt z 53 ltac:(lia) ltac:(lia)).
  pose proof (Zdigits2_le z 0 ltac:(lia) ltac:(simpl; lia)).
  set (n := 53 - Zdigits2 z). exists (S754_finite false (Z.to_pos (z * 2 ^ n)) (e - n)).
  assert (2 ^ (52 - n) * 2 ^ n = 2 ^ 52) by (rewrite <-Z.pow_add_r by lia; f_equal; lia).
  assert (2 ^ (53 - n) * 2 ^ n = 2 ^ 53) by (rewrite <-Z.pow_add_r by lia; f_equal; lia).
  assert (0 < 2 ^ n) by (apply Z.pow_pos_nonneg; lia).
  replace (Zdigits2 z - 1) with (52 - n) in Hd by lia.
  replace (Zdigits2 z) with (53 - n) in Hd by lia.
  assert (2 ^ 52 <= z * 2 ^ n < 2 ^ 53) by nia.
  split; [apply nnf_intro; lia|]. rewrite V_of_pos by lia.
  rewrite sv_shift by lia. f_equal. lia.
Qed.

(** The integer part of a non-negative value, and its truncation. *)
Lemma f64_integer_part_V x n :
  nnf x -> n * scale <= V x < (n + 1) * scale -> 0 <= n -> f64_integer_part x = n.
Proof.
  intros Hx HV Hn. pose proof scale_pos as HS.
  destruct x as [[]|?| |[] m e]; simpl in Hx; try naive_solver; [simpl in *; nia|].
  cbn [f64_integer_part cond_Zopp]. cbn [V] in HV. destruct (Z.leb_spec 0 e) as [He|He].
  - assert (sv (Zpos m) e = Zpos m * 2 ^ e * scale) as E
      by (rewrite <-sv_scale, sv_shift by lia; done).
    rewrite E in HV. set (a := Zpos m * 2 ^ e) in *. clearbody a. nia.
  - destruct Hx as [_ Hc]. apply canonical_lt in Hc as [He' _].
    pose proof (sv_neg (Zpos m) e (- e) ltac:(lia) ltac:(lia)) as E.
    assert (0 < 2 ^ (- e)) by (apply Z.pow_pos_nonneg; lia).
    symmetry. apply (Z.div_unique_pos _ _ _ (Zpos m - 2 ^ (- e) * n)); [|lia]. nia.
Qed.

Lemma f64_trunc_as_u64 x n :
  nnf x -> 0 <= n < 2 ^ 53 -> n * scale <= V x < (n + 1) * scale -> f64_as_u64 (f64_trunc x) = n.
Proof.
  intros Hx Hn HV. pose proof (f64_integer_part_V x n Hx HV ltac:(lia)) as Hi.
  assert (Hall : forall y, is_finite y = true -> f64_integer_part y = n -> f64_as_u64 y = n).
  { intros y Hy Hyn. unfold f64_as_u64. destruct y; try done; rewrite Hyn; unfold u64_max; lia. }
  pose proof (nnf_is_finite x Hx) as [Hfx _].
  destruct x as [[]|?| |[] m e]; [done|by apply Hall|done|done|by destruct Hx|].
  cbn [f64_trunc]. destruct (Z.leb_spec 0 e) as [He|He]; [by apply Hall|].
  rewrite Hi. change (binary_normalize 53 1024 n 0 false) with (f64_of_Z n).
  destruct (f64_of_Z_exact n Hn) as [Hnn HVn]. pose proof scale_pos.
  apply Hall; [by apply nnf_is_finite in Hnn as [? _]|].
  apply f64_integer_part_V; [done|rewrite HVn; nia|lia].
Qed.

(** [d / 100], correctly rounded, keeps the integer part of [d] hundredths. *)
Lemma f64_of_hundredths n f :
  0 <= n < 2 ^ 44 -> 0 <= f < 100 ->
  let x := f64_of_decimal false (n * 100 + f) (-2) in
  nnf x /\ n * scale <= V x < (n + 1) * scale.
Proof.
  intros Hn Hf. unfold f64_of_decimal. pose proof scale_pos as HS.
  destruct (Z.eqb_spec (n * 100 + f) 0) as [E|E].
  { assert (n = 0) as -> by lia. split; [done|]. change (V (S754_zero false)) with 0. lia. }
  change (0 <=? -2) with false. change (10 ^ (- (-2))) with 100.
  assert (n * 100 + f = Zpos (Z.to_pos (n * 100 + f))) as Ed by lia.
  destruct (exact_repr_scaled (n * 2 ^ 8) (-8) ltac:(lia) ltac:(lia)) as (lo & Hlo & Vlo).
  destruct (exact_repr_scaled (n * 2 ^ 8 + 255) (-8) ltac:(lia) ltac:(lia)) as (hi & Hhi & Vhi).
  pose proof (sv_neg (n * 2 ^ 8) (-8) 8 ltac:(lia) ltac:(lia)) as E1.
  pose proof (sv_neg (n * 2 ^ 8 + 255) (-8) 8 ltac:(lia) ltac:(lia)) as E2.
  rewrite <-Vlo in E1. rewrite <-Vhi in E2. change (2 ^ 8) with 256 in E1, E2.
  pose proof (SFdiv_core_between (Z.to_pos (n * 100 + f)) 0 100 0 lo hi
                ltac:(lia) ltac:(lia) Hlo Hhi) as Hcore.
  rewrite <-Ed, !sv_scale in Hcore.
  assert (V lo * (100 * scale) <= (n * 100 + f) * scale * scale <= V hi * (100 * scale)) as Hb.
  { assert (V lo * 100 <= (n * 100 + f) * scale <= V hi * 100); [|nia]. clear Vlo Vhi Hcore. nia. }
  specialize (Hcore Hb). cbn zeta.
  destruct (SFdiv_core_binary 53 1024 (n * 100 + f) 0 100 0) as [[q e'] l].
  destruct Hcore as [Hr ?]. split; [exact Hr|]. lia.
Qed.
