(* ===== verification/Model.v ===== *)
(** * Telemetry payload types ([src/src/model.rs])

    The records of the state payload, the health classification, and the
    serialisation to the published JSON document.  [OffsetDateTime] and its
    RFC 3339 text form belong to the [time] crate and are the interface
    [TimeLib]; the JSON text printer belongs to [serde_json], so serialisation
    ends at the document ([json]). *)

From S2P Require Import Prelude RustStr RustFloat RustFloatFacts.

#[local] Set Warnings "-register-all".

Local Open Scope Z_scope.

(** The JSON document built by the [Serialize] implementations. *)
Inductive json : Type :=
  | JNull
  | JBool (b : bool)
  | JInt (n : Z)
  | JFloat (x : f64)
  | JStr (s : str)
  | JArr (l : list json)
  | JObj (fields : list (string * json)).

(** The operations of the [time] crate behind [ObservationTime]. *)
Class TimeLib := {
  OffsetDateTime : Type;
  rfc3339_parse : str -> option OffsetDateTime;
  rfc3339_format : OffsetDateTime -> result str str;
  to_utc : OffsetDateTime -> OffsetDateTime;
}.

(** [serde_json::to_string] on a document. *)
Class JsonText := { json_to_string : json -> result str str }.

Definition SCHEMA_VERSION : Z := 1.
(** [crate::VERSION], the package version of [Cargo.toml]. *)
Definition VERSION : str := lit "0.1.0".

Record CpuMetrics := {
  usage_percent : option f64;
  load_1 : option f64;
  load_5 : option f64;
  load_15 : option f64;
  temperature_c : option f64;
  frequency_mhz : option f64;
}.

Record MemoryMetrics := {
  mem_total_bytes : option Z;
  mem_available_bytes : option Z;
  mem_used_bytes : option Z;
  mem_used_percent : option f64;
}.

Record SwapMetrics := {
  swap_total_bytes : option Z;
  swap_used_bytes : option Z;
  swap_used_percent : option f64;
}.

Record DiskMetrics := {
  mount : str;
  disk_total_bytes : option Z;
  disk_available_bytes : option Z;
  disk_used_bytes : option Z;
  disk_used_percent : option f64;
}.

Record PowerMetrics := {
  throttled_raw : option str;
  undervoltage_now : option bool;
  arm_frequency_capped_now : option bool;
  throttled_now : option bool;
  soft_temperature_limit_now : option bool;
  undervoltage_since_boot : option bool;
  arm_frequency_capped_since_boot : option bool;
  throttled_since_boot : option bool;
  soft_temperature_limit_since_boot : option bool;
}.

(** The [Default] implementations: every measurement unavailable. *)
Definition CpuMetrics_default : CpuMetrics :=
  {| usage_percent := None; load_1 := None; load_5 := None; load_15 := None;
     temperature_c := None; frequency_mhz := None |}.
Definition MemoryMetrics_default : MemoryMetrics :=
  {| mem_total_bytes := None; mem_available_bytes := None; mem_used_bytes := None;
     mem_used_percent := None |}.
Definition SwapMetrics_default : SwapMetrics :=
  {| swap_total_bytes := None; swap_used_bytes := None; swap_used_percent := None |}.
Definition PowerMetrics_default : PowerMetrics :=
  {| throttled_raw := None; undervoltage_now := None; arm_frequency_capped_now := None;
     throttled_now := None; soft_temperature_limit_now := None;
     undervoltage_since_boot := None; arm_frequency_capped_since_boot := None;
     throttled_since_boot := None; soft_temperature_limit_since_boot := None |}.
Definition DiskMetrics_unavailable (mount : str) : DiskMetrics :=
  {| mount := mount; disk_total_bytes := None; disk_available_bytes := None;
     disk_used_bytes := None; disk_used_percent := None |}.

Definition flag_active (flag : option bool) : bool := bool_decide (flag = Some true).

Definition has_current_problem (p : PowerMetrics) : bool :=
  existsb flag_active
    [undervoltage_now p; arm_frequency_capped_now p; throttled_now p;
     soft_temperature_limit_now p].

Definition has_historical_problem (p : PowerMetrics) : bool :=
  existsb flag_active
    [undervoltage_since_boot p; arm_frequency_capped_since_boot p;
     throttled_since_boot p; soft_temperature_limit_since_boot p].

Record CollectorError := { metric : str; message : str }.

#[export] Instance CollectorError_eq_dec : EqDecision CollectorError.
Proof. solve_decision. Defined.

Module HealthStatus.
Inductive t : Type := Ok | Warning | Critical | Degraded.

#[export] Instance eq_dec : EqDecision t.
Proof. solve_decision. Defined.

Definition evaluate (power : PowerMetrics) (has_collector_errors : bool) : t :=
  if has_current_problem power then Critical
  else if has_collector_errors then Degraded
  else if has_historical_problem power then Warning
  else Ok.

(** [serde(rename_all = "lowercase")] *)
Definition name (s : t) : str :=
  match s with
  | Ok => "ok" | Warning => "warning" | Critical => "critical" | Degraded => "degraded"
  end.
End HealthStatus.

Module Health.
Record t := { status : HealthStatus.t; collector_errors : list CollectorError }.

Definition evaluate (power : PowerMetrics) (errors : list CollectorError) : t :=
  {| status := HealthStatus.evaluate power (negb (bool_decide (errors = [])));
     collector_errors := errors |}.

Definition refresh_status (h : t) (power : PowerMetrics) : t :=
  {| status := HealthStatus.evaluate power (negb (bool_decide (collector_errors h = [])));
     collector_errors := collector_errors h |}.
End Health.

Record ServiceMetrics := { version : str; collection_duration_ms : Z }.

Definition ServiceMetrics_new (ms : Z) : ServiceMetrics :=
  {| version := VERSION; collection_duration_ms := ms |}.

Record TelemetryReadings := {
  uptime_seconds : option Z;
  cpu : CpuMetrics;
  memory : MemoryMetrics;
  swap : SwapMetrics;
  disk : DiskMetrics;
  power : PowerMetrics;
}.

Definition TelemetryReadings_unavailable (disk_mount : str) : TelemetryReadings :=
  {| uptime_seconds := None; cpu := CpuMetrics_default; memory := MemoryMetrics_default;
     swap := SwapMetrics_default; disk := DiskMetrics_unavailable disk_mount;
     power := PowerMetrics_default |}.

(** [rounded_metric]; the exponent must fit [i32]. *)
Definition rounded_metric (value : f64) (decimal_places : Z) : option f64 :=
  if negb (is_finite value) then None
  else if 2 ^ 31 - 1 <? decimal_places then None
  else
    let factor := f64_powi (f64_of_Z 10) decimal_places in
    if negb (is_finite factor) then None
    else
      let rounded := f64_div (f64_round (f64_mul value factor)) factor in
      if negb (is_finite rounded) then None
      else Some (if f64_eqb rounded f64_zero then f64_zero else rounded).

Definition serialize_optional_f64 (places : Z) (value : option f64) : result str json :=
  match value with
  | None => Ok JNull
  | Some value =>
    rounded ← ok_or (rounded_metric value places) (lit "measurement must be finite");
    Ok (JFloat rounded)
  end.
Definition serialize_optional_one_decimal : option f64 -> result str json :=
  serialize_optional_f64 1.
Definition serialize_optional_two_decimals : option f64 -> result str json :=
  serialize_optional_f64 2.

(** [deserialize_optional_finite], after [Option::<f64>::deserialize]. *)
Definition deserialize_optional_finite (value : option f64) : result str (option f64) :=
  match value with
  | Some x => if negb (is_finite x) then Err (lit "measurement must be finite") else Ok (Some x)
  | None => Ok None
  end.

(** The derived [Serialize] implementations: every field, in order. *)
Definition json_opt {A} (f : A -> json) (o : option A) : json :=
  match o with None => JNull | Some a => f a end.

Definition serialize_cpu (c : CpuMetrics) : result str json :=
  usage ← serialize_optional_one_decimal (usage_percent c);
  l1 ← serialize_optional_two_decimals (load_1 c);
  l5 ← serialize_optional_two_decimals (load_5 c);
  l15 ← serialize_optional_two_decimals (load_15 c);
  temp ← serialize_optional_one_decimal (temperature_c c);
  freq ← serialize_optional_one_decimal (frequency_mhz c);
  Ok (JObj [("usage_percent", usage); ("load_1", l1); ("load_5", l5); ("load_15", l15);
            ("temperature_c", temp); ("frequency_mhz", freq)]%string).

Definition serialize_memory (m : MemoryMetrics) : result str json :=
  percent ← serialize_optional_one_decimal (mem_used_percent m);
  Ok (JObj [("total_bytes", json_opt JInt (mem_total_bytes m));
            ("available_bytes", json_opt JInt (mem_available_bytes m));
            ("used_bytes", json_opt JInt (mem_used_bytes m));
            ("used_percent", percent)]%string).

Definition serialize_swap (s : SwapMetrics) : result str json :=
  percent ← serialize_optional_one_decimal (swap_used_percent s);
  Ok (JObj [("total_bytes", json_opt JInt (swap_total_bytes s));
            ("used_bytes", json_opt JInt (swap_used_bytes s));
            ("used_percent", percent)]%string).

Definition serialize_disk (d : DiskMetrics) : result str json :=
  percent ← serialize_optional_one_decimal (disk_used_percent d);
  Ok (JObj [("mount", JStr (mount d));
            ("total_bytes", json_opt JInt (disk_total_bytes d));
            ("available_bytes", json_opt JInt (disk_available_bytes d));
            ("used_bytes", json_opt JInt (disk_used_bytes d));
            ("used_percent", percent)]%string).

Definition serialize_power (p : PowerMetrics) : json :=
  JObj [("throttled_raw", json_opt JStr (throttled_raw p));
        ("undervoltage_now", json_opt JBool (undervoltage_now p));
        ("arm_frequency_capped_now", json_opt JBool (arm_frequency_capped_now p));
        ("throttled_now", json_opt JBool (throttled_now p));
        ("soft_temperature_limit_now", json_opt JBool (soft_temperature_limit_now p));
        ("undervoltage_since_boot", json_opt JBool (undervoltage_since_boot p));
        ("arm_frequency_capped_since_boot", json_opt JBool (arm_frequency_capped_since_boot p));
        ("throttled_since_boot", json_opt JBool (throttled_since_boot p));
        ("soft_temperature_limit_since_boot",
          json_opt JBool (soft_temperature_limit_since_boot p))]%string.

Definition serialize_error (e : CollectorError) : json :=
  JObj [("metric", JStr (metric e)); ("message", JStr (message e))]%string.

Definition serialize_health (h : Health.t) : json :=
  JObj [("status", JStr (HealthStatus.name (Health.status h)));
        ("collector_errors", JArr (serialize_error <$> Health.collector_errors h))]%string.

Definition serialize_service (s : ServiceMetrics) : json :=
  JObj [("version", JStr (version s));
        ("collection_duration_ms", JInt (collection_duration_ms s))]%string.

Section state.
Context `{TimeLib}.

Definition ObservationTime : Type := OffsetDateTime.

(** [ObservationTime::parse]: RFC 3339, normalised to UTC. *)
Definition ObservationTime_parse (value : str) : option ObservationTime :=
  to_utc <$> rfc3339_parse value.

Definition serialize_observation_time (t : ObservationTime) : result str json :=
  value ← rfc3339_format t; Ok (JStr value).

Record TelemetryState := {
  schema_version : Z;
  observed_at : ObservationTime;
  state_uptime_seconds : option Z;
  state_cpu : CpuMetrics;
  state_memory : MemoryMetrics;
  state_swap : SwapMetrics;
  state_disk : DiskMetrics;
  state_power : PowerMetrics;
  health : Health.t;
  service : ServiceMetrics;
}.

Definition TelemetryState_new (observed_at : ObservationTime) (readings : TelemetryReadings)
    (collector_errors : list CollectorError) (duration_ms : Z) : TelemetryState :=
  let health := Health.evaluate (power readings) collector_errors in
  {| schema_version := SCHEMA_VERSION;
     observed_at := observed_at;
     state_uptime_seconds := uptime_seconds readings;
     state_cpu := cpu readings;
     state_memory := memory readings;
     state_swap := swap readings;
     state_disk := disk readings;
     state_power := power readings;
     health := health;
     service := ServiceMetrics_new duration_ms |}.

Definition refresh_health (s : TelemetryState) : TelemetryState :=
  {| schema_version := schema_version s;
     observed_at := observed_at s;
     state_uptime_seconds := state_uptime_seconds s;
     state_cpu := state_cpu s;
     state_memory := state_memory s;
     state_swap := state_swap s;
     state_disk := state_disk s;
     state_power := state_power s;
     health := Health.refresh_status (health s) (state_power s);
     service := service s |}.

Definition serialize_state (s : TelemetryState) : result str json :=
  time ← serialize_observation_time (observed_at s);
  cpu ← serialize_cpu (state_cpu s);
  memory ← serialize_memory (state_memory s);
  swap ← serialize_swap (state_swap s);
  disk ← serialize_disk (state_disk s);
  Ok (JObj [("schema_version", JInt (schema_version s));
            ("observed_at", time);
            ("uptime_seconds", json_opt JInt (state_uptime_seconds s));
            ("cpu", cpu);
            ("memory", memory);
            ("swap", swap);
            ("disk", disk);
            ("power", serialize_power (state_power s));
            ("health", serialize_health (health s));
            ("service", serialize_service (service s))]%string).
End state.

(** The source's own vectors for [rounded_metric]. *)
Example rounded_metric_half : rounded_metric (f64_lit "12.345") 2 = parse_f64 (lit "12.35").
Proof. vm_compute. reflexivity. Qed.
Example rounded_metric_neg_zero : rounded_metric (f64_lit "-0.04") 1 = Some f64_zero.
Proof. vm_compute. reflexivity. Qed.
Example rounded_metric_max :
  rounded_metric (S754_finite false (Z.to_pos (2 ^ 53 - 1)) 971) 1 = None
  /\ rounded_metric f64_one (2 ^ 32 - 1) = None.
Proof. split; vm_compute; reflexivity. Qed.

(** ** Rounding of the published measurements *)

Lemma rounded_metric_not_neg_zero x places r :
  rounded_metric x places = Some r -> is_finite r = true /\ r <> S754_zero true.
Proof.
  unfold rounded_metric. intros H. repeat case_match; simplify_eq; [done|].
  split; [by apply negb_false_iff|]. intros E. by rewrite E in *.
Qed.

Lemma rounded_metric_percent p :
  nnf p -> V p <= V percent_hi ->
  exists r, rounded_metric p 1 = Some r /\ nnf r /\ V r <= 100 * scale.
Proof.
  intros Hp HV. pose proof scale_pos as HS. pose proof V_percent_hi as Vhi.
  destruct (f64_of_Z_exact 10) as [H10 V10]; [lia|].
  destruct (f64_of_Z_exact 100) as [H100 V100]; [lia|].
  assert (exists hi, nnf hi /\ V hi * 2 ^ 43 = 4001 * 2 ^ 41 * scale) as (hi & Hhi & Vh).
  { exists (S754_finite false (Z.to_pos (4001 * 2 ^ 41)) (-43)).
    split; [apply nnf_intro; lia|]. rewrite V_of_pos by lia.
    exact (sv_neg (4001 * 2 ^ 41) (-43) 43 eq_refl ltac:(lia)). }
  destruct (f64_mul_between p (f64_of_Z 10) f64_zero hi Hp H10 nnf_zero Hhi) as [HM [_ HMh]].
  { change (V f64_zero) with 0. rewrite V10. pose proof (V_nonneg p Hp).
    assert (10 * V p <= V hi) by lia.
    replace (V p * (10 * scale)) with (10 * V p * scale) by ring.
    split; [|apply Z.mul_le_mono_nonneg_r]; lia. }
  destruct (f64_round_le _ 1000 HM) as [HR HRh]; [lia|lia|].
  destruct (f64_div_between _ (f64_of_Z 10) f64_zero (f64_of_Z 100) HR H10 ltac:(nia) nnf_zero H100)
    as [HD [_ HDh]].
  { change (V f64_zero) with 0. rewrite V10, V100. pose proof (V_nonneg _ HR). nia. }
  assert (f64_powi (f64_of_Z 10) 1 = f64_of_Z 10) as Hpow by (vm_compute; reflexivity).
  unfold rounded_metric. rewrite Hpow, (proj1 (nnf_is_finite p Hp)).
  rewrite (proj1 (nnf_is_finite _ H10)), (proj1 (nnf_is_finite _ HD)). cbn [negb].
  replace (2 ^ 31 - 1 <? 1) with false by (vm_compute; reflexivity).
  eexists. split; [reflexivity|].
  case_match; [split; [apply nnf_zero|change (V f64_zero) with 0; lia]|].
  split; [exact HD|lia].
Qed.

Lemma percent_of_rounds used total :
  0 <= used <= total -> 0 < total <= u64_max ->
  exists r, rounded_metric (percent_of used total) 1 = Some r
    /\ f64_leb f64_zero r = true /\ f64_leb r (f64_of_Z 100) = true
    /\ r <> S754_zero true.
Proof.
  intros Hu Ht. destruct (percent_of_between used total Hu Ht) as [Hp HV].
  destruct (rounded_metric_percent _ Hp HV) as (r & Hr & Hnn & Hle).
  destruct (f64_of_Z_exact 100) as [H100 V100]; [lia|].
  exists r. split_and!; [done| | |by apply (rounded_metric_not_neg_zero _ _ _ Hr)].
  - rewrite f64_leb_V by (done || apply nnf_zero). apply Z.leb_le, V_nonneg, Hnn.
  - rewrite f64_leb_V, V100 by done. by apply Z.leb_le.
Qed.

(** Any measurement below [2^64] in magnitude can be published, at either
    precision the schema uses. *)
Lemma rounded_metric_magnitude x places :
  magnitude_le x 64 -> places = 1 \/ places = 2 -> exists r, rounded_metric x places = Some r.
Proof.
  intros Hx Hp. unfold rounded_metric. rewrite (magnitude_le_finite _ _ Hx). cbn [negb].
  assert (exists c, f64_powi (f64_of_Z 10) places = f64_of_Z c /\ 1 <= c <= 2 ^ 7 /\ places <= 2)
    as (c & Hpow & Hc & Hp2).
  { destruct Hp as [->| ->]; [exists 10|exists 100]; (split; [vm_compute; reflexivity|lia]). }
  rewrite Hpow. replace (2 ^ 31 - 1 <? places) with false by lia.
  destruct (f64_of_Z_exact c ltac:(lia)) as [Hcn Vc]. pose proof scale_pos as HS.
  rewrite (proj1 (nnf_is_finite _ Hcn)). cbn [negb].
  assert (V (f64_of_Z c) <= sv 1 7) as Hc7.
  { rewrite Vc. replace (sv 1 7) with (2 ^ 7 * scale); [apply Z.mul_le_mono_nonneg_r; lia|].
    rewrite <-sv_scale, <-(Z.mul_1_l (2 ^ 7)), sv_shift by lia. done. }
  pose proof (magnitude_le_mul x _ 7 64 Hcn Hc7 ltac:(lia) ltac:(lia) ltac:(lia) Hx) as Hm.
  apply magnitude_le_round in Hm; [|lia].
  apply (magnitude_le_div _ (f64_of_Z c)) in Hm; [|done|rewrite Vc; nia|lia].
  rewrite (magnitude_le_finite _ _ Hm). cbn [negb]. eauto.
Qed.

(** ** Health classification *)

Definition current_problem (p : PowerMetrics) : Prop :=
  undervoltage_now p = Some true \/ arm_frequency_capped_now p = Some true
  \/ throttled_now p = Some true \/ soft_temperature_limit_now p = Some true.

Definition historical_problem (p : PowerMetrics) : Prop :=
  undervoltage_since_boot p = Some true \/ arm_frequency_capped_since_boot p = Some true
  \/ throttled_since_boot p = Some true \/ soft_temperature_limit_since_boot p = Some true.

Lemma flag_active_spec flag : flag_active flag = true <-> flag = Some true.
Proof. unfold flag_active. by rewrite bool_decide_eq_true. Qed.

Lemma has_current_problem_spec p : has_current_problem p = true <-> current_problem p.
Proof.
  unfold has_current_problem, current_problem. simpl.
  rewrite !orb_true_iff, !flag_active_spec. naive_solver.
Qed.

Lemma has_historical_problem_spec p : has_historical_problem p = true <-> historical_problem p.
Proof.
  unfold has_historical_problem, historical_problem. simpl.
  rewrite !orb_true_iff, !flag_active_spec. naive_solver.
Qed.

(** The aggregate status follows the contract's precedence: a
    current problem is critical whatever else happened, a collection failure
    comes next, then a historical flag, and [Ok] means none of the three. *)
Theorem health_evaluate_precedence (p : PowerMetrics) (errors : list CollectorError) :
  match Health.status (Health.evaluate p errors) with
  | HealthStatus.Critical => current_problem p
  | HealthStatus.Degraded => ~ current_problem p /\ errors <> []
  | HealthStatus.Warning => ~ current_problem p /\ errors = [] /\ historical_problem p
  | HealthStatus.Ok => ~ current_problem p /\ errors = [] /\ ~ historical_problem p
  end
  /\ Health.collector_errors (Health.evaluate p errors) = errors
  /\ (forall h, Health.collector_errors h = errors ->
        Health.refresh_status h p = Health.evaluate p errors).
Proof.
  split_and!; [|done|by intros h <-].
  simpl. unfold HealthStatus.evaluate.
  pose proof (has_current_problem_spec p) as Hc. pose proof (has_historical_problem_spec p) as Hh.
  destruct (has_current_problem p); [by apply Hc|].
  assert (~ current_problem p) by (intros ?%Hc; done).
  destruct (bool_decide_reflect (errors = [])); simpl; [|done].
  destruct (has_historical_problem p); split_and!; try done; [by apply Hh|intros ?%Hh; done].
Qed.

(** ** The published document *)

(** JSON pointers, as the contract tests use them. *)
Fixpoint field (name : string) (fields : list (string * json)) : option json :=
  match fields with
  | [] => None
  | (k, v) :: fields => if (k =? name)%string then Some v else field name fields
  end.
Fixpoint pointer (path : list string) (j : json) : option json :=
  match path with
  | [] => Some j
  | name :: path =>
    match j with JObj fields => v ← field name fields; pointer path v | _ => None end
  end.

Definition is_none {A} (o : option A) : bool := match o with None => true | Some _ => false end.

(** Every optional measurement of the payload with whether it is missing. *)
Definition optional_fields `{TimeLib} (s : TelemetryState) : list (list string * bool) :=
  ([(["uptime_seconds"], is_none (state_uptime_seconds s));
    (["cpu"; "usage_percent"], is_none (usage_percent (state_cpu s)));
    (["cpu"; "load_1"], is_none (load_1 (state_cpu s)));
    (["cpu"; "load_5"], is_none (load_5 (state_cpu s)));
    (["cpu"; "load_15"], is_none (load_15 (state_cpu s)));
    (["cpu"; "temperature_c"], is_none (temperature_c (state_cpu s)));
    (["cpu"; "frequency_mhz"], is_none (frequency_mhz (state_cpu s)));
    (["memory"; "total_bytes"], is_none (mem_total_bytes (state_memory s)));
    (["memory"; "available_bytes"], is_none (mem_available_bytes (state_memory s)));
    (["memory"; "used_bytes"], is_none (mem_used_bytes (state_memory s)));
    (["memory"; "used_percent"], is_none (mem_used_percent (state_memory s)));
    (["swap"; "total_bytes"], is_none (swap_total_bytes (state_swap s)));
    (["swap"; "used_bytes"], is_none (swap_used_bytes (state_swap s)));
    (["swap"; "used_percent"], is_none (swap_used_percent (state_swap s)));
    (["disk"; "total_bytes"], is_none (disk_total_bytes (state_disk s)));
    (["disk"; "available_bytes"], is_none (disk_available_bytes (state_disk s)));
    (["disk"; "used_bytes"], is_none (disk_used_bytes (state_disk s)));
    (["disk"; "used_percent"], is_none (disk_used_percent (state_disk s)));
    (["power"; "throttled_raw"], is_none (throttled_raw (state_power s)));
    (["power"; "undervoltage_now"], is_none (undervoltage_now (state_power s)));
    (["power"; "arm_frequency_capped_now"], is_none (arm_frequency_capped_now (state_power s)));
    (["power"; "throttled_now"], is_none (throttled_now (state_power s)));
    (["power"; "soft_temperature_limit_now"],
      is_none (soft_temperature_limit_now (state_power s)));
    (["power"; "undervoltage_since_boot"], is_none (undervoltage_since_boot (state_power s)));
    (["power"; "arm_frequency_capped_since_boot"],
      is_none (arm_frequency_capped_since_boot (state_power s)));
    (["power"; "throttled_since_boot"], is_none (throttled_since_boot (state_power s)));
    (["power"; "soft_temperature_limit_since_boot"],
      is_none (soft_temperature_limit_since_boot (state_power s)))])%string.

Lemma serialize_optional_f64_spec places value j :
  serialize_optional_f64 places value = Ok j ->
  (j = JNull <-> is_none value = true).
Proof.
  destruct value as [x|]; simpl; intros H; simplify_result; [|by simplify_eq].
  destruct (rounded_metric x places); simplify_result; by simplify_eq/=.
Qed.

Lemma json_opt_spec {A} (f : A -> json) o :
  (forall a, f a <> JNull) -> json_opt f o = JNull <-> is_none o = true.
Proof. intros Hf. destruct o; simpl; [split; [by intros ?%Hf|done]|done]. Qed.

(** In every published document each known measurement is
    present, and it is [null] exactly when the measurement is unavailable. *)
Theorem serialize_state_never_omits `{TimeLib} (s : TelemetryState) j :
  serialize_state s = Ok j ->
  Forall (fun '(path, missing) =>
    exists v, pointer path j = Some v /\ (v = JNull <-> missing = true)) (optional_fields s).
Proof.
  intros Hs. unfold serialize_state, serialize_cpu, serialize_memory, serialize_swap,
    serialize_disk, serialize_optional_one_decimal, serialize_optional_two_decimals in Hs.
  repeat match goal with
  | H : _ ≫= _ = Ok _ |- _ => apply result_bind_Ok in H as (? & ? & ?)
  | H : Ok _ = Ok _ |- _ => injection H as <-
  end.
  unfold optional_fields.
  repeat (apply List.Forall_cons || apply List.Forall_nil);
    (eexists; split; [reflexivity|]);
    first [ by eapply serialize_optional_f64_spec | by apply json_opt_spec ].
Qed.

(** The measurements of a payload with their published precision. *)
Definition float_fields `{TimeLib} (s : TelemetryState) : list (option f64 * Z) :=
  [(usage_percent (state_cpu s), 1); (load_1 (state_cpu s), 2); (load_5 (state_cpu s), 2);
   (load_15 (state_cpu s), 2); (temperature_c (state_cpu s), 1);
   (frequency_mhz (state_cpu s), 1); (mem_used_percent (state_memory s), 1);
   (swap_used_percent (state_swap s), 1); (disk_used_percent (state_disk s), 1)].

Definition roundable (x : option f64) (places : Z) : Prop :=
  forall v, x = Some v -> is_Some (rounded_metric v places).

Lemma serialize_optional_f64_ok x places :
  is_ok (serialize_optional_f64 places x) = true <-> roundable x places.
Proof.
  unfold roundable. destruct x as [v|]; simpl; [|naive_solver].
  destruct (rounded_metric v places) eqn:E; simpl; split.
  - intros _ v' [= <-]. eauto.
  - done.
  - done.
  - intros Hv. destruct (Hv v eq_refl). congruence.
Qed.

Lemma is_ok_bind {E A B} (r : result E A) (f : A -> result E B) :
  (forall a, is_ok (f a) = true) -> is_ok (r ≫= f) = is_ok r.
Proof. intros Hf. destruct r; simpl; [by rewrite Hf|done]. Qed.

(** A payload is published exactly when its time has a text
    form and every available measurement survives rounding; nothing else makes
    serialisation fail. *)
Theorem serialize_state_ok_iff `{TimeLib} (s : TelemetryState) :
  is_ok (serialize_state s) = true
  <-> is_ok (rfc3339_format (observed_at s)) = true
      /\ Forall (fun '(x, places) => roundable x places) (float_fields s).
Proof.
  unfold float_fields. rewrite !Forall_cons, Forall_nil, <-!serialize_optional_f64_ok.
  unfold serialize_state, serialize_observation_time, serialize_cpu, serialize_memory,
    serialize_swap, serialize_disk, serialize_optional_one_decimal,
    serialize_optional_two_decimals.
  destruct (rfc3339_format _); simpl; [|split; [done|intros [? _]; done]].
  repeat match goal with
  | |- context [is_ok (serialize_optional_f64 ?p ?x)] =>
      destruct (serialize_optional_f64 p x); simpl; [|split; [done|intros Hok; decompose [and] Hok; discriminate]]
  end.
  split; [intros _; by split_and!|done].
Qed.

(** A [TimeLib] in which a timestamp is its own text. *)
Definition text_time : TimeLib :=
  {| OffsetDateTime := str; rfc3339_parse := Some; rfc3339_format := Ok; to_utc := id |}.

Definition unavailable_state : TelemetryState (H := text_time) :=
  TelemetryState_new (H := text_time) (lit "2026-08-16T12:34:56Z")
    (TelemetryReadings_unavailable (lit "/data"))
    [{| metric := lit "cpu"; message := lit "aggregate CPU line is missing" |}] 7.

Lemma serialize_state_never_omits_witness :
  exists j, serialize_state (H := text_time) unavailable_state = Ok j
    /\ Forall (fun '(path, missing) =>
         exists v, pointer path j = Some v /\ (v = JNull <-> missing = true))
         (optional_fields (H := text_time) unavailable_state).
Proof.
  eexists. split; [reflexivity|].
  apply (serialize_state_never_omits (H := text_time) unavailable_state). reflexivity.
Defined.
