(* ===== verification/ModelRead.v ===== *)
(** * Reading a payload back ([src/src/model.rs])

    The [Deserialize] side of the payload types.  [serde]'s derived
    implementations are written out for the document of [Model]: a struct is read
    from an object, whose unknown fields are ignored, or from an array of its
    fields; a repeated field is an error; a missing one is too, unless it is an
    [Option] read in the default way.  Error texts are not modelled. *)

From S2P Require Import Prelude RustStr RustFloat RustFloatFacts Model.

Local Open Scope Z_scope.

(** ** Values *)

Definition read_u64 (j : json) : option Z :=
  match j with JInt n => if (0 <=? n) && (n <=? u64_max) then Some n else None | _ => None end.
Definition read_u32 (j : json) : option Z :=
  match j with JInt n => if (0 <=? n) && (n <=? u32_max) then Some n else None | _ => None end.
Definition read_f64 (j : json) : option f64 :=
  match j with JInt n => Some (f64_of_Z n) | JFloat x => Some x | _ => None end.
Definition read_string (j : json) : option str := match j with JStr s => Some s | _ => None end.
Definition read_bool (j : json) : option bool := match j with JBool b => Some b | _ => None end.

Definition read_option {A} (read : json -> option A) (j : json) : option (option A) :=
  match j with JNull => Some None | _ => Some <$> read j end.
(** [deserialize_optional_finite] on a document. *)
Definition read_finite (j : json) : option (option f64) :=
  v ← read_option read_f64 j; result_ok (deserialize_optional_finite v).
Definition read_list {A} (read : json -> option A) (j : json) : option (list A) :=
  match j with JArr l => mapM read l | _ => None end.

(** ** Structs *)

Definition occurs (name : string) (fields : list (string * json)) : nat :=
  length (List.filter (fun f => (f.1 =? name)%string) fields).
(** The document of each field of a struct, in the order of its declaration. *)
Definition struct_fields (names : list string) (j : json) : option (list (option json)) :=
  match j with
  | JObj fields =>
    if forallb (fun name => occurs name fields <=? 1)%nat names
    then Some ((fun name => field name fields) <$> names) else None
  | JArr l => if (length l =? length names)%nat then Some (Some <$> l) else None
  | _ => None
  end.
Definition needed {A} (read : json -> option A) (o : option json) : option A := o ≫= read.
Definition defaulted {A} (read : json -> option A) (o : option json) : option (option A) :=
  match o with Some j => read_option read j | None => Some None end.

Definition deserialize_cpu (j : json) : option CpuMetrics :=
  fs ← struct_fields ["usage_percent"; "load_1"; "load_5"; "load_15"; "temperature_c"; "frequency_mhz"]%string j;
  match fs with
  | [usage; l1; l5; l15; temperature; frequency] =>
    usage ← needed read_finite usage; l1 ← needed read_finite l1; l5 ← needed read_finite l5;
    l15 ← needed read_finite l15; temperature ← needed read_finite temperature;
    frequency ← needed read_finite frequency;
    Some {| usage_percent := usage; load_1 := l1; load_5 := l5; load_15 := l15; temperature_c := temperature;
            frequency_mhz := frequency |}
  | _ => None
  end.

Definition deserialize_memory (j : json) : option MemoryMetrics :=
  fs ← struct_fields ["total_bytes"; "available_bytes"; "used_bytes"; "used_percent"]%string j;
  match fs with
  | [total; available; used; percent] =>
    total ← defaulted read_u64 total; available ← defaulted read_u64 available; used ← defaulted read_u64 used;
    percent ← needed read_finite percent;
    Some {| mem_total_bytes := total; mem_available_bytes := available; mem_used_bytes := used;
            mem_used_percent := percent |}
  | _ => None
  end.

Definition deserialize_swap (j : json) : option SwapMetrics :=
  fs ← struct_fields ["total_bytes"; "used_bytes"; "used_percent"]%string j;
  match fs with
  | [total; used; percent] =>
    total ← defaulted read_u64 total; used ← defaulted read_u64 used; percent ← needed read_finite percent;
    Some {| swap_total_bytes := total; swap_used_bytes := used; swap_used_percent := percent |}
  | _ => None
  end.

Definition deserialize_disk (j : json) : option DiskMetrics :=
  fs ← struct_fields ["mount"; "total_bytes"; "available_bytes"; "used_bytes"; "used_percent"]%string j;
  match fs with
  | [mount; total; available; used; percent] =>
    mount ← needed read_string mount; total ← defaulted read_u64 total; available ← defaulted read_u64 available;
    used ← defaulted read_u64 used; percent ← needed read_finite percent;
    Some {| mount := mount; disk_total_bytes := total; disk_available_bytes := available;
            disk_used_bytes := used; disk_used_percent := percent |}
  | _ => None
  end.

Definition deserialize_power (j : json) : option PowerMetrics :=
  fs ← struct_fields ["throttled_raw"; "undervoltage_now"; "arm_frequency_capped_now"; "throttled_now";
         "soft_temperature_limit_now"; "undervoltage_since_boot"; "arm_frequency_capped_since_boot";
         "throttled_since_boot"; "soft_temperature_limit_since_boot"]%string j;
  match fs with
  | [raw; u; a; t; s; u'; a'; t'; s'] =>
    raw ← defaulted read_string raw; u ← defaulted read_bool u; a ← defaulted read_bool a;
    t ← defaulted read_bool t; s ← defaulted read_bool s; u' ← defaulted read_bool u';
    a' ← defaulted read_bool a'; t' ← defaulted read_bool t'; s' ← defaulted read_bool s';
    Some {| throttled_raw := raw; undervoltage_now := u; arm_frequency_capped_now := a; throttled_now := t;
            soft_temperature_limit_now := s; undervoltage_since_boot := u';
            arm_frequency_capped_since_boot := a'; throttled_since_boot := t';
            soft_temperature_limit_since_boot := s' |}
  | _ => None
  end.

Definition deserialize_error (j : json) : option CollectorError :=
  fs ← struct_fields ["metric"; "message"]%string j;
  match fs with
  | [metric; message] =>
    metric ← needed read_string metric; message ← needed read_string message;
    Some {| metric := metric; message := message |}
  | _ => None
  end.

(** A unit variant: its name, or an object with its name and [null]. *)
Definition variant_of (name : str) : option HealthStatus.t :=
  List.find (fun s => bool_decide (HealthStatus.name s = name))
    [HealthStatus.Ok; HealthStatus.Warning; HealthStatus.Critical; HealthStatus.Degraded].
Definition deserialize_status (j : json) : option HealthStatus.t :=
  match j with
  | JStr name => variant_of name
  | JObj [(name, JNull)] => variant_of (lit name)
  | _ => None
  end.

Definition deserialize_health (j : json) : option Health.t :=
  fs ← struct_fields ["status"; "collector_errors"]%string j;
  match fs with
  | [status; errors] =>
    status ← needed deserialize_status status; errors ← needed (read_list deserialize_error) errors;
    Some {| Health.status := status; Health.collector_errors := errors |}
  | _ => None
  end.

Definition deserialize_service (j : json) : option ServiceMetrics :=
  fs ← struct_fields ["version"; "collection_duration_ms"]%string j;
  match fs with
  | [version; duration] =>
    version ← needed read_string version; duration ← needed read_u64 duration;
    Some {| version := version; collection_duration_ms := duration |}
  | _ => None
  end.

Section state.
Context `{TimeLib}.

Definition deserialize_observation_time (j : json) : option ObservationTime :=
  value ← read_string j; ObservationTime_parse value.

Definition deserialize_state (j : json) : option TelemetryState :=
  fs ← struct_fields ["schema_version"; "observed_at"; "uptime_seconds"; "cpu"; "memory"; "swap"; "disk";
         "power"; "health"; "service"]%string j;
  match fs with
  | [schema; time; uptime; cpu; memory; swap; disk; power; health; service] =>
    schema ← needed read_u32 schema; time ← needed deserialize_observation_time time;
    uptime ← defaulted read_u64 uptime; cpu ← needed deserialize_cpu cpu;
    memory ← needed deserialize_memory memory; swap ← needed deserialize_swap swap;
    disk ← needed deserialize_disk disk; power ← needed deserialize_power power;
    health ← needed deserialize_health health; service ← needed deserialize_service service;
    Some {| schema_version := schema; observed_at := time; state_uptime_seconds := uptime; state_cpu := cpu;
            state_memory := memory; state_swap := swap; state_disk := disk; state_power := power;
            health := health; service := service |}
  | _ => None
  end.
End state.

(** ** Reading what was written *)

(** A measurement as it is published. *)
Definition rounded (places : Z) (x : option f64) : option f64 := x ≫= fun v => rounded_metric v places.
Definition u64_field (o : option Z) : Prop := forall n, o = Some n -> is_u64 n.

Definition published_cpu (c : CpuMetrics) : CpuMetrics :=
  {| usage_percent := rounded 1 (usage_percent c); load_1 := rounded 2 (load_1 c); load_5 := rounded 2 (load_5 c);
     load_15 := rounded 2 (load_15 c); temperature_c := rounded 1 (temperature_c c);
     frequency_mhz := rounded 1 (frequency_mhz c) |}.
Definition published_memory (m : MemoryMetrics) : MemoryMetrics :=
  {| mem_total_bytes := mem_total_bytes m; mem_available_bytes := mem_available_bytes m;
     mem_used_bytes := mem_used_bytes m; mem_used_percent := rounded 1 (mem_used_percent m) |}.
Definition published_swap (s : SwapMetrics) : SwapMetrics :=
  {| swap_total_bytes := swap_total_bytes s; swap_used_bytes := swap_used_bytes s;
     swap_used_percent := rounded 1 (swap_used_percent s) |}.
Definition published_disk (d : DiskMetrics) : DiskMetrics :=
  {| mount := mount d; disk_total_bytes := disk_total_bytes d; disk_available_bytes := disk_available_bytes d;
     disk_used_bytes := disk_used_bytes d; disk_used_percent := rounded 1 (disk_used_percent d) |}.

Lemma read_finite_serialized places x j :
  serialize_optional_f64 places x = Ok j -> read_finite j = Some (rounded places x).
Proof.
  unfold serialize_optional_f64, rounded. destruct x as [v|]; intros Hs; simplify_result; subst; [|done].
  match goal with Hr : rounded_metric v places = Some _ |- _ => pose proof (rounded_metric_not_neg_zero _ _ _ Hr) as [Hf _];
    cbn; rewrite Hr, Hf end. done.
Qed.

Lemma read_u64_field o : u64_field o -> defaulted read_u64 (Some (json_opt JInt o)) = Some o.
Proof.
  intros Ho. destruct o as [n|]; [|done]. destruct (Ho n eq_refl). cbn.
  destruct (Z.leb_spec 0 n); [|lia]. destruct (Z.leb_spec n u64_max); [done|lia].
Qed.

Lemma read_bool_field o : defaulted read_bool (Some (json_opt JBool o)) = Some o.
Proof. by destruct o. Qed.

Lemma read_string_field o : defaulted read_string (Some (json_opt JStr o)) = Some o.
Proof. by destruct o. Qed.

(** Finds the fields of a struct in the object written for it, then reads them one
    by one. *)
Ltac read_fields :=
  cbv [struct_fields occurs field forallb List.filter length Nat.leb andb String.eqb Ascii.eqb Bool.eqb fst fmap list_fmap];
  repeat first
    [ erewrite read_finite_serialized by eassumption
    | rewrite read_u64_field by done
    | rewrite read_bool_field | rewrite read_string_field
    | progress cbn [needed mbind option_bind read_string] ].

Lemma read_cpu c j : serialize_cpu c = Ok j -> deserialize_cpu j = Some (published_cpu c).
Proof.
  unfold serialize_cpu. intros Hs. simplify_result. subst j. unfold deserialize_cpu. by read_fields.
Qed.

Lemma read_memory m j :
  u64_field (mem_total_bytes m) -> u64_field (mem_available_bytes m) -> u64_field (mem_used_bytes m) ->
  serialize_memory m = Ok j -> deserialize_memory j = Some (published_memory m).
Proof.
  unfold serialize_memory. intros ??? Hs. simplify_result. subst j. unfold deserialize_memory. by read_fields.
Qed.

Lemma read_swap s j :
  u64_field (swap_total_bytes s) -> u64_field (swap_used_bytes s) ->
  serialize_swap s = Ok j -> deserialize_swap j = Some (published_swap s).
Proof.
  unfold serialize_swap. intros ?? Hs. simplify_result. subst j. unfold deserialize_swap. by read_fields.
Qed.

Lemma read_disk d j :
  u64_field (disk_total_bytes d) -> u64_field (disk_available_bytes d) -> u64_field (disk_used_bytes d) ->
  serialize_disk d = Ok j -> deserialize_disk j = Some (published_disk d).
Proof.
  unfold serialize_disk. intros ??? Hs. simplify_result. subst j. unfold deserialize_disk. by read_fields.
Qed.

Lemma read_power p : deserialize_power (serialize_power p) = Some p.
Proof. unfold serialize_power, deserialize_power. read_fields. by destruct p. Qed.

Lemma read_error e : deserialize_error (serialize_error e) = Some e.
Proof. by destruct e. Qed.

Lemma read_errors es : read_list deserialize_error (JArr (serialize_error <$> es)) = Some es.
Proof. cbn [read_list]. apply mapM_Some. induction es as [|e es IH]; constructor; [apply read_error|exact IH]. Qed.

Lemma read_health h : deserialize_health (serialize_health h) = Some h.
Proof.
  unfold serialize_health, deserialize_health.
  cbv [struct_fields occurs field forallb List.filter length Nat.leb andb String.eqb Ascii.eqb Bool.eqb fst].
  cbn [fmap list_fmap needed mbind option_bind].
  assert (deserialize_status (JStr (HealthStatus.name (Health.status h))) = Some (Health.status h)) as ->
    by by destruct h as [[]].
  cbn [mbind option_bind].
  rewrite read_errors. by destruct h.
Qed.

Lemma read_service s : is_u64 (collection_duration_ms s) -> deserialize_service (serialize_service s) = Some s.
Proof.
  intros Hd. unfold serialize_service, deserialize_service. read_fields.
  pose proof (read_u64_field (Some (collection_duration_ms s))) as Hr. cbn [defaulted json_opt read_option] in Hr.
  destruct (read_u64 (JInt (collection_duration_ms s))); cbn in *; [|discriminate Hr; by intros ? [= <-]].
  injection Hr as ->; [by destruct s|by intros ? [= <-]].
Qed.

Section roundtrip.
Context `{TimeLib}.

Definition published_state (s : TelemetryState) : TelemetryState :=
  {| schema_version := schema_version s; observed_at := observed_at s;
     state_uptime_seconds := state_uptime_seconds s; state_cpu := published_cpu (state_cpu s);
     state_memory := published_memory (state_memory s); state_swap := published_swap (state_swap s);
     state_disk := published_disk (state_disk s); state_power := state_power s; health := health s;
     service := service s |}.

(** The integers of a state are of the types of the source. *)
Definition typed (s : TelemetryState) : Prop :=
  0 <= schema_version s <= u32_max /\ is_u64 (collection_duration_ms (service s))
  /\ Forall u64_field
       [state_uptime_seconds s; mem_total_bytes (state_memory s); mem_available_bytes (state_memory s);
        mem_used_bytes (state_memory s); swap_total_bytes (state_swap s); swap_used_bytes (state_swap s);
        disk_total_bytes (state_disk s); disk_available_bytes (state_disk s); disk_used_bytes (state_disk s)].

(** The floating-point measurements of a state. *)
Definition floats (s : TelemetryState) : list (option f64) :=
  let c := state_cpu s in
  [usage_percent c; load_1 c; load_5 c; load_15 c; temperature_c c; frequency_mhz c;
   mem_used_percent (state_memory s); swap_used_percent (state_swap s); disk_used_percent (state_disk s)].

(** Whatever document is read. *)
Definition finite_field (o : option f64) : Prop := forall v, o = Some v -> is_finite v = true.

Lemma needed_finite o x : needed read_finite o = Some x -> finite_field x.
Proof.
  unfold needed, read_finite. intros (j & _ & (v & _ & Hv)%bind_Some)%bind_Some w ->.
  apply result_ok_Some in Hv. destruct v as [v|]; [|done]. cbn in Hv. destruct (is_finite v) eqn:E; [|done].
  by injection Hv as <-.
Qed.

Lemma read_u64_typed j n : read_u64 j = Some n -> is_u64 n.
Proof. unfold read_u64, is_u64. intros Hn. repeat case_match; simplify_eq. lia. Qed.

Lemma read_option_Some {A} (read : json -> option A) j x :
  read_option read j = Some x -> x = None \/ exists a, read j = Some a /\ x = Some a.
Proof.
  assert (forall k, Some <$> k = Some x -> x = None \/ exists a, k = Some a /\ x = Some a) as Hsome.
  { intros k (a & -> & ->)%fmap_Some. eauto. }
  destruct j; try (by apply Hsome). intros [= <-]. by left.
Qed.

Lemma defaulted_u64 o x : defaulted read_u64 o = Some x -> u64_field x.
Proof.
  intros Hx n ->. destruct o as [j|]; [|done].
  apply read_option_Some in Hx as [?|(a & Ha & [= ->])]; [done|by eapply read_u64_typed].
Qed.

(** Splits [fs ← struct_fields _ j; match fs with ... end = Some _] into the
    results of the fields. *)
Ltac split_fields H :=
  apply bind_Some in H as (? & _ & H); repeat case_match; try discriminate H;
  repeat match type of H with _ ≫= _ = Some _ => apply bind_Some in H as (? & ? & H) end;
  injection H as <-.

Ltac each_field lemma := repeat (apply List.Forall_cons; [by eapply lemma|]); constructor.

Lemma deserialize_cpu_finite j c : deserialize_cpu j = Some c ->
  Forall finite_field [usage_percent c; load_1 c; load_5 c; load_15 c; temperature_c c; frequency_mhz c].
Proof. unfold deserialize_cpu. intros Hc. split_fields Hc. each_field needed_finite. Qed.

Lemma deserialize_memory_typed j m : deserialize_memory j = Some m ->
  Forall u64_field [mem_total_bytes m; mem_available_bytes m; mem_used_bytes m] /\ finite_field (mem_used_percent m).
Proof.
  unfold deserialize_memory. intros Hm. split_fields Hm.
  split; [each_field defaulted_u64|by eapply needed_finite].
Qed.

Lemma deserialize_swap_typed j s : deserialize_swap j = Some s ->
  Forall u64_field [swap_total_bytes s; swap_used_bytes s] /\ finite_field (swap_used_percent s).
Proof.
  unfold deserialize_swap. intros Hs. split_fields Hs.
  split; [each_field defaulted_u64|by eapply needed_finite].
Qed.

Lemma deserialize_disk_typed j d : deserialize_disk j = Some d ->
  Forall u64_field [disk_total_bytes d; disk_available_bytes d; disk_used_bytes d] /\ finite_field (disk_used_percent d).
Proof.
  unfold deserialize_disk. intros Hd. split_fields Hd.
  split; [each_field defaulted_u64|by eapply needed_finite].
Qed.

Lemma needed_u32 o n : needed read_u32 o = Some n -> 0 <= n <= u32_max.
Proof. intros (j & _ & Hj)%bind_Some. unfold read_u32 in Hj. repeat case_match; simplify_eq. lia. Qed.

Lemma deserialize_service_typed o s : needed deserialize_service o = Some s -> is_u64 (collection_duration_ms s).
Proof.
  intros (j & _ & Hj)%bind_Some. unfold deserialize_service in Hj. split_fields Hj.
  match goal with Hn : needed read_u64 _ = Some _ |- _ => apply bind_Some in Hn as (? & _ & Hn); by apply read_u64_typed in Hn end.
Qed.

Lemma deserialize_state_typed j s : deserialize_state j = Some s -> typed s /\ Forall finite_field (floats s).
Proof.
  unfold deserialize_state. intros Hs. split_fields Hs. unfold typed, floats.
  cbn [schema_version service state_uptime_seconds state_cpu state_memory state_swap state_disk].
  repeat match goal with
  | H : needed deserialize_cpu _ = Some _ |- _ => apply bind_Some in H as (? & _ & H); apply deserialize_cpu_finite in H
  | H : needed deserialize_memory _ = Some _ |- _ => apply bind_Some in H as (? & _ & H); apply deserialize_memory_typed in H
  | H : needed deserialize_swap _ = Some _ |- _ => apply bind_Some in H as (? & _ & H); apply deserialize_swap_typed in H
  | H : needed deserialize_disk _ = Some _ |- _ => apply bind_Some in H as (? & _ & H); apply deserialize_disk_typed in H
  | H : defaulted read_u64 _ = Some _ |- _ => apply defaulted_u64 in H
  end.
  rewrite !Forall_cons in *. split; [|tauto]. split; [by eapply needed_u32|]. split; [by eapply deserialize_service_typed|]. tauto.
Qed.

Lemma read_state (s : TelemetryState) (j : json) :
  typed s ->
  (forall text, rfc3339_format (observed_at s) = Ok text -> ObservationTime_parse text = Some (observed_at s)) ->
  serialize_state s = Ok j -> deserialize_state j = Some (published_state s).
Proof.
  intros (Hv & Hd & Hu) Htime Hs. rewrite !Forall_cons in Hu. destruct Hu as (Hu & M1 & M2 & M3 & S1 & S2 & D1 & D2 & D3 & _).
  unfold serialize_state, serialize_observation_time in Hs. simplify_result. subst. unfold deserialize_state.
  cbv [struct_fields occurs field forallb List.filter length Nat.leb andb String.eqb Ascii.eqb Bool.eqb fst fmap list_fmap].
  cbn [needed mbind option_bind].
  assert (read_u32 (JInt (schema_version s)) = Some (schema_version s)) as ->.
  { cbn. destruct (Z.leb_spec 0 (schema_version s)); [|lia]. by destruct (Z.leb_spec (schema_version s) u32_max); [|lia]. }
  cbn [mbind option_bind]. unfold deserialize_observation_time at 1. cbn [read_string mbind option_bind].
  rewrite (Htime _ ltac:(eassumption)). cbn [mbind option_bind]. rewrite read_u64_field by done.
  cbn [mbind option_bind].
  erewrite read_cpu, read_memory, read_swap, read_disk, read_power, read_health, read_service by eassumption. done.
Qed.

(** C34: a published payload says what was measured: reading the document
    back gives the state it was made from, the time included, with its
    measurements rounded as documented and nothing else changed.  Whatever
    document is read, its integers are of their types and its measurements
    finite. *)
Theorem deserialize_state_roundtrip :
  (forall s j, typed s ->
     (forall text, rfc3339_format (observed_at s) = Ok text -> ObservationTime_parse text = Some (observed_at s)) ->
     serialize_state s = Ok j -> deserialize_state j = Some (published_state s))
  /\ (forall j s, deserialize_state j = Some s -> typed s /\ Forall finite_field (floats s)).
Proof. split; [exact read_state|exact deserialize_state_typed]. Qed.
End roundtrip.

Definition measured_state : TelemetryState (H := text_time) :=
  TelemetryState_new (H := text_time) (lit "2026-08-16T12:34:56Z")
    {| uptime_seconds := Some 4242;
       cpu := {| usage_percent := Some (f64_lit "12.34"); load_1 := Some (f64_lit "0.126"); load_5 := None; load_15 := None;
                 temperature_c := Some (f64_lit "48.3"); frequency_mhz := None |};
       memory := MemoryMetrics_default; swap := SwapMetrics_default; disk := DiskMetrics_unavailable (lit "/");
       power := PowerMetrics_default |}
    [{| metric := lit "disk"; message := lit "filesystem statistics are unavailable or inconsistent" |}] 7.

Lemma deserialize_state_roundtrip_witness :
  exists j, serialize_state (H := text_time) measured_state = Ok j
    /\ deserialize_state (H := text_time) j = Some (published_state (H := text_time) measured_state)
    /\ usage_percent (state_cpu (published_state (H := text_time) measured_state)) = Some (f64_lit "12.3").
Proof.
  destruct (serialize_state (H := text_time) measured_state) as [j|e] eqn:E; [|vm_compute in E; discriminate E].
  exists j. split; [done|]. split; [|vm_compute; reflexivity].
  apply (proj1 (deserialize_state_roundtrip (H := text_time))); [| |exact E].
  - split; [vm_compute; by split|]. split; [vm_compute; by split|].
    repeat (apply List.Forall_cons; [intros n [= <-]; vm_compute; by split|]). 
    repeat (apply List.Forall_cons; [by intros n|]). constructor.
  - intros text Ht. injection Ht as <-. reflexivity.
Defined.
