(* ===== verification/MetricsError.v ===== *)
(** * Parse errors ([src/src/metrics/mod.rs])

    The error every metric parser returns, and its display form. *)

From S2P Require Import Prelude RustStr.

Record ParseError := { source_name : str; detail : str }.

#[export] Instance ParseError_eq_dec : EqDecision ParseError.
Proof. solve_decision. Defined.

Definition ParseError_new (source_name detail : str) : ParseError :=
  {| source_name := source_name; detail := detail |}.

(** [Display for ParseError]. *)
Definition ParseError_display (e : ParseError) : str :=
  lit "could not parse " ++ source_name e ++ lit ": " ++ detail e.

Example ParseError_display_example :
  ParseError_display (ParseError_new (lit "test metric") (lit "missing value"))
  = lit "could not parse test metric: missing value".
Proof. reflexivity. Qed.
