(* ===== verification/MetricsCpu.v ===== *)
(** * CPU metrics ([src/src/metrics/cpu.rs])

    Aggregate counters of [/proc/stat], utilisation between two samples, load
    averages and the CPU frequency. *)

From S2P Require Import Prelude RustStr RustFloat RustFloatFacts Model MetricsError.

Local Open Scope Z_scope.

Definition PROC_STAT : str := lit "/proc/stat".
Definition PROC_LOADAVG : str := lit "/proc/loadavg".
Definition CPU_FREQUENCY : str := lit "CPU frequency".

Record CpuTimes := {
  user : Z; nice : Z; system : Z; idle : Z;
  io_wait : Z; irq : Z; soft_irq : Z; steal : Z;
}.

#[export] Instance CpuTimes_eq_dec : EqDecision CpuTimes.
Proof. solve_decision. Defined.

(** The counters in the order of the arrays of the source. *)
Definition counters (t : CpuTimes) : list Z :=
  [user t; nice t; system t; idle t; io_wait t; irq t; soft_irq t; steal t].

Definition counter_names : list str :=
  lit <$> ["user"; "nice"; "system"; "idle"; "iowait"; "irq"; "softirq"; "steal"]%string.

Fixpoint checked_sum_go (total : Z) (values : list Z) (overflow_detail : str) :
    result ParseError Z :=
  match values with
  | [] => Ok total
  | v :: vs =>
    total ← ok_or (checked_add total v) (ParseError_new PROC_STAT overflow_detail);
    checked_sum_go total vs overflow_detail
  end.
Definition checked_sum : list Z -> str -> result ParseError Z := checked_sum_go 0.

Definition idle_jiffies (t : CpuTimes) : result ParseError Z :=
  ok_or (checked_add (idle t) (io_wait t))
    (ParseError_new PROC_STAT (lit "the aggregate idle counter overflowed u64")).

Definition total_jiffies (t : CpuTimes) : result ParseError Z :=
  checked_sum (counters t) (lit "the aggregate CPU counter overflowed u64").

Record LoadAverage := { one_minute : f64; five_minutes : f64; fifteen_minutes : f64 }.

(** The counter loop of [parse_proc_stat]: one field per name. *)
Fixpoint parse_counters (names : list str) (fields : list str) : result ParseError (list Z) :=
  match names with
  | [] => Ok []
  | name :: names =>
    raw ← ok_or (head fields)
            (ParseError_new PROC_STAT (lit "the " ++ name ++ lit " counter is missing"));
    value ← ok_or (parse_u64 raw)
              (ParseError_new PROC_STAT (lit "the " ++ name ++ lit " counter is not a u64"));
    values ← parse_counters names (tail fields);
    Ok (value :: values)
  end.

Definition is_cpu_line (line : str) : bool :=
  bool_decide (head (split_whitespace line) = Some (lit "cpu")).

Definition parse_proc_stat (input : str) : result ParseError CpuTimes :=
  line ← ok_or (List.find is_cpu_line (lines input))
           (ParseError_new PROC_STAT (lit "the aggregate cpu line is missing"));
  values ← parse_counters counter_names (tail (split_whitespace line));
  let counters := fun index => nth index values 0 in
  Ok {| user := counters 0%nat; nice := counters 1%nat; system := counters 2%nat;
        idle := counters 3%nat; io_wait := counters 4%nat; irq := counters 5%nat;
        soft_irq := counters 6%nat; steal := counters 7%nat |}.

(** The delta loop of [usage_percent]. *)
Fixpoint counter_deltas (names : list str) (old new : list Z) : result ParseError (list Z) :=
  match names, old, new with
  | name :: names, o :: old, n :: new =>
    d ← ok_or (checked_sub n o)
          (ParseError_new PROC_STAT (lit "the " ++ name ++ lit " counter moved backwards"));
    ds ← counter_deltas names old new;
    Ok (d :: ds)
  | _, _, _ => Ok []
  end.

Definition usage_percent (previous current : CpuTimes) : result ParseError (option f64) :=
  delta ← counter_deltas counter_names (counters previous) (counters current);
  idle_delta ← ok_or (checked_add (nth 3 delta 0) (nth 4 delta 0))
                 (ParseError_new PROC_STAT (lit "the aggregate idle delta overflowed u64"));
  total_delta ← checked_sum delta (lit "the aggregate CPU delta overflowed u64");
  if total_delta =? 0 then Ok None
  else
    busy_delta ← ok_or (checked_sub total_delta idle_delta)
                   (ParseError_new PROC_STAT (lit "the idle delta exceeded the total CPU delta"));
    Ok (Some (f64_div (f64_mul (f64_of_Z 100) (f64_of_Z busy_delta)) (f64_of_Z total_delta))).

Definition parse_non_negative_float (raw : option str) (name : str) : result ParseError f64 :=
  raw ← ok_or raw (ParseError_new PROC_LOADAVG (name ++ lit " is missing"));
  value ← ok_or (parse_f64 raw) (ParseError_new PROC_LOADAVG (name ++ lit " is not a number"));
  if negb (is_finite value) || is_sign_negative value
  then Err (ParseError_new PROC_LOADAVG (name ++ lit " must be finite and non-negative"))
  else Ok value.

Definition parse_loadavg (input : str) : result ParseError LoadAverage :=
  let fields := split_whitespace input in
  one ← parse_non_negative_float (fields !! 0%nat) (lit "one-minute load");
  five ← parse_non_negative_float (fields !! 1%nat) (lit "five-minute load");
  fifteen ← parse_non_negative_float (fields !! 2%nat) (lit "fifteen-minute load");
  Ok {| one_minute := one; five_minutes := five; fifteen_minutes := fifteen |}.

Definition parse_frequency_khz (input : str) : result ParseError f64 :=
  let fields := split_whitespace input in
  raw ← ok_or (fields !! 0%nat) (ParseError_new CPU_FREQUENCY (lit "the value is missing"));
  if bool_decide (is_Some (fields !! 1%nat))
  then Err (ParseError_new CPU_FREQUENCY (lit "the value contains unexpected fields"))
  else
    kilohertz ← ok_or (parse_u64 raw)
                  (ParseError_new CPU_FREQUENCY (lit "the value is not an unsigned integer"));
    Ok (f64_div (f64_of_Z kilohertz) (f64_of_Z 1000)).

(** ** Sums and differences of counters *)

Definition sum (vs : list Z) : Z := foldr Z.add 0 vs.

Definition valid_times (t : CpuTimes) : Prop := Forall is_u64 (counters t).

Lemma sum_nonneg vs : Forall (Z.le 0) vs -> 0 <= sum vs.
Proof. induction 1; simpl; lia. Qed.

Lemma checked_sum_go_Ok total vs d r :
  0 <= total <= u64_max -> Forall (Z.le 0) vs ->
  checked_sum_go total vs d = Ok r <-> r = total + sum vs /\ total + sum vs <= u64_max.
Proof.
  intros Ht Hvs. revert total Ht. induction Hvs as [|v vs Hv Hvs IH]; intros total Ht; simpl.
  - split; [intros [= <-]; lia|intros [-> _]; f_equal; lia].
  - pose proof (sum_nonneg vs Hvs). destruct (checked_add total v) as [t'|] eqn:E; simplify_checked; simpl.
    + subst t'. rewrite IH by lia. unfold sum. rewrite !Z.add_assoc. done.
    + split; [done|]. unfold sum in *. lia.
Qed.

Lemma checked_sum_Ok vs d r :
  Forall (Z.le 0) vs -> checked_sum vs d = Ok r <-> r = sum vs /\ sum vs <= u64_max.
Proof. intros. unfold checked_sum. by rewrite checked_sum_go_Ok by (done || unfold u64_max; lia). Qed.

Definition delta_of (old new : list Z) : list Z := zip_with (fun o n => n - o) old new.

Lemma counter_deltas_Ok names old new ds :
  length old = length names -> length new = length names ->
  counter_deltas names old new = Ok ds <-> Forall2 Z.le old new /\ ds = delta_of old new.
Proof.
  revert old new ds. induction names as [|name names IH]; intros [|o old] [|n new] ds Ho Hn;
    simplify_eq/=.
  { split; [intros [= <-]; by split; [constructor|]|by intros [_ ->]]. }
  rewrite Forall2_cons. destruct (checked_sub n o) as [d|] eqn:E; simplify_checked; simpl.
  - subst d. rewrite result_bind_Ok. setoid_rewrite IH; [|done..]. split.
    + intros (ds' & [? ->] & [= <-]). done.
    + intros [[? ?] ->]. eauto.
  - split; [done|]. intros [[? _] _]. lia.
Qed.

(** The first counter that moved backwards names the error. *)
Lemma counter_deltas_Err names old new e :
  length old = length names -> length new = length names ->
  counter_deltas names old new = Err e ->
  exists i name o n, names !! i = Some name /\ old !! i = Some o /\ new !! i = Some n /\ n < o
    /\ e = ParseError_new PROC_STAT (lit "the " ++ name ++ lit " counter moved backwards")
    /\ Forall2 Z.le (take i old) (take i new).
Proof.
  revert old new. induction names as [|name names IH]; intros [|o old] [|n new] Ho Hn He;
    simplify_eq/=.
  destruct (checked_sub n o) as [d|] eqn:E; simplify_checked; simpl in He.
  - destruct (counter_deltas names old new) as [ds|e'] eqn:Ed; simplify_eq/=.
    destruct (IH old new) as (i & name' & o' & n' & ? & ? & ? & ? & ? & ?); [done..|].
    exists (S i), name', o', n'. split_and!; try done. simpl. constructor; [lia|done].
  - simplify_eq/=. exists 0%nat, name, o, n. by split_and!.
Qed.

Lemma delta_nonneg old new : Forall2 Z.le old new -> Forall (Z.le 0) (delta_of old new).
Proof. induction 1; simpl; constructor; [lia|done]. Qed.

(** C35: utilisation between two samples, on every branch.  An error names
    a counter that moved backwards or reports a delta beyond [u64]; [None] means
    that no counter advanced; otherwise the percentage is that of the busy part
    of the elapsed jiffies, busy being at most the total. *)
Theorem usage_percent_spec (previous current : CpuTimes) :
  valid_times previous -> valid_times current ->
  let old := counters previous in
  let new := counters current in
  let total := sum new - sum old in
  let busy := total - (idle current + io_wait current - (idle previous + io_wait previous)) in
  match usage_percent previous current with
  | Ok None => current = previous
  | Ok (Some x) =>
      Forall2 Z.le old new /\ 0 <= busy <= total /\ 0 < total <= u64_max
      /\ x = percent_of busy total
  | Err e => ~ Forall2 Z.le old new \/ u64_max < total
  end.
Proof.
  intros Hp Hc old new total busy.
  destruct previous as [a0 a1 a2 a3 a4 a5 a6 a7], current as [b0 b1 b2 b3 b4 b5 b6 b7].
  unfold usage_percent. fold old new.
  destruct (counter_deltas counter_names old new) as [delta|e] eqn:Ed; simpl.
  2: { left. intros Hle.
       assert (counter_deltas counter_names old new = Ok (delta_of old new))
         by (apply counter_deltas_Ok; done). congruence. }
  apply counter_deltas_Ok in Ed as [Hle ->]; [|done..].
  pose proof (delta_nonneg _ _ Hle) as Hpos.
  unfold old, new in *. unfold counters, delta_of in *.
  cbn [user nice system idle io_wait irq soft_irq steal zip_with nth] in *.
  repeat match goal with H : Forall2 _ (_ :: _) _ |- _ => apply Forall2_cons_1 in H as [? H] end.
  cbn [sum foldr] in total. unfold total, busy, sum in *.
  destruct (checked_add (b3 - a3) (b4 - a4)) eqn:Ei; simplify_checked; simpl; [|right; simpl; lia].
  destruct (checked_sum _ _) as [t|e] eqn:Et.
  2: { right. simpl. destruct (Z.le_gt_cases (sum [b0 - a0; b1 - a1; b2 - a2; b3 - a3; b4 - a4; b5 - a5; b6 - a6; b7 - a7]) u64_max) as [Hs|Hs].
       - rewrite (proj2 (checked_sum_Ok _ _ _ Hpos) (conj eq_refl Hs)) in Et. done.
       - simpl in *. lia. }
  apply checked_sum_Ok in Et as [-> Ht]; [|done]. simpl in *.
  match goal with |- context [if ?x =? 0 then _ else _] => destruct (Z.eqb_spec x 0) as [E0|E0] end.
  - clear Hp Hc Hpos. subst total busy.
    assert (b0 = a0 /\ b1 = a1 /\ b2 = a2 /\ b3 = a3 /\ b4 = a4 /\ b5 = a5 /\ b6 = a6 /\ b7 = a7)
      as (-> & -> & -> & -> & -> & -> & -> & ->) by lia.
    done.
  - destruct (checked_sub _ _) eqn:Es; simplify_checked; simpl; [|lia].
    subst. split_and!; try lia.
    + repeat (constructor; [lia|]). constructor.
    + unfold percent_of.
      match goal with
      | |- f64_div (f64_mul _ (f64_of_Z ?a)) (f64_of_Z ?b)
           = f64_div (f64_mul _ (f64_of_Z ?c)) (f64_of_Z ?d) =>
          replace c with a by lia; replace d with b by lia; reflexivity
      end.
Qed.

Lemma usage_percent_spec_witness :
  let p := Build_CpuTimes 100 0 0 850 0 0 0 50 in
  let c := Build_CpuTimes 150 0 50 900 50 0 0 50 in
  (valid_times p /\ valid_times c)
  /\ exists x, usage_percent p c = Ok (Some x)
     /\ Forall2 Z.le (counters p) (counters c) /\ x = percent_of 100 200.
Proof.
  cbv zeta. assert (forall t, Forall is_u64 (counters t) -> valid_times t) as Hv by done.
  assert (valid_times (Build_CpuTimes 100 0 0 850 0 0 0 50)) as H1
    by (apply Hv; repeat constructor; unfold u64_max; simpl; lia).
  assert (valid_times (Build_CpuTimes 150 0 50 900 50 0 0 50)) as H2
    by (apply Hv; repeat constructor; unfold u64_max; simpl; lia).
  split; [done|]. pose proof (usage_percent_spec _ _ H1 H2) as Hs.
  destruct (usage_percent (Build_CpuTimes 100 0 0 850 0 0 0 50)
    (Build_CpuTimes 150 0 50 900 50 0 0 50)) as [[x|]|e] eqn:E.
  - exists x. split; [done|]. destruct Hs as (Hle & _ & _ & ->). by split.
  - vm_compute in E. discriminate E.
  - vm_compute in E. discriminate E.
Defined.

(** ** Parsing [/proc/stat] *)

Lemma parse_counters_ok names fields values :
  length names = length values -> Forall is_u64 values ->
  (exists rest, fields = (to_string <$> values) ++ rest) ->
  parse_counters names fields = Ok values.
Proof.
  revert fields values. induction names as [|name names IH]; intros fields [|v values] Hl Hv [rest ->];
    simplify_eq/=; [done|].
  apply Forall_cons in Hv as [Hv Hvs]. rewrite parse_u64_to_string by done. simpl.
  rewrite IH with (values := values) by eauto. done.
Qed.

(** A kernel [/proc/stat]: other lines, then the aggregate line with the
    counters and any further fields. *)
Definition render_cpu_line (t : CpuTimes) (extra : list str) : str :=
  lit "cpu" ++ spaced ((to_string <$> counters t) ++ extra).

(** The aggregate counters are read back exactly, whatever lines
    precede the aggregate line and whatever fields or lines follow it. *)
Theorem parse_proc_stat_roundtrip (t : CpuTimes) (before : list str) (extra : list str) (rest : str) :
  valid_times t ->
  Forall (none (Z.eqb 10)) before ->
  Forall (fun l => is_cpu_line (strip_cr l) = false) before ->
  Forall word extra ->
  parse_proc_stat (terminated before (render_cpu_line t extra ++ 10 :: rest)) = Ok t.
Proof.
  intros Ht Hb Hcpu He. unfold parse_proc_stat.
  assert (Forall word ((to_string <$> counters t) ++ extra)) as Hw.
  { apply Forall_app. split; [|done]. apply Forall_fmap, Forall_true. apply word_to_string. }
  assert (word (lit "cpu")) as Hlabel by (split; [done|by repeat constructor]).
  pose proof (spaced_no_newline _ Hw) as [Hn10 Hn13].
  assert (none (Z.eqb 10) (render_cpu_line t extra)) as H10
    by (apply none_app; split; [by repeat constructor|done]).
  assert (none (Z.eqb 13) (render_cpu_line t extra)) as H13
    by (apply none_app; split; [by repeat constructor|done]).
  rewrite lines_terminated, lines_cons, strip_cr_none by done.
  rewrite find_app_skip by by apply Forall_fmap.
  assert (split_whitespace (render_cpu_line t extra)
          = lit "cpu" :: (to_string <$> counters t) ++ extra) as Hsplit
    by by apply split_whitespace_spaced_after.
  assert (is_cpu_line (render_cpu_line t extra) = true) as Hcl
    by (unfold is_cpu_line; rewrite Hsplit; by apply bool_decide_eq_true).
  cbn [app List.find]. rewrite Hcl. cbn [ok_or mbind result_bind]. rewrite Hsplit. cbn [tail].
  rewrite parse_counters_ok with (values := counters t) by (done || eauto).
  by destruct t.
Qed.

Lemma parse_proc_stat_roundtrip_witness :
  parse_proc_stat (terminated [lit "cpu0 9 9 9 9 9 9 9 9"]
    (render_cpu_line (Build_CpuTimes 1 2 3 4 5 6 7 8) [lit "9"; lit "10"] ++ 10 :: lit "intr 5"))
  = Ok (Build_CpuTimes 1 2 3 4 5 6 7 8).
Proof.
  apply parse_proc_stat_roundtrip.
  - repeat constructor; unfold u64_max; simpl; lia.
  - by repeat constructor.
  - by repeat constructor.
  - repeat constructor; done.
Defined.

(** Load averages that are accepted are finite and not negative. *)
Lemma parse_non_negative_float_ok raw name x :
  parse_non_negative_float raw name = Ok x -> is_finite x = true /\ is_sign_negative x = false.
Proof.
  unfold parse_non_negative_float. intros H. simplify_result.
  destruct (is_finite _) eqn:?, (is_sign_negative _) eqn:?; simplify_eq/=; done.
Qed.

(** Every accepted clock frequency can be published. *)
Lemma parse_frequency_khz_published input x :
  parse_frequency_khz input = Ok x -> exists r, rounded_metric x 1 = Some r.
Proof.
  unfold parse_frequency_khz. intros H. simplify_result.
  destruct (bool_decide _); simplify_result. subst.
  apply rounded_metric_magnitude; [|by left].
  match goal with Hp : parse_u64 _ = Some _ |- _ => apply parse_u64_bounds in Hp as [? Hmax] end.
  unfold u64_max in Hmax. destruct (f64_of_Z_exact 1000 ltac:(lia)) as [Hn HV].
  pose proof scale_pos. apply magnitude_le_div; [done|rewrite HV; lia|lia|].
  apply magnitude_le_of_Z; lia.
Qed.

Lemma counter_deltas_nonneg names old new ds :
  counter_deltas names old new = Ok ds -> Forall (Z.le 0) ds.
Proof.
  revert old new ds. induction names as [|n names IH]; intros [|o old] [|x new] ds H;
    simpl in H; simplify_eq/=; try constructor.
  all: simplify_result; simplify_checked; subst; constructor; [lia|eauto].
Qed.

Lemma nth_nonneg vs i : Forall (Z.le 0) vs -> 0 <= nth i vs 0.
Proof. intros H. revert i. induction H; intros [|i]; simpl; eauto with lia. Qed.

(** Every utilisation that is computed can be published. *)
Lemma usage_percent_published previous current x :
  usage_percent previous current = Ok (Some x) -> exists r, rounded_metric x 1 = Some r.
Proof.
  unfold usage_percent. intros H. apply result_bind_Ok in H as (delta & Hd & H).
  apply counter_deltas_nonneg in Hd as Hn.
  apply result_bind_Ok in H as (idle & Hi & H). apply result_bind_Ok in H as (total & Ht & H).
  apply ok_or_Ok in Hi. simplify_checked.
  apply checked_sum_Ok in Ht as [-> Ht]; [|done].
  destruct (Z.eqb_spec (sum delta) 0); [done|].
  apply result_bind_Ok in H as (busy & Hb & [= <-]). apply ok_or_Ok in Hb. simplify_checked.
  pose proof (nth_nonneg _ 3 Hn). pose proof (nth_nonneg _ 4 Hn). pose proof (sum_nonneg _ Hn).
  destruct (percent_of_rounds busy (sum delta) ltac:(lia) ltac:(lia)) as (r & Hr & _). eauto.
Qed.
