(* ===== verification/MetricsMemory.v ===== *)
(** * Memory metrics ([src/src/metrics/memory.rs])

    [/proc/meminfo] parsing, the legacy fallback for [MemAvailable] and the
    utilisation of memory and swap. *)

From S2P Require Import Prelude RustStr RustFloat RustFloatFacts Model MetricsError.

Local Open Scope Z_scope.

Definition PROC_MEMINFO : str := lit "/proc/meminfo".
Definition BYTES_PER_KIBIBYTE : Z := 1024.

Definition error {A} (detail : str) : result ParseError A := Err (ParseError_new PROC_MEMINFO detail).

Module Memory.
Record MemoryMetrics := {
  total_bytes : Z;
  available_bytes : Z;
  used_bytes : Z;
  used_percent : f64;
  swap_total_bytes : Z;
  swap_free_bytes : Z;
  swap_used_bytes : Z;
  swap_used_percent : f64;
}.
End Memory.

(** The keys that matter; the returned [&'static str] is a Rocq string. *)
Definition canonical_keys : list string :=
  ["MemTotal"; "MemAvailable"; "MemFree"; "Buffers"; "Cached"; "SReclaimable"; "Shmem";
   "SwapTotal"; "SwapFree"]%string.
Definition canonical_key (key : str) : option string :=
  List.find (fun k => bool_decide (key = lit k)) canonical_keys.

Definition parse_kib_value (raw : str) (key : string) : result ParseError Z :=
  let fields := split_whitespace raw in
  value ← ok_or (fields !! 0%nat) (ParseError_new PROC_MEMINFO (lit key ++ lit " has no value"));
  value ← ok_or (parse_u64 value)
            (ParseError_new PROC_MEMINFO (lit key ++ lit " is not an unsigned integer"));
  if negb (bool_decide (fields !! 1%nat = Some (lit "kB"))) || bool_decide (is_Some (fields !! 2%nat))
  then error (lit key ++ lit " must use the kB unit")
  else Ok value.

(** The loop of [parse_relevant_values]. *)
Fixpoint parse_relevant_lines (values : gmap string Z) (ls : list str) :
    result ParseError (gmap string Z) :=
  match ls with
  | [] => Ok values
  | line :: ls =>
    match split_once 58 line with
    | None => parse_relevant_lines values ls
    | Some (raw_key, raw_value) =>
      match canonical_key (trim raw_key) with
      | None => parse_relevant_lines values ls
      | Some key =>
        match values !! key with
        | Some _ => error (lit key ++ lit " appears more than once")
        | None =>
          value ← parse_kib_value raw_value key;
          parse_relevant_lines (<[key := value]> values) ls
        end
      end
    end
  end.
Definition parse_relevant_values (input : str) : result ParseError (gmap string Z) :=
  parse_relevant_lines ∅ (lines input).

Definition required (values : gmap string Z) (key : string) : result ParseError Z :=
  ok_or (values !! key) (ParseError_new PROC_MEMINFO (lit key ++ lit " is missing")).

Fixpoint checked_kib_sum_go (total : Z) (values : list Z) : result ParseError Z :=
  match values with
  | [] => Ok total
  | v :: vs =>
    total ← ok_or (checked_add total v)
              (ParseError_new PROC_MEMINFO (lit "the available-memory fallback overflowed u64"));
    checked_kib_sum_go total vs
  end.
Definition checked_kib_sum : list Z -> result ParseError Z := checked_kib_sum_go 0.

Definition fallback_available_kib (values : gmap string Z) : result ParseError Z :=
  free ← required values "MemFree";
  buffers ← required values "Buffers";
  cached ← required values "Cached";
  reclaimable ← required values "SReclaimable";
  shared ← required values "Shmem";
  (fun sum => saturating_sub sum shared) <$> checked_kib_sum [free; buffers; cached; reclaimable].

Definition kib_to_bytes (value : Z) (key : string) : result ParseError Z :=
  ok_or (checked_mul value BYTES_PER_KIBIBYTE)
    (ParseError_new PROC_MEMINFO (lit key ++ lit " overflows bytes as u64")).

Definition percentage (used total : Z) : f64 :=
  if total =? 0 then f64_zero
  else f64_div (f64_mul (f64_of_Z 100) (f64_of_Z used)) (f64_of_Z total).

Definition parse_meminfo (input : str) : result ParseError Memory.MemoryMetrics :=
  values ← parse_relevant_values input;
  total_kib ← required values "MemTotal";
  if total_kib =? 0 then error (lit "MemTotal must be greater than zero")
  else
    available_kib ← match values !! "MemAvailable"%string with
                    | Some value => Ok value
                    | None => fallback_available_kib values
                    end;
    let available_kib := Z.min available_kib total_kib in
    swap_total_kib ← required values "SwapTotal";
    swap_free_kib ← required values "SwapFree";
    let swap_free_kib := Z.min swap_free_kib swap_total_kib in
    total_bytes ← kib_to_bytes total_kib "MemTotal";
    available_bytes ← kib_to_bytes available_kib "MemAvailable";
    used_bytes ← ok_or (checked_sub total_bytes available_bytes)
                   (ParseError_new PROC_MEMINFO (lit "available memory exceeded total memory"));
    swap_total_bytes ← kib_to_bytes swap_total_kib "SwapTotal";
    swap_free_bytes ← kib_to_bytes swap_free_kib "SwapFree";
    swap_used_bytes ← ok_or (checked_sub swap_total_bytes swap_free_bytes)
                        (ParseError_new PROC_MEMINFO (lit "free swap exceeded total swap"));
    Ok {| Memory.total_bytes := total_bytes;
          Memory.available_bytes := available_bytes;
          Memory.used_bytes := used_bytes;
          Memory.used_percent := percentage used_bytes total_bytes;
          Memory.swap_total_bytes := swap_total_bytes;
          Memory.swap_free_bytes := swap_free_bytes;
          Memory.swap_used_bytes := swap_used_bytes;
          Memory.swap_used_percent := percentage swap_used_bytes swap_total_bytes |}.

(** ** Values read from the file *)

Definition u64_values (values : gmap string Z) : Prop := map_Forall (fun _ v => is_u64 v) values.

Lemma parse_kib_value_u64 raw key v : parse_kib_value raw key = Ok v -> is_u64 v.
Proof.
  unfold parse_kib_value. intros H. simplify_result.
  destruct (_ || _) eqn:?; simplify_eq/=. unfold error in *. simplify_result. subst. eauto with rpi.
Qed.

Lemma parse_relevant_lines_u64 values ls values' :
  u64_values values -> parse_relevant_lines values ls = Ok values' -> u64_values values'.
Proof.
  revert values. induction ls as [|line ls IH]; intros values Hv H; simpl in H; [by simplify_eq|].
  repeat case_match; simplify_eq; eauto.
  simplify_result. eapply IH; [|done]. apply map_Forall_insert_2; [|done].
  by eapply parse_kib_value_u64.
Qed.

Lemma required_u64 values key v : u64_values values -> required values key = Ok v -> is_u64 v.
Proof. intros Hv H. unfold required in H. simplify_result. by eapply Hv. Qed.

Lemma kib_to_bytes_Ok v key b :
  kib_to_bytes v key = Ok b <-> b = 1024 * v /\ 1024 * v <= u64_max.
Proof.
  unfold kib_to_bytes, BYTES_PER_KIBIBYTE. rewrite ok_or_Ok, checked_mul_Some.
  by rewrite (Z.mul_comm v 1024).
Qed.

Lemma checked_kib_sum_nonneg t vs s :
  0 <= t -> Forall (Z.le 0) vs -> checked_kib_sum_go t vs = Ok s -> 0 <= s.
Proof.
  intros Ht Hvs. revert t Ht. induction Hvs as [|v vs Hv _ IH]; intros t Ht H; simpl in H.
  - by simplify_eq.
  - simplify_result. simplify_checked. subst. eapply IH; [|done]. lia.
Qed.

Lemma fallback_nonneg values v :
  u64_values values -> fallback_available_kib values = Ok v -> 0 <= v.
Proof.
  intros Hv H. unfold fallback_available_kib in H. simplify_result.
  destruct (checked_kib_sum _); simplify_eq/=. unfold saturating_sub. lia.
Qed.

Lemma percentage_published used total :
  0 <= used <= total -> total <= u64_max ->
  exists r, rounded_metric (percentage used total) 1 = Some r
    /\ f64_leb f64_zero r = true /\ f64_leb r (f64_of_Z 100) = true /\ r <> S754_zero true.
Proof.
  intros Hu Ht. unfold percentage. destruct (Z.eqb_spec total 0) as [->|].
  - exists f64_zero. split; [vm_compute; reflexivity|]. split; [reflexivity|].
    split; [vm_compute; reflexivity|done].
  - apply (percent_of_rounds used total); lia.
Qed.

(** The arithmetic of a reading, shared by the theorems below. *)
Lemma parse_meminfo_parts (input : str) (m : Memory.MemoryMetrics) :
  parse_meminfo input = Ok m ->
  0 < Memory.total_bytes m <= u64_max
  /\ 0 <= Memory.available_bytes m /\ 0 <= Memory.used_bytes m
  /\ Memory.available_bytes m + Memory.used_bytes m = Memory.total_bytes m
  /\ 0 <= Memory.swap_free_bytes m /\ 0 <= Memory.swap_used_bytes m
  /\ Memory.swap_free_bytes m + Memory.swap_used_bytes m = Memory.swap_total_bytes m
  /\ Memory.swap_total_bytes m <= u64_max
  /\ Memory.used_percent m = percentage (Memory.used_bytes m) (Memory.total_bytes m)
  /\ Memory.swap_used_percent m = percentage (Memory.swap_used_bytes m) (Memory.swap_total_bytes m).
Proof.
  unfold parse_meminfo. intros H. apply result_bind_Ok in H as (values & Hvalues & H).
  assert (u64_values values) as Hv
    by (eapply parse_relevant_lines_u64, Hvalues; apply map_Forall_empty).
  apply result_bind_Ok in H as (total & Ht & H).
  pose proof (required_u64 _ _ _ Hv Ht) as [Ht0 _].
  destruct (Z.eqb_spec total 0) as [|Hne]; [done|].
  apply result_bind_Ok in H as (available & Ha & H).
  assert (0 <= available) as Ha0.
  { destruct (values !! "MemAvailable"%string) as [v|] eqn:E; [|by eapply fallback_nonneg].
    injection Ha as <-. by apply Hv in E as [? _]. }
  simplify_result. simplify_checked.
  repeat match goal with H : kib_to_bytes _ _ = Ok _ |- _ => apply kib_to_bytes_Ok in H as [-> ?] end.
  repeat match goal with
    H : required values _ = Ok _ |- _ => apply required_u64 in H as [? ?]; [|done] end.
  subst. cbn [Memory.total_bytes Memory.available_bytes Memory.used_bytes Memory.used_percent
    Memory.swap_total_bytes Memory.swap_free_bytes Memory.swap_used_bytes Memory.swap_used_percent].
  repeat (split; [lia|]). done.
Qed.

(** Both percentages of a reading can be published. *)
Lemma parse_meminfo_published input m :
  parse_meminfo input = Ok m ->
  (exists r, rounded_metric (Memory.used_percent m) 1 = Some r)
  /\ exists r, rounded_metric (Memory.swap_used_percent m) 1 = Some r.
Proof.
  intros H. apply parse_meminfo_parts in H as (? & ? & ? & ? & ? & ? & ? & ? & -> & ->).
  split; (edestruct percentage_published as (r & Hr & _); [| |by exists r]); lia.
Qed.

(** C36: whatever the file says, a reading that is produced is
    consistent: memory is not empty, the parts add up to the totals, every byte
    count is a [u64] and both percentages are published as a number between 0
    and 100. *)
Theorem parse_meminfo_consistent (input : str) (m : Memory.MemoryMetrics) :
  parse_meminfo input = Ok m ->
  0 < Memory.total_bytes m <= u64_max
  /\ 0 <= Memory.available_bytes m /\ 0 <= Memory.used_bytes m
  /\ Memory.available_bytes m + Memory.used_bytes m = Memory.total_bytes m
  /\ 0 <= Memory.swap_free_bytes m /\ 0 <= Memory.swap_used_bytes m
  /\ Memory.swap_free_bytes m + Memory.swap_used_bytes m = Memory.swap_total_bytes m
  /\ Memory.swap_total_bytes m <= u64_max
  /\ Forall (fun p => exists r, rounded_metric p 1 = Some r
       /\ f64_leb f64_zero r = true /\ f64_leb r (f64_of_Z 100) = true /\ r <> S754_zero true)
     [Memory.used_percent m; Memory.swap_used_percent m].
Proof.
  intros H. apply parse_meminfo_parts in H as (? & ? & ? & ? & ? & ? & ? & ? & -> & ->).
  repeat (split; [assumption|]).
  repeat (constructor; [apply percentage_published; lia|]). constructor.
Qed.

(** A board without [MemAvailable], whose fallback exceeds its total memory. *)
Definition legacy_meminfo : str :=
  terminated [lit "MemTotal: 100 kB"; lit "MemFree:90 kB"; lit "Buffers: 1 kB"; lit "Cached: 20 kB";
              lit "SReclaimable: 1 kB"; lit "Shmem: 2 kB"; lit "SwapTotal: 0 kB"; lit "SwapFree: 5 kB"] [].

Lemma parse_meminfo_consistent_witness :
  exists m, parse_meminfo legacy_meminfo = Ok m
    /\ Memory.available_bytes m + Memory.used_bytes m = Memory.total_bytes m
    /\ Memory.total_bytes m = 102400 /\ Memory.used_bytes m = 0.
Proof.
  destruct (parse_meminfo legacy_meminfo) as [m|e] eqn:E; [|vm_compute in E; discriminate E].
  exists m. split; [done|]. split; [apply (parse_meminfo_consistent _ _ E)|].
  vm_compute in E. injection E as <-. done.
Defined.

(** ** Reading a rendered file *)

Definition meminfo_line (entry : string * (nat * Z)) : str :=
  lit entry.1 ++ 58 :: replicate (S entry.2.1) 32 ++ to_string entry.2.2 ++ lit " kB".

(** Lines the parser passes over. *)
Definition ignored (line : str) : Prop :=
  none (Z.eqb 10) line
  /\ match split_once 58 (strip_cr line) with
     | Some (k, _) => canonical_key (trim k) = None
     | None => True
     end.

(** A file: entries, each after a block of ignored lines. *)
Definition meminfo_lines (entries : list (list str * (string * (nat * Z)))) : list str :=
  concat ((fun e => e.1 ++ [meminfo_line e.2]) <$> entries).

Definition entry_value (e : list str * (string * (nat * Z))) : string * Z := (e.2.1, e.2.2.2).

Lemma canonical_key_lit key :
  key ∈ canonical_keys ->
  canonical_key (lit key) = Some key /\ word (lit key)
  /\ none (fun c => c =? 58) (lit key).
Proof.
  intros Hk. unfold canonical_keys in Hk. set_unfold in Hk.
  repeat destruct Hk as [->|Hk]; [..|done];
    (split; [by vm_compute|]; split; [split; [done|]|]; repeat (constructor; [reflexivity|]); constructor).
Qed.

Lemma parse_kib_value_rendered n v key :
  is_u64 v -> parse_kib_value (replicate (S n) 32 ++ to_string v ++ lit " kB") key = Ok v.
Proof.
  intros Hv. unfold parse_kib_value. rewrite split_whitespace_pad.
  assert (Forall word [lit "kB"]) as Hkb by (repeat constructor; done).
  change (lit " kB") with (spaced [lit "kB"]).
  rewrite split_whitespace_spaced_after by (done || apply word_to_string).
  simpl. rewrite parse_u64_to_string by done. done.
Qed.

Lemma parse_relevant_lines_ignored values ls rest :
  Forall ignored ls ->
  parse_relevant_lines values ((strip_cr <$> ls) ++ rest) = parse_relevant_lines values rest.
Proof.
  induction 1 as [|l ls [_ Hl] _ IH]; [done|]. cbn [fmap list_fmap app parse_relevant_lines].
  destruct (split_once 58 (strip_cr l)) as [[k raw]|]; [|done]. by rewrite Hl.
Qed.

Lemma meminfo_line_clean key n v :
  key ∈ canonical_keys -> none (Z.eqb 10) (meminfo_line (key, (n, v)))
  /\ none (Z.eqb 13) (meminfo_line (key, (n, v))).
Proof.
  intros Hk. destruct (canonical_key_lit key Hk) as (_ & Hw & _).
  apply word_no_newline in Hw as [H10 H13].
  destruct (word_no_newline _ (word_to_string v)) as [Hv10 Hv13].
  unfold meminfo_line. cbn [fst snd].
  split; (apply none_app; split; [done|]); (constructor; [reflexivity|]);
    (apply none_app; split; [by apply Forall_replicate|]);
    (apply none_app; split; [done|]); repeat (constructor; [reflexivity|]); constructor.
Qed.

Lemma parse_relevant_lines_entries values (entries : list (list str * (string * (nat * Z)))) :
  Forall (fun e => Forall ignored e.1 /\ e.2.1 ∈ canonical_keys /\ is_u64 e.2.2.2) entries ->
  NoDup (entry_value <$> entries).*1 ->
  (forall k, k ∈ (entry_value <$> entries).*1 -> values !! k = None) ->
  parse_relevant_lines values (strip_cr <$> meminfo_lines entries)
  = Ok (list_to_map (entry_value <$> entries) ∪ values).
Proof.
  intros He. revert values.
  induction He as [|[ls [key [n v]]] entries (Hl & Hk & Hv) _ IH]; intros values Hnd Hfresh.
  - simpl. by rewrite (left_id_L ∅ (∪)).
  - cbn [fst snd] in Hl, Hk, Hv. unfold meminfo_lines. cbn [fmap list_fmap concat fst snd].
    fold (meminfo_lines entries). rewrite <-app_assoc, fmap_app.
    rewrite parse_relevant_lines_ignored by done.
    destruct (canonical_key_lit key Hk) as (Hkey & Hw & H58).
    destruct (meminfo_line_clean key n v Hk) as [_ H13].
    cbn [app fmap list_fmap parse_relevant_lines]. rewrite strip_cr_none by done.
    unfold meminfo_line at 1. cbn [fst snd]. rewrite split_once_app by done.
    rewrite trim_trimmed by by apply trimmed_word. rewrite Hkey.
    cbn [fmap list_fmap entry_value fst snd] in Hnd, Hfresh. apply NoDup_cons in Hnd as [Hnin Hnd].
    rewrite Hfresh by by left. rewrite parse_kib_value_rendered by done. cbn [mbind result_bind].
    fold (fmap (M:=list) strip_cr). rewrite IH; [| |].
    + cbn [fmap list_fmap list_to_map entry_value fst snd foldr]. f_equal.
      rewrite <-insert_union_l, insert_union_r; [done|]. by apply not_elem_of_list_to_map_1.
    + done.
    + intros k Hin. rewrite lookup_insert_ne by (intros ->; done). apply Hfresh. by right.
Qed.

(** What the file means: the documented value of available memory. *)
Definition available_reference (values : gmap string Z) (total : Z) : option Z :=
  match values !! "MemAvailable"%string with
  | Some a => Some (Z.min a total)
  | None =>
    free ← values !! "MemFree"%string;
    buffers ← values !! "Buffers"%string;
    cached ← values !! "Cached"%string;
    reclaimable ← values !! "SReclaimable"%string;
    shared ← values !! "Shmem"%string;
    let sum := free + buffers + cached + reclaimable in
    if sum <=? u64_max then Some (Z.min (Z.max (sum - shared) 0) total) else None
  end.

Lemma checked_kib_sum_Ok vs :
  Forall (Z.le 0) vs -> forall t, 0 <= t -> t + foldr Z.add 0 vs <= u64_max ->
  checked_kib_sum_go t vs = Ok (t + foldr Z.add 0 vs).
Proof.
  induction 1 as [|v vs Hv Hvs IH]; intros t Ht Hs; simpl in *; [by rewrite Z.add_0_r|].
  assert (0 <= foldr Z.add 0 vs) by (clear -Hvs; induction Hvs; simpl; lia).
  rewrite (proj2 (checked_add_Some t v (t + v))) by lia. simpl.
  rewrite IH by lia. f_equal. lia.
Qed.

Lemma available_reference_Ok values total a :
  u64_values values -> available_reference values total = Some a ->
  exists available,
    match values !! "MemAvailable"%string with
    | Some value => Ok value
    | None => fallback_available_kib values
    end = Ok available /\ Z.min available total = a.
Proof.
  intros Hv. unfold available_reference, fallback_available_kib, required.
  destruct (values !! "MemAvailable"%string) as [v|]; [intros; simplify_eq; eauto|].
  destruct (values !! "MemFree"%string) as [z1|] eqn:E1; [|done].
  destruct (values !! "Buffers"%string) as [z2|] eqn:E2; [|done].
  destruct (values !! "Cached"%string) as [z3|] eqn:E3; [|done].
  destruct (values !! "SReclaimable"%string) as [z4|] eqn:E4; [|done].
  destruct (values !! "Shmem"%string) as [z5|] eqn:E5; [|done].
  cbn [mbind option_bind ok_or result_bind].
  apply Hv in E1 as [? _], E2 as [? _], E3 as [? _], E4 as [? _].
  destruct (Z.leb_spec (z1 + z2 + z3 + z4) u64_max); [|done].
  intros [= <-]. unfold checked_kib_sum. rewrite checked_kib_sum_Ok; [|repeat (constructor; [lia|]); constructor|lia|simpl; lia].
  cbn. eexists. split; [done|]. unfold saturating_sub. f_equal. lia.
Qed.

(** C37: entries in any order and among any other lines are read by
    name; the result is the documented function of their values, the fallback
    formula included, in bytes. *)
Theorem parse_meminfo_reads (entries : list (list str * (string * (nat * Z)))) (total available swap free : Z) :
  Forall (fun e => Forall ignored e.1 /\ e.2.1 ∈ canonical_keys /\ is_u64 e.2.2.2) entries ->
  NoDup (entry_value <$> entries).*1 ->
  let values : gmap string Z := list_to_map (entry_value <$> entries) in
  values !! "MemTotal"%string = Some total ->
  values !! "SwapTotal"%string = Some swap ->
  values !! "SwapFree"%string = Some free ->
  available_reference values total = Some available ->
  0 < total -> 1024 * total <= u64_max -> 1024 * swap <= u64_max ->
  parse_meminfo (terminated (meminfo_lines entries) []) =
  let used := 1024 * total - 1024 * available in
  let swap_free := 1024 * Z.min free swap in
  let swap_used := 1024 * swap - swap_free in
  Ok (Memory.Build_MemoryMetrics (1024 * total) (1024 * available) used
        (percentage used (1024 * total))
        (1024 * swap) swap_free swap_used (percentage swap_used (1024 * swap))).
Proof.
  intros He Hnd values Ht Hs Hf Ha Hpos Hmax Hsmax. unfold parse_meminfo, parse_relevant_values.
  assert (Forall (none (Z.eqb 10)) (meminfo_lines entries)) as Hclean.
  { apply Forall_concat, Forall_fmap. eapply Forall_impl; [exact He|].
    intros [ls [key [n v]]] (Hl & Hk & _). apply Forall_app. split.
    - eapply Forall_impl; [exact Hl|]. by intros l [? _].
    - constructor; [|done]. by apply meminfo_line_clean. }
  rewrite lines_terminated, app_nil_r by done.
  rewrite parse_relevant_lines_entries by done.
  rewrite (right_id_L ∅ (∪)). fold values. cbn [mbind result_bind].
  assert (u64_values values) as Hv.
  { intros k v Hk. apply elem_of_list_to_map_2, list_elem_of_fmap in Hk as (e & [= -> ->] & Hin).
    rewrite Forall_forall in He. by destruct (He _ Hin) as (_ & _ & ?). }
  destruct (available_reference_Ok _ _ _ Hv Ha) as (av & Hav & <-).
  assert (Hreq : forall k v, values !! k = Some v -> required values k = Ok v)
    by (intros k v E; unfold required; by rewrite E).
  rewrite (Hreq _ _ Ht). cbn [mbind result_bind].
  destruct (Z.eqb_spec total 0); [lia|]. rewrite Hav. cbn [mbind result_bind].
  rewrite (Hreq _ _ Hs), (Hreq _ _ Hf). cbn [mbind result_bind].
  pose proof (Hv _ _ Hf) as [? _]. pose proof (Hv _ _ Hs) as [? _].
  assert (Hb : forall v key, 1024 * v <= u64_max -> kib_to_bytes v key = Ok (1024 * v))
    by (intros; by apply kib_to_bytes_Ok).
  rewrite !Hb by lia. cbn [mbind result_bind].
  rewrite !(fun a b H => proj2 (checked_sub_Some a b (a - b)) (conj eq_refl H)) by lia. done.
Qed.

Lemma parse_meminfo_reads_witness :
  parse_meminfo (terminated (meminfo_lines
    [([lit "no colon"; lit "HugePages: 3"], ("SwapFree"%string, (2%nat, 3)));
     ([], ("SwapTotal"%string, (0%nat, 4))); ([], ("MemTotal"%string, (7%nat, 100)));
     ([], ("MemFree"%string, (0%nat, 50))); ([], ("Buffers"%string, (0%nat, 10)));
     ([], ("Cached"%string, (0%nat, 10))); ([], ("SReclaimable"%string, (0%nat, 10)));
     ([], ("Shmem"%string, (0%nat, 5)))]) [])
  = Ok (Memory.Build_MemoryMetrics 102400 76800 25600 (percentage 25600 102400)
          4096 3072 1024 (percentage 1024 4096)).
Proof.
  eapply eq_trans; [apply (parse_meminfo_reads _ 100 75 4 3)|vm_compute; reflexivity].
  3-6: vm_compute; reflexivity.
  3-5: vm_compute; (reflexivity || discriminate).
  - repeat (apply Forall_cons_2; [split; [|split; [apply (bool_decide_unpack _); vm_compute; exact I
      |split; vm_compute; discriminate]]|]); [|by constructor..|by constructor].
    repeat (apply Forall_cons_2; [split; [apply (bool_decide_unpack _); vm_compute; exact I|vm_compute; reflexivity]|]).
    constructor.
  - apply (bool_decide_unpack _). vm_compute. exact I.
Defined.
