(* ===== verification/MetricsDisk.v ===== *)
(** * Filesystem metrics ([src/src/metrics/disk.rs])

    The checked arithmetic that turns [statvfs] block counters into the disk
    section of the telemetry state. *)

From S2P Require Import Prelude RustStr RustFloat RustFloatFacts Model MetricsError.

Local Open Scope Z_scope.

Definition STATVFS : str := lit "statvfs".

Record StatvfsValues := {
  fragment_size : Z;
  blocks : Z;
  blocks_free : Z;
  blocks_available : Z;
}.

Definition bytes (blocks fragment_size : Z) (name : str) : result ParseError Z :=
  ok_or (checked_mul blocks fragment_size)
    (ParseError_new STATVFS (name ++ lit " overflows bytes as u64")).

Definition calculate_disk_metrics (mount_point : str) (values : StatvfsValues) :
    result ParseError DiskMetrics :=
  total_bytes ← bytes (blocks values) (fragment_size values) (lit "total size");
  free_bytes ← bytes (blocks_free values) (fragment_size values) (lit "free space");
  available_bytes ← bytes (blocks_available values) (fragment_size values) (lit "available space");
  used_bytes ← ok_or (checked_sub total_bytes free_bytes)
                 (ParseError_new STATVFS (lit "free space is greater than the filesystem size"));
  denominator ← ok_or (checked_add used_bytes available_bytes)
                  (ParseError_new STATVFS (lit "used plus available space overflows u64"));
  let used_percent :=
    if denominator =? 0 then f64_zero
    else f64_div (f64_mul (f64_of_Z 100) (f64_of_Z used_bytes)) (f64_of_Z denominator) in
  Ok {| mount := mount_point;
        disk_total_bytes := Some total_bytes;
        disk_available_bytes := Some available_bytes;
        disk_used_bytes := Some used_bytes;
        disk_used_percent := Some used_percent |}.

Definition valid_statvfs (v : StatvfsValues) : Prop :=
  is_u64 (fragment_size v) /\ is_u64 (blocks v) /\ is_u64 (blocks_free v) /\ is_u64 (blocks_available v).

(** The counters for which the arithmetic stays inside [u64]. *)
Definition representable (v : StatvfsValues) : Prop :=
  let b := fragment_size v in
  blocks v * b <= u64_max /\ blocks_available v * b <= u64_max
  /\ blocks_free v * b <= blocks v * b
  /\ (blocks v - blocks_free v + blocks_available v) * b <= u64_max.

Lemma bytes_cases n s name :
  bytes n s name = (if n * s <=? u64_max then Ok (n * s)
                    else Err (ParseError_new STATVFS (name ++ lit " overflows bytes as u64"))).
Proof. unfold bytes, checked_mul. by destruct (n * s <=? u64_max). Qed.

(** C38: an error is reported exactly when a byte count leaves [u64] or the
    free space exceeds the size; otherwise the byte counts are the products of
    the counters with the fragment size; the percentage, that of [df], is the
    used bytes in percent of the used and the available ones (0 for an empty
    filesystem), and it is published between 0 and 100. *)
Theorem calculate_disk_metrics_spec (mount_point : str) (v : StatvfsValues) :
  valid_statvfs v ->
  match calculate_disk_metrics mount_point v with
  | Err _ => ~ representable v
  | Ok d =>
    representable v
    /\ mount d = mount_point
    /\ disk_total_bytes d = Some (blocks v * fragment_size v)
    /\ disk_available_bytes d = Some (blocks_available v * fragment_size v)
    /\ disk_used_bytes d = Some ((blocks v - blocks_free v) * fragment_size v)
    /\ let used := (blocks v - blocks_free v) * fragment_size v in
       let denominator := used + blocks_available v * fragment_size v in
       exists p r, disk_used_percent d = Some p
       /\ p = (if denominator =? 0 then f64_zero else percent_of used denominator)
       /\ rounded_metric p 1 = Some r
       /\ f64_leb f64_zero r = true /\ f64_leb r (f64_of_Z 100) = true /\ r <> S754_zero true
  end.
Proof.
  destruct v as [s b f a]. unfold valid_statvfs, representable, calculate_disk_metrics, is_u64.
  cbn [fragment_size blocks blocks_free blocks_available]. intros ([? ?] & [? ?] & [? ?] & [? ?]).
  rewrite !bytes_cases.
  assert (0 <= b * s /\ 0 <= f * s /\ 0 <= a * s) as (? & ? & ?) by nia.
  replace ((b - f + a) * s) with (b * s - f * s + a * s) by ring.
  replace ((b - f) * s) with (b * s - f * s) by ring.
  destruct (Z.leb_spec (b * s) u64_max); cbn [mbind result_bind]; [|lia].
  destruct (Z.leb_spec (f * s) u64_max); cbn [mbind result_bind]; [|lia].
  destruct (Z.leb_spec (a * s) u64_max); cbn [mbind result_bind]; [|lia].
  destruct (checked_sub _ _) eqn:Es; simplify_checked; cbn [ok_or mbind result_bind]; [|lia].
  destruct (checked_add _ _) eqn:Ea; simplify_checked; cbn [ok_or mbind result_bind]; [|lia].
  cbn [mount disk_total_bytes disk_available_bytes disk_used_bytes disk_used_percent].
  split; [lia|]. subst. split_and!; [done..|]. cbv zeta. set (u := b * s - f * s) in *.
  destruct (Z.eqb_spec (u + a * s) 0).
  - exists f64_zero, f64_zero. by vm_compute.
  - destruct (percent_of_rounds u (u + a * s) ltac:(lia) ltac:(lia)) as (r & ? & ? & ? & ?).
    exists (percent_of u (u + a * s)), r. by split_and!.
Qed.

Lemma calculate_disk_metrics_spec_witness :
  let v := Build_StatvfsValues 4096 1000 400 350 in
  valid_statvfs v
  /\ exists d, calculate_disk_metrics (lit "/") v = Ok d
     /\ disk_used_bytes d = Some 2457600 /\ representable v
     /\ disk_used_percent d = Some (percent_of 2457600 3891200).
Proof.
  assert (valid_statvfs (Build_StatvfsValues 4096 1000 400 350)) as Hv
    by (unfold valid_statvfs, is_u64, u64_max; cbn; lia).
  split; [done|]. pose proof (calculate_disk_metrics_spec (lit "/") _ Hv) as Hs.
  destruct (calculate_disk_metrics (lit "/") (Build_StatvfsValues 4096 1000 400 350)) as [d|e] eqn:E.
  - exists d. destruct Hs as (? & _ & _ & _ & ? & p & r & Hp & Hpe & _).
    split_and!; [done..|]. rewrite Hp, Hpe. reflexivity.
  - vm_compute in E. discriminate E.
Defined.

(** What is published of any filesystem, whatever its counters. *)
Lemma calculate_disk_metrics_published mount_point v d :
  valid_statvfs v -> calculate_disk_metrics mount_point v = Ok d ->
  mount d = mount_point
  /\ exists total available used p r,
       d = {| mount := mount_point; disk_total_bytes := Some total; disk_available_bytes := Some available;
              disk_used_bytes := Some used; disk_used_percent := Some p |}
       /\ rounded_metric p 1 = Some r.
Proof.
  unfold valid_statvfs, is_u64, calculate_disk_metrics, bytes. intros (? & ? & ? & ?) Hd.
  simplify_result. simplify_checked. subst. cbn [mount]. split; [done|]. do 3 eexists.
  match goal with |- context [if ?n =? 0 then _ else _] => destruct (Z.eqb_spec n 0) end.
  - exists f64_zero, f64_zero. split; [done|vm_compute; reflexivity].
  - match goal with |- context [f64_div (f64_mul _ (f64_of_Z ?u)) (f64_of_Z ?n)] =>
      destruct (percent_of_rounds u n) as (r & Hr & _); [nia|nia|] end.
    do 2 eexists. split; [reflexivity|exact Hr].
Qed.
