(* ===== verification/MetricsPower.v ===== *)
(** * Firmware throttling flags ([src/src/metrics/power.rs]) *)

From S2P Require Import Prelude RustStr MetricsError.

Local Open Scope Z_scope.

Definition THROTTLED_OUTPUT : str := lit "vcgencmd get_throttled".

Module ThrottledStatus.
Record ThrottledStatus := {
  raw : Z;
  undervoltage_now : bool;
  arm_frequency_capped_now : bool;
  throttled_now : bool;
  soft_temperature_limit_now : bool;
  undervoltage_since_boot : bool;
  arm_frequency_capped_since_boot : bool;
  throttled_since_boot : bool;
  soft_temperature_limit_since_boot : bool;
}.

Definition raw_hex (s : ThrottledStatus) : str := lit "0x" ++ to_hex (raw s).
End ThrottledStatus.

Definition has_bit (value bit : Z) : bool := negb (Z.land value (Z.shiftl 1 bit) =? 0).

(** The record built at the end of [parse_throttled]. *)
Definition decode_throttled (raw : Z) : ThrottledStatus.ThrottledStatus := {|
  ThrottledStatus.raw := raw;
  ThrottledStatus.undervoltage_now := has_bit raw 0;
  ThrottledStatus.arm_frequency_capped_now := has_bit raw 1;
  ThrottledStatus.throttled_now := has_bit raw 2;
  ThrottledStatus.soft_temperature_limit_now := has_bit raw 3;
  ThrottledStatus.undervoltage_since_boot := has_bit raw 16;
  ThrottledStatus.arm_frequency_capped_since_boot := has_bit raw 17;
  ThrottledStatus.throttled_since_boot := has_bit raw 18;
  ThrottledStatus.soft_temperature_limit_since_boot := has_bit raw 19;
|}.

Definition parse_throttled (input : str) : result ParseError ThrottledStatus.ThrottledStatus :=
  '(key, raw_value) ← ok_or (split_once 61 (trim input))
                        (ParseError_new THROTTLED_OUTPUT (lit "the assignment is missing"));
  if negb (bool_decide (trim key = lit "throttled"))
  then Err (ParseError_new THROTTLED_OUTPUT (lit "the expected throttled key is missing"))
  else
    let raw_value := trim raw_value in
    hexadecimal ← ok_or (match strip_prefix (lit "0x") raw_value with
                         | Some h => Some h
                         | None => strip_prefix (lit "0X") raw_value
                         end)
                    (ParseError_new THROTTLED_OUTPUT (lit "the value must have a 0x prefix"));
    if is_empty hexadecimal
    then Err (ParseError_new THROTTLED_OUTPUT (lit "the hexadecimal value is empty"))
    else
      raw ← ok_or (u32_from_str_radix_16 hexadecimal)
              (ParseError_new THROTTLED_OUTPUT (lit "the value is not a 32-bit hexadecimal mask"));
      Ok (decode_throttled raw).

Lemma has_bit_testbit value bit : 0 <= bit -> has_bit value bit = Z.testbit value bit.
Proof.
  intros Hb. unfold has_bit. rewrite Z.shiftl_1_l.
  destruct (Z.testbit value bit) eqn:E.
  - apply negb_true_iff, Z.eqb_neq. intros H0.
    assert (Z.testbit (Z.land value (2 ^ bit)) bit = true) as Ht
      by by rewrite Z.land_spec, E, Z.pow2_bits_true.
    by rewrite H0, Z.bits_0 in Ht.
  - apply negb_false_iff, Z.eqb_eq. apply Z.bits_inj'. intros n Hn.
    rewrite Z.land_spec, Z.bits_0. destruct (decide (n = bit)) as [->|Hne]; [by rewrite E|].
    by rewrite Z.pow2_bits_false, andb_false_r by done.
Qed.

Lemma word_to_hex n : word (to_hex n).
Proof.
  split; [apply print_radix_nonempty|]. apply print_radix_none; [lia|].
  apply digit_not_whitespace.
Qed.

Definition firmware_output (pre post s : str) : str := pre ++ lit "throttled=" ++ s ++ post.

(** C39: the firmware's line, with any whitespace around it, is decoded
    to its mask and the eight flags are the bits 0-3 and 16-19 of the mask; the
    normalised text of the decoded mask reads back as the same status. *)
Theorem parse_throttled_roundtrip (mask : Z) (pre post : str) :
  0 <= mask <= u32_max -> blank pre -> blank post ->
  exists s, parse_throttled (firmware_output pre post (lit "0x" ++ to_hex mask)) = Ok s
    /\ ThrottledStatus.raw s = mask
    /\ [ThrottledStatus.undervoltage_now s; ThrottledStatus.arm_frequency_capped_now s;
        ThrottledStatus.throttled_now s; ThrottledStatus.soft_temperature_limit_now s;
        ThrottledStatus.undervoltage_since_boot s; ThrottledStatus.arm_frequency_capped_since_boot s;
        ThrottledStatus.throttled_since_boot s; ThrottledStatus.soft_temperature_limit_since_boot s]
       = Z.testbit mask <$> [0; 1; 2; 3; 16; 17; 18; 19]
    /\ parse_throttled (firmware_output pre post (ThrottledStatus.raw_hex s)) = Ok s.
Proof.
  intros Hm Hpre Hpost. destruct (word_to_hex mask) as [Hne Hnone].
  assert (word (lit "0x" ++ to_hex mask)) as Hw
    by (split; [done|apply none_app; split; [by repeat constructor|done]]).
  assert (parse_throttled (firmware_output pre post (lit "0x" ++ to_hex mask))
          = Ok (decode_throttled mask)) as Hp.
  { unfold parse_throttled, firmware_output. rewrite (app_assoc (lit "throttled=")), trim_padded; [|done..|].
    2: { change (lit "throttled=") with (lit "throttled" ++ lit "="). rewrite <-app_assoc.
         by apply trimmed_app; apply trimmed_word; [split; [done|by repeat constructor]|]. }
    change (lit "throttled=" ++ lit "0x" ++ to_hex mask)
      with (lit "throttled" ++ 61 :: (lit "0x" ++ to_hex mask)).
    rewrite split_once_app by by repeat constructor. cbn [ok_or mbind result_bind].
    rewrite (bool_decide_true (trim (lit "throttled") = _)) by reflexivity. cbn [negb].
    rewrite trim_trimmed by by apply trimmed_word.
    assert (strip_prefix (lit "0x") (lit "0x" ++ to_hex mask) = Some (to_hex mask)) as ->
      by by apply strip_prefix_Some.
    cbn [ok_or mbind result_bind]. destruct (to_hex mask) as [|c h] eqn:E; [done|].
    cbn [is_empty]. rewrite <-E. unfold to_hex, u32_from_str_radix_16.
    by rewrite parse_unsigned_print by lia. }
  exists (decode_throttled mask). split_and!; [done|done| |exact Hp].
  cbn [ThrottledStatus.undervoltage_now ThrottledStatus.arm_frequency_capped_now
    ThrottledStatus.throttled_now ThrottledStatus.soft_temperature_limit_now
    ThrottledStatus.undervoltage_since_boot ThrottledStatus.arm_frequency_capped_since_boot
    ThrottledStatus.throttled_since_boot ThrottledStatus.soft_temperature_limit_since_boot decode_throttled].
  by rewrite !has_bit_testbit by lia.
Qed.

Lemma parse_throttled_roundtrip_witness :
  exists s, parse_throttled (lit "  throttled=0x50005" ++ [10]) = Ok s
    /\ ThrottledStatus.raw s = 327685 /\ ThrottledStatus.throttled_now s = true.
Proof.
  destruct (parse_throttled_roundtrip 327685 [32; 32] [10]) as (s & Hs & Hraw & Hflags & _).
  - unfold u32_max. lia.
  - by repeat constructor.
  - by repeat constructor.
  - exists s. split; [exact Hs|]. split; [done|]. by injection Hflags.
Defined.
