(* ===== verification/MetricsTemperature.v ===== *)
(** * Temperature parsers ([src/src/metrics/temperature.rs])

    The sysfs value in thousandths of a degree, and the firmware command's
    output. *)

From S2P Require Import Prelude RustStr RustFloat RustFloatFacts Model MetricsError.

Local Open Scope Z_scope.

Definition SYSFS_TEMPERATURE : str := lit "CPU thermal zone".
Definition FIRMWARE_TEMPERATURE : str := lit "firmware temperature".

Definition parse_millidegrees_celsius (input : str) : result ParseError f64 :=
  let fields := split_whitespace input in
  raw ← ok_or (fields !! 0%nat) (ParseError_new SYSFS_TEMPERATURE (lit "the value is missing"));
  if bool_decide (is_Some (fields !! 1%nat))
  then Err (ParseError_new SYSFS_TEMPERATURE (lit "the value contains unexpected fields"))
  else
    millidegrees ← ok_or (parse_i64 raw)
                     (ParseError_new SYSFS_TEMPERATURE (lit "the value is not a signed integer"));
    Ok (f64_div (f64_of_Z millidegrees) (f64_of_Z 1000)).

Definition parse_vcgencmd_temperature (input : str) : result ParseError f64 :=
  '(key, raw_value) ← ok_or (split_once 61 (trim input))
                        (ParseError_new FIRMWARE_TEMPERATURE (lit "the assignment is missing"));
  if negb (bool_decide (trim key = lit "temp"))
  then Err (ParseError_new FIRMWARE_TEMPERATURE (lit "the expected temp key is missing"))
  else
    let raw_value := trim raw_value in
    numeric ← ok_or (match strip_suffix (lit "'C") raw_value with
                     | Some n => Some n
                     | None => strip_suffix (lit "°C") raw_value
                     end)
                (ParseError_new FIRMWARE_TEMPERATURE (lit "the Celsius unit suffix is missing"));
    value ← ok_or (parse_f64 (trim numeric))
              (ParseError_new FIRMWARE_TEMPERATURE (lit "the value is not a number"));
    if negb (is_finite value)
    then Err (ParseError_new FIRMWARE_TEMPERATURE (lit "the value must be finite"))
    else Ok value.

Lemma parse_i64_bounds s z : parse_i64 s = Some z -> i64_min <= z <= i64_max.
Proof.
  assert (Hd : forall t z max, 0 <= max -> parse_digits 10 max 0 t = Some z -> 0 <= z <= max)
    by (intros t z' max Hm; apply (parse_digits_bounds 10 max 0); lia).
  unfold parse_i64, i64_min, i64_max. intros H.
  destruct s as [|c [|d s]]; [done|..].
  - destruct (_ || _); [done|]. apply Hd in H; lia.
  - destruct (c =? 43); [apply Hd in H; lia|]. destruct (c =? 45).
    + apply fmap_Some in H as (y & H & ->). apply Hd in H; lia.
    + apply Hd in H; lia.
Qed.

(** Every temperature read from sysfs, at any magnitude the
    kernel's signed value can have and of either sign, is published as a finite
    number. *)
Theorem parse_millidegrees_published (input : str) (x : f64) :
  parse_millidegrees_celsius input = Ok x ->
  exists raw z, split_whitespace input = [raw] /\ parse_i64 raw = Some z
    /\ x = f64_div (f64_of_Z z) (f64_of_Z 1000) /\ is_finite x = true
    /\ exists r, rounded_metric x 1 = Some r.
Proof.
  unfold parse_millidegrees_celsius. intros H.
  destruct (split_whitespace input) as [|raw [|f fs]]; [done| |done]. cbn in H.
  destruct (parse_i64 raw) as [z|] eqn:Ez; [|done]. cbn in H. injection H as <-.
  exists raw, z. split_and!; [done..| |].
  all: apply parse_i64_bounds in Ez; unfold i64_min, i64_max in Ez;
    destruct (f64_of_Z_exact 1000 ltac:(lia)) as [Hn HV]; pose proof scale_pos;
    assert (magnitude_le (f64_div (f64_of_Z z) (f64_of_Z 1000)) 64) as Hm
      by (apply magnitude_le_div; [done|rewrite HV; lia|lia|apply magnitude_le_of_Z; lia]).
  - by eapply magnitude_le_finite.
  - apply rounded_metric_magnitude; [done|by left].
Qed.

Lemma parse_millidegrees_published_witness :
  exists x, parse_millidegrees_celsius (lit "-4500" ++ [10]) = Ok x
    /\ exists r, rounded_metric x 1 = Some r /\ r = f64_div (f64_of_Z (-45)) (f64_of_Z 10).
Proof.
  destruct (parse_millidegrees_celsius (lit "-4500" ++ [10])) as [x|e] eqn:E; [|vm_compute in E; discriminate E].
  exists x. split; [done|].
  destruct (parse_millidegrees_published _ _ E) as (_ & _ & _ & _ & _ & _ & r & Hr).
  exists r. split; [exact Hr|]. vm_compute in E. injection E as <-. vm_compute in Hr.
  injection Hr as <-. vm_compute. reflexivity.
Defined.

(** The firmware parser accepts finite values only, but a finite
    value too large to be scaled passes it and can then not be published. *)
Theorem firmware_temperature_can_be_unpublishable :
  (forall input x, parse_vcgencmd_temperature input = Ok x -> is_finite x = true)
  /\ exists x, parse_vcgencmd_temperature (lit "temp=1e308'C") = Ok x /\ rounded_metric x 1 = None.
Proof.
  split.
  - unfold parse_vcgencmd_temperature. intros input x H. simplify_result.
    case_match. case_match; simplify_result. case_match; simplify_result.
    subst. by apply negb_false_iff.
  - eexists. split; [vm_compute; reflexivity|]. vm_compute. reflexivity.
Qed.
