(* ===== verification/MetricsUptime.v ===== *)
(** * Uptime parser ([src/src/metrics/uptime.rs]) *)

From S2P Require Import Prelude RustStr RustFloat RustFloatFacts MetricsError.

Local Open Scope Z_scope.

Definition PROC_UPTIME : str := lit "/proc/uptime".

Definition parse_uptime_seconds (input : str) : result ParseError Z :=
  raw ← ok_or (split_whitespace input !! 0%nat)
          (ParseError_new PROC_UPTIME (lit "the uptime value is missing"));
  seconds ← ok_or (parse_f64 raw)
              (ParseError_new PROC_UPTIME (lit "the uptime value is not a number"));
  if negb (is_finite seconds) || is_sign_negative seconds
  then Err (ParseError_new PROC_UPTIME (lit "the uptime value must be finite and non-negative"))
  else if f64_leb (f64_of_Z u64_max) seconds
  then Err (ParseError_new PROC_UPTIME (lit "the uptime value exceeds u64 seconds"))
  else Ok (f64_as_u64 (f64_trunc seconds)).

Lemma take_digits_app ds c rest :
  Forall (fun c => is_ascii_digit c = true) ds -> is_ascii_digit c = false ->
  take_digits (ds ++ c :: rest) = (ds, c :: rest).
Proof.
  intros Hds Hc. induction Hds as [|d ds Hd _ IH]; simpl; [by rewrite Hc|]. by rewrite Hd, IH.
Qed.

Lemma take_digits_all ds : Forall (fun c => is_ascii_digit c = true) ds -> take_digits ds = (ds, []).
Proof. induction 1 as [|d ds Hd _ IH]; simpl; [done|]. by rewrite Hd, IH. Qed.

(** The kernel's format: seconds and hundredths. *)
Definition hundredths (n f : Z) : str := to_string n ++ 46 :: [48 + f / 10; 48 + f mod 10].

Lemma word_hundredths n f : 0 <= f < 100 -> word (hundredths n f).
Proof.
  intros Hf. destruct (word_to_string n) as [Hne Hn]. unfold hundredths. split.
  - by destruct (to_string n).
  - apply none_app. split; [done|].
    assert (0 <= f / 10 < 10) by (split; [apply Z.div_pos|apply Z.div_lt_upper_bound]; lia).
    pose proof (Z.mod_pos_bound f 10 ltac:(lia)). unfold is_whitespace.
    repeat constructor; unfold is_whitespace; lia.
Qed.

Lemma parse_f64_hundredths n f :
  0 <= n -> 0 <= f < 100 -> parse_f64 (hundredths n f) = Some (f64_of_decimal false (n * 100 + f) (-2)).
Proof.
  intros Hn Hf. unfold hundredths.
  pose proof (to_string_digits n Hn) as Hd. pose proof (to_string_value n Hn) as Hv.
  destruct (word_to_string n) as [Hne _].
  assert (0 <= f / 10 < 10) by (split; [apply Z.div_pos|apply Z.div_lt_upper_bound]; lia).
  pose proof (Z.mod_pos_bound f 10 ltac:(lia)). pose proof (Z.div_mod f 10 ltac:(lia)).
  assert (Forall (fun c => is_ascii_digit c = true) [48 + f / 10; 48 + f mod 10]) as Hfd
    by (unfold is_ascii_digit; repeat constructor; lia).
  assert (parse_decimal false (to_string n ++ 46 :: [48 + f / 10; 48 + f mod 10])
          = Some (f64_of_decimal false (n * 100 + f) (-2))) as Hdec.
  { unfold parse_decimal. rewrite take_digits_app by done. rewrite Z.eqb_refl.
    rewrite take_digits_all by done.
    destruct (to_string n) as [|c ds] eqn:E; [done|]. rewrite <-E in *. cbn [is_empty app].
    replace (is_empty (to_string n ++ [48 + f / 10; 48 + f mod 10])) with false by by rewrite E.
    cbn [parse_exponent mbind option_bind length]. do 2 f_equal.
    unfold digits_value. rewrite fold_left_app, Hv. cbn [fold_left]. lia. }
  destruct (to_string n) as [|c ds] eqn:E; [done|].
  apply Forall_cons in Hd as [Hc _]. unfold is_ascii_digit in Hc.
  cbn [app] in *. unfold parse_f64.
  replace (c =? 45) with false by lia. replace (c =? 43) with false by lia.
  cbn [is_empty]. by rewrite Hdec.
Qed.

(** The whole seconds of the kernel's uptime are exact, for every
    uptime below [2^44] seconds: decimal parsing, the conversion to a float and
    the truncation together lose no second. *)
Theorem parse_uptime_exact (n f : Z) (rest : list str) :
  0 <= n < 2 ^ 44 -> 0 <= f < 100 -> Forall word rest ->
  parse_uptime_seconds (hundredths n f ++ spaced rest) = Ok n.
Proof.
  intros Hn Hf Hrest. unfold parse_uptime_seconds.
  rewrite split_whitespace_spaced_after by (done || by apply word_hundredths).
  cbn [lookup list_lookup ok_or mbind result_bind].
  rewrite parse_f64_hundredths by lia. cbn [ok_or mbind result_bind].
  destruct (f64_of_hundredths n f Hn Hf) as [Hx HV].
  set (x := f64_of_decimal false (n * 100 + f) (-2)) in *.
  destruct (nnf_is_finite x Hx) as [-> ->]. cbn [negb orb].
  replace (f64_leb (f64_of_Z u64_max) x) with false.
  - by rewrite (f64_trunc_as_u64 x n) by (done || lia).
  - symmetry. pose proof scale_pos.
    destruct (f64_of_Z_exact (2 ^ 44) ltac:(lia)) as [H44 V44].
    destruct (pow2_nnf 64 ltac:(lia)) as (hi & Hhi & Vhi).
    destruct (f64_of_Z_between u64_max (f64_of_Z (2 ^ 44)) hi
                ltac:(unfold u64_max; lia) H44 Hhi) as [Hm [Hlo _]].
    + rewrite V44, Vhi. unfold u64_max.
      replace (sv 1 64) with (2 ^ 64 * scale)
        by (rewrite <-sv_scale, <-(Z.mul_1_l (2 ^ 64)), sv_shift by lia; done).
      split; apply Z.mul_le_mono_nonneg_r; lia.
    + rewrite (f64_leb_V _ _ Hm Hx). apply Z.leb_gt.
      assert ((n + 1) * scale <= 2 ^ 44 * scale) by (apply Z.mul_le_mono_nonneg_r; lia). lia.
Qed.

Lemma parse_uptime_exact_witness :
  parse_uptime_seconds (lit "12345.99 6789.01") = Ok 12345.
Proof.
  apply (parse_uptime_exact 12345 99 [lit "6789.01"]); [lia..|].
  repeat constructor; done.
Defined.
