(* ===== verification/MetricsMetadata.v ===== *)
(** * Device and operating-system metadata ([src/src/metrics/metadata.rs])

    Parsers of [/proc/cpuinfo], [os-release], the device-tree model and the
    hostname file. *)

From S2P Require Import Prelude RustStr MetricsError.

Local Open Scope Z_scope.

Definition OS_RELEASE : str := lit "/etc/os-release".

Record CpuInfoMetadata := { revision : option str; serial : option str }.

Record OsRelease := {
  pretty_name : option str;
  name : option str;
  version : option str;
  version_id : option str;
  id : option str;
}.

Definition CpuInfoMetadata_default : CpuInfoMetadata := {| revision := None; serial := None |}.
Definition OsRelease_default : OsRelease :=
  {| pretty_name := None; name := None; version := None; version_id := None; id := None |}.

(** One iteration of the loop of [parse_cpuinfo]. *)
Definition cpuinfo_line (metadata : CpuInfoMetadata) (line : str) : CpuInfoMetadata :=
  match split_once 58 line with
  | None => metadata
  | Some (raw_key, raw_value) =>
    let value := trim raw_value in
    if is_empty value then metadata
    else if bool_decide (trim raw_key = lit "Revision") && bool_decide (revision metadata = None)
    then {| revision := Some value; serial := serial metadata |}
    else if bool_decide (trim raw_key = lit "Serial") && bool_decide (serial metadata = None)
    then {| revision := revision metadata; serial := Some value |}
    else metadata
  end.
Definition parse_cpuinfo (input : str) : CpuInfoMetadata :=
  fold_left cpuinfo_line (lines input) CpuInfoMetadata_default.

Definition key_char (c : Z) : bool := is_ascii_uppercase c || is_ascii_digit c || (c =? 95).
Definition valid_key (key : str) : bool := negb (is_empty key) && forallb key_char key.

Definition non_empty (value : str) : option str := if is_empty value then None else Some value.

(** A line number, in the texts of errors. *)
Definition at_line (line_number : Z) (what : string) : ParseError :=
  ParseError_new OS_RELEASE (lit "line " ++ to_string line_number ++ lit what).

Fixpoint unescape (input : str) (line_number : Z) : result ParseError str :=
  match input with
  | [] => Ok []
  | c :: rest =>
    if c =? 92 then
      match rest with
      | [] => Err (at_line line_number " ends with an incomplete escape")
      | escaped :: rest => cons escaped <$> unescape rest line_number
      end
    else cons c <$> unescape rest line_number
  end.

Definition parse_assignment_value (raw : str) (line_number : Z) : result ParseError str :=
  let raw := trim raw in
  match raw with
  | [] => Ok []
  | first :: rest =>
    if (first =? 39) || (first =? 34) then
      match reverse rest with
      | last :: inner =>
        if last =? first then
          if first =? 39 then Ok (reverse inner) else unescape (reverse inner) line_number
        else Err (at_line line_number " has an unterminated quoted value")
      | [] => Err (at_line line_number " has an unterminated quoted value")
      end
    else unescape raw line_number
  end.

Definition assign (release : OsRelease) (key value : str) : OsRelease :=
  let (pretty_name, name, version, version_id, id) := release in
  if bool_decide (key = lit "PRETTY_NAME") then Build_OsRelease (Some value) name version version_id id
  else if bool_decide (key = lit "NAME") then Build_OsRelease pretty_name (Some value) version version_id id
  else if bool_decide (key = lit "VERSION") then Build_OsRelease pretty_name name (Some value) version_id id
  else if bool_decide (key = lit "VERSION_ID") then Build_OsRelease pretty_name name version (Some value) id
  else if bool_decide (key = lit "ID") then Build_OsRelease pretty_name name version version_id (Some value)
  else release.

Fixpoint parse_os_release_lines (release : OsRelease) (line_index : Z) (ls : list str) :
    result ParseError OsRelease :=
  match ls with
  | [] => Ok release
  | line :: ls =>
    let line := trim line in
    if is_empty line || starts_with (lit "#") line
    then parse_os_release_lines release (line_index + 1) ls
    else
      '(key, raw_value) ← ok_or (split_once 61 line) (at_line (line_index + 1) " is not an assignment");
      if negb (valid_key key) then Err (at_line (line_index + 1) " has an invalid key")
      else
        value ← parse_assignment_value raw_value (line_index + 1);
        parse_os_release_lines (assign release key value) (line_index + 1) ls
  end.
Definition parse_os_release (input : str) : result ParseError OsRelease :=
  parse_os_release_lines OsRelease_default 0 (lines input).

Definition device_tree_padding (c : Z) : bool :=
  (c =? 0) || (c =? 32) || (c =? 9) || (c =? 13) || (c =? 10).
Definition parse_device_tree_model (input : list Z) : option str :=
  text ← utf8_decode input; non_empty (trim_matches device_tree_padding text).

Definition parse_hostname (input : str) : option str :=
  head (omap (fun line => non_empty (trim line)) (lines input)).

(** ** cpuinfo: the first entry of each key *)

(** The file as key and value pairs, entries without a value left out. *)
Definition cpuinfo_entries (ls : list str) : list (str * str) :=
  omap (fun line => '(k, v) ← split_once 58 line;
                    v ← non_empty (trim v); Some (trim k, v)) ls.

Definition first_value (key : str) (entries : list (str * str)) : option str :=
  snd <$> List.find (fun e => bool_decide (e.1 = key)) entries.

Lemma first_value_cons key k v es :
  first_value key ((k, v) :: es) = if bool_decide (k = key) then Some v else first_value key es.
Proof. unfold first_value. cbn [List.find fst]. by destruct (bool_decide _). Qed.

Lemma cpuinfo_fold ls m :
  fold_left cpuinfo_line ls m
  = {| revision := match revision m with Some v => Some v | None => first_value (lit "Revision") (cpuinfo_entries ls) end;
       serial := match serial m with Some v => Some v | None => first_value (lit "Serial") (cpuinfo_entries ls) end |}.
Proof.
  revert m. induction ls as [|line ls IH]; intros [r s]; [by destruct r, s|].
  cbn [fold_left]. rewrite IH. clear IH. unfold cpuinfo_line, cpuinfo_entries.
  destruct (split_once 58 line) as [[k v]|] eqn:E;
    cbn [omap list_omap]; rewrite E; cbn [mbind option_bind]; [|done]. unfold non_empty.
  destruct (is_empty (trim v)); [by destruct r, s|]. cbn [mbind option_bind].
  rewrite !first_value_cons. cbn [revision serial].
  assert (lit "Revision" <> lit "Serial") by done.
  destruct r, s; repeat case_bool_decide; cbn [andb revision serial]; congruence.
Qed.

(** For every file, each identifier is the first non-empty value of
    its key, and the two are read independently. *)
Theorem parse_cpuinfo_first (input : str) :
  parse_cpuinfo input
  = {| revision := first_value (lit "Revision") (cpuinfo_entries (lines input));
       serial := first_value (lit "Serial") (cpuinfo_entries (lines input)) |}.
Proof. apply cpuinfo_fold. Qed.

(** ** os-release: the last assignment of each key *)

Inductive quoting := SingleQuoted | DoubleQuoted.

(** A value between quotes, with backslashes before the characters that need
    one inside double quotes. *)
Definition escape (value : str) : str :=
  concat ((fun c => if (c =? 92) || (c =? 34) then [92; c] else [c]) <$> value).
Definition quoted (q : quoting) (value : str) : str :=
  match q with
  | SingleQuoted => 39 :: value ++ [39]
  | DoubleQuoted => 34 :: escape value ++ [34]
  end.
Definition assignment (e : str * (quoting * str)) : str := e.1 ++ 61 :: quoted e.2.1 e.2.2.

Fixpoint last_value (key : string) (es : list (str * (quoting * str))) : option str :=
  match es with
  | [] => None
  | (k, (_, v)) :: es =>
    match last_value key es with
    | Some w => Some w
    | None => if bool_decide (k = lit key) then Some v else None
    end
  end.

Lemma unescape_escape value n : unescape (escape value) n = Ok value.
Proof.
  induction value as [|c value IH]; [done|].
  unfold escape. cbn [fmap list_fmap concat]. fold (escape value).
  destruct ((c =? 92) || (c =? 34)) eqn:E.
  - cbn [app unescape]. rewrite Z.eqb_refl, IH. done.
  - cbn [app unescape]. apply orb_false_iff in E as [E _]. by rewrite E, IH.
Qed.

Lemma quoted_shape q value :
  exists c body, quoted q value = c :: body ++ [c] /\ (c = 39 \/ c = 34)
    /\ forall n, (if c =? 39 then Ok body else unescape body n) = Ok value.
Proof.
  destruct q; [exists 39, value|exists 34, (escape value)]; (split; [done|]); (split; [lia|]); [done|].
  intros n. apply unescape_escape.
Qed.

Lemma parse_quoted q value n : parse_assignment_value (quoted q value) n = Ok value.
Proof.
  destruct (quoted_shape q value) as (c & body & -> & Hc & Hbody). unfold parse_assignment_value.
  assert (is_whitespace c = false) as Hws by (destruct Hc as [->| ->]; reflexivity).
  rewrite trim_trimmed by (exists c, (body ++ [c]), (c :: body), c; done).
  replace ((c =? 39) || (c =? 34)) with true by lia.
  rewrite reverse_snoc, Z.eqb_refl, reverse_involutive. apply Hbody.
Qed.

Lemma valid_key_chars key :
  valid_key key = true -> key <> [] /\ Forall (fun c => key_char c = true) key.
Proof.
  unfold valid_key. rewrite andb_true_iff, forallb_forall. intros [Hne Hall].
  split; [by destruct key|]. apply Forall_forall. intros c Hc. by apply Hall, list_elem_of_In.
Qed.

Lemma key_char_plain c :
  key_char c = true -> is_whitespace c = false /\ (c =? 61) = false /\ (c =? 35) = false /\ (10 =? c) = false.
Proof.
  unfold key_char, is_ascii_uppercase, is_ascii_digit, is_whitespace. lia.
Qed.

(** One well-formed assignment is one step of the loop. *)
Lemma parse_os_release_assignment e release i ls :
  valid_key e.1 = true ->
  parse_os_release_lines release i (assignment e :: ls)
  = parse_os_release_lines (assign release e.1 e.2.2) (i + 1) ls.
Proof.
  destruct e as [key [q value]]. cbn [fst snd]. intros Hkey.
  destruct (valid_key_chars key Hkey) as [Hne Hall].
  destruct (quoted_shape q value) as (c & body & Eq & Hc & _).
  assert (is_whitespace c = false) as Hws by (destruct Hc as [->| ->]; reflexivity).
  destruct key as [|k0 key]; [done|]. pose proof Hall as Hall'.
  apply Forall_cons in Hall' as [Hk0 _]. apply key_char_plain in Hk0 as (Hk0 & _ & H35 & _).
  cbn [parse_os_release_lines]. rewrite trim_trimmed.
  2: { unfold assignment. cbn [fst snd]. rewrite Eq.
       exists k0, (key ++ 61 :: c :: body ++ [c]), ((k0 :: key) ++ 61 :: c :: body), c.
       split_and!; [done|by rewrite <-app_assoc|done|done]. }
  unfold assignment at 1 2 3. cbn [fst snd]. rewrite split_once_app.
  2: { eapply Forall_impl; [exact Hall|]. intros x Hx. by apply key_char_plain in Hx as (_ & ? & _). }
  cbn [app is_empty orb]. replace (starts_with _ _) with false.
  2: { symmetry. apply not_true_iff_false. rewrite starts_with_spec. intros [t [= -> _]]. done. }
  cbn [ok_or mbind result_bind]. rewrite Hkey. cbn [negb]. by rewrite parse_quoted.
Qed.

Lemma escape_no_newline value : none (Z.eqb 10) value -> none (Z.eqb 10) (escape value).
Proof.
  induction 1 as [|c value Hc _ IH]; [constructor|]. unfold escape. cbn [fmap list_fmap concat].
  fold (escape value). apply none_app. split; [|done].
  destruct (_ || _); by repeat constructor.
Qed.

Lemma assignment_no_newline key q value :
  valid_key key = true -> none (Z.eqb 10) value -> none (Z.eqb 10) (assignment (key, (q, value))).
Proof.
  intros Hkey Hv. apply valid_key_chars in Hkey as [_ Hall]. unfold assignment. cbn [fst snd].
  apply none_app. split.
  - eapply Forall_impl; [exact Hall|]. intros x Hx. by apply key_char_plain in Hx as (_ & _ & _ & ?).
  - constructor; [done|]. destruct q; (constructor; [done|]); apply none_app;
      (split; [|by repeat constructor]); [done|by apply escape_no_newline].
Qed.

Lemma strip_cr_assignment e : strip_cr (assignment e) = assignment e.
Proof.
  destruct e as [key [q value]]. unfold assignment. cbn [fst snd].
  destruct (quoted_shape q value) as (c & body & -> & Hc & _).
  replace (key ++ 61 :: c :: body ++ [c]) with ((key ++ 61 :: c :: body) ++ [c])
    by by rewrite <-app_assoc.
  unfold strip_cr. destruct (strip_suffix _ _) as [t|] eqn:E; [|done].
  apply strip_suffix_Some, app_inj_tail in E as [_ ->]. by destruct Hc.
Qed.

Lemma parse_os_release_assignments es release i :
  Forall (fun e => valid_key e.1 = true) es ->
  parse_os_release_lines release i (assignment <$> es)
  = Ok (fold_left (fun r e => assign r e.1 e.2.2) es release).
Proof.
  intros Hes. revert release i. induction Hes as [|e es He _ IH]; intros release i; [done|].
  cbn [fmap list_fmap fold_left]. rewrite parse_os_release_assignment by done. apply IH.
Qed.

Lemma assign_fold (es : list (str * (quoting * str))) release :
  let pick key old := match last_value key es with Some v => Some v | None => old end in
  fold_left (fun r e => assign r e.1 e.2.2) es release
  = {| pretty_name := pick "PRETTY_NAME" (pretty_name release); name := pick "NAME" (name release);
       version := pick "VERSION" (version release); version_id := pick "VERSION_ID" (version_id release);
       id := pick "ID" (id release) |}%string.
Proof.
  revert release. induction es as [|[k [q v]] es IH]; intros release; [by destruct release|].
  cbn [fold_left fst snd]. rewrite IH. clear IH. cbn [last_value].
  destruct release as [a b c d e]. unfold assign.
  repeat case_bool_decide; subst; cbn [pretty_name name version version_id id];
    repeat case_match; done.
Qed.

(** C40: a file of assignments in single or double quotes is read back
    exactly, whatever the values contain besides line feeds; of several assignments of a key the
    last one counts, and other keys are ignored. *)
Theorem parse_os_release_last (es : list (str * (quoting * str))) :
  Forall (fun e => valid_key e.1 = true /\ none (Z.eqb 10) e.2.2) es ->
  parse_os_release (terminated (assignment <$> es) [])
  = Ok {| pretty_name := last_value "PRETTY_NAME" es; name := last_value "NAME" es;
          version := last_value "VERSION" es; version_id := last_value "VERSION_ID" es;
          id := last_value "ID" es |}.
Proof.
  intros Hes. unfold parse_os_release.
  rewrite lines_terminated, app_nil_r.
  2: { apply Forall_fmap. eapply Forall_impl; [exact Hes|]. intros [key [q v]] [Hk Hv]. by apply assignment_no_newline. }
  replace (strip_cr <$> (assignment <$> es)) with (assignment <$> es).
  2: { rewrite <-list_fmap_compose. apply list_fmap_ext. intros i e _. symmetry. apply strip_cr_assignment. }
  rewrite parse_os_release_assignments.
  2: { eapply Forall_impl; [exact Hes|]. by intros e [? _]. }
  rewrite assign_fold. cbn. by repeat case_match.
Qed.

Lemma parse_os_release_last_witness :
  parse_os_release (terminated (assignment <$>
    [(lit "NAME", (SingleQuoted, lit "it's \ raw")); (lit "ID", (DoubleQuoted, lit "old"));
     (lit "BUILD_ID", (SingleQuoted, [])); (lit "ID", (DoubleQuoted, [34; 92; 233]))]) [])
  = Ok {| pretty_name := None; name := Some (lit "it's \ raw"); version := None; version_id := None;
          id := Some [34; 92; 233] |}.
Proof.
  eapply eq_trans; [apply parse_os_release_last|vm_compute; reflexivity].
  repeat (apply Forall_cons_2; [split; [vm_compute; reflexivity|by repeat constructor]|]). constructor.
Defined.

(** ** The device-tree model *)

(** The kernel's NUL-terminated model string is read back, with any
    padding around it; bytes that are not UTF-8 give no model. *)
Theorem parse_device_tree_model_padded (s pre post : str) (c d : Z) (s1 s2 : str) :
  Forall (fun x => is_scalar x = true) s ->
  s = c :: s1 -> s = s2 ++ [d] -> device_tree_padding c = false -> device_tree_padding d = false ->
  Forall (fun x => device_tree_padding x = true) pre ->
  Forall (fun x => device_tree_padding x = true) post ->
  parse_device_tree_model (utf8_encode (pre ++ s ++ post)) = Some s
  /\ forall bytes, utf8_decode bytes = None -> parse_device_tree_model bytes = None.
Proof.
  intros Hs Hc Hd Hpc Hpd Hpre Hpost. split; [|intros bytes E; unfold parse_device_tree_model; by rewrite E].
  assert (Hpad : forall x, device_tree_padding x = true -> is_scalar x = true)
    by (unfold device_tree_padding, is_scalar; lia).
  unfold parse_device_tree_model. rewrite utf8_decode_encode.
  2: { rewrite !Forall_app. split_and!; [|done|]; (eapply Forall_impl; [done|apply Hpad]). }
  cbn [mbind option_bind]. unfold trim_matches. rewrite trim_start_matches_app by done.
  rewrite Hc at 1. cbn [app]. rewrite trim_start_matches_none by done.
  change (c :: s1 ++ post) with ((c :: s1) ++ post). rewrite <-Hc.
  unfold trim_end_matches. rewrite reverse_app, trim_start_matches_app by by apply Forall_reverse.
  rewrite Hd, reverse_snoc, trim_start_matches_none, <-reverse_snoc, reverse_involutive by done.
  unfold non_empty. by destruct s2.
Qed.

Lemma parse_device_tree_model_padded_witness :
  parse_device_tree_model (utf8_encode ([] ++ lit "Raspberry Pi 3" ++ [10; 0])) = Some (lit "Raspberry Pi 3").
Proof.
  apply (parse_device_tree_model_padded (lit "Raspberry Pi 3") [] [10; 0] 82 51
           (lit "aspberry Pi 3") (lit "Raspberry Pi ")); try reflexivity; by repeat constructor.
Defined.
