(* ===== verification/Config.v ===== *)
(** * Configuration ([src/src/config.rs])

    Parsing with defaults, the validation of every field, the topics derived
    from a configuration and the loading of credentials.  The TOML parser and
    the file system are parameters. *)

From S2P Require Import Prelude RustStr.

Local Open Scope Z_scope.

Definition MAX_CONFIG_BYTES : Z := 65536.
Definition MAX_PASSWORD_BYTES : Z := 65536.

(** A [PathBuf]: the program only builds paths from text. *)
Definition PathBuf : Type := str.
Definition is_absolute (path : PathBuf) : bool := starts_with (lit "/") path.

(** ** Data *)

Module DeviceConfig.
Record t := { id : str; name : str }.
#[export] Instance eq_dec : EqDecision t. Proof. solve_decision. Defined.
End DeviceConfig.

Module MqttConfig.
Record t := {
  host : str;
  port : Z;
  client_id : str;
  username : str;
  password_file : PathBuf;
  base_topic : str;
  discovery_prefix : str;
  keep_alive : Duration;
}.
#[export] Instance eq_dec : EqDecision t. Proof. solve_decision. Defined.

Definition state_topic (c : t) : str := base_topic c ++ lit "/state".
Definition availability_topic (c : t) : str := base_topic c ++ lit "/availability".
Definition discovery_topic (c : t) (device_id : str) : str :=
  discovery_prefix c ++ lit "/device/" ++ device_id ++ lit "/config".
End MqttConfig.

Module CollectorConfig.
Record t := {
  interval : Duration;
  root_filesystem : PathBuf;
  vcgencmd_path : PathBuf;
  command_timeout : Duration;
}.
#[export] Instance eq_dec : EqDecision t. Proof. solve_decision. Defined.
End CollectorConfig.

Module Config.
Record t := {
  device : DeviceConfig.t;
  mqtt : MqttConfig.t;
  collector : CollectorConfig.t;
}.
End Config.

Module MqttCredentials.
Record t := { username : str; password : str }.
(** [Debug for MqttCredentials]: the secret is replaced. *)
Definition debug_fields (c : t) : list (str * str) :=
  [(lit "username", username c); (lit "password", lit "[REDACTED]")].
End MqttCredentials.

Inductive ConfigError (io_error : Type) :=
  | Read (path : PathBuf) (source : io_error)
  | NotAFile (path : PathBuf)
  | TooLarge (path : PathBuf)
  | SourceTooLarge
  | Toml (message : str)
  | InvalidField (field reason : str)
  | CredentialRead (path : PathBuf) (source : io_error)
  | CredentialNotAFile (path : PathBuf)
  | CredentialTooLarge (path : PathBuf)
  | CredentialEncoding (path : PathBuf)
  | CredentialEmpty (path : PathBuf)
  | CredentialTooLong (path : PathBuf)
  | CredentialPermissions (path : PathBuf).
Arguments Read {_}. Arguments NotAFile {_}. Arguments TooLarge {_}. Arguments SourceTooLarge {_}.
Arguments Toml {_}. Arguments InvalidField {_}. Arguments CredentialRead {_}.
Arguments CredentialNotAFile {_}. Arguments CredentialTooLarge {_}. Arguments CredentialEncoding {_}.
Arguments CredentialEmpty {_}. Arguments CredentialTooLong {_}. Arguments CredentialPermissions {_}.

(** [Display for ConfigError], given the display of the I/O error. *)
Definition ConfigError_display {io_error} (show : io_error -> str) (e : ConfigError io_error) : str :=
  match e with
  | Read path source => lit "cannot read configuration file " ++ path ++ lit ": " ++ show source
  | NotAFile path => lit "configuration path is not a regular file: " ++ path
  | TooLarge path => lit "configuration file exceeds 64 KiB: " ++ path
  | SourceTooLarge => lit "configuration source exceeds 64 KiB"
  | Toml message => lit "invalid TOML: " ++ message
  | InvalidField field reason => lit "invalid " ++ field ++ lit ": " ++ reason
  | CredentialRead path source => lit "cannot read credential file " ++ path ++ lit ": " ++ show source
  | CredentialNotAFile path => lit "credential path is not a regular file: " ++ path
  | CredentialTooLarge path => lit "credential file exceeds 64 KiB: " ++ path
  | CredentialEncoding path => lit "credential file is not valid UTF-8: " ++ path
  | CredentialEmpty path => lit "credential file is empty: " ++ path
  | CredentialTooLong path => lit "credential exceeds the MQTT 65535-byte UTF-8 field limit: " ++ path
  | CredentialPermissions path => lit "credential file permissions are too broad: " ++ path
  end.

(** ** The raw configuration and its defaults *)

Record RawDevice := { raw_id : str; raw_name : str }.
Record RawMqtt := {
  raw_host : str;
  raw_port : Z;
  raw_client_id : str;
  raw_username : str;
  raw_password_file : PathBuf;
  raw_base_topic : str;
  raw_discovery_prefix : str;
  keep_alive_seconds : Z;
}.
Record RawCollector := {
  interval_seconds : Z;
  raw_root_filesystem : PathBuf;
  raw_vcgencmd_path : PathBuf;
  command_timeout_seconds : Z;
}.
Record RawConfig := { raw_device : RawDevice; raw_mqtt : RawMqtt; raw_collector : RawCollector }.

Definition default_host : str := lit "127.0.0.1".
Definition default_port : Z := 1883.
Definition default_discovery_prefix : str := lit "homeassistant".
Definition default_keep_alive : Z := 30.
Definition default_interval : Z := 30.
Definition default_root : PathBuf := lit "/".
Definition default_vcgencmd : PathBuf := lit "/usr/bin/vcgencmd".
Definition default_command_timeout : Z := 2.

Definition RawCollector_default : RawCollector := {|
  interval_seconds := default_interval;
  raw_root_filesystem := default_root;
  raw_vcgencmd_path := default_vcgencmd;
  command_timeout_seconds := default_command_timeout;
|}.

(** The document as the TOML parser hands it to the derived [Deserialize]
    implementations: required fields present, unknown fields refused, the
    fields with a default optional. *)
Record TomlMqtt := {
  toml_host : option str;
  toml_port : option Z;
  toml_client_id : str;
  toml_username : str;
  toml_password_file : PathBuf;
  toml_base_topic : str;
  toml_discovery_prefix : option str;
  toml_keep_alive_seconds : option Z;
}.
Record TomlCollector := {
  toml_interval_seconds : option Z;
  toml_root_filesystem : option PathBuf;
  toml_vcgencmd_path : option PathBuf;
  toml_command_timeout_seconds : option Z;
}.
Record TomlDocument := {
  toml_device : RawDevice;
  toml_mqtt : TomlMqtt;
  toml_collector : option TomlCollector;
}.

(** The [serde(default = ...)] attributes. *)
Definition with_defaults (d : TomlDocument) : RawConfig :=
  let m := toml_mqtt d in
  {| raw_device := toml_device d;
     raw_mqtt := {|
       raw_host := default default_host (toml_host m);
       raw_port := default default_port (toml_port m);
       raw_client_id := toml_client_id m;
       raw_username := toml_username m;
       raw_password_file := toml_password_file m;
       raw_base_topic := toml_base_topic m;
       raw_discovery_prefix := default default_discovery_prefix (toml_discovery_prefix m);
       keep_alive_seconds := default default_keep_alive (toml_keep_alive_seconds m) |};
     raw_collector := match toml_collector d with
       | None => RawCollector_default
       | Some c => {|
           interval_seconds := default default_interval (toml_interval_seconds c);
           raw_root_filesystem := default default_root (toml_root_filesystem c);
           raw_vcgencmd_path := default default_vcgencmd (toml_vcgencmd_path c);
           command_timeout_seconds := default default_command_timeout (toml_command_timeout_seconds c) |}
       end |}.

(** ** Validation of one field *)

Section validators.
Context {io_error : Type}.
Local Abbreviation check := (result (ConfigError io_error) unit).

Definition invalid_when (bad : bool) (field reason : str) : check :=
  if bad then Err (InvalidField field reason) else Ok tt.

Definition validate_identifier (field value : str) (maximum : Z) (punctuation : str) : check :=
  invalid_when
    (is_empty value || (maximum <? len value) || negb (forallb is_ascii value)
     || negb (forallb (fun b => is_ascii_alphanumeric b || existsb (Z.eqb b) punctuation) value))
    field (lit "contains unsupported characters or has an invalid length").

Definition validate_text (field value : str) (maximum : Z) : check :=
  invalid_when
    (is_empty value || (maximum <? len value) || negb (bool_decide (trim value = value))
     || existsb is_control value)
    field (lit "must be non-empty, trimmed, and free of control characters").

Definition host_forbidden (c : Z) : bool :=
  (c =? 47) || (c =? 64) || (c =? 63) || (c =? 35).
Definition validate_host (value : str) : check :=
  invalid_when
    (is_empty value || (253 <? len value) || existsb is_whitespace value
     || existsb is_control value || existsb host_forbidden value || contains (lit "://") value)
    (lit "mqtt.host")
    (lit "must be a host name or address without credentials or a URI scheme").

Definition wildcard (c : Z) : bool := (c =? 43) || (c =? 35).
Definition validate_topic (field value : str) : check :=
  invalid_when
    (is_empty value || (65535 <? len value) || negb (bool_decide (trim value = value))
     || starts_with (lit "/") value || ends_with (lit "/") value || contains (lit "//") value
     || existsb wildcard value || existsb is_control value)
    field (lit "must be a concrete MQTT topic without empty levels or wildcards").

Definition validate_seconds (field : str) (value minimum maximum : Z) : check :=
  invalid_when (negb ((minimum <=? value) && (value <=? maximum)))
    field (lit "is outside the allowed range").

Definition validate_absolute (field : str) (value : PathBuf) : check :=
  invalid_when (negb (is_absolute value)) field (lit "must be an absolute path").
End validators.

Definition raw_derived_topics (raw : RawConfig) : list str :=
  [raw_base_topic (raw_mqtt raw) ++ lit "/state";
   raw_base_topic (raw_mqtt raw) ++ lit "/availability";
   raw_discovery_prefix (raw_mqtt raw) ++ lit "/device/" ++ raw_id (raw_device raw) ++ lit "/config"].

(** The configuration built once every check has passed. *)
Definition config_of (raw : RawConfig) : Config.t :=
  let m := raw_mqtt raw in
  let c := raw_collector raw in
  {| Config.device := {| DeviceConfig.id := raw_id (raw_device raw);
                         DeviceConfig.name := raw_name (raw_device raw) |};
     Config.mqtt := {|
       MqttConfig.host := raw_host m;
       MqttConfig.port := raw_port m;
       MqttConfig.client_id := raw_client_id m;
       MqttConfig.username := raw_username m;
       MqttConfig.password_file := raw_password_file m;
       MqttConfig.base_topic := raw_base_topic m;
       MqttConfig.discovery_prefix := raw_discovery_prefix m;
       MqttConfig.keep_alive := from_secs (keep_alive_seconds m) |};
     Config.collector := {|
       CollectorConfig.interval := from_secs (interval_seconds c);
       CollectorConfig.root_filesystem := raw_root_filesystem c;
       CollectorConfig.vcgencmd_path := raw_vcgencmd_path c;
       CollectorConfig.command_timeout := from_secs (command_timeout_seconds c) |} |}.

Definition validate {io_error} (raw : RawConfig) : result (ConfigError io_error) Config.t :=
  let d := raw_device raw in
  let m := raw_mqtt raw in
  let c := raw_collector raw in
  _ ← validate_identifier (lit "device.id") (raw_id d) 64 (lit "_-");
  _ ← validate_text (lit "device.name") (raw_name d) 128;
  _ ← validate_host (raw_host m);
  _ ← invalid_when (raw_port m =? 0) (lit "mqtt.port") (lit "must be between 1 and 65535");
  _ ← validate_identifier (lit "mqtt.client_id") (raw_client_id m) 128 (lit "._-");
  _ ← validate_text (lit "mqtt.username") (raw_username m) 256;
  _ ← validate_absolute (lit "mqtt.password_file") (raw_password_file m);
  _ ← validate_topic (lit "mqtt.base_topic") (raw_base_topic m);
  _ ← validate_topic (lit "mqtt.discovery_prefix") (raw_discovery_prefix m);
  _ ← validate_seconds (lit "mqtt.keep_alive_seconds") (keep_alive_seconds m) 5 3600;
  _ ← validate_seconds (lit "collector.interval_seconds") (interval_seconds c) 5 86400;
  _ ← validate_seconds (lit "collector.command_timeout_seconds") (command_timeout_seconds c) 1 30;
  _ ← invalid_when (interval_seconds c <=? command_timeout_seconds c)
        (lit "collector.command_timeout_seconds")
        (lit "must be shorter than collector.interval_seconds");
  _ ← validate_absolute (lit "collector.root_filesystem") (raw_root_filesystem c);
  _ ← validate_absolute (lit "collector.vcgencmd_path") (raw_vcgencmd_path c);
  _ ← invalid_when (existsb (fun topic => 65535 <? len topic) (raw_derived_topics raw))
        (lit "mqtt topics") (lit "a derived topic exceeds 65535 bytes");
  Ok (config_of raw).

(** ** Files *)

Record FileMetadata := { is_file : bool; file_len : Z; mode : Z }.

Record TomlError := { toml_message : str; span_start : option Z }.

(** The file system and the TOML parser. *)
Class FileSystem := {
  io_error : Type;
  fs_metadata : PathBuf -> result io_error FileMetadata;
  fs_read : PathBuf -> result io_error (list Z);
  (** The error of [read_to_string] for bytes that are not UTF-8. *)
  invalid_data : io_error;
}.
Class TomlParser := { toml_from_str : str -> result TomlError TomlDocument }.

Definition sanitize_toml_error (e : TomlError) : str :=
  match span_start e with
  | Some start => toml_message e ++ lit " at byte " ++ to_string start
  | None => toml_message e
  end.

Section loading.
Context `{FileSystem} `{TomlParser}.

Definition fs_read_to_string (path : PathBuf) : result io_error str :=
  bytes ← fs_read path; ok_or (utf8_decode bytes) invalid_data.

Definition Config_parse (source : str) : result (ConfigError io_error) Config.t :=
  if MAX_CONFIG_BYTES <? len source then Err SourceTooLarge
  else
    document ← map_err (fun e => Toml (sanitize_toml_error e)) (toml_from_str source);
    validate (with_defaults document).

Definition Config_load (path : PathBuf) : result (ConfigError io_error) Config.t :=
  metadata ← map_err (Read path) (fs_metadata path);
  if negb (is_file metadata) then Err (NotAFile path)
  else if MAX_CONFIG_BYTES <? file_len metadata then Err (TooLarge path)
  else
    source ← map_err (Read path) (fs_read_to_string path);
    Config_parse source.

Definition validate_secret_permissions (path : PathBuf) (metadata : FileMetadata) :
    result (ConfigError io_error) unit :=
  if negb (Z.land (mode metadata) 23 =? 0) then Err (CredentialPermissions path) else Ok tt.

Definition strip_line_ending (password : str) : str :=
  if ends_with [13; 10] password then take (length password - 2) password
  else if ends_with [10] password then take (length password - 1) password
  else password.

Definition MqttCredentials_load (config : MqttConfig.t) : result (ConfigError io_error) MqttCredentials.t :=
  let path := MqttConfig.password_file config in
  metadata ← map_err (CredentialRead path) (fs_metadata path);
  if negb (is_file metadata) then Err (CredentialNotAFile path)
  else if MAX_PASSWORD_BYTES <? file_len metadata then Err (CredentialTooLarge path)
  else
    _ ← validate_secret_permissions path metadata;
    bytes ← map_err (CredentialRead path) (fs_read path);
    password ← ok_or (utf8_decode bytes) (CredentialEncoding path);
    let password := strip_line_ending password in
    if is_empty password then Err (CredentialEmpty path)
    else if u16_max <? len password then Err (CredentialTooLong path)
    else Ok {| MqttCredentials.username := MqttConfig.username config;
               MqttCredentials.password := password |}.
End loading.

(** ** What validation accepts *)

(** The levels of a topic. *)
Definition levels (topic : str) : list str := split_pred (Z.eqb 47) topic.

Definition identifier_ok (value : str) (maximum : Z) (punctuation : str) : Prop :=
  value <> [] /\ len value <= maximum
  /\ Forall (fun c => is_ascii_alphanumeric c = true \/ c ∈ punctuation) value.
Definition text_ok (value : str) (maximum : Z) : Prop :=
  value <> [] /\ len value <= maximum /\ trim value = value /\ none is_control value.
Definition host_ok (value : str) : Prop :=
  value <> [] /\ len value <= 253 /\ none is_whitespace value /\ none is_control value
  /\ none host_forbidden value.
(** A concrete topic: every level is non-empty and there is no wildcard. *)
Definition topic_ok (value : str) : Prop :=
  len value <= 65535 /\ Forall (fun l => l <> []) (levels value)
  /\ none wildcard value /\ none is_control value /\ trim value = value.

Definition valid (raw : RawConfig) : Prop :=
  let d := raw_device raw in
  let m := raw_mqtt raw in
  let c := raw_collector raw in
  identifier_ok (raw_id d) 64 (lit "_-") /\ text_ok (raw_name d) 128
  /\ host_ok (raw_host m) /\ raw_port m <> 0
  /\ identifier_ok (raw_client_id m) 128 (lit "._-") /\ text_ok (raw_username m) 256
  /\ is_absolute (raw_password_file m) = true
  /\ topic_ok (raw_base_topic m) /\ topic_ok (raw_discovery_prefix m)
  /\ 5 <= keep_alive_seconds m <= 3600 /\ 5 <= interval_seconds c <= 86400
  /\ 1 <= command_timeout_seconds c <= 30 /\ command_timeout_seconds c < interval_seconds c
  /\ is_absolute (raw_root_filesystem c) = true /\ is_absolute (raw_vcgencmd_path c) = true
  /\ Forall (fun t => len t <= 65535) (raw_derived_topics raw).

Section level_lemmas.
Lemma levels_cons c s :
  levels (c :: s) = if 47 =? c then [] :: levels s
                    else match levels s with w :: ws => (c :: w) :: ws | [] => [[c]] end.
Proof. reflexivity. Qed.

Lemma levels_app s t : levels (s ++ 47 :: t) = levels s ++ levels t.
Proof. by apply split_pred_app_sep. Qed.

Lemma levels_none s : none (Z.eqb 47) s -> levels s = [s].
Proof. apply split_pred_none. Qed.

Lemma starts_with_char d s : starts_with [d] s = true <-> exists t, s = d :: t.
Proof. apply (starts_with_spec [d]). Qed.

Lemma ends_with_char d c s :
  ends_with [d] (c :: s) = true <-> (s = [] /\ c = d) \/ ends_with [d] s = true.
Proof.
  rewrite !ends_with_spec. split.
  - intros [[|c' t] E]; simplify_eq/=; [by left|]. right. eauto.
  - intros [[-> ->]|[t ->]]; [by exists []|]. by exists (c :: t).
Qed.

Lemma contains_double d c s :
  contains [d; d] (c :: s) = true
  <-> (c = d /\ starts_with [d] s = true) \/ contains [d; d] s = true.
Proof.
  cbn [contains]. rewrite orb_true_iff, starts_with_char, starts_with_spec.
  split; (intros [H|H]; [left|by right]).
  - destruct H as [t [= -> ->]]. eauto.
  - destruct H as [-> [t ->]]. by exists t.
Qed.

Lemma tail_levels_nonempty s :
  Forall (fun l => l <> []) (tail (levels s))
  <-> ends_with [47] s <> true /\ contains [47; 47] s <> true.
Proof.
  induction s as [|c s IH]; [split; [by intros _; split|constructor]|].
  rewrite levels_cons, ends_with_char, contains_double.
  destruct (split_pred_cons (Z.eqb 47) s) as (w & ws & E). fold (levels s) in E.
  destruct (Z.eqb_spec 47 c) as [<-|Hc]; cbn [tail].
  - rewrite E in *. cbn [tail] in IH. rewrite Forall_cons, IH. clear IH.
    destruct s as [|c' s']; [injection E as <- <-; split; [by intros [? _]|naive_solver]|].
    rewrite levels_cons in E. destruct (Z.eqb_spec 47 c') as [<-|Hc'].
    + injection E as <- <-. split; [by intros [? _]|]. intros [_ H]. destruct H. left.
      split; [done|]. rewrite starts_with_char. eauto.
    + assert (w <> []) by (destruct (levels s'); by simplify_eq).
      assert (starts_with [47] (c' :: s') <> true) by (rewrite starts_with_char; naive_solver).
      naive_solver.
  - rewrite E in *. cbn [tail] in IH |- *. rewrite IH. naive_solver.
Qed.

(** The validator's three substring tests are the absence of empty levels. *)
Lemma levels_nonempty s :
  Forall (fun l => l <> []) (levels s)
  <-> s <> [] /\ starts_with [47] s <> true /\ ends_with [47] s <> true /\ contains [47; 47] s <> true.
Proof.
  pose proof (tail_levels_nonempty s) as Ht. rewrite <-Ht. clear Ht.
  destruct s as [|c s]; [split; [intros H; by inversion H|by intros [? _]]|].
  rewrite starts_with_char, levels_cons.
  destruct (split_pred_cons (Z.eqb 47) s) as (w & ws & E). fold (levels s) in E.
  destruct (Z.eqb_spec 47 c) as [<-|Hc]; [split|].
  - intros H. by inversion H.
  - intros (_ & H & _). destruct H. eauto.
  - rewrite E. cbn [tail]. rewrite Forall_cons. naive_solver.
Qed.
End level_lemmas.

Section validator_lemmas.
Context {io_error : Type}.
Implicit Types (e : ConfigError io_error) (value field : str).

Lemma invalid_when_Ok (bad : bool) field reason u :
  invalid_when (io_error := io_error) bad field reason = Ok u <-> bad = false.
Proof. unfold invalid_when. destruct u, bad; split; congruence. Qed.

Lemma is_empty_false value : is_empty value = false <-> value <> [].
Proof. by destruct value. Qed.

Lemma negb_false_decide (P : Prop) `{Decision P} : negb (bool_decide P) = false <-> P.
Proof. by rewrite negb_false_iff, bool_decide_eq_true. Qed.

Lemma validate_identifier_Ok field value maximum punctuation u :
  Forall (fun c => is_ascii c = true) punctuation ->
  validate_identifier (io_error := io_error) field value maximum punctuation = Ok u
  <-> identifier_ok value maximum punctuation.
Proof.
  intros Hp. unfold validate_identifier, identifier_ok.
  rewrite invalid_when_Ok, !orb_false_iff, is_empty_false, Z.ltb_ge, !negb_false_iff, !forallb_forall.
  rewrite Forall_forall in Hp |- *.
  assert (forall b, is_ascii_alphanumeric b || existsb (Z.eqb b) punctuation = true
                    <-> is_ascii_alphanumeric b = true \/ b ∈ punctuation) as He.
  { intros b. rewrite orb_true_iff, existsb_exists. setoid_rewrite Z.eqb_eq.
    setoid_rewrite <-list_elem_of_In. naive_solver. }
  setoid_rewrite He. setoid_rewrite <-list_elem_of_In. clear He. split; [naive_solver|].
  intros (? & ? & Hall). split_and!; [done..| |done]. intros x Hx.
  destruct (Hall x Hx) as [Ha|Ha]; [|by apply Hp].
  revert Ha. unfold is_ascii_alphanumeric, is_ascii_digit, is_ascii_uppercase, is_ascii_lowercase, is_ascii.
  lia.
Qed.

Lemma validate_text_Ok field value maximum u :
  validate_text (io_error := io_error) field value maximum = Ok u <-> text_ok value maximum.
Proof.
  unfold validate_text, text_ok.
  rewrite invalid_when_Ok, !orb_false_iff, is_empty_false, Z.ltb_ge, negb_false_decide, existsb_false.
  naive_solver.
Qed.

Lemma validate_host_Ok value u : validate_host (io_error := io_error) value = Ok u <-> host_ok value.
Proof.
  unfold validate_host, host_ok.
  rewrite invalid_when_Ok, !orb_false_iff, is_empty_false, Z.ltb_ge, !existsb_false.
  split; [naive_solver|]. intros (? & ? & ? & ? & Hf). split_and!; try done.
  apply not_true_iff_false. rewrite contains_spec. intros (a & b & ->).
  unfold none in Hf. rewrite !Forall_app in Hf. destruct Hf as (_ & Hf & _).
  inversion Hf as [|? ? _ Hf']. by inversion Hf'.
Qed.

Lemma validate_topic_Ok field value u :
  validate_topic (io_error := io_error) field value = Ok u <-> topic_ok value.
Proof.
  unfold validate_topic, topic_ok. rewrite levels_nonempty.
  rewrite invalid_when_Ok, !orb_false_iff, is_empty_false, Z.ltb_ge, negb_false_decide, !existsb_false.
  rewrite <-!not_true_iff_false. naive_solver.
Qed.

Lemma validate_seconds_Ok field (seconds minimum maximum : Z) u :
  validate_seconds (io_error := io_error) field seconds minimum maximum = Ok u
  <-> minimum <= seconds <= maximum.
Proof. unfold validate_seconds. rewrite invalid_when_Ok. lia. Qed.

Lemma validate_absolute_Ok field value u :
  validate_absolute (io_error := io_error) field value = Ok u <-> is_absolute value = true.
Proof. unfold validate_absolute. by rewrite invalid_when_Ok, negb_false_iff. Qed.

Lemma check_bind {A} (m : result (ConfigError io_error) unit) (k : result (ConfigError io_error) A) a :
  (m ≫= fun _ => k) = Ok a <-> m = Ok tt /\ k = Ok a.
Proof. destruct m as [[]|]; cbn; naive_solver. Qed.

Lemma validate_ok_iff_parts (raw : RawConfig) (c : Config.t) :
  validate (io_error := io_error) raw = Ok c <-> valid raw /\ c = config_of raw.
Proof.
  unfold validate, valid. cbv zeta. rewrite !check_bind.
  rewrite !validate_identifier_Ok by by repeat constructor.
  rewrite !validate_text_Ok, validate_host_Ok, !validate_topic_Ok, !validate_seconds_Ok,
    !validate_absolute_Ok, !invalid_when_Ok, Z.eqb_neq, Z.leb_gt, existsb_false.
  assert (Forall (fun t => (65535 <? len t) = false) (raw_derived_topics raw)
          <-> Forall (fun t => len t <= 65535) (raw_derived_topics raw)) as ->
    by (apply Forall_iff; intros; apply Z.ltb_ge).
  naive_solver.
Qed.

(** C29: the configurations that are accepted are exactly the valid
    ones, and an accepted configuration carries the validated values; a
    document that only gives the required fields gets the documented
    defaults, all of which are valid. *)
Theorem validate_ok_iff (raw : RawConfig) (c : Config.t) :
  (validate (io_error := io_error) raw = Ok c <-> valid raw /\ c = config_of raw)
  /\ forall id name client username password topic,
      identifier_ok id 64 (lit "_-") -> text_ok name 128 -> identifier_ok client 128 (lit "._-") ->
      text_ok username 256 -> is_absolute password = true -> topic_ok topic -> len topic <= 65522 ->
      valid (with_defaults (Build_TomlDocument (Build_RawDevice id name)
        (Build_TomlMqtt None None client username password topic None None) None)).
Proof.
  split; [apply validate_ok_iff_parts|].
  intros id name client username password topic Hid Hname Hclient Huser Hpass Htopic Hlen.
  unfold valid, with_defaults. cbn -[lit]. split_and!; try done; try lia.
  - split; [done|]. split; [vm_compute; done|]. split_and!; by repeat constructor.
  - split; [vm_compute; done|]. split; [by repeat constructor|]. split_and!; by repeat constructor.
  - destruct Hid as (_ & Hidlen & _).
    unfold raw_derived_topics. cbn -[lit].
    repeat constructor; rewrite !len_app;
      repeat match goal with |- context [len (lit ?s)] =>
        let v := eval vm_compute in (len (lit s)) in change (len (lit s)) with v end; try lia.
    change (len default_discovery_prefix) with 13. lia.
Qed.

(** The texts an [InvalidField] error can carry. *)
Definition static_texts : list str :=
  lit <$> ["device.id"; "device.name"; "mqtt.host"; "mqtt.port"; "mqtt.client_id"; "mqtt.username";
           "mqtt.password_file"; "mqtt.base_topic"; "mqtt.discovery_prefix"; "mqtt.keep_alive_seconds";
           "collector.interval_seconds"; "collector.command_timeout_seconds";
           "collector.root_filesystem"; "collector.vcgencmd_path"; "mqtt topics";
           "contains unsupported characters or has an invalid length";
           "must be non-empty, trimmed, and free of control characters";
           "must be a host name or address without credentials or a URI scheme";
           "must be between 1 and 65535";
           "must be a concrete MQTT topic without empty levels or wildcards";
           "is outside the allowed range"; "must be an absolute path";
           "must be shorter than collector.interval_seconds";
           "a derived topic exceeds 65535 bytes"]%string.

Definition static_error (e : ConfigError io_error) : Prop :=
  match e with
  | InvalidField field reason => field ∈ static_texts /\ reason ∈ static_texts
  | _ => False
  end.

Lemma invalid_when_static (bad : bool) field reason e :
  bool_decide (field ∈ static_texts) && bool_decide (reason ∈ static_texts) = true ->
  invalid_when bad field reason = Err e -> static_error e.
Proof.
  intros Hin. apply andb_true_iff in Hin as [Hf Hr]. unfold invalid_when.
  destruct bad; intros [= <-]. split; by eapply bool_decide_eq_true_1.
Qed.

Lemma static_bind {A} (m : result (ConfigError io_error) unit) (k : result (ConfigError io_error) A) e :
  (forall e, m = Err e -> static_error e) -> (forall e, k = Err e -> static_error e) ->
  (m ≫= fun _ => k) = Err e -> static_error e.
Proof. intros Hm Hk. destruct m as [u|e']; cbn; [apply Hk|intros [= <-]; by apply Hm]. Qed.

(** The error for a rejected configuration is made of fixed
    texts only: no value of the file appears in it. *)
Theorem validate_error_static (raw : RawConfig) (e : ConfigError io_error) :
  validate raw = Err e -> static_error e.
Proof.
  unfold validate, validate_identifier, validate_text, validate_host, validate_topic,
    validate_seconds, validate_absolute. cbv zeta. revert e.
  do 16 (intros ?; apply static_bind;
         [intros ?; apply invalid_when_static; vm_compute; reflexivity|]).
  intros ? [=].
Qed.

(** ** Derived topics *)

(** A topic name MQTT accepts in a PUBLISH packet, with no empty level. *)
Definition publish_topic (t : str) : Prop :=
  len t <= 65535 /\ Forall (fun l => l <> []) (levels t) /\ none wildcard t /\ none is_control t.

Lemma topic_child t l :
  topic_ok t -> l <> [] -> none (Z.eqb 47) l -> none wildcard l -> none is_control l ->
  levels (t ++ 47 :: l) = levels t ++ [l] /\ Forall (fun l => l <> []) (levels (t ++ 47 :: l))
  /\ none wildcard (t ++ 47 :: l) /\ none is_control (t ++ 47 :: l).
Proof.
  intros (_ & Hl & Hw & Hc & _) Hne Hs Hlw Hlc.
  assert (levels (t ++ 47 :: l) = levels t ++ [l]) as E by by rewrite levels_app, (levels_none l).
  split_and!; [done| | |].
  - rewrite E. apply Forall_app. split; [done|by repeat constructor].
  - apply none_app. split; [done|]. by constructor.
  - apply none_app. split; [done|]. by constructor.
Qed.

Lemma identifier_plain value maximum punctuation :
  identifier_ok value maximum punctuation ->
  forallb (fun c => negb (47 =? c) && negb (wildcard c) && negb (is_control c)) punctuation = true ->
  none (Z.eqb 47) value /\ none wildcard value /\ none is_control value.
Proof.
  intros (_ & _ & Hall) Hp. rewrite forallb_forall in Hp.
  assert (Forall (fun c => (47 =? c) = false /\ wildcard c = false /\ is_control c = false) value) as H.
  { eapply Forall_impl; [exact Hall|]. intros c [Hc|Hc].
    - revert Hc. unfold is_ascii_alphanumeric, is_ascii_digit, is_ascii_uppercase,
        is_ascii_lowercase, wildcard, is_control. lia.
    - apply list_elem_of_In, Hp in Hc. rewrite !andb_true_iff, !negb_true_iff in Hc. tauto. }
  unfold none. by rewrite !Forall_and in H.
Qed.

(** C30: the topics derived from an accepted configuration are concrete
    MQTT topics within the protocol's length limit, and no two coincide, so
    state, availability and discovery never overwrite each other. *)
Theorem derived_topics_publishable (raw : RawConfig) (c : Config.t) :
  validate (io_error := io_error) raw = Ok c ->
  let m := Config.mqtt c in
  let topics := [MqttConfig.state_topic m; MqttConfig.availability_topic m;
                 MqttConfig.discovery_topic m (DeviceConfig.id (Config.device c))] in
  Forall publish_topic topics /\ NoDup topics.
Proof.
  intros H. apply validate_ok_iff_parts in H as [Hv ->].
  destruct Hv as (Hid & _ & _ & _ & _ & _ & _ & Hb & Hd & _ & _ & _ & _ & _ & _ & Hlen).
  pose proof Hid as (Hidne & _ & _).
  apply identifier_plain in Hid as (Hid47 & Hidw & Hidc); [|reflexivity].
  unfold raw_derived_topics in Hlen. rewrite !Forall_cons in Hlen. destruct Hlen as (L1 & L2 & L3 & _).
  cbn [config_of Config.mqtt Config.device DeviceConfig.id]. cbv zeta.
  unfold MqttConfig.state_topic, MqttConfig.availability_topic, MqttConfig.discovery_topic.
  cbn [MqttConfig.base_topic MqttConfig.discovery_prefix].
  set (base := raw_base_topic (raw_mqtt raw)) in *.
  set (prefix := raw_discovery_prefix (raw_mqtt raw)) in *.
  set (id := raw_id (raw_device raw)) in *.
  destruct (topic_child base (lit "state") Hb) as (E1 & N1 & W1 & C1); [done|by repeat constructor..|].
  destruct (topic_child base (lit "availability") Hb) as (E2 & N2 & W2 & C2); [done|by repeat constructor..|].
  change (base ++ lit "/state") with (base ++ 47 :: lit "state") in *.
  change (base ++ lit "/availability") with (base ++ 47 :: lit "availability") in *.
  change (prefix ++ lit "/device/" ++ id ++ lit "/config")
    with (prefix ++ 47 :: (lit "device" ++ 47 :: (id ++ 47 :: lit "config"))) in *.
  assert (levels (prefix ++ 47 :: (lit "device" ++ 47 :: (id ++ 47 :: lit "config")))
          = levels prefix ++ [lit "device"; id; lit "config"]) as E3.
  { rewrite !levels_app, (levels_none id), (levels_none (lit "device")),
      (levels_none (lit "config")) by (done || by repeat constructor). done. }
  destruct Hd as (_ & Hdl & Hdw & Hdc & _).
  split.
  - repeat constructor; try done.
    + rewrite E3. apply Forall_app. split; [done|]. by repeat constructor.
    + apply none_app. split; [done|]. constructor; [done|]. apply none_app. split; [by repeat constructor|].
      constructor; [done|]. apply none_app. split; [done|]. by repeat constructor.
    + apply none_app. split; [done|]. constructor; [done|]. apply none_app. split; [by repeat constructor|].
      constructor; [done|]. apply none_app. split; [done|]. by repeat constructor.
  - assert (Hlast : forall a b la lb x y, levels a = la ++ [x] -> levels b = lb ++ [y] -> x <> y -> a <> b).
    { intros a b la lb x y Ea Eb Hxy ->. rewrite Ea in Eb. by apply app_inj_tail in Eb as [_ ?]. }
    assert (levels prefix ++ [lit "device"; id; lit "config"]
            = (levels prefix ++ [lit "device"; id]) ++ [lit "config"]) as E4 by by rewrite <-app_assoc.
    rewrite E4 in E3.
    apply NoDup_cons. split; [|apply NoDup_cons; split; [|apply NoDup_singleton]].
    + rewrite not_elem_of_cons, list_elem_of_singleton. split; eapply Hlast; eauto; done.
    + rewrite list_elem_of_singleton. eapply Hlast; eauto; done.
Qed.
End validator_lemmas.

(** ** Witnesses *)

Definition example_raw : RawConfig := {|
  raw_device := {| raw_id := lit "pi_one"; raw_name := lit "Raspberry Pi" |};
  raw_mqtt := {|
    raw_host := default_host; raw_port := default_port; raw_client_id := lit "rpi.health";
    raw_username := lit "monitor"; raw_password_file := lit "/etc/rpi/password";
    raw_base_topic := lit "rpi/pi_one"; raw_discovery_prefix := default_discovery_prefix;
    keep_alive_seconds := default_keep_alive |};
  raw_collector := RawCollector_default;
|}.

Definition rejected_raw : RawConfig := {|
  raw_device := {| raw_id := lit "pi/one"; raw_name := lit "secret" |};
  raw_mqtt := raw_mqtt example_raw;
  raw_collector := RawCollector_default;
|}.

Lemma validate_error_static_witness :
  exists e, validate (io_error := unit) rejected_raw = Err e /\ static_error e.
Proof.
  destruct (validate (io_error := unit) rejected_raw) as [c|e] eqn:E; [vm_compute in E; discriminate E|].
  exists e. split; [done|]. exact (validate_error_static _ _ E).
Defined.

Lemma derived_topics_publishable_witness :
  exists c, validate (io_error := unit) example_raw = Ok c
    /\ MqttConfig.state_topic (Config.mqtt c) = lit "rpi/pi_one/state"
    /\ publish_topic (lit "rpi/pi_one/state").
Proof.
  destruct (validate (io_error := unit) example_raw) as [c|e] eqn:E; [|vm_compute in E; discriminate E].
  exists c. split; [done|]. pose proof (derived_topics_publishable _ _ E) as [Ht _].
  apply Forall_cons in Ht as [Ht _].
  assert (MqttConfig.state_topic (Config.mqtt c) = lit "rpi/pi_one/state") as Hst
    by (vm_compute in E; injection E as <-; reflexivity).
  by rewrite Hst in Ht.
Defined.

(** ** Loading files *)

Section loading_lemmas.
Context `{FileSystem} `{TomlParser}.

(** What is accepted as a password file. *)
Lemma MqttCredentials_load_Ok (config : MqttConfig.t) (c : MqttCredentials.t) :
  MqttCredentials_load config = Ok c ->
  exists m bytes text, fs_metadata (MqttConfig.password_file config) = Ok m
    /\ fs_read (MqttConfig.password_file config) = Ok bytes
    /\ utf8_decode bytes = Some text
    /\ is_file m = true /\ file_len m <= MAX_PASSWORD_BYTES /\ Z.land (mode m) 23 = 0
    /\ c = {| MqttCredentials.username := MqttConfig.username config;
              MqttCredentials.password := strip_line_ending text |}
    /\ strip_line_ending text <> [] /\ len (strip_line_ending text) <= u16_max.
Proof.
  unfold MqttCredentials_load, validate_secret_permissions. intros Hl.
  apply result_bind_Ok in Hl as (m & Hm & Hl). apply map_err_Ok in Hm.
  destruct (is_file m) eqn:Hf; [|done]. cbn [negb] in Hl.
  destruct (Z.ltb_spec MAX_PASSWORD_BYTES (file_len m)); [done|].
  destruct (Z.eqb_spec (Z.land (mode m) 23) 0); [|done]. cbn [negb mbind result_bind] in Hl.
  apply result_bind_Ok in Hl as (bytes & Hb & Hl). apply map_err_Ok in Hb.
  apply result_bind_Ok in Hl as (text & Ht & Hl). apply ok_or_Ok in Ht.
  destruct (is_empty _) eqn:He; [done|].
  destruct (Z.ltb_spec u16_max (len (strip_line_ending text))); [done|]. injection Hl as <-.
  exists m, bytes, text. split_and!; try done. by apply is_empty_false.
Qed.

Lemma strip_line_ending_lf text :
  strip_suffix [13] text = None -> strip_line_ending (text ++ [10]) = text.
Proof.
  intros Hcr. unfold strip_line_ending. replace (ends_with [13; 10] (text ++ [10])) with false.
  2: { symmetry. apply not_true_iff_false. rewrite ends_with_spec. intros [t E].
       change [13; 10] with ([13] ++ [10]) in E. rewrite app_assoc in E.
       apply app_inj_tail in E as [-> _].
       assert (strip_suffix [13] (t ++ [13]) = Some t) by by apply strip_suffix_Some. congruence. }
  replace (ends_with [10] (text ++ [10])) with true by (symmetry; rewrite ends_with_spec; eauto).
  rewrite length_app. cbn [length]. replace (length text + 1 - 1)%nat with (length text) by lia.
  apply take_app_length.
Qed.

Lemma strip_line_ending_crlf text : strip_line_ending (text ++ [13; 10]) = text.
Proof.
  unfold strip_line_ending.
  replace (ends_with [13; 10] (text ++ [13; 10])) with true by (symmetry; rewrite ends_with_spec; eauto).
  rewrite length_app. cbn [length]. replace (length text + 2 - 2)%nat with (length text) by lia.
  apply take_app_length.
Qed.

Lemma strip_line_ending_none text :
  strip_suffix [10] text = None -> strip_line_ending text = text.
Proof.
  intros Hlf. unfold strip_line_ending.
  assert (ends_with [10] text = false) as E by (unfold ends_with; rewrite Hlf; done).
  rewrite E. replace (ends_with [13; 10] text) with false; [done|]. symmetry.
  apply not_true_iff_false. rewrite ends_with_spec. intros [t ->].
  apply not_true_iff_false in E. apply E. rewrite ends_with_spec. exists (t ++ [13]). by rewrite <-app_assoc.
Qed.

(** The three ways a password file can end. *)
Definition line_ending (password eol : str) : Prop :=
  (eol = [] /\ strip_suffix [10] password = None)
  \/ (eol = [10] /\ strip_suffix [13] password = None)
  \/ eol = [13; 10].

(** C31: a password is read back exactly, less one final line
    ending; whatever the file holds, one that is not regular, is too large or
    is accessible beyond its owner and readable by its group is refused
    without its contents being looked at. *)
Theorem MqttCredentials_load_spec (config : MqttConfig.t) (m : FileMetadata) (password eol : str) :
  let path := MqttConfig.password_file config in
  fs_metadata path = Ok m ->
  (is_file m = false \/ MAX_PASSWORD_BYTES < file_len m \/ Z.land (mode m) 23 <> 0 ->
   exists e, MqttCredentials_load config = Err e
     /\ e ∈ [CredentialNotAFile path; CredentialTooLarge path; CredentialPermissions path])
  /\ (is_file m = true -> file_len m <= MAX_PASSWORD_BYTES -> Z.land (mode m) 23 = 0 ->
      Forall (fun c => is_scalar c = true) password -> line_ending password eol ->
      fs_read path = Ok (utf8_encode (password ++ eol)) ->
      MqttCredentials_load config =
        if is_empty password then Err (CredentialEmpty path)
        else if u16_max <? len password then Err (CredentialTooLong path)
        else Ok {| MqttCredentials.username := MqttConfig.username config;
                   MqttCredentials.password := password |}).
Proof.
  intros path Hm. unfold MqttCredentials_load. fold path. rewrite Hm. cbn [map_err mbind result_bind].
  unfold validate_secret_permissions. split.
  - intros Hbad. destruct (is_file m); cbn [negb].
    2: { eexists. split; [done|]. by left. }
    destruct (Z.ltb_spec MAX_PASSWORD_BYTES (file_len m)).
    { eexists. split; [done|]. by right; left. }
    destruct (Z.eqb_spec (Z.land (mode m) 23) 0); [destruct Hbad as [|[|]]; [done|lia|done]|].
    eexists. split; [done|]. by right; right; left.
  - intros -> Hlen -> Hs Heol Hread. cbn [negb].
    destruct (Z.ltb_spec MAX_PASSWORD_BYTES (file_len m)); [lia|].
    rewrite Hread. cbn [Z.eqb negb map_err mbind result_bind].
    rewrite utf8_decode_encode.
    2: { apply Forall_app. split; [done|].
         destruct Heol as [[-> _]|[[-> _]| ->]]; by repeat constructor. }
    cbn [ok_or mbind result_bind].
    replace (strip_line_ending (password ++ eol)) with password; [done|]. symmetry.
    destruct Heol as [[-> Hn]|[[-> Hn]| ->]].
    + rewrite app_nil_r. by apply strip_line_ending_none.
    + by apply strip_line_ending_lf.
    + apply strip_line_ending_crlf.
Qed.

(** C32: a configuration that is loaded comes from a regular file of at
    most 64 KiB, is the validated form of its parsed document with the
    documented defaults, and every error names the stage that failed. *)
Theorem Config_load_cases (path : PathBuf) :
  match Config_load path with
  | Ok c => exists m text document,
      fs_metadata path = Ok m /\ is_file m = true /\ file_len m <= MAX_CONFIG_BYTES
      /\ fs_read path ≫= (fun b => ok_or (utf8_decode b) invalid_data) = Ok text
      /\ len text <= MAX_CONFIG_BYTES /\ toml_from_str text = Ok document
      /\ valid (with_defaults document) /\ c = config_of (with_defaults document)
  | Err (Read p source) => p = path
      /\ (fs_metadata path = Err source \/ fs_read path = Err source \/ source = invalid_data)
  | Err (NotAFile p) => p = path /\ exists m, fs_metadata path = Ok m /\ is_file m = false
  | Err (TooLarge p) => p = path /\ exists m, fs_metadata path = Ok m /\ MAX_CONFIG_BYTES < file_len m
  | Err SourceTooLarge => exists bytes, fs_read path = Ok bytes /\ MAX_CONFIG_BYTES < Z.of_nat (length bytes)
  | Err (Toml message) => exists text e, toml_from_str text = Err e /\ message = sanitize_toml_error e
  | Err e => static_error e
  end.
Proof.
  unfold Config_load. destruct (fs_metadata path) as [m|e] eqn:Hm; cbn [map_err mbind result_bind]; [|by eauto].
  destruct (is_file m) eqn:Hf; cbn [negb]; [|by eauto].
  destruct (Z.ltb_spec MAX_CONFIG_BYTES (file_len m)); [by eauto|].
  unfold fs_read_to_string. destruct (fs_read path) as [bytes|e] eqn:Hr; cbn [map_err mbind result_bind]; [|by eauto].
  destruct (utf8_decode bytes) as [text|] eqn:Hd; cbn [ok_or map_err mbind result_bind]; [|by eauto].
  unfold Config_parse. destruct (Z.ltb_spec MAX_CONFIG_BYTES (len text)).
  { exists bytes. split; [done|]. by rewrite <-(utf8_decode_len _ _ Hd). }
  destruct (toml_from_str text) as [document|e] eqn:Ht; cbn [map_err mbind result_bind]; [|by eauto].
  destruct (validate (with_defaults document)) as [c|e] eqn:Hv.
  - apply validate_ok_iff_parts in Hv as [? ->]. exists m, text, document. by split_and!.
  - apply validate_error_static in Hv. by destruct e.
Qed.
End loading_lemmas.

(** A file system with one password file, for the witness. *)
Definition one_file (path : PathBuf) (m : FileMetadata) (bytes : list Z) : FileSystem := {|
  io_error := unit;
  fs_metadata := fun p => if bool_decide (p = path) then Ok m else Err tt;
  fs_read := fun p => if bool_decide (p = path) then Ok bytes else Err tt;
  invalid_data := tt;
|}.

Lemma MqttCredentials_load_spec_witness :
  let config := Config.mqtt (config_of example_raw) in
  let path := MqttConfig.password_file config in
  let password := lit " secret " in
  MqttCredentials_load (H := one_file path (Build_FileMetadata true 10 384) (utf8_encode (password ++ [13; 10])))
    config = Ok {| MqttCredentials.username := lit "monitor"; MqttCredentials.password := password |}.
Proof.
  cbv zeta.
  pose proof (MqttCredentials_load_spec
    (H := one_file (lit "/etc/rpi/password") (Build_FileMetadata true 10 384)
            (utf8_encode (lit " secret " ++ [13; 10])))
    (Config.mqtt (config_of example_raw)) (Build_FileMetadata true 10 384) (lit " secret ") [13; 10]
    eq_refl) as [_ Hload].
  eapply eq_trans; [apply Hload|vm_compute; reflexivity]; try reflexivity.
  - vm_compute. discriminate.
  - by repeat constructor.
  - by right; right.
Defined.
