(* ===== verification/Discovery.v ===== *)
(** * Home Assistant discovery ([src/src/discovery.rs])

    The component table, the discovery document built from it, its topic and
    the contract between the document and the published state: every value
    template reads fields that the state always has. *)

From S2P Require Import Prelude RustStr RustFloat RustFloatFacts Model Config.
From stdpp Require Import sorting.

Local Open Scope Z_scope.

Definition ORIGIN_NAME : str := lit "rpi-health-mqtt".
Definition SOFTWARE_VERSION : str := VERSION.
Definition MANUFACTURER : str := lit "Raspberry Pi".
Definition ONLINE_PAYLOAD : str := lit "online".
Definition OFFLINE_PAYLOAD : str := lit "offline".
Definition MINIMUM_EXPIRE_AFTER_SECONDS : Z := 90.
Definition HEALTH_OPTIONS : list string := ["ok"; "warning"; "critical"; "degraded"]%string.

Definition trim_end_slashes (s : str) : str := trim_end_matches (fun c => c =? 47) s.

Definition child_topic (base_topic child : str) : str := trim_end_slashes base_topic ++ lit "/" ++ child.

Module DiscoverySettings.
Record t := {
  device_id : str;
  name : str;
  base_topic : str;
  discovery_prefix : str;
  interval : Duration;
  model : option str;
  serial_number : option str;
  hardware_version : option str;
}.

Definition new (device_id name base_topic discovery_prefix : str) (interval : Duration) : t :=
  {| device_id := device_id; name := name; base_topic := base_topic;
     discovery_prefix := discovery_prefix; interval := interval;
     model := None; serial_number := None; hardware_version := None |}.

Definition with_model (s : t) (m : str) : t :=
  {| device_id := device_id s; name := name s; base_topic := base_topic s;
     discovery_prefix := discovery_prefix s; interval := interval s;
     model := Some m; serial_number := serial_number s; hardware_version := hardware_version s |}.
Definition with_serial_number (s : t) (n : str) : t :=
  {| device_id := device_id s; name := name s; base_topic := base_topic s;
     discovery_prefix := discovery_prefix s; interval := interval s;
     model := model s; serial_number := Some n; hardware_version := hardware_version s |}.
Definition with_hardware_version (s : t) (v : str) : t :=
  {| device_id := device_id s; name := name s; base_topic := base_topic s;
     discovery_prefix := discovery_prefix s; interval := interval s;
     model := model s; serial_number := serial_number s; hardware_version := Some v |}.

Definition discovery_topic (s : t) : str :=
  trim_end_slashes (discovery_prefix s) ++ lit "/device/" ++ device_id s ++ lit "/config".
Definition state_topic (s : t) : str := child_topic (base_topic s) (lit "state").
Definition availability_topic (s : t) : str := child_topic (base_topic s) (lit "availability").
Definition expire_after_seconds (s : t) : Z :=
  Z.max (saturating_mul (as_secs (interval s)) 3) MINIMUM_EXPIRE_AFTER_SECONDS.
End DiscoverySettings.

Record DiscoveryMessage := { topic : str; payload : str }.

Inductive Platform := Sensor | BinarySensor.
Definition Platform_as_str (p : Platform) : string :=
  match p with Sensor => "sensor" | BinarySensor => "binary_sensor" end.

(** A row of the component table; the [&'static str] fields are Rocq strings. *)
Record ComponentDefinition := {
  key : string;
  platform : Platform;
  component_name : string;
  enabled_by_default : bool;
  device_class : option string;
  state_class : option string;
  unit_of_measurement : option string;
  suggested_display_precision : option Z;
  options : option (list string);
  payload_on : option string;
  payload_off : option string;
  value_template : string;
}.

Record ComponentConfig := {
  config_platform : string;
  config_name : string;
  unique_id : str;
  default_entity_id : str;
  config_enabled_by_default : bool;
  entity_category : string;
  expire_after : Z;
  config_device_class : option string;
  config_state_class : option string;
  config_unit_of_measurement : option string;
  config_suggested_display_precision : option Z;
  config_options : option (list string);
  config_payload_on : option string;
  config_payload_off : option string;
  config_value_template : string;
}.

Definition normalize_device_slug (device_id : str) : str :=
  (fun c => if c =? 45 then 95 else to_ascii_lowercase c) <$> device_id.

Definition to_config (d : ComponentDefinition) (settings : DiscoverySettings.t) (device_slug : str) :
    ComponentConfig := {|
  config_platform := Platform_as_str (platform d);
  config_name := component_name d;
  unique_id := DiscoverySettings.device_id settings ++ lit "_" ++ lit (key d);
  default_entity_id := lit (Platform_as_str (platform d)) ++ lit "." ++ device_slug ++ lit "_" ++ lit (key d);
  config_enabled_by_default := enabled_by_default d;
  entity_category := "diagnostic";
  expire_after := DiscoverySettings.expire_after_seconds settings;
  config_device_class := device_class d;
  config_state_class := state_class d;
  config_unit_of_measurement := unit_of_measurement d;
  config_suggested_display_precision := suggested_display_precision d;
  config_options := options d;
  config_payload_on := payload_on d;
  config_payload_off := payload_off d;
  config_value_template := value_template d;
|}.

(** ** The component table *)

Definition sensor (key name : string) (enabled_by_default : bool)
    (device_class state_class unit_of_measurement : option string)
    (suggested_display_precision : option Z) (options : option (list string))
    (value_template : string) : ComponentDefinition := {|
  key := key; platform := Sensor; component_name := name; enabled_by_default := enabled_by_default;
  device_class := device_class; state_class := state_class; unit_of_measurement := unit_of_measurement;
  suggested_display_precision := suggested_display_precision; options := options;
  payload_on := None; payload_off := None; value_template := value_template;
|}.

Definition binary_sensor (key name : string) (enabled_by_default : bool) (value_template : string) :
    ComponentDefinition := {|
  key := key; platform := BinarySensor; component_name := name; enabled_by_default := enabled_by_default;
  device_class := Some "problem"%string; state_class := None; unit_of_measurement := None;
  suggested_display_precision := None; options := None;
  payload_on := Some "ON"%string; payload_off := Some "OFF"%string; value_template := value_template;
|}.

Definition processor_sensors : list ComponentDefinition :=
  [
    sensor "health_status" "Health status" true (Some "enum") None None None (Some HEALTH_OPTIONS)
      "{{ value_json.health.status }}";
    sensor "cpu_temperature" "CPU temperature" true (Some "temperature") (Some "measurement") (Some "°C") (Some 1) None
      "{{ value_json.cpu.temperature_c if value_json.cpu.temperature_c is not none else none }}";
    sensor "cpu_usage" "CPU usage" true None (Some "measurement") (Some "%") (Some 1) None
      "{{ value_json.cpu.usage_percent if value_json.cpu.usage_percent is not none else none }}";
    sensor "load_1" "1-minute load average" false None (Some "measurement") None (Some 2) None
      "{{ value_json.cpu.load_1 if value_json.cpu.load_1 is not none else none }}";
    sensor "load_5" "5-minute load average" false None (Some "measurement") None (Some 2) None
      "{{ value_json.cpu.load_5 if value_json.cpu.load_5 is not none else none }}";
    sensor "load_15" "15-minute load average" false None (Some "measurement") None (Some 2) None
      "{{ value_json.cpu.load_15 if value_json.cpu.load_15 is not none else none }}";
    sensor "cpu_frequency" "CPU frequency" false (Some "frequency") (Some "measurement") (Some "MHz") (Some 1) None
      "{{ value_json.cpu.frequency_mhz if value_json.cpu.frequency_mhz is not none else none }}";
    sensor "memory_usage" "Memory usage" true None (Some "measurement") (Some "%") (Some 1) None
      "{{ value_json.memory.used_percent if value_json.memory.used_percent is not none else none }}";
    sensor "memory_available" "Memory available" false (Some "data_size") (Some "measurement") (Some "GiB") (Some 2) None
      "{{ ((value_json.memory.available_bytes / 1073741824) | round(2)) if value_json.memory.available_bytes is not none else none }}"
  ]%string.

Definition storage_sensors : list ComponentDefinition :=
  [
    sensor "swap_usage" "Swap usage" true None (Some "measurement") (Some "%") (Some 1) None
      "{{ value_json.swap.used_percent if value_json.swap.used_percent is not none else none }}";
    sensor "swap_used" "Swap used" false (Some "data_size") (Some "measurement") (Some "MiB") (Some 1) None
      "{{ ((value_json.swap.used_bytes / 1048576) | round(1)) if value_json.swap.used_bytes is not none else none }}";
    sensor "disk_usage" "Disk usage" true None (Some "measurement") (Some "%") (Some 1) None
      "{{ value_json.disk.used_percent if value_json.disk.used_percent is not none else none }}";
    sensor "disk_available" "Disk available" true (Some "data_size") (Some "measurement") (Some "GiB") (Some 2) None
      "{{ ((value_json.disk.available_bytes / 1073741824) | round(2)) if value_json.disk.available_bytes is not none else none }}";
    sensor "uptime" "Uptime" true (Some "duration") (Some "measurement") (Some "s") (Some 0) None
      "{{ value_json.uptime_seconds if value_json.uptime_seconds is not none else none }}";
    sensor "last_observation" "Last observation" false (Some "timestamp") None None None None
      "{{ value_json.observed_at }}";
    sensor "throttled_raw" "Raw throttling flags" false None None None None None
      "{{ value_json.power.throttled_raw if value_json.power.throttled_raw is not none else none }}";
    sensor "collection_duration" "Collection duration" false (Some "duration") (Some "measurement") (Some "ms") (Some 0) None
      "{{ value_json.service.collection_duration_ms }}";
    sensor "collector_error_count" "Collector error count" false None (Some "measurement") None (Some 0) None
      "{{ value_json.health.collector_errors | count }}"
  ]%string.

Definition power_sensors : list ComponentDefinition :=
  [
    binary_sensor "undervoltage_now" "Current undervoltage" true
      "{% set v = value_json.power.undervoltage_now %}{{ 'ON' if v is true else ('OFF' if v is false else none) }}";
    binary_sensor "undervoltage_since_boot" "Undervoltage since boot" true
      "{% set v = value_json.power.undervoltage_since_boot %}{{ 'ON' if v is true else ('OFF' if v is false else none) }}";
    binary_sensor "throttled_now" "Current throttling" true
      "{% set v = value_json.power.throttled_now %}{{ 'ON' if v is true else ('OFF' if v is false else none) }}";
    binary_sensor "throttled_since_boot" "Throttling since boot" true
      "{% set v = value_json.power.throttled_since_boot %}{{ 'ON' if v is true else ('OFF' if v is false else none) }}";
    binary_sensor "arm_frequency_capped_now" "ARM frequency capped" false
      "{% set v = value_json.power.arm_frequency_capped_now %}{{ 'ON' if v is true else ('OFF' if v is false else none) }}";
    binary_sensor "arm_frequency_capped_since_boot" "ARM frequency capped since boot" false
      "{% set v = value_json.power.arm_frequency_capped_since_boot %}{{ 'ON' if v is true else ('OFF' if v is false else none) }}";
    binary_sensor "soft_temperature_limit_now" "Soft temperature limit" false
      "{% set v = value_json.power.soft_temperature_limit_now %}{{ 'ON' if v is true else ('OFF' if v is false else none) }}";
    binary_sensor "soft_temperature_limit_since_boot" "Soft temperature limit since boot" false
      "{% set v = value_json.power.soft_temperature_limit_since_boot %}{{ 'ON' if v is true else ('OFF' if v is false else none) }}"
  ]%string.

Definition COMPONENT_DEFINITIONS : list ComponentDefinition :=
  processor_sensors ++ storage_sensors ++ power_sensors.

(** [collect] into a [BTreeMap]: a later row would replace an earlier one. *)
Definition build_components (settings : DiscoverySettings.t) : gmap string ComponentConfig :=
  let device_slug := normalize_device_slug (DiscoverySettings.device_id settings) in
  fold_left (fun m d => <[key d := to_config d settings device_slug]> m) COMPONENT_DEFINITIONS ∅.

(** ** The document *)

(** A field that is skipped when it is [None]. *)
Definition skip_none {A} (name : string) (f : A -> json) (o : option A) : list (string * json) :=
  match o with Some a => [(name, f a)] | None => [] end.
Arguments skip_none {A} name%_string f o.
Definition JLit (s : string) : json := JStr (lit s).

Definition component_json (c : ComponentConfig) : json :=
  JObj ([("platform", JLit (config_platform c)); ("name", JLit (config_name c));
          ("unique_id", JStr (unique_id c)); ("default_entity_id", JStr (default_entity_id c));
          ("enabled_by_default", JBool (config_enabled_by_default c));
          ("entity_category", JLit (entity_category c)); ("expire_after", JInt (expire_after c))]%string
         ++ skip_none "device_class" JLit (config_device_class c)
         ++ skip_none "state_class" JLit (config_state_class c)
         ++ skip_none "unit_of_measurement" JLit (config_unit_of_measurement c)
         ++ skip_none "suggested_display_precision" JInt (config_suggested_display_precision c)
         ++ skip_none "options" (fun o => JArr (JLit <$> o)) (config_options c)
         ++ skip_none "payload_on" JLit (config_payload_on c)
         ++ skip_none "payload_off" JLit (config_payload_off c)
         ++ [("value_template", JLit (config_value_template c))]%string).

Definition device_json (s : DiscoverySettings.t) : json :=
  JObj ([("identifiers", JArr [JStr (DiscoverySettings.device_id s)]);
          ("name", JStr (DiscoverySettings.name s)); ("manufacturer", JStr MANUFACTURER);
          ("sw_version", JStr SOFTWARE_VERSION)]%string
         ++ skip_none "model" JStr (DiscoverySettings.model s)
         ++ skip_none "serial_number" JStr (DiscoverySettings.serial_number s)
         ++ skip_none "hw_version" JStr (DiscoverySettings.hardware_version s)).

(** A [BTreeMap] is serialised in the order of its keys. *)
Definition key_le (a b : string * ComponentConfig) : Prop := String.leb a.1 b.1 = true.
#[export] Instance key_le_dec : RelDecision key_le := fun a b => decide (String.leb a.1 b.1 = true).
Definition components_json (m : gmap string ComponentConfig) : json :=
  JObj ((fun kc => (kc.1, component_json kc.2)) <$> merge_sort key_le (map_to_list m)).

Definition discovery_document (s : DiscoverySettings.t) : json :=
  JObj [("device", device_json s);
        ("origin", JObj [("name", JStr ORIGIN_NAME); ("sw_version", JStr SOFTWARE_VERSION)]);
        ("state_topic", JStr (DiscoverySettings.state_topic s));
        ("availability_topic", JStr (DiscoverySettings.availability_topic s));
        ("payload_available", JStr ONLINE_PAYLOAD);
        ("payload_not_available", JStr OFFLINE_PAYLOAD);
        ("qos", JInt 0);
        ("components", components_json (build_components s))]%string.

Definition build_discovery_message `{JsonText} (settings : DiscoverySettings.t) : result str DiscoveryMessage :=
  text ← json_to_string (discovery_document settings);
  Ok {| topic := DiscoverySettings.discovery_topic settings; payload := text |}.

(** ** The component map *)

Lemma insert_all_lookup (f : ComponentDefinition -> ComponentConfig) ds (m : gmap string ComponentConfig) k c :
  NoDup (key <$> ds) ->
  fold_left (fun m d => <[key d := f d]> m) ds m !! k = Some c
  <-> (exists d, d ∈ ds /\ key d = k /\ c = f d) \/ (m !! k = Some c /\ k ∉ key <$> ds).
Proof.
  revert m. induction ds as [|d ds IH]; intros m Hnd; cbn [fold_left].
  { split; [|by intros [(d & Hd & _)|[? _]]; [inversion Hd|]]. intros. right. split; [done|]. inversion 1. }
  cbn [fmap list_fmap] in Hnd. apply NoDup_cons in Hnd as [Hnin Hnd].
  rewrite (IH _ Hnd). clear IH. cbn [fmap list_fmap]. split.
  - intros [(d' & Hd' & <- & ->)|[Hk Hnk]]; [left; exists d'; split; [by right|done]|].
    destruct (decide (key d = k)) as [<-|Hne].
    + rewrite lookup_insert_eq in Hk. injection Hk as <-. left. exists d. split; [by left|done].
    + rewrite lookup_insert_ne in Hk by done. right. split; [done|]. rewrite not_elem_of_cons. done.
  - intros [(d' & Hd' & <- & ->)|[Hk Hnk]].
    + apply elem_of_cons in Hd' as [->|Hd']; [|left; eauto].
      right. by rewrite lookup_insert_eq.
    + apply not_elem_of_cons in Hnk as [Hne Hnk]. right. by rewrite lookup_insert_ne by congruence.
Qed.

Lemma keys_NoDup : NoDup (key <$> COMPONENT_DEFINITIONS).
Proof. apply (bool_decide_unpack _). vm_compute. exact I. Qed.

Lemma build_components_lookup settings k c :
  build_components settings !! k = Some c
  <-> exists d, d ∈ COMPONENT_DEFINITIONS /\ key d = k
      /\ c = to_config d settings (normalize_device_slug (DiscoverySettings.device_id settings)).
Proof.
  unfold build_components.
  pose proof (insert_all_lookup (fun d => to_config d settings
    (normalize_device_slug (DiscoverySettings.device_id settings))) COMPONENT_DEFINITIONS ∅ k c keys_NoDup) as H.
  cbn beta in H. rewrite H. clear H. split; [intros [?|[H _]]; [done|]|by left].
  by rewrite lookup_empty in H.
Qed.

(** No key is another key, or ends with another key after an underscore. *)
Definition suffix_free (ks : list string) : bool :=
  forallb (fun k1 => forallb (fun k2 =>
    (k1 =? k2)%string || negb (ends_with (lit "_" ++ lit k2) (lit k1) || bool_decide (lit k1 = lit k2))) ks) ks.

Lemma keys_suffix_free k1 k2 :
  k1 ∈ key <$> COMPONENT_DEFINITIONS -> k2 ∈ key <$> COMPONENT_DEFINITIONS -> k1 <> k2 ->
  ends_with (lit "_" ++ lit k2) (lit k1) = false /\ lit k1 <> lit k2.
Proof.
  assert (suffix_free (key <$> COMPONENT_DEFINITIONS) = true) as Hs by (vm_compute; reflexivity).
  generalize (key <$> COMPONENT_DEFINITIONS) as ks, Hs. clear Hs. intros ks Hs H1 H2 Hne.
  unfold suffix_free in Hs. rewrite forallb_forall in Hs.
  apply list_elem_of_In in H1, H2. specialize (Hs _ H1). cbv beta in Hs.
  rewrite forallb_forall in Hs. specialize (Hs _ H2). cbv beta in Hs.
  apply orb_true_iff in Hs as [E|Hs]; [by apply String.eqb_eq in E|].
  apply negb_true_iff, orb_false_iff in Hs as [? Hs]. split; [done|].
  by apply bool_decide_eq_false in Hs.
Qed.

(** A text with an underscore and a key at its end has one such reading. *)
Lemma suffix_unique (a b x y : str) :
  a ++ 95 :: x = b ++ 95 :: y -> (forall t, x <> t ++ 95 :: y) -> (forall t, y <> t ++ 95 :: x) ->
  a = b /\ x = y.
Proof.
  intros E Hx Hy. apply app_eq_inv in E as [(u & -> & E)|(u & -> & E)];
    (destruct u as [|c u]; [injection E as ->; by rewrite app_nil_r|injection E as _ E]).
  - by apply Hy in E.
  - by apply Hx in E.
Qed.

Lemma key_suffix_unique (a b : str) k1 k2 :
  k1 ∈ key <$> COMPONENT_DEFINITIONS -> k2 ∈ key <$> COMPONENT_DEFINITIONS ->
  a ++ lit "_" ++ lit k1 = b ++ lit "_" ++ lit k2 -> a = b /\ k1 = k2.
Proof.
  intros H1 H2 E. destruct (decide (k1 = k2)) as [->|Hne]; [split; [|done]; by eapply app_inv_tail|].
  exfalso. destruct (keys_suffix_free _ _ H1 H2 Hne) as [Hs1 Hl].
  destruct (keys_suffix_free _ _ H2 H1 (not_eq_sym Hne)) as [Hs2 _].
  apply not_true_iff_false in Hs1, Hs2. rewrite ends_with_spec in Hs1, Hs2.
  apply Hl. apply (suffix_unique a b); [exact E|..]; intros t Et; [apply Hs1|apply Hs2]; by exists t.
Qed.

(** C27: the document describes the 26 components under distinct
    keys; the unique ids of all devices and components are pairwise distinct,
    and so are a device's entity ids; every entity expires after three
    collection intervals, but not before 90 seconds. *)
Theorem discovery_identifiers_unique (s1 s2 : DiscoverySettings.t) :
  dom (build_components s1) = list_to_set (key <$> COMPONENT_DEFINITIONS)
  /\ size (build_components s1) = 26%nat
  /\ (forall k1 k2 c1 c2,
        build_components s1 !! k1 = Some c1 -> build_components s2 !! k2 = Some c2 ->
        unique_id c1 = unique_id c2 ->
        DiscoverySettings.device_id s1 = DiscoverySettings.device_id s2 /\ k1 = k2)
  /\ (forall k1 k2 c1 c2,
        build_components s1 !! k1 = Some c1 -> build_components s1 !! k2 = Some c2 ->
        default_entity_id c1 = default_entity_id c2 -> k1 = k2)
  /\ (forall k c, build_components s1 !! k = Some c ->
        90 <= expire_after c
        /\ (0 <= DiscoverySettings.interval s1 -> 3 * as_secs (DiscoverySettings.interval s1) <= u64_max ->
            3 * as_secs (DiscoverySettings.interval s1) <= expire_after c)).
Proof.
  assert (forall d, d ∈ COMPONENT_DEFINITIONS -> key d ∈ key <$> COMPONENT_DEFINITIONS) as Hkey
    by (intros d Hd; apply list_elem_of_fmap; eauto).
  assert (dom (build_components s1) = list_to_set (key <$> COMPONENT_DEFINITIONS)) as Hdom.
  { apply set_eq. intros k. rewrite elem_of_dom, elem_of_list_to_set, list_elem_of_fmap. split.
    - intros [c Hc]. apply build_components_lookup in Hc as (d & ? & <- & _). eauto.
    - intros (d & -> & Hd). eexists. apply build_components_lookup. eauto. }
  split_and!; [done| | | |].
  - rewrite <-size_dom, Hdom, size_list_to_set by apply keys_NoDup. reflexivity.
  - intros k1 k2 c1 c2 H1 H2 E.
    apply build_components_lookup in H1 as (d1 & Hd1 & <- & ->), H2 as (d2 & Hd2 & <- & ->).
    apply key_suffix_unique in E; auto.
  - intros k1 k2 c1 c2 H1 H2 E.
    apply build_components_lookup in H1 as (d1 & Hd1 & <- & ->), H2 as (d2 & Hd2 & <- & ->).
    cbn [to_config default_entity_id] in E. set (slug := normalize_device_slug _) in E.
    destruct (platform d1), (platform d2); try discriminate E;
      apply app_inv_head, app_inv_head in E; by apply key_suffix_unique in E as [_ ?]; auto.
  - intros k c Hc. apply build_components_lookup in Hc as (d & _ & _ & ->).
    cbn [to_config expire_after]. unfold DiscoverySettings.expire_after_seconds,
      MINIMUM_EXPIRE_AFTER_SECONDS, saturating_mul. lia.
Qed.

(** ** Templates and the published state *)

(** The paths a template reads: the dotted names after [value_json.]. *)
Definition path_char (c : Z) : bool := is_ascii_lowercase c || is_ascii_digit c || (c =? 95).

Fixpoint dotted (name : string) (s : string) : list string :=
  match s with
  | EmptyString => [name]
  | String a s =>
    let c := Z.of_nat (Ascii.nat_of_ascii a) in
    if path_char c then dotted (name ++ String a EmptyString)%string s
    else if c =? 46 then name :: dotted EmptyString s
    else [name]
  end.

Definition value_json : string := "value_json.".
Fixpoint template_paths (s : string) : list (list string) :=
  match s with
  | EmptyString => []
  | String _ s' =>
    (if String.prefix value_json s
     then [dotted EmptyString (String.substring 11 (String.length s) s)] else [])
    ++ template_paths s'
  end.

Example template_paths_example :
  template_paths "{{ ((value_json.swap.used_bytes / 1048576) | round(1)) if value_json.uptime_seconds }}"
  = [["swap"; "used_bytes"]; ["uptime_seconds"]]%string.
Proof. reflexivity. Qed.

(** Paths that exist in every published document. *)
Definition state_paths : list (list string) :=
  [["health"; "status"]; ["health"; "collector_errors"]; ["cpu"; "temperature_c"];
   ["cpu"; "usage_percent"]; ["cpu"; "load_1"]; ["cpu"; "load_5"]; ["cpu"; "load_15"];
   ["cpu"; "frequency_mhz"]; ["memory"; "used_percent"]; ["memory"; "available_bytes"];
   ["swap"; "used_percent"]; ["swap"; "used_bytes"]; ["disk"; "used_percent"];
   ["disk"; "available_bytes"]; ["uptime_seconds"]; ["observed_at"]; ["power"; "throttled_raw"];
   ["service"; "collection_duration_ms"]; ["power"; "undervoltage_now"];
   ["power"; "undervoltage_since_boot"]; ["power"; "throttled_now"]; ["power"; "throttled_since_boot"];
   ["power"; "arm_frequency_capped_now"]; ["power"; "arm_frequency_capped_since_boot"];
   ["power"; "soft_temperature_limit_now"]; ["power"; "soft_temperature_limit_since_boot"]]%string.

Lemma serialize_state_paths `{TimeLib} (s : TelemetryState) j :
  serialize_state s = Ok j -> Forall (fun p => is_Some (pointer p j)) state_paths.
Proof.
  intros Hs. unfold serialize_state, serialize_cpu, serialize_memory, serialize_swap,
    serialize_disk in Hs.
  repeat match goal with
  | H : _ ≫= _ = Ok _ |- _ => apply result_bind_Ok in H as (? & ? & ?)
  | H : Ok _ = Ok _ |- _ => injection H as <-
  end.
  unfold state_paths. repeat (apply List.Forall_cons; [eexists; reflexivity|]). constructor.
Qed.

(** C28: every value template of the discovery document reads the
    state, and each field it reads is present in every published state, so no
    entity depends on a key the service may leave out. *)
Theorem templates_read_published_fields `{TimeLib} (s : TelemetryState) j (settings : DiscoverySettings.t)
    (k : string) (c : ComponentConfig) :
  serialize_state s = Ok j -> build_components settings !! k = Some c ->
  template_paths (config_value_template c) <> []
  /\ Forall (fun path => is_Some (pointer path j)) (template_paths (config_value_template c)).
Proof.
  intros Hs Hc. apply build_components_lookup in Hc as (d & Hd & _ & ->). cbn [to_config config_value_template].
  assert (forallb (fun d => negb (bool_decide (template_paths (value_template d) = []))
            && bool_decide (Forall (fun p => p ∈ state_paths) (template_paths (value_template d))))
          COMPONENT_DEFINITIONS = true) as Hall by (vm_compute; reflexivity).
  rewrite forallb_forall in Hall. apply list_elem_of_In, Hall, andb_true_iff in Hd as [Hne Hin].
  split; [by apply negb_true_iff, bool_decide_eq_false in Hne|].
  apply bool_decide_eq_true in Hin. apply serialize_state_paths in Hs. rewrite Forall_forall in Hs.
  eapply Forall_impl; [exact Hin|]. intros p Hp. by apply Hs.
Qed.

Lemma templates_read_published_fields_witness :
  exists j c, serialize_state (H := text_time) unavailable_state = Ok j
    /\ build_components (DiscoverySettings.new (lit "pi") (lit "Pi") (lit "b") (lit "h") 0) !! "swap_used"%string = Some c
    /\ Forall (fun path => is_Some (pointer path j)) (template_paths (config_value_template c)).
Proof.
  destruct (serialize_state (H := text_time) unavailable_state) as [j|e] eqn:Ej; [|vm_compute in Ej; discriminate Ej].
  destruct (build_components (DiscoverySettings.new (lit "pi") (lit "Pi") (lit "b") (lit "h") 0) !! "swap_used"%string)
    as [c|] eqn:Ec; [|vm_compute in Ec; discriminate Ec].
  exists j, c. split; [done|]. split; [done|].
  exact (proj2 (templates_read_published_fields unavailable_state j _ _ _ Ej Ec)).
Defined.

(** ** Agreement with the configured topics *)

Lemma topic_ok_no_trailing_slash t : topic_ok t -> trim_end_slashes t = t.
Proof.
  intros (_ & Hl & _). apply levels_nonempty in Hl as (Hne & _ & He & _).
  destruct (exists_last Hne) as (s & c & ->). apply trim_end_matches_none.
  apply Z.eqb_neq. intros ->. apply He. rewrite ends_with_spec. by exists s.
Qed.

Definition slug_char (c : Z) : bool := is_ascii_lowercase c || is_ascii_digit c || (c =? 95).

Lemma slug_ok id :
  identifier_ok id 64 (lit "_-") -> Forall (fun c => slug_char c = true) (normalize_device_slug id).
Proof.
  intros (_ & _ & Hall). apply Forall_fmap. eapply Forall_impl; [exact Hall|].
  intros c Hc. cbn. unfold slug_char, to_ascii_lowercase, is_ascii_lowercase, is_ascii_uppercase, is_ascii_digit.
  destruct Hc as [Hc|Hc].
  - unfold is_ascii_alphanumeric, is_ascii_lowercase, is_ascii_uppercase, is_ascii_digit in Hc.
    destruct (Z.eqb_spec c 45); [lia|]. destruct ((65 <=? c) && (c <=? 90)) eqn:E; lia.
  - change (lit "_-") with [95; 45] in Hc. apply elem_of_cons in Hc as [->|Hc%list_elem_of_singleton]; subst; done.
Qed.

(** The characters of entity ids. *)
Lemma entity_id_slug (s : DiscoverySettings.t) k d :
  identifier_ok (DiscoverySettings.device_id s) 64 (lit "_-") -> build_components s !! k = Some d ->
  exists p n, default_entity_id d = lit p ++ lit "." ++ n /\ (p = "sensor" \/ p = "binary_sensor")%string
    /\ Forall (fun c => slug_char c = true) n.
Proof.
  intros Hid Hk. apply build_components_lookup in Hk as (x & Hx & _ & ->). cbn [to_config default_entity_id].
  exists (Platform_as_str (platform x)). eexists. split; [reflexivity|].
  split; [destruct (platform x); auto|].
  apply Forall_app. split; [by apply slug_ok|]. apply Forall_app. split; [by repeat constructor|].
  assert (forallb (fun d => forallb slug_char (lit (key d))) COMPONENT_DEFINITIONS = true) as Hall
    by (vm_compute; reflexivity).
  rewrite forallb_forall in Hall. apply list_elem_of_In, Hall in Hx.
  rewrite forallb_forall in Hx. apply Forall_forall. intros y Hy. by apply Hx, list_elem_of_In.
Qed.
