(* ===== verification/JsonPrint.v ===== *)
(** * Compact JSON text

    [serde_json] prints a document compactly, escaping in strings what RFC 8259
    requires and nothing else.  How it prints a float is its own; its printer
    needs between 3 and 24 characters.  The class [CompactJson] states this of
    [json_to_string]; the lemmas give the length of the text. *)

From S2P Require Import Prelude RustStr RustFloat Model.

Local Open Scope Z_scope.

(** ** The text *)

Definition escape_char (c : Z) : str :=
  if c =? 34 then [92; 34] else if c =? 92 then [92; 92]
  else if c =? 8 then lit "\b" else if c =? 9 then lit "\t" else if c =? 10 then lit "\n"
  else if c =? 12 then lit "\f" else if c =? 13 then lit "\r"
  else if c <? 32 then lit "\u00" ++ [digit_char (c / 16); digit_char (c mod 16)]
  else [c].
Definition escaped (s : str) : str := concat (escape_char <$> s).
Definition quoted (s : str) : str := [34] ++ escaped s ++ [34].
Definition int_text (z : Z) : str := if z <? 0 then [45] ++ to_string (- z) else to_string z.

Section compact.
Variable print_float : f64 -> str.

Fixpoint compact (j : json) : str :=
  match j with
  | JNull => lit "null"
  | JBool b => lit (if b then "true" else "false")
  | JInt z => int_text z
  | JFloat x => print_float x
  | JStr s => quoted s
  | JArr l => [91] ++ join [44] (List.map compact l) ++ [93]
  | JObj fields => [123] ++ join [44] (List.map (fun '(k, v) => quoted (lit k) ++ [58] ++ compact v) fields) ++ [125]
  end.
End compact.

(** What the program relies on: the printer is compact. *)
Class CompactJson `{JsonText} := {
  print_float : f64 -> str;
  print_float_len : forall x, 3 <= len (print_float x) <= 24;
  compact_json : forall j text, json_to_string j = Ok text -> text = compact print_float j;
}.

(** ** Its length *)

Section lengths.
Context (pf : f64 -> str).
Implicit Types (s : str) (fields : list (string * json)).

Lemma escaped_app s t : escaped (s ++ t) = escaped s ++ escaped t.
Proof. unfold escaped. by rewrite fmap_app, concat_app. Qed.

Lemma quoted_len s : len (quoted s) = 2 + len (escaped s).
Proof. unfold quoted. rewrite !len_app. cbn. lia. Qed.

Lemma escape_char_len c : char_len c <= len (escape_char c) <= 6 * char_len c.
Proof.
  pose proof (char_len_bounds c). unfold escape_char.
  destruct (Z.eqb_spec c 34); [subst; clear; vm_compute; split; discriminate|]. destruct (Z.eqb_spec c 92); [subst; clear; vm_compute; split; discriminate|].
  destruct (Z.eqb_spec c 8); [subst; clear; vm_compute; split; discriminate|]. destruct (Z.eqb_spec c 9); [subst; clear; vm_compute; split; discriminate|].
  destruct (Z.eqb_spec c 10); [subst; clear; vm_compute; split; discriminate|]. destruct (Z.eqb_spec c 12); [subst; clear; vm_compute; split; discriminate|].
  destruct (Z.eqb_spec c 13); [subst; clear; vm_compute; split; discriminate|]. destruct (Z.ltb_spec c 32); [|cbn; lia].
  assert (char_len c = 1) as -> by (unfold char_len; destruct (Z.ltb_spec c 128); lia).
  rewrite len_app. change (len (lit "\u00")) with 4.
  pose proof (Z.mod_pos_bound c 16 ltac:(lia)). pose proof (Z.div_mod c 16 ltac:(lia)).
  assert (forall d, d < 16 -> char_len (digit_char d) = 1) as Hd
    by (intros d Hd; unfold char_len, digit_char; destruct (Z.ltb_spec d 10); case_match; lia).
  cbn [len]. rewrite !Hd by lia. lia.
Qed.

Lemma escape_char_plain c : is_control c = false -> len (escape_char c) <= 2 * char_len c.
Proof.
  unfold is_control. intros Hc. pose proof (char_len_bounds c). unfold escape_char.
  destruct (Z.eqb_spec c 34); [subst; clear; vm_compute; discriminate|]. destruct (Z.eqb_spec c 92); [subst; clear; vm_compute; discriminate|].
  do 6 (case_match; [lia|]). cbn. lia.
Qed.

Lemma escaped_len s : len s <= len (escaped s) <= 6 * len s.
Proof.
  unfold escaped. induction s as [|c s IH]; [done|]. cbn [fmap list_fmap concat len]. rewrite len_app.
  pose proof (escape_char_len c). unfold fmap in *. lia.
Qed.

(** Without control characters only quotes and backslashes grow. *)
Lemma escaped_text_len s : none is_control s -> len (escaped s) <= 2 * len s.
Proof.
  unfold escaped. induction 1 as [|c s Hc Hs IH]; [done|]. cbn [fmap list_fmap concat len]. rewrite len_app.
  pose proof (escape_char_plain c Hc). unfold fmap in *. lia.
Qed.

Lemma escaped_same s : Forall (fun c => 32 <= c /\ c <> 34 /\ c <> 92) s -> escaped s = s.
Proof.
  unfold escaped. induction 1 as [|c s (Hc & H34 & H92) Hs IH]; [done|]. cbn [fmap list_fmap concat].
  unfold fmap in *. rewrite IH. unfold escape_char. apply Z.eqb_neq in H34 as ->. apply Z.eqb_neq in H92 as ->.
  by do 6 (case_match; [lia|]).
Qed.

Lemma join_len (ws : list str) :
  ws <> [] -> len (join [44] ws) + 1 = foldr (fun w n => 1 + len w + n) 0 ws.
Proof.
  induction ws as [|w [|w' ws] IH]; intros Hne; [done|cbn; lia|].
  change (join [44] (w :: w' :: ws)) with (w ++ [44] ++ join [44] (w' :: ws)). rewrite !len_app.
  specialize (IH ltac:(done)). cbn [foldr] in *. change (len [44]) with 1. lia.
Qed.

(** The fields of an object, each with its separator. *)
Definition field_len (kv : string * json) : Z := 2 + len (quoted (lit kv.1)) + len (compact pf kv.2).
Definition fields_len fields : Z := foldr (fun kv n => field_len kv + n) 0 fields.

Lemma fields_len_cons kv fields : fields_len (kv :: fields) = field_len kv + fields_len fields.
Proof. done. Qed.

Lemma fields_len_app l1 l2 : fields_len (l1 ++ l2) = fields_len l1 + fields_len l2.
Proof. unfold fields_len. induction l1; cbn; lia. Qed.

Lemma fields_len_perm l1 l2 : l1 ≡ₚ l2 -> fields_len l1 = fields_len l2.
Proof. unfold fields_len. induction 1; cbn; lia. Qed.

Lemma object_len fields : fields <> [] -> len (compact pf (JObj fields)) = 1 + fields_len fields.
Proof.
  intros Hne. cbn [compact]. rewrite !len_app. change (len [123]) with 1. change (len [125]) with 1.
  match goal with |- context [join [44] ?ws] => assert (len (join [44] ws) + 1 = fields_len fields) as Hj end; [|lia].
  rewrite join_len by (by destruct fields). unfold fields_len. clear Hne. induction fields as [|[k v] fields IH]; [done|].
  cbn [List.map foldr]. rewrite IH. unfold field_len. cbn [fst snd]. rewrite !len_app. change (len [58]) with 1. lia.
Qed.

Lemma string_len s : len (compact pf (JStr s)) = 2 + len (escaped s).
Proof. apply quoted_len. Qed.

(** The digits of a number below a power of ten. *)
Lemma print_digits_below fuel k n (acc : str) :
  0 <= n < 10 ^ Z.of_nat (S k) -> (length (print_digits fuel 10 n acc) <= S k + length acc)%nat.
Proof.
  revert k n acc. induction fuel as [|fuel IH]; intros k n acc Hn; cbn [print_digits]; [lia|].
  destruct (Z.eqb_spec (n / 10) 0) as [E|E]; [cbn; lia|].
  destruct k as [|k]; [exfalso; apply E, Z.div_small; lia|].
  specialize (IH k (n / 10) (digit_char (n mod 10) :: acc)). cbn [length] in IH.
  enough (0 <= n / 10 < 10 ^ Z.of_nat (S k)) by lia.
  rewrite Nat2Z.inj_succ, Z.pow_succ_r in Hn by lia.
  split; [apply Z.div_pos; lia|apply Z.div_lt_upper_bound; lia].
Qed.

Lemma to_string_len k n : 0 <= n < 10 ^ Z.of_nat (S k) -> 1 <= len (to_string n) <= Z.of_nat (S k).
Proof.
  intros Hn. rewrite len_ascii.
  2: { eapply Forall_impl; [apply to_string_digits; lia|]. intros c. cbn. unfold is_ascii_digit, is_ascii. lia. }
  pose proof (print_digits_below (S (Z.to_nat (Z.log2 n))) k n [] Hn) as Hl. cbn [length] in Hl.
  pose proof (print_radix_nonempty 10 n) as Hne. change (print_radix 10 n) with (to_string n) in Hne.
  change (print_digits (S (Z.to_nat (Z.log2 n))) 10 n []) with (to_string n) in Hl.
  destruct (to_string n); [done|]. cbn [length] in *. lia.
Qed.
End lengths.
