(* ===== verification/Watch.v ===== *)
(** * Latest-value channels

    The service's tasks communicate through [tokio::sync::watch] slots: a
    sender replaces the value, a receiver sees the newest value and whether it
    changed since the receiver last looked.  [tokio] is not part of the
    repository, so the channel is an interface with the documented laws
    ([Watch], [WatchLaws]); [versioned] is an instance that satisfies them. *)

From S2P Require Import Prelude.

Local Open Scope Z_scope.

Class Watch := {
  (** The shared slot, and the mark a receiver keeps of what it has seen. *)
  channel : Type -> Type;
  seen : Type;
  watch_channel : forall {A}, A -> channel A;
  (** [borrow]. *)
  borrow : forall {A}, channel A -> A;
  (** [send_replace], [send_modify]. *)
  send_replace : forall {A}, channel A -> A -> channel A;
  (** The mark left by [borrow_and_update] and by a completed [changed]. *)
  mark : forall {A}, channel A -> seen;
  (** Whether [changed] completes without waiting. *)
  has_changed : forall {A}, channel A -> seen -> bool;
}.

Class WatchLaws (W : Watch) := {
  borrow_channel : forall {A} (a : A), borrow (watch_channel a) = a;
  borrow_send : forall {A} (c : channel A) a, borrow (send_replace c a) = a;
  changed_mark : forall {A} (c : channel A), has_changed c (mark c) = false;
  (** A value sent after a look is noticed, and stays noticed until the next
      look, however many values replace it meanwhile. *)
  changed_send : forall {A} (c : channel A) a, has_changed (send_replace c a) (mark c) = true;
  changed_stays : forall {A} (c : channel A) a m,
    has_changed c m = true -> has_changed (send_replace c a) m = true;
}.

Create Rewrite HintDb watch.
#[export] Hint Rewrite @borrow_channel @borrow_send @changed_mark @changed_send using typeclasses eauto : watch.

Definition send_modify `{Watch} {A} (c : channel A) (f : A -> A) : channel A :=
  send_replace c (f (borrow c)).

(** A slot with the number of values sent to it. *)
#[export] Instance versioned : Watch := {|
  channel := fun A => (nat * A)%type;
  seen := nat;
  watch_channel := fun _ a => (O, a);
  borrow := fun _ c => c.2;
  send_replace := fun _ c a => (S c.1, a);
  mark := fun _ c => c.1;
  has_changed := fun _ c m => (m <? c.1)%nat;
|}.

#[export] Instance versioned_laws : WatchLaws versioned.
Proof.
  split; cbn; intros A; try done; intros [n a].
  - apply Nat.ltb_irrefl.
  - intros. apply Nat.leb_le. cbn. lia.
  - intros a' m Hm. apply Nat.ltb_lt in Hm. cbn in *. apply Nat.leb_le. lia.
Qed.

(** ** Sequences of values *)

Section sequences.
Context `{WL : WatchLaws}.

Definition send_all {A} (c : channel A) (vs : list A) : channel A := fold_left send_replace vs c.

(** Only the newest of several values is retained. *)
Lemma borrow_send_all {A} (c : channel A) vs v : borrow (send_all c (vs ++ [v])) = v.
Proof. unfold send_all. rewrite fold_left_app. apply borrow_send. Qed.

Lemma changed_send_all {A} (c : channel A) vs m :
  has_changed c m = true -> has_changed (send_all c vs) m = true.
Proof.
  revert c. induction vs as [|v vs IH]; intros c Hc; [done|]. apply IH, changed_stays, Hc.
Qed.

(** A receiver that looks after a burst sees the newest value, and no change
    after that. *)
Lemma burst_coalesces {A} (c : channel A) vs v :
  has_changed (send_all c (vs ++ [v])) (mark c) = true
  /\ borrow (send_all c (vs ++ [v])) = v
  /\ has_changed (send_all c (vs ++ [v])) (mark (send_all c (vs ++ [v]))) = false.
Proof.
  split_and!; [|apply borrow_send_all|apply changed_mark].
  destruct vs as [|w vs]; [apply changed_send|]. apply (changed_send_all (send_replace c w) (vs ++ [v])), changed_send.
Qed.
End sequences.
