(* ===== verification/MqttProtocol.v ===== *)
(** * MQTT protocol state ([src/src/mqtt.rs], the parts without I/O)

    The bootstrap and shutdown state machine, the retry delays with their
    jitter, the classification of connection errors and the allocation of
    collection requests. *)

From S2P Require Import Prelude RustStr RustFloat RustFloatFacts Watch.

Local Open Scope Z_scope.

(** ** The state machine *)

Inductive Phase :=
  | Disconnected
  | DiscoveryQueued
  | DiscoveryAwaitAck (packet_id : Z)
  | OnlineQueued
  | OnlineAwaitAck (packet_id : Z)
  | AwaitFreshState
  | StateQueued
  | Online
  | ShutdownAwaitOfflineOutgoing (skip_queued_publish : bool)
  | ShutdownAwaitOfflineAck (packet_id : Z)
  | DisconnectQueued
  | Stopped.

Inductive ProtocolAction :=
  | PublishDiscovery | PublishOnline | PublishState | PublishOffline | Disconnect.

#[export] Instance Phase_eq_dec : EqDecision Phase.
Proof. solve_decision. Defined.
#[export] Instance ProtocolAction_eq_dec : EqDecision ProtocolAction.
Proof. solve_decision. Defined.

Record BootstrapMachine := {
  phase : Phase;
  required_request : Z;
  last_state_request : Z;
  bootstrap_state_queued : bool;
  became_online : bool;
}.

Definition BootstrapMachine_default : BootstrapMachine :=
  {| phase := Disconnected; required_request := 0; last_state_request := 0;
     bootstrap_state_queued := false; became_online := false |}.

Definition set_phase (p : Phase) (m : BootstrapMachine) : BootstrapMachine :=
  {| phase := p; required_request := required_request m; last_state_request := last_state_request m;
     bootstrap_state_queued := bootstrap_state_queued m; became_online := became_online m |}.

Definition connected (m : BootstrapMachine) (required : Z) : BootstrapMachine * ProtocolAction :=
  ({| phase := DiscoveryQueued; required_request := required; last_state_request := last_state_request m;
      bootstrap_state_queued := false; became_online := false |}, PublishDiscovery).

Definition outgoing_publish (m : BootstrapMachine) (packet_id : Z) :
    BootstrapMachine * option ProtocolAction :=
  (match phase m with
   | DiscoveryQueued => if negb (packet_id =? 0) then set_phase (DiscoveryAwaitAck packet_id) m else m
   | OnlineQueued => if negb (packet_id =? 0) then set_phase (OnlineAwaitAck packet_id) m else m
   | StateQueued =>
     if packet_id =? 0 then
       {| phase := Online; required_request := required_request m;
          last_state_request := last_state_request m; bootstrap_state_queued := false;
          became_online := bootstrap_state_queued m |}
     else m
   | ShutdownAwaitOfflineOutgoing true => set_phase (ShutdownAwaitOfflineOutgoing false) m
   | ShutdownAwaitOfflineOutgoing false =>
     if negb (packet_id =? 0) then set_phase (ShutdownAwaitOfflineAck packet_id) m else m
   | _ => m
   end, None).

Definition publish_acknowledged (m : BootstrapMachine) (packet_id : Z) :
    BootstrapMachine * option ProtocolAction :=
  match phase m with
  | DiscoveryAwaitAck expected =>
    if expected =? packet_id then (set_phase OnlineQueued m, Some PublishOnline) else (m, None)
  | OnlineAwaitAck expected =>
    if expected =? packet_id then (set_phase AwaitFreshState m, None) else (m, None)
  | ShutdownAwaitOfflineAck expected =>
    if expected =? packet_id then (set_phase DisconnectQueued m, Some Disconnect) else (m, None)
  | _ => (m, None)
  end.

Definition state_available (m : BootstrapMachine) (request_id : Z) :
    BootstrapMachine * option ProtocolAction :=
  let allowed := match phase m with
                 | AwaitFreshState => required_request m <=? request_id
                 | Online => last_state_request m <? request_id
                 | _ => false
                 end in
  if allowed then
    ({| phase := StateQueued; required_request := required_request m; last_state_request := request_id;
        bootstrap_state_queued := bool_decide (phase m = AwaitFreshState); became_online := false |},
     Some PublishState)
  else (m, None).

Definition shutdown (m : BootstrapMachine) : BootstrapMachine * option ProtocolAction :=
  match phase m with
  | Disconnected | Stopped => (set_phase Stopped m, None)
  | ShutdownAwaitOfflineOutgoing _ | ShutdownAwaitOfflineAck _ | DisconnectQueued => (m, None)
  | p =>
    let skip_queued_publish :=
      match p with DiscoveryQueued | OnlineQueued | StateQueued => true | _ => false end in
    (set_phase (ShutdownAwaitOfflineOutgoing skip_queued_publish) m, Some PublishOffline)
  end.

Definition disconnected (m : BootstrapMachine) : BootstrapMachine * option ProtocolAction :=
  (set_phase Stopped m, None).

Definition connection_lost (m : BootstrapMachine) : BootstrapMachine :=
  {| phase := Disconnected; required_request := required_request m;
     last_state_request := last_state_request m; bootstrap_state_queued := false; became_online := false |}.

Definition accepts_state (m : BootstrapMachine) : bool :=
  match phase m with AwaitFreshState | Online => true | _ => false end.

Definition is_online (m : BootstrapMachine) : bool := bool_decide (phase m = Online).

Definition just_became_online (m : BootstrapMachine) : BootstrapMachine * bool :=
  ({| phase := phase m; required_request := required_request m;
      last_state_request := last_state_request m;
      bootstrap_state_queued := bootstrap_state_queued m; became_online := false |}, became_online m).

Definition is_stopped (m : BootstrapMachine) : bool := bool_decide (phase m = Stopped).

(** ** Retry delays *)

Definition RETRY_SECONDS : list Z := [1; 2; 4; 8; 16; 30; 60].

Record RetryBackoff := { attempt : Z }.
Definition RetryBackoff_new : RetryBackoff := {| attempt := 0 |}.
Definition reset (b : RetryBackoff) : RetryBackoff := {| attempt := 0 |}.

(** [None] is the panic of [Duration::from_secs_f64]; [usize] has 64 bits. *)
Definition next_delay (b : RetryBackoff) (jitter_unit : f64) : RetryBackoff * option Duration :=
  let index := Z.min (attempt b) (Z.of_nat (length RETRY_SECONDS) - 1) in
  let unit := if is_finite jitter_unit then f64_clamp jitter_unit f64_zero f64_one else f64_lit "0.5" in
  ({| attempt := saturating_add (attempt b) 1 |},
   base ← RETRY_SECONDS !! Z.to_nat index;
   duration_from_secs_f64
     (f64_mul (f64_of_Z base) (f64_add (f64_lit "0.8") (f64_mul (f64_lit "0.4") unit)))).

(** ** Jitter *)

Definition u64_wrap (z : Z) : Z := z mod 2 ^ 64.
Record Jitter := { jitter_state : Z }.

(** [Jitter::new], from the nanoseconds since the epoch and the process id. *)
Definition Jitter_new (nanos process_id : Z) : Jitter :=
  let nanos := if nanos <=? u64_max then nanos else u64_max in
  {| jitter_state := Z.max (Z.lxor nanos process_id) 1 |}.

Definition next_unit (j : Jitter) : Jitter * f64 :=
  let x := jitter_state j in
  let x := Z.lxor x (u64_wrap (Z.shiftl x 13)) in
  let x := Z.lxor x (Z.shiftr x 7) in
  let x := Z.lxor x (u64_wrap (Z.shiftl x 17)) in
  ({| jitter_state := x |}, f64_div (f64_of_Z x) (f64_of_Z u64_max)).

(** ** Connection errors *)

(** The variants of [rumqttc]'s enumerations that the program tells apart. *)
Inductive ConnectReturnCode := Success | BadUserNamePassword | NotAuthorized | OtherReturnCode.
Inductive ConnectionError :=
  | ConnectionRefused (code : ConnectReturnCode)
  | NetworkTimeout | FlushTimeout | ConnectionIo | MqttState | NotConnAck | RequestsDone.

Inductive RetryReason := AuthenticationRejected | BrokerRejected | Transport.

Definition retry_reason (error : ConnectionError) : RetryReason :=
  match error with
  | ConnectionRefused (BadUserNamePassword | NotAuthorized) => AuthenticationRejected
  | ConnectionRefused _ => BrokerRejected
  | _ => Transport
  end.

(** ** Collection requests *)

Section requests.
Context `{Watch}.

Definition request_collection (sender : channel Z) : channel Z * Z :=
  let request_id := saturating_add (borrow sender) 1 in
  (send_modify sender (fun current => saturating_add current 1), request_id).
End requests.

(** ** Delays in nanoseconds *)

Lemma div_half_even_error p q : 0 < q -> 2 * Z.abs (div_half_even p q * q - p) <= q.
Proof.
  intros Hq. unfold div_half_even.
  pose proof (Z.div_mod p q ltac:(lia)) as Hd. pose proof (Z.mod_pos_bound p q Hq) as Hm.
  set (d := p / q) in *. set (r := p mod q) in *.
  destruct (Z.compare_spec (2 * r) q); [destruct (Z.even d)|..]; nia.
Qed.

Lemma duration_from_secs_near x :
  nnf x -> V x < 2 ^ 63 * scale ->
  exists ns, duration_from_secs_f64 x = Some ns /\ 2 * Z.abs (ns * scale - V x * nanos_per_sec) <= scale.
Proof.
  intros Hx HV. pose proof scale_pos as HS.
  destruct x as [[]|s| |[] m e]; [done| |done|done|by destruct Hx|].
  { exists 0. split; [done|]. change (V (S754_zero false)) with 0. lia. }
  cbn [duration_from_secs_f64]. cbn [V] in HV |- *.
  destruct Hx as [_ Hc]. apply canonical_lt in Hc as [He' _].
  destruct (Z.leb_spec 0 e) as [He|He].
  - assert (sv (Zpos m) e = Zpos m * 2 ^ e * scale) as E
      by (rewrite <-sv_scale, sv_shift by lia; done).
    rewrite E in *. assert (Zpos m * 2 ^ e < 2 ^ 63) by nia.
    destruct (Z.ltb_spec (Zpos m * 2 ^ e * nanos_per_sec) (2 ^ 64 * nanos_per_sec)).
    + eexists. split; [done|]. set (a := Zpos m * 2 ^ e). replace (_ - _) with 0 by ring. lia.
    + unfold nanos_per_sec in *. lia.
  - pose proof (sv_neg (Zpos m) e (- e) ltac:(lia) ltac:(lia)) as E.
    assert (0 < 2 ^ (- e)) as HQ by (apply Z.pow_pos_nonneg; lia).
    pose proof (div_half_even_error (Zpos m * nanos_per_sec) (2 ^ (- e)) HQ) as Herr.
    set (ns := div_half_even _ _) in *. set (q := 2 ^ (- e)) in *. set (v := sv (Zpos m) e) in *.
    clearbody ns q v.
    assert (2 * Z.abs (ns * scale - v * nanos_per_sec) <= scale) as Hns.
    { assert ((ns * q - Zpos m * nanos_per_sec) * scale = (ns * scale - v * nanos_per_sec) * q) as Eq by
        (rewrite !Z.mul_sub_distr_r; replace (v * nanos_per_sec * q) with (v * q * nanos_per_sec) by ring;
         rewrite E; ring).
      assert (Z.abs (ns * q - Zpos m * nanos_per_sec) * scale
              = Z.abs (ns * scale - v * nanos_per_sec) * q) as Ea
        by (rewrite <-(Z.abs_eq scale), <-(Z.abs_eq q), <-!Z.abs_mul, !(Z.abs_eq scale), !(Z.abs_eq q), Eq by lia; done).
      set (a := Z.abs (ns * q - _)) in *. set (b := Z.abs (ns * scale - _)) in *. clearbody a b. nia. }
    assert (ns < 2 ^ 64 * nanos_per_sec) as Hlt by (unfold nanos_per_sec in *; nia).
    apply Z.ltb_lt in Hlt. rewrite Hlt. by eexists.
Qed.

(** ** Jitter *)

Lemma lxor_bound a b : 0 <= a <= u64_max -> 0 <= b <= u64_max -> 0 <= Z.lxor a b <= u64_max.
Proof.
  intros Ha Hb. assert (0 <= Z.lxor a b) by (apply Z.lxor_nonneg; lia). split; [done|].
  apply Z.lt_succ_r. change (Z.succ u64_max) with (2 ^ 64).
  destruct (Z.eq_dec (Z.lxor a b) 0) as [->|Hne]; [lia|].
  apply Z.log2_lt_pow2; [lia|].
  assert (Hl : forall z, 0 <= z <= u64_max -> Z.log2 z < 64).
  { intros z Hz. destruct (Z.eq_dec z 0) as [->|]; [done|]. apply Z.log2_lt_pow2; unfold u64_max in *; lia. }
  pose proof (Z.log2_lxor a b ltac:(lia) ltac:(lia)). pose proof (Hl a Ha). pose proof (Hl b Hb). lia.
Qed.

Lemma xorshift_left_nonzero x k :
  0 < x <= u64_max -> 0 < k ->
  let y := Z.lxor x (u64_wrap (Z.shiftl x k)) in 0 < y <= u64_max.
Proof.
  intros Hx Hk. cbv zeta. unfold u64_wrap. rewrite Z.shiftl_mul_pow2 by lia.
  pose proof (Z.mod_pos_bound (x * 2 ^ k) (2 ^ 64) ltac:(lia)) as Hm.
  pose proof (lxor_bound x ((x * 2 ^ k) mod 2 ^ 64) ltac:(lia) ltac:(unfold u64_max; lia)) as Hb.
  split; [|lia]. destruct (Z.eq_dec (Z.lxor x ((x * 2 ^ k) mod 2 ^ 64)) 0) as [E|]; [|lia].
  exfalso. apply Z.lxor_eq in E.
  assert ((2 ^ 64 | x * (2 ^ k - 1))) as Hdiv.
  { replace (x * (2 ^ k - 1)) with (x * 2 ^ k - x) by ring. rewrite E at 2.
    exists ((x * 2 ^ k) / 2 ^ 64). rewrite (Z.div_mod (x * 2 ^ k) (2 ^ 64)) at 1 by lia. ring. }
  rewrite Z.mul_comm in Hdiv. apply Z.gauss in Hdiv.
  - apply Z.divide_pos_le in Hdiv; unfold u64_max in *; lia.
  - apply Z.coprime_pow_l; [lia|]. apply Z.bezout_1_gcd.
    exists (2 ^ (k - 1)), (-1). replace k with (Z.succ (k - 1)) at 2 by lia.
    rewrite Z.pow_succ_r by lia. lia.
Qed.

Lemma xorshift_right_nonzero x k :
  0 < x <= u64_max -> 0 < k -> let y := Z.lxor x (Z.shiftr x k) in 0 < y <= u64_max.
Proof.
  intros Hx Hk. cbv zeta. rewrite Z.shiftr_div_pow2 by lia.
  assert (1 < 2 ^ k) as Hp by (apply Z.pow_gt_1; lia).
  assert (0 <= x / 2 ^ k < x) as Hd by (split; [apply Z.div_pos|apply Z.div_lt]; lia).
  pose proof (lxor_bound x (x / 2 ^ k) ltac:(lia) ltac:(lia)) as Hb.
  split; [|lia]. destruct (Z.eq_dec (Z.lxor x (x / 2 ^ k)) 0) as [E|]; [|lia].
  apply Z.lxor_eq in E. lia.
Qed.

Definition valid_jitter (j : Jitter) : Prop := 0 < jitter_state j <= u64_max.

Lemma next_unit_valid j : valid_jitter j -> valid_jitter (next_unit j).1.
Proof.
  intros Hj. unfold valid_jitter, next_unit in *. cbn [fst jitter_state].
  apply xorshift_left_nonzero; [|lia]. apply xorshift_right_nonzero; [|lia].
  by apply xorshift_left_nonzero.
Qed.

Lemma Jitter_new_valid nanos process_id :
  0 <= nanos -> 0 <= process_id <= u32_max -> valid_jitter (Jitter_new nanos process_id).
Proof.
  intros Hn Hp. unfold valid_jitter, Jitter_new. cbn [jitter_state].
  destruct (Z.leb_spec nanos u64_max) as [Hle|Hgt].
  - pose proof (lxor_bound nanos process_id ltac:(lia) ltac:(unfold u32_max, u64_max in *; lia)).
    unfold u64_max in *. lia.
  - pose proof (lxor_bound u64_max process_id ltac:(unfold u64_max; lia)
                  ltac:(unfold u32_max, u64_max in *; lia)). unfold u64_max in *. lia.
Qed.

Lemma V_one : nnf f64_one /\ V f64_one = scale.
Proof.
  destruct (f64_of_Z_exact 1 ltac:(lia)) as [H1 V1]. split; [exact H1|].
  unfold f64_one. rewrite V1. lia.
Qed.

Lemma next_unit_range j :
  valid_jitter j -> nnf (next_unit j).2 /\ V (next_unit j).2 <= V f64_one.
Proof.
  intros Hj%next_unit_valid. unfold valid_jitter, next_unit in *. cbn [fst snd jitter_state] in *.
  set (x := Z.lxor _ _) in *. clearbody x. pose proof scale_pos as HS.
  destruct V_one as [Hone V1].
  destruct (pow2_nnf 64 ltac:(lia)) as (p & Hp & Vp).
  assert (sv 1 64 = 2 ^ 64 * scale) as E64
    by (rewrite <-sv_scale, <-(Z.mul_1_l (2 ^ 64)), sv_shift by lia; done).
  destruct (f64_of_Z_between x f64_zero p ltac:(lia) nnf_zero Hp) as [Hx [Hx0 Hx1]].
  { change (V f64_zero) with 0. rewrite Vp, E64. unfold u64_max in Hj. nia. }
  assert (nnf (f64_of_Z u64_max) /\ V (f64_of_Z u64_max) = V p) as [Hm HVm].
  { replace (f64_of_Z u64_max) with (S754_finite false (Z.to_pos (2 ^ 52)) 12) by (vm_compute; reflexivity).
    split; [apply nnf_intro; lia|]. rewrite V_of_pos, Vp by lia.
    rewrite <-(Z.mul_1_l (2 ^ 52)), sv_shift by lia. done. }
  destruct (f64_div_between (f64_of_Z x) (f64_of_Z u64_max) f64_zero f64_one Hx Hm) as [? [_ ?]];
    [rewrite HVm, Vp, E64; lia|apply nnf_zero|exact Hone| |by split].
  change (V f64_zero) with 0. rewrite V1, HVm, Vp, E64 in *. change (V f64_zero) with 0 in Hx0. nia.
Qed.

(** The generator never reaches its absorbing zero state, whatever
    the clock and the process id give it at the start, and every jitter unit is
    a number between 0 and 1. *)
Theorem jitter_never_stalls (nanos process_id : Z) (n : nat) :
  0 <= nanos -> 0 <= process_id <= u32_max ->
  let j := Nat.iter n (fun j => (next_unit j).1) (Jitter_new nanos process_id) in
  jitter_state j <> 0
  /\ f64_leb f64_zero (next_unit j).2 = true /\ f64_leb (next_unit j).2 f64_one = true.
Proof.
  intros Hn Hp j. assert (valid_jitter j) as Hj.
  { subst j. induction n as [|n IH]; cbn [Nat.iter]; [by apply Jitter_new_valid|by apply next_unit_valid]. }
  split; [unfold valid_jitter in Hj; lia|].
  destruct (next_unit_range j Hj) as [Hu HV]. destruct V_one as [Hone _].
  rewrite (f64_leb_V _ _ nnf_zero Hu), (f64_leb_V _ _ Hu Hone).
  change (V f64_zero) with 0. split; apply Z.leb_le; [by apply V_nonneg|done].
Qed.

Lemma jitter_never_stalls_witness :
  (0 <= 1000 /\ 0 <= 1000 <= u32_max)
  /\ jitter_state (Jitter_new 1000 1000) <> 0 /\ f64_leb (next_unit (Jitter_new 1000 1000)).2 f64_one = true.
Proof.
  split; [unfold u32_max; lia|].
  destruct (jitter_never_stalls 1000 1000 0 ltac:(lia) ltac:(unfold u32_max; lia)) as (H0 & _ & H1).
  by split.
Defined.

(** ** Retry delays *)

(** The jitter units [next_delay] is given: canonical floats of any kind. *)
Definition valid_f64 (x : f64) : Prop := valid_binary 53 1024 x = true.

Lemma valid_f64_nnf m e : valid_f64 (S754_finite false m e) -> nnf (S754_finite false m e).
Proof.
  unfold valid_f64. cbn [valid_binary]. unfold bounded, canonical_mantissa. intros H.
  apply andb_true_iff in H as [Hc He]. apply Z.eqb_eq in Hc. apply Z.leb_le in He.
  split; [done|]. split; [|lia]. by symmetry.
Qed.

(** The clamped unit, scaled by a positive constant. *)
Lemma scaled_unit x :
  valid_f64 x ->
  let unit := if is_finite x then f64_clamp x f64_zero f64_one else f64_lit "0.5" in
  let y := f64_mul (f64_lit "0.4") unit in
  (y = S754_zero true) \/ (nnf y /\ 0 <= V y <= V (f64_lit "0.4")).
Proof.
  intros Hx. destruct V_one as [Hone V1]. pose proof scale_pos as HS.
  assert (nnf (f64_lit "0.4")) as H04 by (vm_compute; split; [reflexivity|split; [reflexivity|discriminate]]).
  assert (Hin : forall u, nnf u -> V u <= scale ->
            nnf (f64_mul (f64_lit "0.4") u) /\ 0 <= V (f64_mul (f64_lit "0.4") u) <= V (f64_lit "0.4")).
  { intros u Hu HV. pose proof (V_nonneg _ H04). pose proof (V_nonneg _ Hu).
    destruct (f64_mul_between (f64_lit "0.4") u f64_zero (f64_lit "0.4") H04 Hu nnf_zero H04) as [? [? ?]].
    - change (V f64_zero) with 0. nia.
    - split; [done|]. change (V f64_zero) with 0 in *. lia. }
  cbv zeta. destruct x as [s|s| |s m e]; cbn [is_finite].
  - replace (f64_clamp (S754_zero s) f64_zero f64_one) with (S754_zero s) by (by destruct s).
    destruct s; [left; vm_compute; reflexivity|]. right. apply Hin; [done|].
    change (V (S754_zero false)) with 0. lia.
  - right. apply Hin; [vm_compute; split; [reflexivity|split; [reflexivity|discriminate]]|].
    assert (nnf (f64_lit "0.5")) as H05 by (vm_compute; split; [reflexivity|split; [reflexivity|discriminate]]).
    pose proof (f64_leb_V _ _ H05 Hone) as Hl. rewrite V1 in Hl. apply Z.leb_le. rewrite <-Hl. vm_compute. reflexivity.
  - right. apply Hin; [vm_compute; split; [reflexivity|split; [reflexivity|discriminate]]|].
    assert (nnf (f64_lit "0.5")) as H05 by (vm_compute; split; [reflexivity|split; [reflexivity|discriminate]]).
    pose proof (f64_leb_V _ _ H05 Hone) as Hl. rewrite V1 in Hl. apply Z.leb_le. rewrite <-Hl. vm_compute. reflexivity.
  - right. unfold f64_clamp. destruct s.
    + assert (f64_ltb (S754_finite true m e) f64_zero = true) as -> by reflexivity.
      replace (f64_ltb f64_one f64_zero) with false by reflexivity. apply Hin; [apply nnf_zero|].
      change (V f64_zero) with 0. lia.
    + assert (f64_ltb (S754_finite false m e) f64_zero = false) as -> by reflexivity.
      apply valid_f64_nnf in Hx. set (x := S754_finite false m e) in *. clearbody x.
      destruct (f64_ltb f64_one x) eqn:E; [apply Hin; [done|lia]|]. apply Hin; [done|].
      unfold f64_ltb, SFltb in E. rewrite (f64_compare_V _ _ Hone Hx), V1 in E.
      destruct (Z.compare_spec scale (V x)); [lia|done|lia].
Qed.

(** The factor [0.8 + 0.4 * unit]. *)
Definition factor_hi : f64 := f64_lit "1.2000000000000004".

Lemma factor_range y :
  y = S754_zero true \/ (nnf y /\ 0 <= V y <= V (f64_lit "0.4")) ->
  let f := f64_add (f64_lit "0.8") y in
  nnf f /\ V (f64_lit "0.8") <= V f <= V factor_hi.
Proof.
  assert (nnf (f64_lit "0.8")) as H08 by (vm_compute; split; [reflexivity|split; [reflexivity|discriminate]]).
  assert (nnf factor_hi) as Hhi by (vm_compute; split; [reflexivity|split; [reflexivity|discriminate]]).
  assert (V (f64_lit "0.8") + V (f64_lit "0.4") <= V factor_hi) as Hsum
    by (apply Z.leb_le; vm_compute; reflexivity).
  assert (nnf (f64_lit "0.4")) as H04 by (vm_compute; split; [reflexivity|split; [reflexivity|discriminate]]).
  pose proof (V_nonneg _ H04).
  intros [->|[Hy HV]]; cbv zeta.
  - replace (f64_add (f64_lit "0.8") (S754_zero true)) with (f64_lit "0.8") by (vm_compute; reflexivity).
    split; [exact H08|lia].
  - apply (f64_add_between _ _ _ _ H08 Hy H08 Hhi). lia.
Qed.

(** The check, for each base, that the rounding errors stay below half a
    nanosecond. *)
Definition delay_bounds_ok (base : Z) : bool :=
  let b := f64_of_Z base in
  let lo := f64_mul b (f64_lit "0.79999999999999") in
  let hi := f64_mul b (f64_lit "1.20000000000001") in
  match lo, hi with
  | S754_finite false ml el, S754_finite false mh eh =>
    (fexp 53 1024 (Zpos (digits2_pos ml) + el) =? el) && (el <=? 971)
    && (fexp 53 1024 (Zpos (digits2_pos mh) + eh) =? eh) && (eh <=? 971)
    && (V lo * 2 ^ 3000 <=? V b * V (f64_lit "0.8"))
    && (V b * V factor_hi <=? V hi * 2 ^ 3000)
    && (2 * (800000000 * base - 1) * 2 ^ 3000 <? 2 * V lo * nanos_per_sec - 2 ^ 3000)
    && (2 * V hi * nanos_per_sec + 2 ^ 3000 <? 2 * (1200000000 * base + 1) * 2 ^ 3000)
    && (V hi <? 2 ^ 63 * 2 ^ 3000)
  | _, _ => false
  end.

Lemma delay_bounds base f :
  1 <= base <= 60 -> delay_bounds_ok base = true ->
  nnf f -> V (f64_lit "0.8") <= V f <= V factor_hi ->
  exists d, duration_from_secs_f64 (f64_mul (f64_of_Z base) f) = Some d
    /\ 800000000 * base <= d <= 1200000000 * base.
Proof.
  intros Hb Hok Hf HV. unfold delay_bounds_ok in Hok.
  set (lo := f64_mul (f64_of_Z base) (f64_lit "0.79999999999999")) in *.
  set (hi := f64_mul (f64_of_Z base) (f64_lit "1.20000000000001")) in *.
  destruct lo as [| | |[] ml el] eqn:El; try done. destruct hi as [| | |[] mh eh] eqn:Eh; try done.
  rewrite <-El, <-Eh in Hok. change (2 ^ 3000) with scale in Hok.
  rewrite !andb_true_iff, !Z.leb_le, !Z.ltb_lt in Hok.
  destruct Hok as ((((((((Hl1 & Hl2) & Hh1) & Hh2) & Hlo) & Hhi) & Hns1) & Hns2) & Hmax).
  assert (nnf lo) as Hnlo by (rewrite El; split; [done|split; [by apply Z.eqb_eq in Hl1|done]]).
  assert (nnf hi) as Hnhi by (rewrite Eh; split; [done|split; [by apply Z.eqb_eq in Hh1|done]]).
  destruct (f64_of_Z_exact base ltac:(lia)) as [Hnb Vb]. pose proof (V_nonneg _ Hnb) as Hb0.
  pose proof scale_pos as HS. clear El Eh.
  destruct (f64_mul_between (f64_of_Z base) f lo hi Hnb Hf Hnlo Hnhi) as [Hm [Hm1 Hm2]].
  { destruct HV. split.
    - apply Z.le_trans with (V (f64_of_Z base) * V (f64_lit "0.8")); [exact Hlo|]. by apply Z.mul_le_mono_nonneg_l.
    - apply Z.le_trans with (V (f64_of_Z base) * V factor_hi); [by apply Z.mul_le_mono_nonneg_l|exact Hhi]. }
  destruct (duration_from_secs_near _ Hm ltac:(lia)) as (d & Hd & Herr).
  exists d. split; [exact Hd|].
  set (v := V (f64_mul _ _)) in *. set (vl := V lo) in *. set (vh := V hi) in *.
  clearbody v vl vh. unfold nanos_per_sec in *.
  assert (Z.abs (d * scale - v * 10 ^ 9) <= scale) as Habs by lia.
  split.
  - assert (800000000 * base - 1 < d); [|lia].
    apply (Zmult_lt_reg_r _ _ scale HS). lia.
  - assert (d < 1200000000 * base + 1); [|lia].
    apply (Zmult_lt_reg_r _ _ scale HS). lia.
Qed.

Lemma nnf_valid_f64 x : nnf x -> valid_f64 x.
Proof.
  destruct x as [[]|s| |[] m e]; try done; [by intros [? _]|].
  intros [_ [Hc He]]. unfold valid_f64. cbn [valid_binary]. unfold bounded, canonical_mantissa.
  apply andb_true_iff. split; [by apply Z.eqb_eq|by apply Z.leb_le].
Qed.

Lemma next_delay_range (b : RetryBackoff) (jitter_unit : f64) :
  0 <= attempt b -> valid_f64 jitter_unit ->
  exists base d, RETRY_SECONDS !! Nat.min (Z.to_nat (attempt b)) 6 = Some base
    /\ (next_delay b jitter_unit).2 = Some d
    /\ from_millis (800 * base) <= d <= from_millis (1200 * base)
    /\ attempt (next_delay b jitter_unit).1 = saturating_add (attempt b) 1.
Proof.
  intros Hb Hj. unfold next_delay. cbn [fst snd attempt].
  replace (Z.to_nat (Z.min (attempt b) (Z.of_nat (length RETRY_SECONDS) - 1)))
    with (Nat.min (Z.to_nat (attempt b)) 6) by (cbn [length RETRY_SECONDS]; lia).
  pose proof (factor_range _ (scaled_unit _ Hj)) as [Hf HV].
  set (f := f64_add _ _) in *. clearbody f.
  set (i := Nat.min _ 6). assert (i <= 6)%nat as Hi by lia. clearbody i.
  assert (exists base, RETRY_SECONDS !! i = Some base /\ 1 <= base <= 60 /\ delay_bounds_ok base = true)
    as (base & Hbase & Hrange & Hok).
  { do 7 (destruct i as [|i]; [eexists; split; [reflexivity|split; [lia|vm_compute; reflexivity]]|]). lia. }
  rewrite Hbase. cbn [mbind option_bind].
  destruct (delay_bounds base f Hrange Hok Hf HV) as (d & Hd & Hrd).
  exists base, d. unfold from_millis. split_and!; try done; lia.
Qed.

(** C33: whatever the jitter unit (a number out of range, infinite or
    not a number included), the delay of the [n]-th consecutive failure exists
    (the conversion to a duration does not panic) and is within 20% of the
    [n]-th base of the documented sequence, the last one repeated; a reset
    starts the sequence again. *)
Theorem next_delay_bounds (b : RetryBackoff) (jitter_unit : f64) :
  0 <= attempt b -> valid_f64 jitter_unit ->
  exists base d, RETRY_SECONDS !! Nat.min (Z.to_nat (attempt b)) 6 = Some base
    /\ (next_delay b jitter_unit).2 = Some d
    /\ from_millis (800 * base) <= d <= from_millis (1200 * base)
    /\ attempt (next_delay b jitter_unit).1 = saturating_add (attempt b) 1
    /\ RETRY_SECONDS !! Nat.min (Z.to_nat (attempt (reset b))) 6 = Some 1.
Proof.
  intros Hb Hj. destruct (next_delay_range b jitter_unit Hb Hj) as (base & d & ? & ? & ? & ?).
  by exists base, d.
Qed.

Lemma next_delay_bounds_witness :
  valid_f64 S754_nan /\ exists base d,
    (next_delay {| attempt := 9 |} S754_nan).2 = Some d
    /\ RETRY_SECONDS !! 6%nat = Some base
    /\ from_millis (800 * base) <= d <= from_millis (1200 * base).
Proof.
  split; [reflexivity|].
  destruct (next_delay_bounds {| attempt := 9 |} S754_nan ltac:(cbn; lia) eq_refl) as (base & d & Hb & Hd & Hr & _).
  exists base, d. exact (conj Hd (conj Hb Hr)).
Defined.
