(* ===== verification/MqttMachine.v ===== *)
(** * Sessions of the bootstrap machine

    The state machine of [MqttProtocol] driven by an arbitrary sequence of
    operations, and what its output promises the broker: the order of a
    session's publications, the acknowledgements that come before them and the
    freshness of every published state. *)

From S2P Require Import Prelude RustStr Watch MqttProtocol.

Local Open Scope Z_scope.

(** ** Operations and runs *)

Inductive Op :=
  | OpConnected (required : Z)
  | OpOutgoing (packet_id : Z)
  | OpAcknowledged (packet_id : Z)
  | OpState (request_id : Z)
  | OpTakeOnline
  | OpShutdown
  | OpDisconnected
  | OpLost.

Definition apply_op (m : BootstrapMachine) (op : Op) : BootstrapMachine * option ProtocolAction :=
  match op with
  | OpConnected r => let '(m, a) := connected m r in (m, Some a)
  | OpOutgoing p => outgoing_publish m p
  | OpAcknowledged p => publish_acknowledged m p
  | OpState id => state_available m id
  | OpTakeOnline => ((just_became_online m).1, None)
  | OpShutdown => shutdown m
  | OpDisconnected => disconnected m
  | OpLost => (connection_lost m, None)
  end.

(** The machine after a sequence, with the output of each operation. *)
Fixpoint run_ops (m : BootstrapMachine) (ops : list Op) : BootstrapMachine * list (Op * option ProtocolAction) :=
  match ops with
  | [] => (m, [])
  | op :: ops =>
    let '(m, a) := apply_op m op in
    let '(m, tr) := run_ops m ops in
    (m, (op, a) :: tr)
  end.

Definition actions (tr : list (Op * option ProtocolAction)) : list ProtocolAction := omap snd tr.

Lemma run_ops_app m ops1 ops2 :
  run_ops m (ops1 ++ ops2) =
  let '(m1, tr1) := run_ops m ops1 in
  let '(m2, tr2) := run_ops m1 ops2 in (m2, tr1 ++ tr2).
Proof.
  revert m. induction ops1 as [|op ops1 IH]; intros m; cbn.
  - by destruct (run_ops m ops2).
  - destruct (apply_op m op) as [m' a]. rewrite IH.
    destruct (run_ops m' ops1) as [m1 tr1]. by destruct (run_ops m1 ops2).
Qed.

(** ** The current session

    What happened since the last connection: the request it waits for and the
    operations with their outputs. *)
Record Session := { required : Z; events : list (Op * option ProtocolAction) }.

Definition session_step (g : option Session) (op : Op) (a : option ProtocolAction) : option Session :=
  match op with
  | OpConnected r => Some {| required := r; events := [(op, a)] |}
  | OpLost => None
  | _ => (fun s => {| required := required s; events := events s ++ [(op, a)] |}) <$> g
  end.

Definition session_of (tr : list (Op * option ProtocolAction)) : option Session :=
  fold_left (fun g e => session_step g e.1 e.2) tr None.

(** The request ids of the states a session published. *)
Definition published_id (e : Op * option ProtocolAction) : option Z :=
  match e with (OpState id, Some PublishState) => Some id | _ => None end.
Definition published (evs : list (Op * option ProtocolAction)) : list Z := omap published_id evs.

Arguments actions : simpl never.
Arguments published : simpl never.

(** Retained Discovery, retained availability, then states; a shutdown ends the
    session with the offline message and the disconnection. *)
Definition bootstrap_actions (acts : list ProtocolAction) : Prop :=
  acts = [PublishDiscovery] \/ exists n, acts = PublishDiscovery :: PublishOnline :: replicate n PublishState.
Definition session_actions (acts : list ProtocolAction) : Prop :=
  exists boot tail, acts = boot ++ tail /\ bootstrap_actions boot
    /\ (tail = [] \/ tail = [PublishOffline] \/ tail = [PublishOffline; Disconnect]).

(** What precedes the first state, in this order: Discovery is handed over on the
    connection, sent and acknowledged; then the online message is handed over, sent
    and acknowledged. *)
Definition discovery_queued (s : Session) : list (Op * option ProtocolAction) :=
  [(OpConnected (required s), Some PublishDiscovery)].
Definition discovery_sent (s : Session) p := discovery_queued s ++ [(OpOutgoing p, None)].
Definition online_queued (s : Session) p := discovery_sent s p ++ [(OpAcknowledged p, Some PublishOnline)].
Definition online_sent (s : Session) p q := online_queued s p ++ [(OpOutgoing q, None)].
Definition bootstrap_events (s : Session) p q := online_sent s p q ++ [(OpAcknowledged q, None)].
Definition bootstrapped (s : Session) : Prop :=
  exists p q, p <> 0 /\ q <> 0 /\ bootstrap_events s p q `sublist_of` events s.

(** Strictly increasing request ids, none older than the session's request. *)
Fixpoint increasing_from (lo : Z) (ids : list Z) : Prop :=
  match ids with
  | [] => True
  | id :: ids => lo <= id /\ increasing_from (id + 1) ids
  end.

(** ** The invariant *)

Definition phase_inv (m : BootstrapMachine) (g : option Session) : Prop :=
  match phase m, g with
  | Disconnected, g => g = None
  | Stopped, None => True
  | _, None => False
  | p, Some s =>
    let acts := actions (events s) in
    required_request m = required s
    /\ match p with
       | Disconnected => False
       | DiscoveryQueued =>
         acts = [PublishDiscovery] /\ published (events s) = [] /\ discovery_queued s `sublist_of` events s
       | DiscoveryAwaitAck p =>
         acts = [PublishDiscovery] /\ published (events s) = [] /\ p <> 0 /\ discovery_sent s p `sublist_of` events s
       | OnlineQueued =>
         acts = [PublishDiscovery; PublishOnline] /\ published (events s) = []
         /\ exists p, p <> 0 /\ online_queued s p `sublist_of` events s
       | OnlineAwaitAck q =>
         acts = [PublishDiscovery; PublishOnline] /\ published (events s) = [] /\ q <> 0
         /\ exists p, p <> 0 /\ online_sent s p q `sublist_of` events s
       | AwaitFreshState =>
         acts = [PublishDiscovery; PublishOnline] /\ published (events s) = [] /\ bootstrapped s
       | StateQueued | Online =>
         (exists n, acts = PublishDiscovery :: PublishOnline :: replicate n PublishState)
         /\ bootstrapped s
         /\ increasing_from (required s) (published (events s))
         /\ Forall (fun id => id <= last_state_request m) (published (events s))
         /\ required s <= last_state_request m
       | ShutdownAwaitOfflineOutgoing _ | ShutdownAwaitOfflineAck _ =>
         exists boot, bootstrap_actions boot /\ acts = boot ++ [PublishOffline]
       | DisconnectQueued =>
         exists boot, bootstrap_actions boot /\ acts = boot ++ [PublishOffline; Disconnect]
       | Stopped => session_actions acts
       end
  end.

(** What every published state of a session satisfies. *)
Definition published_ok (g : option Session) : Prop :=
  match g with
  | None => True
  | Some s => increasing_from (required s) (published (events s))
              /\ (published (events s) <> [] -> bootstrapped s)
  end.

Lemma actions_snoc evs op a : actions (evs ++ [(op, a)]) = actions evs ++ option_list a.
Proof. unfold actions. rewrite omap_app. by destruct a. Qed.

Lemma published_snoc evs op a : published (evs ++ [(op, a)]) = published evs ++ option_list (published_id (op, a)).
Proof. unfold published. rewrite omap_app. cbn. by destruct (published_id (op, a)). Qed.

Lemma increasing_snoc lo ids id :
  increasing_from lo ids -> lo <= id -> Forall (fun x => x < id) ids -> increasing_from lo (ids ++ [id]).
Proof.
  intros Hi Hlo Hall. revert lo Hi Hlo. induction Hall as [|x ids Hx _ IH]; intros lo Hi Hlo; cbn in *; [done|].
  destruct Hi. split; [done|]. apply IH; [done|lia].
Qed.

Lemma sublist_keep {A} (l evs : list A) e : l `sublist_of` evs -> l `sublist_of` evs ++ [e].
Proof. intros H. rewrite <-(app_nil_r l). apply sublist_app; [done|apply sublist_nil_l]. Qed.

Lemma sublist_snoc {A} (l evs : list A) e : l `sublist_of` evs -> l ++ [e] `sublist_of` evs ++ [e].
Proof. intros H. by apply sublist_app. Qed.

Lemma bootstrap_replicate n :
  bootstrap_actions (PublishDiscovery :: PublishOnline :: replicate n PublishState).
Proof. right. by exists n. Qed.

Definition append_event (op : Op) (a : option ProtocolAction) (s : Session) : Session :=
  {| required := required s; events := events s ++ [(op, a)] |}.

Lemma bootstrapped_keep s op a : bootstrapped s -> bootstrapped (append_event op a s).
Proof. intros (p & q & ? & ? & H). exists p, q. split_and!; [done..|]. by apply sublist_keep. Qed.

(** An operation without output that leaves the phase alone. *)
Lemma phase_inv_idle m m' g op :
  phase m' = phase m -> required_request m' = required_request m ->
  last_state_request m' = last_state_request m ->
  phase_inv m g -> phase_inv m' (append_event op None <$> g).
Proof.
  unfold phase_inv. intros -> Hr Hl. rewrite Hr, Hl.
  destruct (phase m), g as [s|]; try done; cbn [fmap option_fmap option_map];
    unfold append_event; cbn [required events];
    rewrite ?actions_snoc, ?published_snoc; try done;
    replace (published_id (op, None)) with (@None Z) by (by destruct op);
    cbn [option_list]; rewrite ?app_nil_r; try done.
  all: intros Hi; decompose [and ex] Hi; split_and!; eauto 10 using sublist_keep, bootstrapped_keep.
Qed.

Lemma published_ok_event g op a :
  published_id (op, a) = None -> published_ok g -> published_ok (append_event op a <$> g).
Proof.
  intros Hid. destruct g as [s|]; [|done]. cbn. rewrite published_snoc, Hid. cbn.
  rewrite app_nil_r. intros [Hi Hb]. split; [done|]. intros Hne. by apply bootstrapped_keep, Hb.
Qed.

Lemma phase_session m s : phase_inv m (Some s) -> session_actions (actions (events s)).
Proof.
  unfold phase_inv. destruct (phase m); try done.
  1-6: intros (_ & Ha & _).
  1-2: exists [PublishDiscovery], []; rewrite app_nil_r; split_and!; [done|by left|by left].
  1-3: exists [PublishDiscovery; PublishOnline], []; rewrite app_nil_r; split_and!;
    [done|right; by exists 0%nat|by left].
  1: { destruct Ha as [n Ha]. exists (PublishDiscovery :: PublishOnline :: replicate n PublishState), [].
       rewrite app_nil_r. split_and!; [done|apply bootstrap_replicate|by left]. }
  1: { intros (_ & [n Ha] & _). exists (PublishDiscovery :: PublishOnline :: replicate n PublishState), [].
       rewrite app_nil_r. split_and!; [done|apply bootstrap_replicate|by left]. }
  1-2: intros (_ & boot & Hb & Ha); exists boot, [PublishOffline]; split_and!; [done..|by right; left].
  1: intros (_ & boot & Hb & Ha); exists boot, [PublishOffline; Disconnect]; split_and!; [done..|by right; right].
  by intros [_ H].
Qed.

Definition machine_inv (m : BootstrapMachine) (g : option Session) : Prop := phase_inv m g /\ published_ok g.

(** Preservation, one operation at a time.  [moves] discharges a change of
    phase whose event has no output. *)
Lemma machine_inv_idle m m' g op :
  phase m' = phase m -> required_request m' = required_request m ->
  last_state_request m' = last_state_request m ->
  machine_inv m g -> machine_inv m' (append_event op None <$> g).
Proof.
  intros Hp Hr Hl [Hi Ho]. split; [by eapply phase_inv_idle|].
  apply published_ok_event; [by destruct op|done].
Qed.

Ltac event_facts :=
  unfold append_event; cbn [required events];
  rewrite ?actions_snoc, ?published_snoc; cbn [option_list published_id];
  rewrite ?app_nil_r.

Lemma machine_inv_outgoing m g p :
  machine_inv m g ->
  machine_inv (outgoing_publish m p).1 (append_event (OpOutgoing p) (outgoing_publish m p).2 <$> g).
Proof.
  intros H. pose proof (machine_inv_idle m m g (OpOutgoing p) eq_refl eq_refl eq_refl H) as Hidle.
  destruct H as [Hi Ho]. unfold outgoing_publish. cbn [fst snd].
  destruct (phase m) as [| |p1| |p2| | | |[]|p3| |] eqn:Ep; try exact Hidle;
    try (destruct (Z.eqb_spec p 0); cbn [negb]; try exact Hidle);
    (split; [|by apply published_ok_event]);
    unfold phase_inv in Hi; rewrite Ep in Hi; (destruct g as [s|]; [|done]);
    cbn [fmap option_fmap option_map]; unfold phase_inv; cbn [phase set_phase required_request last_state_request];
    event_facts; destruct Hi as [Hr Hi]; (split; [done|]); try done.
  - destruct Hi as (? & ? & Hev). split_and!; [done..|]. exact (sublist_snoc _ _ _ Hev).
  - destruct Hi as (? & ? & q & ? & Hev). split_and!; [done..|]. exists q. split; [done|]. exact (sublist_snoc _ _ _ Hev).
  - destruct Hi as (? & ? & ? & ? & ?). split_and!; [done|by apply bootstrapped_keep|done..].
Qed.

Lemma machine_inv_acknowledged m g p :
  machine_inv m g ->
  machine_inv (publish_acknowledged m p).1 (append_event (OpAcknowledged p) (publish_acknowledged m p).2 <$> g).
Proof.
  intros H. pose proof (machine_inv_idle m m g (OpAcknowledged p) eq_refl eq_refl eq_refl H) as Hidle.
  destruct H as [Hi Ho]. unfold publish_acknowledged.
  destruct (phase m) as [| |p1| |p2| | | |b|p3| |] eqn:Ep; cbn [fst snd]; try exact Hidle;
    try (destruct (Z.eqb_spec p1 p) as [<-|]); try (destruct (Z.eqb_spec p2 p) as [<-|]);
    try (destruct (Z.eqb_spec p3 p) as [<-|]); cbn [fst snd]; try exact Hidle;
    (split; [|by apply published_ok_event]);
    unfold phase_inv in Hi; rewrite Ep in Hi; (destruct g as [s|]; [|done]);
    cbn [fmap option_fmap option_map]; unfold phase_inv; cbn [phase set_phase required_request last_state_request];
    event_facts; destruct Hi as [Hr Hi]; (split; [done|]).
  - destruct Hi as (-> & ? & ? & Hev). split_and!; [done..|]. exists p1. split; [done|]. exact (sublist_snoc _ _ _ Hev).
  - destruct Hi as (? & ? & ? & q & ? & Hev). split_and!; [done..|]. exists q, p2. split_and!; [done..|].
    exact (sublist_snoc _ _ _ Hev).
  - destruct Hi as (boot & ? & ->). exists boot. split; [done|]. by rewrite <-app_assoc.
Qed.

Lemma replicate_snoc {A} n (x : A) : replicate n x ++ [x] = replicate (S n) x.
Proof. by rewrite <-replicate_S_end. Qed.

Lemma machine_inv_state m g id :
  machine_inv m g ->
  machine_inv (state_available m id).1 (append_event (OpState id) (state_available m id).2 <$> g).
Proof.
  intros H. pose proof (machine_inv_idle m m g (OpState id) eq_refl eq_refl eq_refl H) as Hidle.
  destruct H as [Hi Ho]. unfold state_available.
  destruct (phase m) eqn:Ep; cbn [fst snd]; try exact Hidle.
  - destruct (Z.leb_spec (required_request m) id); cbn [fst snd]; [|exact Hidle].
    unfold phase_inv in Hi. rewrite Ep in Hi. destruct g as [s|]; [|done].
    destruct Hi as (Hr & Ha & Hp & Hb). cbn [fmap option_fmap option_map].
    assert (published (events s ++ [(OpState id, Some PublishState)]) = [id]) as Hpub
      by (rewrite published_snoc, Hp; done).
    split.
    + unfold phase_inv. cbn [phase required_request last_state_request]. event_facts. split; [done|].
      rewrite Ha, Hp. cbn [app]. split_and!; [by exists 1%nat|by apply bootstrapped_keep|cbn; lia|by constructor|lia].
    + unfold published_ok, append_event. cbn [required events]. rewrite Hpub.
      split; [cbn; lia|]. intros _. by apply bootstrapped_keep.
  - destruct (Z.ltb_spec (last_state_request m) id); cbn [fst snd]; [|exact Hidle].
    unfold phase_inv in Hi. rewrite Ep in Hi. destruct g as [s|]; [|done].
    destruct Hi as (Hr & [n Ha] & Hb & Hinc & Hle & Hlast). cbn [fmap option_fmap option_map].
    assert (published (events s ++ [(OpState id, Some PublishState)]) = published (events s) ++ [id]) as Hpub
      by (rewrite published_snoc; done).
    assert (increasing_from (required s) (published (events s) ++ [id])).
    { apply increasing_snoc; [done|lia|]. eapply Forall_impl; [exact Hle|]. cbn. lia. }
    split.
    + unfold phase_inv. cbn [phase required_request last_state_request]. event_facts. split; [done|].
      split_and!; [|by apply bootstrapped_keep|done| |lia].
      * exists (S n). by rewrite Ha, <-replicate_snoc.
      * apply Forall_app. split; [|by constructor]. eapply Forall_impl; [exact Hle|]. cbn. lia.
    + unfold published_ok, append_event. cbn [required events]. rewrite Hpub.
      split; [done|]. intros _. by apply bootstrapped_keep.
Qed.

Lemma machine_inv_shutdown m g :
  machine_inv m g ->
  machine_inv (shutdown m).1 (append_event OpShutdown (shutdown m).2 <$> g).
Proof.
  intros H. pose proof (machine_inv_idle m m g OpShutdown eq_refl eq_refl eq_refl H) as Hidle.
  destruct H as [Hi Ho]. unfold shutdown. destruct (phase m) eqn:Ep; cbn [fst snd]; try exact Hidle;
    (split; [|by apply published_ok_event]);
    unfold phase_inv in Hi; rewrite Ep in Hi; unfold phase_inv;
    cbn [phase set_phase required_request last_state_request];
    (destruct g as [s|]; [|done]); cbn [fmap option_fmap option_map]; try done.
  all: event_facts; destruct Hi as [Hr Hi]; (split; [done|]); try (eexists; split; [|reflexivity]).
  1-2: destruct Hi as (-> & _); by left.
  1-3: destruct Hi as (-> & _); right; by exists 0%nat.
  1-2: destruct Hi as ([n ->] & _); apply bootstrap_replicate.
  done.
Qed.

Lemma machine_inv_step m g op :
  machine_inv m g -> let '(m', a) := apply_op m op in machine_inv m' (session_step g op a).
Proof.
  intros H. destruct op; cbn [apply_op session_step].
  - cbn [connected]. split; [|split; [done|intros Hne; by destruct Hne]]. by unfold phase_inv.
  - pose proof (machine_inv_outgoing m g packet_id H) as Hm. by destruct (outgoing_publish m packet_id).
  - pose proof (machine_inv_acknowledged m g packet_id H) as Hm. by destruct (publish_acknowledged m packet_id).
  - pose proof (machine_inv_state m g request_id H) as Hm. by destruct (state_available m request_id).
  - by apply (machine_inv_idle m).
  - pose proof (machine_inv_shutdown m g H) as Hm. by destruct (shutdown m).
  - destruct H as [Hi Ho]. cbn [disconnected]. split; [|by apply published_ok_event].
    unfold phase_inv. destruct g as [s|]; [|done]. cbn [fmap option_fmap option_map phase set_phase].
    apply phase_session in Hi as Hs. event_facts. split; [|done].
    unfold phase_inv in Hi. cbn [set_phase required_request]. by destruct (phase m); try discriminate Hi; destruct Hi as [Hr _].
  - split; [|done]. done.
Qed.

Lemma machine_inv_run m g ops :
  machine_inv m g ->
  let '(m', tr) := run_ops m ops in
  machine_inv m' (fold_left (fun g e => session_step g e.1 e.2) tr g).
Proof.
  revert m g. induction ops as [|op ops IH]; intros m g H; [done|]. cbn [run_ops].
  pose proof (machine_inv_step m g op H) as Hs. destruct (apply_op m op) as [m1 a].
  specialize (IH _ _ Hs). by destruct (run_ops m1 ops).
Qed.

Lemma machine_inv_default : machine_inv BootstrapMachine_default None.
Proof. by split. Qed.

Lemma session_inv ops s :
  session_of (run_ops BootstrapMachine_default ops).2 = Some s ->
  machine_inv (run_ops BootstrapMachine_default ops).1 (Some s).
Proof.
  intros Hs. pose proof (machine_inv_run _ _ ops machine_inv_default) as H.
  unfold session_of in Hs. destruct (run_ops _ ops) as [m tr]. cbn in *. by rewrite Hs in H.
Qed.

(** ** Properties *)

(** C9: whatever sequence of events drives the machine, the publications
    of the current session come in the documented order: Discovery, then
    availability, then states only; after the offline message nothing but the
    disconnection follows. *)
Theorem session_publishes_in_order (ops : list Op) (s : Session) :
  session_of (run_ops BootstrapMachine_default ops).2 = Some s ->
  session_actions (actions (events s)).
Proof. intros Hs. apply session_inv in Hs as [Hi _]. by eapply phase_session. Qed.

(** What the invariant says when a state may be published. *)
Lemma fresh_state (m : BootstrapMachine) (g : option Session) (id : Z) :
  machine_inv m g -> (apply_op m (OpState id)).2 = Some PublishState ->
  exists s, g = Some s
    /\ bootstrapped s
    /\ required s <= id
    /\ Forall (fun earlier => earlier < id) (published (events s)).
Proof.
  intros [Hi _]. unfold apply_op, state_available. intros Ha. unfold phase_inv in Hi.
  destruct (phase m); try discriminate Ha; (destruct g as [s|]; [|done]); exists s.
  - destruct (Z.leb_spec (required_request m) id); [|discriminate Ha].
    destruct Hi as (<- & _ & -> & Hb). split_and!; [done..|constructor].
  - destruct (Z.ltb_spec (last_state_request m) id); [|discriminate Ha].
    destruct Hi as (_ & _ & Hb & _ & Hle & Hlast). split_and!; [done|done|lia|].
    eapply Forall_impl; [exact Hle|]. cbn. lia.
Qed.

Lemma machine_inv_ops ops :
  machine_inv (run_ops BootstrapMachine_default ops).1 (session_of (run_ops BootstrapMachine_default ops).2).
Proof.
  pose proof (machine_inv_run _ _ ops machine_inv_default) as H. unfold session_of.
  by destruct (run_ops BootstrapMachine_default ops).
Qed.

(** C8: a state is published only in a session whose Discovery and online
    messages were, one after the other, handed to the client, sent under some
    packet id and acknowledged under that id; its request is at least the one made
    when the session connected, and it is newer than every state the session
    published before. *)
Theorem published_state_is_fresh (ops : list Op) (id : Z) :
  let '(m, tr) := run_ops BootstrapMachine_default ops in
  (apply_op m (OpState id)).2 = Some PublishState ->
  exists s, session_of tr = Some s
    /\ bootstrapped s
    /\ required s <= id
    /\ Forall (fun earlier => earlier < id) (published (events s)).
Proof.
  pose proof (machine_inv_ops ops) as Hi. destruct (run_ops BootstrapMachine_default ops) as [m tr].
  by apply fresh_state.
Qed.

Definition bootstrap_ops (r p q id : Z) : list Op :=
  [OpConnected r; OpOutgoing p; OpAcknowledged p; OpOutgoing q; OpAcknowledged q; OpState id; OpOutgoing 0].

Lemma published_state_is_fresh_witness :
  (apply_op (run_ops BootstrapMachine_default (bootstrap_ops 5 1 2 5)).1 (OpState 6)).2 = Some PublishState
  /\ exists s, session_of (run_ops BootstrapMachine_default (bootstrap_ops 5 1 2 5)).2 = Some s
       /\ bootstrapped s /\ required s <= 6.
Proof.
  split; [reflexivity|].
  destruct (published_state_is_fresh (bootstrap_ops 5 1 2 5) 6 eq_refl) as (s & Hs & Hb & Hr & _).
  by exists s.
Defined.

Lemma session_publishes_in_order_witness :
  exists s, session_of (run_ops BootstrapMachine_default (bootstrap_ops 5 1 2 5)).2 = Some s
    /\ session_actions (actions (events s)).
Proof.
  eexists. split; [vm_compute; reflexivity|].
  apply (session_publishes_in_order (bootstrap_ops 5 1 2 5)). vm_compute. reflexivity.
Defined.

(** From any phase, a connection whose two publications are sent
    and acknowledged and that receives a state answering its request goes
    online, with exactly the three publications of the protocol; a stale state
    or a foreign acknowledgement in between changes nothing. *)
Theorem bootstrap_completes (m : BootstrapMachine) (r p q id stale other : Z) :
  p <> 0 -> q <> 0 -> r <= id -> stale < r -> other <> p -> other <> q ->
  let ops := [OpConnected r; OpState id; OpOutgoing p; OpAcknowledged other; OpAcknowledged p; OpOutgoing q;
              OpAcknowledged other; OpAcknowledged q; OpState stale; OpState id; OpOutgoing 0] in
  let '(m', tr) := run_ops m ops in
  phase m' = Online /\ became_online m' = true /\ last_state_request m' = id
  /\ actions tr = [PublishDiscovery; PublishOnline; PublishState].
Proof.
  intros Hp Hq Hid Hstale Hop Hoq ops. subst ops.
  cbn [run_ops apply_op connected state_available phase required_request last_state_request].
  rewrite <-Z.eqb_neq in Hp, Hq.
  assert ((p =? other) = false) as E1 by (apply Z.eqb_neq; congruence).
  assert ((q =? other) = false) as E2 by (apply Z.eqb_neq; congruence).
  assert ((r <=? id) = true) as E3 by lia. assert ((r <=? stale) = false) as E4 by lia.
  repeat (unfold outgoing_publish, publish_acknowledged, state_available, set_phase;
    cbn [phase required_request last_state_request bootstrap_state_queued became_online];
    rewrite ?Hp, ?Hq, ?E1, ?E2, ?E3, ?E4, ?Z.eqb_refl; cbn [negb]).
  done.
Qed.

Lemma bootstrap_completes_witness :
  phase (run_ops BootstrapMachine_default
    [OpConnected 5; OpState 6; OpOutgoing 1; OpAcknowledged 9; OpAcknowledged 1; OpOutgoing 2;
     OpAcknowledged 9; OpAcknowledged 2; OpState 4; OpState 6; OpOutgoing 0]).1 = Online.
Proof.
  pose proof (bootstrap_completes BootstrapMachine_default 5 1 2 6 4 9 ltac:(lia) ltac:(lia) ltac:(lia)
    ltac:(lia) ltac:(lia) ltac:(lia)) as H. exact (proj1 H).
Defined.

(** The phases in which a session is connected and not yet shutting down. *)
Definition live (p : Phase) : bool :=
  match p with
  | DiscoveryQueued | DiscoveryAwaitAck _ | OnlineQueued | OnlineAwaitAck _ | AwaitFreshState
  | StateQueued | Online => true
  | _ => false
  end.
(** A publication has been handed to the client but not sent. *)
Definition publication_queued (p : Phase) : bool :=
  match p with DiscoveryQueued | OnlineQueued | StateQueued => true | _ => false end.

(** Shutting down a live session publishes the offline message; when
    it is sent (after the publication that was still queued, if there was one)
    and acknowledged the client disconnects and the machine stops. *)
Theorem shutdown_completes (m : BootstrapMachine) (queued p : Z) :
  live (phase m) = true -> p <> 0 ->
  let ops := [OpShutdown] ++ (if publication_queued (phase m) then [OpOutgoing queued] else [])
             ++ [OpOutgoing p; OpAcknowledged p; OpShutdown; OpDisconnected] in
  let '(m', tr) := run_ops m ops in
  phase m' = Stopped /\ actions tr = [PublishOffline; Disconnect].
Proof.
  intros Hlive Hp ops. subst ops. rewrite <-Z.eqb_neq in Hp.
  destruct (phase m) eqn:E; try discriminate Hlive; cbn [publication_queued app run_ops apply_op];
    repeat (unfold shutdown, outgoing_publish, publish_acknowledged, disconnected, set_phase;
      rewrite ?E; cbn [phase required_request last_state_request bootstrap_state_queued became_online];
      rewrite ?Hp, ?Z.eqb_refl; cbn [negb]); done.
Qed.

Lemma shutdown_completes_witness :
  phase (run_ops (set_phase StateQueued BootstrapMachine_default)
    [OpShutdown; OpOutgoing 0; OpOutgoing 7; OpAcknowledged 7; OpShutdown; OpDisconnected]).1 = Stopped.
Proof.
  pose proof (shutdown_completes (set_phase StateQueued BootstrapMachine_default) 0 7 eq_refl ltac:(lia)) as H.
  exact (proj1 H).
Defined.
