(* ===== verification/MqttSupervisor.v ===== *)
(** * The MQTT supervisor ([src/src/mqtt.rs])

    The event loop that owns the connection: connection options, the handling
    of every event, the retry on errors and the graceful shutdown.  The MQTT
    client ([rumqttc]) and the runtime are outside the repository: what they
    deliver (poll results, which branch of a [select!] completed, how long a
    wait took) are inputs, the requests handed to the client are the output, and
    whether the client's bounded queue takes a request is a parameter. *)

From S2P Require Import Prelude RustStr RustFloat RustFloatFacts Config Discovery Watch MqttProtocol MqttMachine.

Local Open Scope Z_scope.

Definition REQUEST_CHANNEL_CAPACITY : Z := 16.
Definition MAX_PACKET_BYTES : Z := 64 * 1024.
Definition MAX_INFLIGHT : Z := 4.
Definition CONNECT_TIMEOUT_SECONDS : Z := 5.
Definition GRACEFUL_SHUTDOWN_TIMEOUT : Duration := from_secs 3.

(** ** Settings and connection options *)

Module MqttSettings.
Record t := {
  host : str;
  port : Z;
  client_id : str;
  keep_alive : Duration;
  state_topic : str;
  availability_topic : str;
  discovery_topic : str;
}.

Definition new (config : MqttConfig.t) (device_id : str) : t := {|
  host := MqttConfig.host config;
  port := MqttConfig.port config;
  client_id := MqttConfig.client_id config;
  keep_alive := MqttConfig.keep_alive config;
  state_topic := MqttConfig.state_topic config;
  availability_topic := MqttConfig.availability_topic config;
  discovery_topic := MqttConfig.discovery_topic config device_id;
|}.
End MqttSettings.

Inductive QoS := AtMostOnce | AtLeastOnce.

Record LastWill := { will_topic : str; will_message : str; will_qos : QoS; will_retain : bool }.

(** The settings made on [rumqttc]'s [MqttOptions]. *)
Record MqttOptions := {
  options_client_id : str;
  options_host : str;
  options_port : Z;
  clean_session : bool;
  options_keep_alive : Duration;
  options_credentials : str * str;
  last_will : option LastWill;
  max_packet_size : Z * Z;
  request_channel_capacity : Z;
  inflight : Z;
}.

Definition options (settings : MqttSettings.t) (credentials : MqttCredentials.t) : MqttOptions := {|
  options_client_id := MqttSettings.client_id settings;
  options_host := MqttSettings.host settings;
  options_port := MqttSettings.port settings;
  clean_session := true;
  options_keep_alive := MqttSettings.keep_alive settings;
  options_credentials := (MqttCredentials.username credentials, MqttCredentials.password credentials);
  last_will := Some {| will_topic := MqttSettings.availability_topic settings;
                       will_message := OFFLINE_PAYLOAD; will_qos := AtLeastOnce; will_retain := true |};
  max_packet_size := (MAX_PACKET_BYTES, MAX_PACKET_BYTES);
  request_channel_capacity := REQUEST_CHANNEL_CAPACITY;
  inflight := MAX_INFLIGHT;
|}.

Record StateMessage := { request_id : Z; state_payload : str }.

Inductive MqttStatus := StatusDisconnected | Bootstrapping | StatusOnline | ShuttingDown | StatusStopped.
Inductive MqttError := ControlQueueUnavailable.

#[export] Instance MqttStatus_eq_dec : EqDecision MqttStatus.
Proof. solve_decision. Defined.

(** ** Inputs and outputs *)

(** Requests handed to the client. *)
Inductive Request :=
  | Publish (topic : str) (qos : QoS) (retain : bool) (payload : str)
  | DisconnectRequest.

(** Events of the client's event loop, as far as the program tells them apart. *)
Inductive Event :=
  | IncomingConnAck (code : ConnectReturnCode)
  | IncomingPubAck (pkid : Z)
  | OutgoingPublish (pkid : Z)
  | OutgoingDisconnect
  | OtherEvent.

Definition Poll : Type := result ConnectionError Event.

(** A completed [shutdown.changed()]: whether the sender is gone, and the value
    read afterwards. *)
Record ShutdownChange := { closed : bool; shutdown_value : bool }.
Definition stops (c : ShutdownChange) : bool := closed c || shutdown_value c.

(** The wait after a connection error. *)
Inductive Wait := Slept | Interrupted (c : ShutdownChange).

(** The branch of the [select!] that completed. *)
Inductive Branch :=
  | ShutdownChanged (c : ShutdownChange)
  | Polled (poll : Poll) (wait : Wait)
  | StatesChanged (sender_alive : bool).

(** ** The supervisor *)

Section supervisor.
Context `{Watch}.
(** Whether the client's queue takes the [n]-th request. *)
Variable accepts : nat -> bool.

Record MqttSupervisor := {
  settings : MqttSettings.t;
  discovery_payload : str;
  states_seen : seen;
  status : MqttStatus;
  protocol : BootstrapMachine;
  backoff : RetryBackoff;
  jitter : Jitter;
  requests : list Request;
}.

(** The channels shared with the other tasks. *)
Record Slots := {
  states : channel (option StateMessage);
  collection_requests : channel Z;
}.

Definition set_status (v : MqttStatus) (s : MqttSupervisor) : MqttSupervisor :=
  {| settings := settings s; discovery_payload := discovery_payload s; states_seen := states_seen s;
     status := v; protocol := protocol s; backoff := backoff s; jitter := jitter s; requests := requests s |}.
Definition set_protocol (v : BootstrapMachine) (s : MqttSupervisor) : MqttSupervisor :=
  {| settings := settings s; discovery_payload := discovery_payload s; states_seen := states_seen s;
     status := status s; protocol := v; backoff := backoff s; jitter := jitter s; requests := requests s |}.
Definition set_states_seen (v : seen) (s : MqttSupervisor) : MqttSupervisor :=
  {| settings := settings s; discovery_payload := discovery_payload s; states_seen := v;
     status := status s; protocol := protocol s; backoff := backoff s; jitter := jitter s; requests := requests s |}.
Definition set_retry (b : RetryBackoff) (j : Jitter) (s : MqttSupervisor) : MqttSupervisor :=
  {| settings := settings s; discovery_payload := discovery_payload s; states_seen := states_seen s;
     status := status s; protocol := protocol s; backoff := b; jitter := j; requests := requests s |}.
Definition push_request (r : Request) (s : MqttSupervisor) : MqttSupervisor :=
  {| settings := settings s; discovery_payload := discovery_payload s; states_seen := states_seen s;
     status := status s; protocol := protocol s; backoff := backoff s; jitter := jitter s;
     requests := requests s ++ [r] |}.

Definition MqttSupervisor_new (settings : MqttSettings.t) (discovery : DiscoveryMessage)
    (states : channel (option StateMessage)) (jitter : Jitter) : MqttSupervisor :=
  {| settings := settings; discovery_payload := payload discovery; states_seen := mark states;
     status := StatusDisconnected; protocol := BootstrapMachine_default; backoff := RetryBackoff_new;
     jitter := jitter; requests := [] |}.

(** The outcome of a method: the new state and its result. *)
Definition Outcome : Type := (MqttSupervisor * result MqttError unit)%type.
Definition and_then (o : Outcome) (k : MqttSupervisor -> Outcome) : Outcome :=
  match o with (s, Ok _) => k s | (s, Err e) => (s, Err e) end.

Definition request_of (s : MqttSupervisor) (action : ProtocolAction) (state_payload : option str) : Request :=
  match action with
  | PublishDiscovery =>
    Publish (MqttSettings.discovery_topic (settings s)) AtLeastOnce true (discovery_payload s)
  | PublishOnline =>
    Publish (MqttSettings.availability_topic (settings s)) AtLeastOnce true ONLINE_PAYLOAD
  | PublishState =>
    Publish (MqttSettings.state_topic (settings s)) AtMostOnce false (default [] state_payload)
  | PublishOffline =>
    Publish (MqttSettings.availability_topic (settings s)) AtLeastOnce true OFFLINE_PAYLOAD
  | Disconnect => DisconnectRequest
  end.

Definition perform (s : MqttSupervisor) (action : ProtocolAction) (state_payload : option str) : Outcome :=
  if accepts (length (requests s))
  then (push_request (request_of s action state_payload) s, Ok tt)
  else (s, Err ControlQueueUnavailable).

Definition handle_event (s : MqttSupervisor) (event : Event) : Outcome :=
  let '(p, action) := match event with
                      | OutgoingPublish packet_id => outgoing_publish (protocol s) packet_id
                      | IncomingPubAck pkid => publish_acknowledged (protocol s) pkid
                      | OutgoingDisconnect => disconnected (protocol s)
                      | _ => (protocol s, None)
                      end in
  let s := set_protocol p s in
  match action with
  | Some action => perform s action None
  | None => (s, Ok tt)
  end.

Definition publish_current_state (w : Slots) (s : MqttSupervisor) : Outcome :=
  let message := borrow (states w) in
  let s := set_states_seen (mark (states w)) s in
  match message with
  | Some message =>
    let '(p, action) := state_available (protocol s) (request_id message) in
    let s := set_protocol p s in
    match action with
    | Some action => perform s action (Some (state_payload message))
    | None => (s, Ok tt)
    end
  | None => (s, Ok tt)
  end.

(** [shutdown_sequence_result]: [None] is the timeout. *)
Definition shutdown_sequence_result (r : option (result MqttError unit)) : result MqttError unit :=
  match r with Some r => r | None => Ok tt end.

(** The polling loop of the graceful shutdown; the deadline expires after the
    given poll results. *)
Fixpoint shutdown_sequence (polls : list Poll) (s : MqttSupervisor) :
    MqttSupervisor * option (result MqttError unit) :=
  match polls with
  | [] => (s, None)
  | Err _ :: _ => (s, Some (Ok tt))
  | Ok event :: polls =>
    let stopped := match event with OutgoingDisconnect => true | _ => false end in
    match handle_event s event with
    | (s, Err e) => (s, Some (Err e))
    | (s, Ok _) => if stopped || is_stopped (protocol s) then (s, Some (Ok tt)) else shutdown_sequence polls s
    end
  end.

Definition graceful_shutdown (polls : list Poll) (s : MqttSupervisor) : Outcome :=
  let s := set_status ShuttingDown s in
  let '(p, action) := shutdown (protocol s) in
  let s := set_protocol p s in
  match action with
  | None => (set_status StatusStopped s, Ok tt)
  | Some action =>
    and_then (perform s action None) (fun s =>
      let '(s, r) := shutdown_sequence polls s in
      match shutdown_sequence_result r with
      | Err e => (s, Err e)
      | Ok _ => (set_status StatusStopped s, Ok tt)
      end)
  end.

(** One iteration of [run]: continue, or return. *)
Inductive Flow := Continue | Return (r : result MqttError unit).

Definition return_outcome (w : Slots) (o : Outcome) : Slots * MqttSupervisor * Flow :=
  (w, o.1, Return o.2).
Definition continue_or_return (w : Slots) (o : Outcome) : Slots * MqttSupervisor * Flow :=
  (w, o.1, match o.2 with Ok _ => Continue | Err e => Return (Err e) end).

(** The end of the loop body: the status after an event. *)
Definition finish_iteration (w : Slots) (o : Outcome) : Slots * MqttSupervisor * Flow :=
  continue_or_return w (and_then o (fun s =>
    let '(p, became) := just_became_online (protocol s) in
    let s := set_protocol p s in
    if became then publish_current_state w (set_status StatusOnline s)
    else if is_online (protocol s) then (set_status StatusOnline s, Ok tt)
    else (s, Ok tt))).

(** [ConnAck] with success: a fresh state is requested and Discovery sent. *)
Definition on_connected (w : Slots) (s : MqttSupervisor) : Slots * MqttSupervisor * Flow :=
  let s := set_retry (reset (backoff s)) (jitter s) s in
  let s := set_states_seen (mark (states w)) s in
  let '(slot, next_request_id) := request_collection (collection_requests w) in
  let w := {| states := states w; collection_requests := slot |} in
  let s := set_status Bootstrapping s in
  let '(p, action) := connected (protocol s) next_request_id in
  continue_or_return w (perform (set_protocol p s) action None).

(** The retry after a connection error; the delay is the one waited for. *)
Definition on_error (w : Slots) (s : MqttSupervisor) (wait : Wait) : Slots * MqttSupervisor * Flow :=
  let s := set_protocol (connection_lost (protocol s)) s in
  let s := set_status StatusDisconnected s in
  let '(j, unit) := next_unit (jitter s) in
  let '(b, delay) := next_delay (backoff s) unit in
  let s := set_retry b j s in
  match wait with
  | Interrupted c =>
    if stops c then (w, set_status StatusStopped s, Return (Ok tt)) else finish_iteration w (s, Ok tt)
  | Slept => finish_iteration w (s, Ok tt)
  end.

(** The body of the loop of [run].  [shutdown_now] is the shutdown flag at its
    top, [branch] the completed branch, [polls] what the event loop delivers if
    a shutdown starts. *)
Definition iterate (shutdown_now : bool) (branch : Branch) (polls : list Poll)
    (w : Slots) (s : MqttSupervisor) : Slots * MqttSupervisor * Flow :=
  if shutdown_now then return_outcome w (graceful_shutdown polls s)
  else match branch with
       | ShutdownChanged c =>
         if stops c then return_outcome w (graceful_shutdown polls s) else finish_iteration w (s, Ok tt)
       | Polled (Ok (IncomingConnAck Success)) _ => on_connected w s
       | Polled (Ok event) _ => finish_iteration w (handle_event s event)
       | Polled (Err _) wait => on_error w s wait
       | StatesChanged sender_alive =>
         finish_iteration w (if sender_alive then publish_current_state w s else (s, Ok tt))
       end.
End supervisor.

(** ** Refinement of the machine *)

Section refinement.
Context `{WL : WatchLaws}.
Variable accepts : nat -> bool.
Implicit Types (s : MqttSupervisor) (w : Slots).

(** The request for an action while the state slot holds [message]. *)
Definition request_with (s : MqttSupervisor) (message : option StateMessage) (a : ProtocolAction) : Request :=
  request_of s a (state_payload <$> message).

(** A method that performs the machine operations [ops]: the protocol state is
    the machine's and the requests are those of its actions, all of them or,
    when the queue refused one, all before it. *)
Definition sim (message : option StateMessage) (s : MqttSupervisor) (ops : list Op) (o : Outcome) : Prop :=
  protocol o.1 = (run_ops (protocol s) ops).1
  /\ settings o.1 = settings s /\ discovery_payload o.1 = discovery_payload s
  /\ match o.2 with
     | Ok _ => requests o.1 = requests s ++ (request_with s message <$> actions (run_ops (protocol s) ops).2)
     | Err _ => exists issued a, actions (run_ops (protocol s) ops).2 = issued ++ [a]
         /\ requests o.1 = requests s ++ (request_with s message <$> issued)
         /\ accepts (length (requests o.1)) = false
     end.

Lemma run_ops_1 m op : run_ops m [op] = ((apply_op m op).1, [(op, (apply_op m op).2)]).
Proof. cbn. by destruct (apply_op m op). Qed.

Lemma actions_1 op a : actions [(op, a)] = option_list a.
Proof. by destruct a. Qed.

Lemma actions_app tr1 tr2 : actions (tr1 ++ tr2) = actions tr1 ++ actions tr2.
Proof. apply omap_app. Qed.

Lemma request_with_same s s' message a :
  settings s' = settings s -> discovery_payload s' = discovery_payload s ->
  request_with s' message a = request_with s message a.
Proof. intros E1 E2. unfold request_with, request_of. by rewrite E1, E2. Qed.

Lemma sim_refl message s s' :
  protocol s' = protocol s -> settings s' = settings s -> discovery_payload s' = discovery_payload s ->
  requests s' = requests s -> sim message s [] (s', Ok tt).
Proof. intros Hp Hs Hd Hr. unfold sim. cbn. by rewrite Hp, Hs, Hd, Hr, app_nil_r. Qed.

Lemma sim_then message s ops1 o ops2 k :
  sim message s ops1 o -> (forall s', o.1 = s' -> is_ok o.2 = true -> sim message s' ops2 (k s')) ->
  exists ops, (ops = ops1 \/ ops = ops1 ++ ops2) /\ sim message s ops (and_then o k).
Proof.
  intros H1 Hk. destruct o as [s1 [[]|e]]; cbn [and_then]; [|exists ops1; split; [by left|done]].
  exists (ops1 ++ ops2). split; [by right|]. specialize (Hk s1 eq_refl eq_refl).
  destruct H1 as (Hp & Hs & Hd & Hr), Hk as (Hp' & Hs' & Hd' & Hr'). cbn [fst snd] in *.
  unfold sim. rewrite run_ops_app. destruct (run_ops (protocol s) ops1) as [m1 tr1]. cbn [fst snd] in *.
  rewrite Hp in *. destruct (run_ops m1 ops2) as [m2 tr2]. cbn [fst snd] in *.
  assert (forall l, request_with s1 message <$> l = request_with s message <$> l) as Hsame
    by (intros l; apply list_fmap_ext; intros; by apply request_with_same).
  split_and!; [done|congruence|congruence|].
  rewrite actions_app. destruct (k s1) as [s2 [[]|e]]; cbn [fst snd] in *.
  - by rewrite Hr', Hr, fmap_app, app_assoc, Hsame.
  - destruct Hr' as (issued & a & Ha & Hrq & Hacc). exists (actions tr1 ++ issued), a.
    split_and!; [by rewrite Ha, app_assoc| |done].
    by rewrite Hrq, Hr, fmap_app, app_assoc, Hsame.
Qed.

(** An operation followed by the request for its action. *)
Lemma sim_perform message s op p action payload :
  apply_op (protocol s) op = (p, action) ->
  (forall a, action = Some a -> request_of s a payload = request_with s message a) ->
  sim message s [op] (match action with
                      | Some a => perform accepts (set_protocol p s) a payload
                      | None => (set_protocol p s, Ok tt)
                      end).
Proof.
  intros Hop Hreq. unfold sim. rewrite run_ops_1, Hop. cbn [fst snd]. rewrite actions_1.
  destruct action as [a|]; cbn [fst snd option_list fmap list_fmap]; [|by rewrite app_nil_r].
  unfold perform. cbn [requests set_protocol]. destruct (accepts (length (requests s))) eqn:E; cbn [fst snd].
  - split_and!; [done..|]. cbn [requests push_request set_protocol]. f_equal.
    exact (f_equal (fun r => [r]) (Hreq a eq_refl)).
  - split_and!; [done..|]. exists [], a. split_and!; [done|by rewrite app_nil_r|done].
Qed.

Lemma request_of_no_payload s message a :
  a <> PublishState -> request_of s a None = request_with s message a.
Proof. by destruct a. Qed.

(** Which operations an iteration may perform, a new connection apart. *)
Definition op_allowed (w : Slots) (op : Op) : Prop :=
  match op with
  | OpState id => exists msg, borrow (states w) = Some msg /\ request_id msg = id
  | OpConnected _ => False
  | _ => True
  end.

(** A new connection waits for the request it makes; nothing else requests. *)
Definition ops_allowed (w w' : Slots) (ops : list Op) : Prop :=
  (Forall (op_allowed w) ops /\ collection_requests w' = collection_requests w)
  \/ (ops = [OpConnected (request_collection (collection_requests w)).2]
      /\ collection_requests w' = (request_collection (collection_requests w)).1).

Definition event_op (event : Event) : list Op :=
  match event with
  | OutgoingPublish pkid => [OpOutgoing pkid]
  | IncomingPubAck pkid => [OpAcknowledged pkid]
  | OutgoingDisconnect => [OpDisconnected]
  | _ => []
  end.

Lemma sim_handle_event message s event : sim message s (event_op event) (handle_event accepts s event).
Proof.
  assert (Hidle : sim message s [] (set_protocol (protocol s) s, Ok tt)) by by apply sim_refl.
  unfold handle_event. destruct event; cbn [event_op]; try exact Hidle.
  - destruct (publish_acknowledged (protocol s) pkid) as [p a] eqn:E.
    apply (sim_perform message s (OpAcknowledged pkid) p a None); [done|].
    intros a' ->. apply request_of_no_payload. intros ->.
    unfold publish_acknowledged in E. repeat case_match; simplify_eq.
  - destruct (outgoing_publish (protocol s) pkid) as [p a] eqn:E.
    apply (sim_perform message s (OpOutgoing pkid) p a None); [done|].
    intros a' ->. by unfold outgoing_publish in E.
  - by apply (sim_perform message s OpDisconnected (disconnected (protocol s)).1 None None).
Qed.

Lemma sim_publish_current_state w s :
  exists ops, Forall (op_allowed w) ops
    /\ sim (borrow (states w)) s ops (publish_current_state accepts w s).
Proof.
  unfold publish_current_state. destruct (borrow (states w)) as [msg|] eqn:Em.
  2: { exists []. split; [constructor|]. by apply sim_refl. }
  exists [OpState (request_id msg)]. split; [by repeat constructor; exists msg|].
  cbn [protocol set_states_seen].
  destruct (state_available (protocol s) (request_id msg)) as [p a] eqn:E.
  pose proof (sim_perform (Some msg) (set_states_seen (mark (states w)) s) (OpState (request_id msg)) p a
                (Some (state_payload msg)) E) as Hs.
  apply Hs. intros a' ->. done.
Qed.

Lemma sim_finish w s ops o :
  Forall (op_allowed w) ops -> sim (borrow (states w)) s ops o ->
  exists ops', Forall (op_allowed w) ops'
    /\ sim (borrow (states w)) s ops' ((finish_iteration accepts w o).1.2,
         match (finish_iteration accepts w o).2 with Return r => r | Continue => Ok tt end)
    /\ (finish_iteration accepts w o).1.1 = w.
Proof.
  intros Hops Ho. unfold finish_iteration.
  set (k := fun s => let '(p, became) := just_became_online (protocol s) in _).
  assert (Hk : forall s', exists ops2, Forall (op_allowed w) ops2 /\ sim (borrow (states w)) s' ops2 (k s')).
  { intros s'. subst k. cbn beta. cbn [just_became_online].
    set (s1 := set_protocol _ s').
    assert (Hq : forall st, sim (borrow (states w)) s' [OpTakeOnline] (set_status st s1, Ok tt))
      by (intros st; unfold sim; cbn; by rewrite app_nil_r).
    destruct (became_online (protocol s')).
    - destruct (sim_publish_current_state w (set_status StatusOnline s1)) as (ops2 & Hall & Hs).
      destruct (sim_then _ s' [OpTakeOnline] (set_status StatusOnline s1, Ok tt) ops2
                  (publish_current_state accepts w) (Hq _)) as (ops3 & Hops3 & Hsim).
      { intros s2 <- _. exact Hs. }
      exists ops3. split; [|exact Hsim]. destruct Hops3 as [->| ->]; by repeat constructor.
    - exists [OpTakeOnline]. split; [by repeat constructor|].
      destruct (is_online (protocol s1)); [apply Hq|]. unfold sim. cbn. by rewrite app_nil_r. }
  destruct (Hk o.1) as (ops2 & Hall2 & Hs2).
  destruct (sim_then _ s ops o ops2 k Ho) as (ops3 & Hops3 & Hsim); [by intros s' <- _|].
  exists ops3. split_and!; [|..].
  - destruct Hops3 as [->| ->]; [done|]. by apply Forall_app.
  - cbn [continue_or_return fst snd]. by destruct (and_then o k) as [s' [[]|e]].
  - done.
Qed.

Lemma sim_shutdown_sequence message polls s :
  exists ops, (forall w, Forall (op_allowed w) ops)
    /\ sim message s ops (let '(s', r) := shutdown_sequence accepts polls s in (s', shutdown_sequence_result r)).
Proof.
  revert s. induction polls as [|[event|e] polls IH]; intros s; cbn [shutdown_sequence].
  - exists []. split; [constructor|]. by apply sim_refl.
  - pose proof (sim_handle_event message s event) as He.
    assert (forall w, Forall (op_allowed w) (event_op event)) as Hall
      by (intros w; destruct event; by repeat constructor).
    destruct (handle_event accepts s event) as [s1 [[]|e]] eqn:E.
    2: { exists (event_op event). split; [done|exact He]. }
    destruct (_ || _); [by exists (event_op event)|].
    destruct (IH s1) as (ops & Hops & Hs).
    destruct (sim_then message s (event_op event) (s1, Ok tt) ops
      (fun s1 => let '(s', r) := shutdown_sequence accepts polls s1 in (s', shutdown_sequence_result r)) He)
      as (ops' & Hops' & Hsim); [by intros s' <- _|].
    exists ops'. split; [|exact Hsim].
    intros w. destruct Hops' as [->| ->]; [done|]. by apply Forall_app.
  - exists []. split; [constructor|]. by apply sim_refl.
Qed.

(** Changes of the status are not visible to the machine. *)
Lemma sim_status message s ops st s' (r : result MqttError unit) :
  sim message (set_status st s) ops (s', r) -> sim message s ops (s', r).
Proof. done. Qed.

Lemma sim_status_after message s ops st s' (r : result MqttError unit) :
  sim message s ops (s', r) -> sim message s ops (set_status st s', r).
Proof. done. Qed.

Lemma sim_graceful_shutdown message polls s :
  exists ops, (forall w, Forall (op_allowed w) ops)
    /\ sim message s ops (graceful_shutdown accepts polls s).
Proof.
  unfold graceful_shutdown. cbn [protocol set_status].
  destruct (shutdown (protocol s)) as [p action] eqn:E.
  pose proof (sim_perform message s OpShutdown p action None E) as Hp.
  destruct action as [a|].
  2: { exists [OpShutdown]. split; [by repeat constructor|]. apply Hp. done. }
  specialize (Hp ltac:(intros a' [= ->]; apply request_of_no_payload; intros ->;
    unfold shutdown in E; repeat case_match; simplify_eq)). cbn beta iota in Hp.
  set (o := perform accepts (set_protocol p (set_status ShuttingDown s)) a None).
  assert (sim message s [OpShutdown] o) as Ho.
  { subst o. unfold perform in *. cbn [requests set_protocol set_status] in *. by destruct (accepts _). }
  destruct o as [s1 [[]|e]]; cbn [and_then]; [|exists [OpShutdown]; split; [by repeat constructor|done]].
  destruct (sim_shutdown_sequence message polls s1) as (ops & Hops & Hs).
  destruct (sim_then message s [OpShutdown] (s1, Ok tt) ops
    (fun s1 => let '(s', r) := shutdown_sequence accepts polls s1 in (s', shutdown_sequence_result r)) Ho)
    as (ops' & Hops' & Hsim); [by intros s' <- _|].
  exists ops'. split; [intros w; destruct Hops' as [->| ->]; [by repeat constructor|by constructor]|].
  cbn [and_then] in Hsim. destruct (shutdown_sequence accepts polls s1) as [s2 r].
  destruct (shutdown_sequence_result r) as [[]|e]; done.
Qed.

Definition flow_result (f : Flow) : result MqttError unit :=
  match f with Continue => Ok tt | Return r => r end.

(** What an iteration promises: the states are untouched, and its requests are
    the outputs of the operations it stands for. *)
Definition simulates (w : Slots) (s : MqttSupervisor) (r : Slots * MqttSupervisor * Flow) : Prop :=
  states r.1.1 = states w
  /\ exists ops, ops_allowed w r.1.1 ops /\ sim (borrow (states w)) s ops (r.1.2, flow_result r.2).

Lemma simulates_finish w s ops o :
  Forall (op_allowed w) ops -> sim (borrow (states w)) s ops o -> simulates w s (finish_iteration accepts w o).
Proof.
  intros Hops Ho. destruct (sim_finish w s ops o Hops Ho) as (ops' & Hops' & Hs & Hw).
  destruct (finish_iteration accepts w o) as [[w' s'] flow]. cbn [fst snd] in *. subst w'.
  split; [done|]. exists ops'. split; [by left|]. by destruct flow.
Qed.

Lemma simulates_idle w s : simulates w s (finish_iteration accepts w (s, Ok tt)).
Proof. apply (simulates_finish w s []); [constructor|by apply sim_refl]. Qed.

Lemma simulates_shutdown polls w s : simulates w s (return_outcome w (graceful_shutdown accepts polls s)).
Proof.
  destruct (sim_graceful_shutdown (borrow (states w)) polls s) as (ops & Hops & Hs).
  split; [done|]. exists ops. split; [by left|]. cbn [fst snd flow_result].
  by destruct (graceful_shutdown accepts polls s).
Qed.

Lemma simulates_connected w s : simulates w s (on_connected accepts w s).
Proof.
  unfold on_connected. unfold request_collection.
  destruct (connected _ _) as [p action] eqn:Ec. cbn [continue_or_return].
  pose proof (sim_perform (borrow (states w)) s
    (OpConnected (saturating_add (borrow (collection_requests w)) 1)) p (Some action) None) as Hp.
  cbn [apply_op] in Hp. cbn [set_status set_states_seen set_retry protocol] in Ec. rewrite Ec in Hp.
  specialize (Hp eq_refl). cbn beta iota in Hp.
  split; [done|].
  exists [OpConnected (saturating_add (borrow (collection_requests w)) 1)]. split; [by right|].
  assert (Ha : forall a', Some action = Some a' ->
    request_of s a' None = request_with s (borrow (states w)) a').
  { intros a' [= <-]. injection Ec as _ <-. done. }
  specialize (Hp Ha). unfold perform in *.
  cbn [requests set_protocol set_status set_states_seen set_retry fst snd] in *.
  by destruct (accepts (length (requests s))).
Qed.

Lemma simulates_error w s wait : simulates w s (on_error accepts w s wait).
Proof.
  unfold on_error. destruct (next_unit _) as [j unit]. destruct (next_delay _ _) as [b delay].
  assert (forall st b j, sim (borrow (states w)) s [OpLost]
    (set_retry b j (set_status st (set_protocol (connection_lost (protocol s)) s)), Ok tt)) as Hl.
  { intros. unfold sim. cbn. by rewrite app_nil_r. }
  assert (forall st b j, sim (borrow (states w)) s [OpLost]
    (set_status st (set_retry b j (set_status StatusDisconnected (set_protocol (connection_lost (protocol s)) s))), Ok tt)) as Hl2.
  { intros. unfold sim. cbn. by rewrite app_nil_r. }
  destruct wait as [|c].
  - apply (simulates_finish w s [OpLost]); [by repeat constructor|apply Hl].
  - destruct (stops c).
    + split; [done|]. exists [OpLost]. split; [left; by repeat constructor|]. apply Hl2.
    + apply (simulates_finish w s [OpLost]); [by repeat constructor|apply Hl].
Qed.

Lemma iterate_simulates now branch polls w s : simulates w s (iterate accepts now branch polls w s).
Proof.
  unfold iterate. destruct now; [apply simulates_shutdown|].
  destruct branch as [c|[event|e] wait|[]].
  - destruct (stops c); [apply simulates_shutdown|apply simulates_idle].
  - assert (simulates w s (finish_iteration accepts w (handle_event accepts s event))) as Hev.
    { apply (simulates_finish w s (event_op event)); [destruct event; by repeat constructor|apply sim_handle_event]. }
    destruct event as [[]| | | |]; try exact Hev. apply simulates_connected.
  - apply simulates_error.
  - destruct (sim_publish_current_state w s) as (ops & Hops & Hs). by apply (simulates_finish w s ops).
  - apply simulates_idle.
Qed.

Lemma iterate_sim now branch polls w s :
  let '(w', s', flow) := iterate accepts now branch polls w s in
  states w' = states w
  /\ exists ops, ops_allowed w w' ops /\ sim (borrow (states w)) s ops (s', flow_result flow).
Proof. pose proof (iterate_simulates now branch polls w s) as H. by destruct (iterate _ _ _ _ _ _) as [[w' s'] flow]. Qed.
End refinement.

(** ** Runs of the supervisor among the other tasks *)

Section runs.
Context `{WL : WatchLaws}.
Variable accepts : nat -> bool.

(** The channels, the supervisor and the states sent so far.  An iteration that
    returns without an error, at a shutdown, is a step like the others. *)
Record System := { slots : Slots; supervisor : MqttSupervisor; sent : list StateMessage }.

Inductive Label :=
  | Iterate (shutdown_now : bool) (branch : Branch) (polls : list Poll)
  | SendState (msg : StateMessage)
  | RequestCollection.

(** The state branch of the [select!] is guarded and waits for a change. *)
Definition enabled (branch : Branch) (sys : System) : Prop :=
  match branch with
  | StatesChanged true => accepts_state (protocol (supervisor sys)) = true
      /\ has_changed (states (slots sys)) (states_seen (supervisor sys)) = true
  | StatesChanged false => accepts_state (protocol (supervisor sys)) = true
  | _ => True
  end.

Inductive sys_step : System -> Label -> System -> Prop :=
  | step_iterate now branch polls w s sent w' s' flow :
      enabled branch (Build_System w s sent) ->
      iterate accepts now branch polls w s = (w', s', flow) -> flow_result flow = Ok tt ->
      sys_step (Build_System w s sent) (Iterate now branch polls) (Build_System w' s' sent)
  | step_send w s sent msg :
      sys_step (Build_System w s sent) (SendState msg)
        (Build_System {| states := send_replace (states w) (Some msg);
                         collection_requests := collection_requests w |} s (msg :: sent))
  | step_request w s sent :
      sys_step (Build_System w s sent) RequestCollection
        (Build_System {| states := states w;
                         collection_requests := (request_collection (collection_requests w)).1 |} s sent).

(** The start of the service: empty slots and a new supervisor. *)
Definition initial (settings : MqttSettings.t) (discovery : DiscoveryMessage) (j : Jitter) : System :=
  let states := watch_channel None in
  {| slots := {| states := states; collection_requests := watch_channel 0 |};
     supervisor := MqttSupervisor_new settings discovery states j; sent := [] |}.

(** A request and the machine's output it stands for. *)
Definition issued (s : MqttSupervisor) (sent : list StateMessage) (e : Op * option ProtocolAction) (r : Request) : Prop :=
  exists a message, e.2 = Some a /\ r = request_with s message a
    /\ (a = PublishState ->
        exists msg, message = Some msg /\ msg ∈ sent /\ e.1 = OpState (request_id msg)).

Definition outputs (tr : list (Op * option ProtocolAction)) : list (Op * option ProtocolAction) :=
  filter (fun e => is_Some e.2) tr.

Lemma outputs_actions tr : snd <$> outputs tr = Some <$> actions tr.
Proof.
  unfold outputs, actions. induction tr as [|[op [a|]] tr IH]; [done|..].
  - rewrite filter_cons_True by (cbn; eauto). cbn. by rewrite IH.
  - rewrite filter_cons_False by (cbn; intros [? ?]; done). cbn. by rewrite IH.
Qed.

Lemma run_ops_members m ops e :
  e ∈ (run_ops m ops).2 -> e.1 ∈ ops /\ (e.2 = Some PublishState -> exists id, e.1 = OpState id).
Proof.
  revert m. induction ops as [|op ops IH]; intros m He; [inversion He|].
  cbn [run_ops] in He. destruct (apply_op m op) as [m1 a] eqn:E.
  specialize (IH m1). destruct (run_ops m1 ops) as [m2 tr]. cbn [snd] in *.
  apply elem_of_cons in He as [->|He].
  - cbn. split; [by left|]. intros ->.
    destruct op; cbn in E; try (by unfold shutdown, publish_acknowledged in E; repeat case_match; simplify_eq);
      simplify_eq. by eexists.
  - destruct (IH He) as [? ?]. split; [by right|done].
Qed.

Lemma issued_iteration w w' s sent ops :
  (forall msg, borrow (states w) = Some msg -> msg ∈ sent) ->
  ops_allowed w w' ops ->
  Forall2 (issued s sent) (outputs (run_ops (protocol s) ops).2)
    (request_with s (borrow (states w)) <$> actions (run_ops (protocol s) ops).2).
Proof.
  intros Hsent Hops. apply Forall2_fmap_r.
  pose proof (outputs_actions (run_ops (protocol s) ops).2) as Ho.
  assert (Forall (fun e => e.1 ∈ ops /\ (e.2 = Some PublishState -> exists id, e.1 = OpState id))
            (outputs (run_ops (protocol s) ops).2)) as Hm.
  { apply Forall_forall. intros e He. apply list_elem_of_filter in He as [_ He]. by eapply run_ops_members. }
  revert Ho Hm. generalize (outputs (run_ops (protocol s) ops).2) as es, (actions (run_ops (protocol s) ops).2) as acts.
  intros es acts. revert acts. induction es as [|[op a] es IH]; intros [|a' acts] Ho Hm; [constructor|done|done|].
  cbn in Ho. injection Ho as -> Ho. apply Forall_cons in Hm as [[Hin Hst] Hm].
  constructor; [|by apply IH]. exists a', (borrow (states w)). split; [done|]. split; [done|].
  intros ->. destruct (Hst eq_refl) as [id Hop]. cbn in Hop. subst op.
  assert (op_allowed w (OpState id)) as (msg & Hmsg & <-).
  { destruct Hops as [[Hops _]|[-> _]]; [by eapply Forall_forall in Hops|].
    apply list_elem_of_singleton in Hin. discriminate Hin. }
  cbn in Hmsg |- *.
  exists msg. split_and!; [done|by apply Hsent|done].
Qed.

Lemma issued_mono s s' sent1 sent2 e r :
  settings s' = settings s -> discovery_payload s' = discovery_payload s -> sent1 ⊆ sent2 ->
  issued s sent1 e r -> issued s' sent2 e r.
Proof.
  intros Hs Hd Hsub (a & message & He & -> & Hmsg). exists a, message. split; [done|].
  split; [symmetry; by apply request_with_same|].
  intros Ha. destruct (Hmsg Ha) as (msg & ? & ? & ?). exists msg. split_and!; [done|by apply Hsub|done].
Qed.

(** The request slot counts up, and no connection waits for an id that was not
    requested. *)
Definition requested_op (w : Slots) (op : Op) : Prop :=
  forall r, op = OpConnected r -> 1 <= r <= borrow (collection_requests w).

Lemma request_collection_borrow (c : channel Z) :
  borrow (request_collection c).1 = saturating_add (borrow c) 1.
Proof. apply borrow_send. Qed.

Lemma ops_allowed_requested w w' ops :
  0 <= borrow (collection_requests w) <= u64_max -> ops_allowed w w' ops ->
  borrow (collection_requests w) <= borrow (collection_requests w') <= u64_max
  /\ Forall (requested_op w') ops.
Proof.
  intros Hb [[Hops ->]|[-> Hw]].
  - split; [lia|]. eapply Forall_impl; [exact Hops|]. by intros op Hop r ->.
  - assert (borrow (collection_requests w') = saturating_add (borrow (collection_requests w)) 1) as E
      by (rewrite Hw; apply request_collection_borrow).
    rewrite E. unfold saturating_add, u64_max in *. split; [lia|].
    constructor; [|constructor]. intros r [= <-]. rewrite E. unfold saturating_add, u64_max. cbn. lia.
Qed.

(** The invariant that ties the supervisor to a run of the machine, on the
    operations [ops]. *)
Definition refines_with (settings0 : MqttSettings.t) (payload0 : str) (sys : System) (ops : list Op) : Prop :=
  let s := supervisor sys in
  settings s = settings0 /\ discovery_payload s = payload0
  /\ (forall msg, borrow (states (slots sys)) = Some msg -> msg ∈ sent sys)
  /\ 0 <= borrow (collection_requests (slots sys)) <= u64_max
  /\ protocol s = (run_ops BootstrapMachine_default ops).1
  /\ Forall (requested_op (slots sys)) ops
  /\ Forall2 (issued s (sent sys)) (outputs (run_ops BootstrapMachine_default ops).2) (requests s).

(** The operations a step of the system adds. *)
Definition step_ops (w w' : Slots) (l : Label) (ops : list Op) : Prop :=
  match l with Iterate _ _ _ => ops_allowed w w' ops | _ => ops = [] end.

Lemma refines_step settings0 payload0 sys l sys' ops :
  refines_with settings0 payload0 sys ops -> sys_step sys l sys' ->
  exists ops', refines_with settings0 payload0 sys' (ops ++ ops') /\ step_ops (slots sys) (slots sys') l ops'.
Proof.
  intros (Hs & Hd & Hsent & Hb & Hp & Hreq & Hr) Hstep.
  destruct Hstep as [now branch polls w s sent0 w' s' flow _ Hit Hflow|w s sent0 msg|w s sent0];
    cbn [supervisor slots sent] in *.
  - pose proof (iterate_sim accepts now branch polls w s) as Hsim. rewrite Hit, Hflow in Hsim.
    destruct Hsim as (Hw & ops2 & Hall & Hp2 & Hs2 & Hd2 & Hr2). cbn [fst snd] in *.
    destruct (ops_allowed_requested w w' ops2 Hb Hall) as [Hb' Hreq2].
    exists ops2. split; [|exact Hall]. unfold refines_with. cbn [supervisor slots sent].
    split; [congruence|]. split; [congruence|]. split; [by rewrite Hw|]. split; [lia|].
    rewrite run_ops_app. destruct (run_ops BootstrapMachine_default ops) as [m1 tr1]. cbn [fst snd] in *.
    rewrite <-Hp. pose proof (issued_iteration w w' s sent0 ops2 Hsent Hall) as Hi.
    destruct (run_ops (protocol s) ops2) as [m2 tr2]. cbn [fst snd] in *.
    split; [done|]. split.
    { apply Forall_app. split; [|done]. eapply Forall_impl; [exact Hreq|]. intros op Hop r Er. specialize (Hop r Er). lia. }
    rewrite Hr2. unfold outputs. rewrite filter_app.
    eapply Forall2_impl; [by apply Forall2_app|]. intros e r. by apply issued_mono.
  - exists []. split; [|done]. rewrite app_nil_r. unfold refines_with.
    cbn [supervisor slots sent states collection_requests]. split; [done|]. split; [done|]. split.
    { intros m Hm. rewrite borrow_send in Hm. injection Hm as <-. by left. }
    split; [done|]. split; [done|]. split; [exact Hreq|].
    eapply Forall2_impl; [exact Hr|]. intros e r. apply issued_mono; [done..|].
    intros x Hx. by right.
  - exists []. split; [|done]. rewrite app_nil_r. unfold refines_with.
    cbn [supervisor slots sent states collection_requests].
    assert (borrow (request_collection (collection_requests w)).1 = saturating_add (borrow (collection_requests w)) 1)
      as E by apply request_collection_borrow.
    rewrite E. unfold saturating_add, u64_max in *. split; [done|]. split; [done|]. split; [done|]. split; [lia|].
    split; [done|]. split; [|done]. eapply Forall_impl; [exact Hreq|].
    intros op Hop r Er. specialize (Hop r Er). cbn [collection_requests]. rewrite E. unfold saturating_add, u64_max. lia.
Qed.

Lemma refines_initial config discovery j : refines_with config (payload discovery) (initial config discovery j) [].
Proof.
  split; [done|]. split; [done|]. split; [intros msg Hm; cbn in Hm; by rewrite borrow_channel in Hm|].
  split; [cbn; autorewrite with watch; unfold u64_max; lia|]. split; [done|]. split; constructor.
Qed.

(** The ids the machine was told to wait for, connection by connection. *)
Definition connected_id (op : Op) : option Z := match op with OpConnected id => Some id | _ => None end.

Lemma request_collection_id (c : channel Z) : (request_collection c).2 = borrow (request_collection c).1.
Proof. symmetry. apply (request_collection_borrow c). Qed.

Lemma request_collection_new (c : channel Z) : (request_collection c).1 <> c.
Proof.
  intros Heq. pose proof (changed_mark c) as Hm. pose proof (changed_send c (saturating_add (borrow c) 1)) as Hc.
  change (send_replace c (saturating_add (borrow c) 1)) with (request_collection c).1 in Hc. congruence.
Qed.

Lemma ops_allowed_connected (requests : bool) w w' ops :
  ops_allowed w w' ops ->
  collection_requests w' = (if requests then (request_collection (collection_requests w)).1 else collection_requests w) ->
  omap connected_id ops = if requests then [borrow (collection_requests w')] else [].
Proof.
  intros [[Hops Hw]|[-> Hw]] Hslot.
  - destruct requests; [by destruct (request_collection_new (collection_requests w)); congruence|].
    clear Hw Hslot. induction Hops as [|op ops Hop _ IH]; [done|]. by destruct op.
  - destruct requests; [|by destruct (request_collection_new (collection_requests w)); congruence].
    rewrite Hw, <-request_collection_id. done.
Qed.

(** C7: in every run of the supervisor among the other tasks, a graceful
    shutdown at its end included, the requests handed to the MQTT client are, one for one, the outputs of the
    bootstrap machine on some sequence of operations; a state request carries
    the payload of a message sent to the state slot, and the operation carries
    that message's request id. *)
Theorem supervisor_refines_machine (config : MqttSettings.t) (discovery : DiscoveryMessage) (j : Jitter)
    (ls : list Label) (sys : System) :
  run sys_step (initial config discovery j) ls sys ->
  exists ops, protocol (supervisor sys) = (run_ops BootstrapMachine_default ops).1
    /\ Forall2 (issued (supervisor sys) (sent sys))
         (outputs (run_ops BootstrapMachine_default ops).2) (requests (supervisor sys)).
Proof.
  intros Hrun.
  assert (exists ops, refines_with config (payload discovery) sys ops) as (ops & _ & _ & _ & _ & Hp & _ & Hr).
  { eapply (run_invariant sys_step (fun sys => exists ops, refines_with config (payload discovery) sys ops));
      [|eexists; apply refines_initial|exact Hrun].
    intros s l s' [ops Hi] Hs. destruct (refines_step _ _ _ _ _ _ Hi Hs) as (ops' & Hi' & _). by eexists. }
  by exists ops.
Qed.

(** The loop returns only when a shutdown was requested or the shutdown
    channel is gone, or when the client's queue refused a request; no event or
    error of the network ends it. *)
Theorem supervisor_returns_only_on_shutdown now branch polls (w : Slots) (s : MqttSupervisor) :
  match iterate accepts now branch polls w s with
  | (_, _, Continue) => True
  | (_, s', Return (Err _)) => accepts (length (requests s')) = false
  | (_, s', Return (Ok _)) => status s' = StatusStopped /\
      (now = true \/ match branch with
                     | ShutdownChanged c => stops c = true
                     | Polled (Err _) (Interrupted c) => stops c = true
                     | _ => False
                     end)
  end.
Proof.
  pose proof (iterate_sim accepts now branch polls w s) as Hsim.
  destruct (iterate accepts now branch polls w s) as [[w' s'] [|[[]|e]]] eqn:E; [done| |].
  2: { destruct Hsim as (_ & ops & _ & _ & _ & _ & issued0 & a & _ & _ & Hacc). exact Hacc. }
  clear Hsim. unfold iterate in E.
  assert (Hgs : forall o, return_outcome w (graceful_shutdown accepts polls s) = (w', s', Return (Ok o)) ->
    status s' = StatusStopped).
  { intros o Ho. unfold return_outcome, graceful_shutdown in Ho.
    destruct (shutdown _) as [p [a|]]; [|by injection Ho as <- <-].
    destruct (perform _ _ _ _) as [s1 [[]|e]]; cbn [and_then] in Ho; [|by injection Ho].
    destruct (shutdown_sequence accepts polls s1) as [s2 r].
    destruct (shutdown_sequence_result r) as [[]|e]; [by injection Ho as <- <-|by injection Ho]. }
  assert (Hfin : forall o, finish_iteration accepts w o <> (w', s', Return (Ok tt))).
  { intros o Ho. unfold finish_iteration, continue_or_return in Ho.
    destruct (and_then _ _) as [s1 [[]|e]]; by injection Ho. }
  destruct now; [split; [by eapply Hgs|by left]|].
  destruct branch as [c|[event|e] wait|[]]; try (by apply Hfin in E).
  - destruct (stops c) eqn:Ec; [split; [by eapply Hgs|by right]|by apply Hfin in E].
  - exfalso. destruct event as [[]| | | |]; try (by apply Hfin in E).
    unfold on_connected in E. destruct (request_collection _), (connected _ _).
    unfold continue_or_return, perform in E. by destruct (accepts _).
  - unfold on_error in E. destruct (next_unit _), (next_delay _ _).
    destruct wait as [|c]; [by apply Hfin in E|].
    destruct (stops c) eqn:Ec; [|by apply Hfin in E]. injection E as <- <-. split; [done|by right].
Qed.

(** A connection error issues no request and, unless the wait is
    interrupted by a shutdown, the loop goes on from the disconnected phase
    with the next delay of the retry sequence and valid jitter. *)
Theorem connection_error_is_retried error wait polls (w : Slots) (s : MqttSupervisor) :
  valid_jitter (jitter s) -> 0 <= attempt (backoff s) ->
  match wait with Interrupted c => stops c = false | Slept => True end ->
  exists s', iterate accepts false (Polled (Err error) wait) polls w s = (w, s', Continue)
    /\ phase (protocol s') = Disconnected /\ status s' = StatusDisconnected
    /\ requests s' = requests s /\ states_seen s' = states_seen s
    /\ valid_jitter (jitter s') /\ attempt (backoff s') = saturating_add (attempt (backoff s)) 1
    /\ exists base d, RETRY_SECONDS !! Nat.min (Z.to_nat (attempt (backoff s))) 6 = Some base
         /\ (next_delay (backoff s) (next_unit (jitter s)).2).2 = Some d
         /\ from_millis (800 * base) <= d <= from_millis (1200 * base).
Proof.
  intros Hj Hb Hwait. unfold iterate, on_error.
  pose proof (next_unit_valid _ Hj) as Hj'. pose proof (next_unit_range _ Hj) as [Hu _].
  cbn [jitter backoff set_status set_protocol].
  destruct (next_unit (jitter s)) as [j unit] eqn:Eu. cbn [fst snd] in *.
  destruct (next_delay_range (backoff s) unit Hb (nnf_valid_f64 _ Hu)) as (base & d & Hbase & Hd & Hr & Ha).
  destruct (next_delay (backoff s) unit) as [b delay] eqn:Ed. cbn [fst snd] in *.
  assert (match wait with
          | Interrupted c => if stops c then false else true
          | Slept => true
          end = true) as Hw by (destruct wait as [|c]; [done|by rewrite Hwait]).
  destruct wait as [|c]; [|destruct (stops c); [done|]]; eexists; (split; [reflexivity|]);
    cbn; split_and!; try done; exists base, d; done.
Qed.

(** A request takes the next id, the slot holds exactly that id and
    every receiver that had seen the slot before notices it; a second request
    before anyone looks replaces the first. *)
Theorem request_collection_latest (sender : channel Z) :
  0 <= borrow sender < u64_max ->
  let '(sender1, id1) := request_collection sender in
  let '(sender2, id2) := request_collection sender1 in
  id1 = borrow sender + 1 /\ borrow sender1 = id1 /\ has_changed sender1 (mark sender) = true
  /\ id1 <= id2 /\ (id1 < u64_max -> id1 < id2) /\ id2 <= u64_max
  /\ borrow sender2 = id2 /\ has_changed sender2 (mark sender) = true
  /\ has_changed sender2 (mark sender2) = false.
Proof.
  intros Hb. unfold request_collection, send_modify, saturating_add. rewrite !borrow_send.
  split_and!; try done; try lia; try apply changed_send; try apply changed_mark.
  apply changed_stays, changed_send.
Qed.
End runs.

(** ** Complete exchanges *)

Section exchanges.
Context `{WL : WatchLaws}.

(** The queue takes every request. *)
Definition always (n : nat) : bool := true.

Definition deliver (w : Slots) (s : MqttSupervisor) (e : Event) : Slots * MqttSupervisor * Flow :=
  iterate always false (Polled (Ok e) Slept) [] w s.

(** What an iteration leaves alone or extends. *)
Definition extends (s s' : MqttSupervisor) (m : BootstrapMachine) (rs : list Request) : Prop :=
  protocol s' = m /\ requests s' = requests s ++ rs /\ settings s' = settings s
  /\ discovery_payload s' = discovery_payload s.

Lemma take_online_idle m : became_online m = false -> (just_became_online m).1 = m.
Proof. destruct m. cbn. by intros ->. Qed.

Lemma handle_event_extends s e op m a :
  event_op e = [op] -> apply_op (protocol s) op = (m, a) ->
  exists s1, handle_event always s e = (s1, Ok tt)
    /\ extends s s1 m ((fun a => request_of s a None) <$> option_list a) /\ states_seen s1 = states_seen s.
Proof.
  intros Hop Ha. unfold handle_event.
  destruct e as [[]|pkid|pkid| |]; try discriminate Hop; injection Hop as <-; cbn [apply_op] in Ha; rewrite Ha;
    (destruct a as [a|]; eexists; (split; [reflexivity|]); (split; [|reflexivity]);
     split_and!; try done; cbn; by rewrite app_nil_r).
Qed.

Lemma deliver_extends w s e op m a :
  event_op e = [op] -> apply_op (protocol s) op = (m, a) -> became_online m = false ->
  exists s', deliver w s e = (w, s', Continue)
    /\ extends s s' m ((fun a => request_of s a None) <$> option_list a) /\ states_seen s' = states_seen s.
Proof.
  intros Hop Ha Hm. destruct (handle_event_extends s e op m a Hop Ha) as (s1 & Hs1 & He & Hseen).
  assert (deliver w s e = finish_iteration always w (s1, Ok tt)) as ->
    by (unfold deliver, iterate; rewrite Hs1; by destruct e).
  unfold finish_iteration. cbn [and_then]. destruct He as (Hp & Hr & Hset & Hd). rewrite Hp.
  rewrite (surjective_pairing (just_became_online m)), (take_online_idle m Hm). cbn [just_became_online snd].
  rewrite Hm. cbn [protocol set_protocol].
  destruct (is_online m); eexists; (split; [reflexivity|]); by (split; [|done]).
Qed.

(** The connection and the two acknowledged publications that follow it. *)
Lemma bootstrap_deliveries (w : Slots) (s : MqttSupervisor) (p q : Z) :
  p <> 0 -> q <> 0 -> 0 <= borrow (collection_requests w) < u64_max ->
  exists w1 s1 s2 s3 s4 s5,
    deliver w s (IncomingConnAck Success) = (w1, s1, Continue)
    /\ borrow (collection_requests w1) = borrow (collection_requests w) + 1
    /\ status s1 = Bootstrapping
    /\ deliver w1 s1 (OutgoingPublish p) = (w1, s2, Continue)
    /\ deliver w1 s2 (IncomingPubAck p) = (w1, s3, Continue)
    /\ deliver w1 s3 (OutgoingPublish q) = (w1, s4, Continue)
    /\ deliver w1 s4 (IncomingPubAck q) = (w1, s5, Continue)
    /\ states_seen s5 = mark (states w1)
    /\ phase (protocol s5) = AwaitFreshState
    /\ required_request (protocol s5) = borrow (collection_requests w) + 1
    /\ settings s5 = settings s
    /\ requests s5 = requests s ++
         [Publish (MqttSettings.discovery_topic (settings s)) AtLeastOnce true (discovery_payload s);
          Publish (MqttSettings.availability_topic (settings s)) AtLeastOnce true (lit "online")].
Proof.
  intros Hp Hq Hb. apply Z.eqb_neq in Hp, Hq.
  assert (saturating_add (borrow (collection_requests w)) 1 = borrow (collection_requests w) + 1) as <-
    by (unfold saturating_add; lia).
  set (r := saturating_add (borrow (collection_requests w)) 1) in *.
  destruct (deliver w s (IncomingConnAck Success)) as [[w1 s1] f1] eqn:E1.
  assert (f1 = Continue /\ states_seen s1 = mark (states w1) /\ status s1 = Bootstrapping
    /\ borrow (collection_requests w1) = r
    /\ extends s s1 (connected (protocol s) r).1 [request_of s PublishDiscovery None])
    as (-> & Hseen1 & Hst1 & Hreq1 & (Hp1 & Hr1 & Hs1 & Hd1)).
  { unfold deliver, iterate, on_connected in E1. cbn in E1. injection E1 as <- <- <-.
    unfold send_modify. cbn. by autorewrite with watch. }
  destruct (deliver_extends w1 s1 (OutgoingPublish p) (OpOutgoing p)
    (set_phase (DiscoveryAwaitAck p) (protocol s1)) None) as (s2 & E2 & (Hp2 & Hr2 & Hs2 & Hd2) & Hseen2);
    [done|rewrite Hp1; unfold apply_op, outgoing_publish; cbn; by rewrite Hp|by rewrite Hp1|].
  destruct (deliver_extends w1 s2 (IncomingPubAck p) (OpAcknowledged p)
    (set_phase OnlineQueued (protocol s2)) (Some PublishOnline)) as (s3 & E3 & (Hp3 & Hr3 & Hs3 & Hd3) & Hseen3);
    [done|rewrite Hp2; unfold apply_op, publish_acknowledged; cbn; by rewrite Z.eqb_refl|by rewrite Hp2, Hp1|].
  destruct (deliver_extends w1 s3 (OutgoingPublish q) (OpOutgoing q)
    (set_phase (OnlineAwaitAck q) (protocol s3)) None) as (s4 & E4 & (Hp4 & Hr4 & Hs4 & Hd4) & Hseen4);
    [done|rewrite Hp3; unfold apply_op, outgoing_publish; cbn; by rewrite Hq|by rewrite Hp3, Hp2, Hp1|].
  destruct (deliver_extends w1 s4 (IncomingPubAck q) (OpAcknowledged q)
    (set_phase AwaitFreshState (protocol s4)) None) as (s5 & E5 & (Hp5 & Hr5 & Hs5 & Hd5) & Hseen5);
    [done|rewrite Hp4; unfold apply_op, publish_acknowledged; cbn; by rewrite Z.eqb_refl|by rewrite Hp4, Hp3, Hp2, Hp1|].
  exists w1, s1, s2, s3, s4, s5. do 7 (split; [done|]).
  split; [by rewrite Hseen5, Hseen4, Hseen3, Hseen2|]. split; [by rewrite Hp5|].
  split; [by rewrite Hp5, Hp4, Hp3, Hp2, Hp1|]. split; [by rewrite Hs5, Hs4, Hs3, Hs2|].
  rewrite Hr5, Hr4, Hr3, Hr2, Hr1. unfold request_of. rewrite Hs2, Hs1. cbn [option_list fmap list_fmap].
  rewrite !app_nil_r. by rewrite <-!app_assoc.
Qed.

(** The first fresh state of a session. *)
Lemma fresh_state_online (w : Slots) (s : MqttSupervisor) (msg : StateMessage) :
  phase (protocol s) = AwaitFreshState -> borrow (states w) = Some msg ->
  required_request (protocol s) = request_id msg ->
  exists s6 s7, iterate always false (StatesChanged true) [] w s = (w, s6, Continue)
    /\ deliver w s6 (OutgoingPublish 0) = (w, s7, Continue) /\ status s7 = StatusOnline
    /\ requests s7 = requests s ++ [request_of s PublishState (Some (state_payload msg))].
Proof.
  intros Hph Hmsg Hrq.
  set (m6 := {| phase := StateQueued; required_request := request_id msg; last_state_request := request_id msg;
                bootstrap_state_queued := true; became_online := false |}).
  assert (exists s6, iterate always false (StatesChanged true) [] w s = (w, s6, Continue)
    /\ extends s s6 m6 [request_of s PublishState (Some (state_payload msg))]) as (s6 & E6 & Hp6 & Hr6 & Hs6 & Hd6).
  { unfold iterate, finish_iteration, publish_current_state, state_available.
    rewrite Hmsg. cbn [protocol set_states_seen]. rewrite Hph, Hrq, Z.leb_refl.
    eexists. split; [reflexivity|]. by split_and!. }
  assert (exists s7, deliver w s6 (OutgoingPublish 0) = (w, s7, Continue)
    /\ status s7 = StatusOnline /\ requests s7 = requests s6) as (s7 & E7 & Hst7 & Hr7).
  { unfold deliver, iterate, handle_event. rewrite Hp6. cbn [outgoing_publish phase m6 Z.eqb].
    unfold finish_iteration. cbn [and_then protocol set_protocol just_became_online became_online bootstrap_state_queued m6].
    unfold publish_current_state. rewrite Hmsg. cbn [protocol set_states_seen set_status set_protocol].
    unfold state_available. cbn [phase last_state_request m6]. rewrite Z.ltb_irrefl.
    eexists. split; [reflexivity|]. done. }
  exists s6, s7. split_and!; try done. by rewrite Hr7.
Qed.

(** C10: with a broker that acknowledges, a new connection publishes
    Discovery and the online message, both retained and acknowledged, then
    the state that answers its own request, not retained, and reports online;
    the request it makes is one more than the last. *)
Theorem supervisor_goes_online (w : Slots) (s : MqttSupervisor) (p q : Z) (msg : StateMessage) :
  p <> 0 -> q <> 0 -> 0 <= borrow (collection_requests w) < u64_max ->
  request_id msg = borrow (collection_requests w) + 1 ->
  exists w1 s1 s2 s3 s4 s5 s6 s7,
    deliver w s (IncomingConnAck Success) = (w1, s1, Continue)
    /\ borrow (collection_requests w1) = borrow (collection_requests w) + 1
    /\ status s1 = Bootstrapping
    /\ deliver w1 s1 (OutgoingPublish p) = (w1, s2, Continue)
    /\ deliver w1 s2 (IncomingPubAck p) = (w1, s3, Continue)
    /\ deliver w1 s3 (OutgoingPublish q) = (w1, s4, Continue)
    /\ deliver w1 s4 (IncomingPubAck q) = (w1, s5, Continue)
    /\ let w2 := {| states := send_replace (states w1) (Some msg); collection_requests := collection_requests w1 |} in
       has_changed (states w2) (states_seen s5) = true /\ accepts_state (protocol s5) = true
       /\ iterate always false (StatesChanged true) [] w2 s5 = (w2, s6, Continue)
       /\ deliver w2 s6 (OutgoingPublish 0) = (w2, s7, Continue)
       /\ status s7 = StatusOnline
       /\ requests s7 = requests s ++
            [Publish (MqttSettings.discovery_topic (settings s)) AtLeastOnce true (discovery_payload s);
             Publish (MqttSettings.availability_topic (settings s)) AtLeastOnce true (lit "online");
             Publish (MqttSettings.state_topic (settings s)) AtMostOnce false (state_payload msg)].
Proof.
  intros Hp Hq Hb Hid.
  destruct (bootstrap_deliveries w s p q Hp Hq Hb)
    as (w1 & s1 & s2 & s3 & s4 & s5 & E1 & Hw1 & Hst & E2 & E3 & E4 & E5 & Hseen & Hph & Hrq & Hset & Hr).
  set (w2 := {| states := send_replace (states w1) (Some msg); collection_requests := collection_requests w1 |}).
  destruct (fresh_state_online w2 s5 msg) as (s6 & s7 & E6 & E7 & Hon & Hr7);
    [done|apply borrow_send|congruence|].
  exists w1, s1, s2, s3, s4, s5, s6, s7. do 7 (split; [done|]). cbv zeta. fold w2.
  split; [unfold w2; cbn [states]; rewrite Hseen; apply changed_send|].
  split; [unfold accepts_state; by rewrite Hph|]. do 3 (split; [done|]).
  rewrite Hr7, Hr, <-app_assoc. unfold request_of. by rewrite Hset.
Qed.







End exchanges.

(** ** Witnesses *)

Definition example_settings : MqttSettings.t :=
  MqttSettings.new (Config.mqtt (config_of example_raw)) (lit "pi_one").
Definition example_discovery : DiscoveryMessage :=
  {| topic := MqttSettings.discovery_topic example_settings; payload := lit "{}" |}.
Definition example_start : System := initial example_settings example_discovery (Jitter_new 1 2).

Lemma supervisor_refines_machine_witness :
  exists sys, run (sys_step always) example_start
      [RequestCollection; Iterate false (Polled (Ok (IncomingConnAck Success)) Slept) []] sys
    /\ borrow (collection_requests (slots sys)) = 2
    /\ exists ops, protocol (supervisor sys) = (run_ops BootstrapMachine_default ops).1.
Proof.
  assert (exists sys, run (sys_step always) example_start
      [RequestCollection; Iterate false (Polled (Ok (IncomingConnAck Success)) Slept) []] sys
    /\ borrow (collection_requests (slots sys)) = 2) as (sys & Hrun & Hid).
  { eexists. split; [|].
    - eapply run_cons; [apply step_request|].
      eapply run_cons; [eapply step_iterate; [exact I|reflexivity|reflexivity]|]. apply run_nil.
    - reflexivity. }
  exists sys. split; [done|]. split; [done|].
  destruct (supervisor_refines_machine always _ _ _ _ _ Hrun) as (ops & Hp & _). by exists ops.
Defined.

Lemma connection_error_is_retried_witness :
  exists s', iterate always false (Polled (Err (ConnectionRefused NotAuthorized)) Slept) []
      (slots example_start) (supervisor example_start) = (slots example_start, s', Continue)
    /\ status s' = StatusDisconnected /\ attempt (backoff s') = 1.
Proof.
  assert (valid_jitter (jitter (supervisor example_start))) as Hj
    by (apply Jitter_new_valid; unfold u32_max; lia).
  destruct (connection_error_is_retried always (ConnectionRefused NotAuthorized) Slept []
    (slots example_start) (supervisor example_start) Hj ltac:(cbn; lia) I) as (s' & E & _ & Hst & _ & _ & _ & Ha & _).
  exists s'. split; [exact E|]. split; [exact Hst|]. rewrite Ha. reflexivity.
Defined.

Lemma request_collection_latest_witness :
  (request_collection (watch_channel 41)).2 = 42
  /\ has_changed (request_collection (watch_channel 41)).1 (mark (watch_channel 41)) = true.
Proof.
  destruct (request_collection_latest (watch_channel 41)) as (H1 & _ & H3 & _); [cbn; unfold u64_max; lia|].
  split; [exact H1|exact H3].
Defined.

Lemma supervisor_goes_online_witness :
  exists s7, status s7 = StatusOnline
    /\ requests s7 =
         [Publish (lit "homeassistant/device/pi_one/config") AtLeastOnce true (lit "{}");
          Publish (lit "rpi/pi_one/availability") AtLeastOnce true (lit "online");
          Publish (lit "rpi/pi_one/state") AtMostOnce false (lit "{1}")].
Proof.
  destruct (supervisor_goes_online (slots example_start) (supervisor example_start) 1 2
    {| request_id := 1; state_payload := lit "{1}" |} ltac:(lia) ltac:(lia) ltac:(cbn; unfold u64_max; lia) eq_refl)
    as (w1 & s1 & s2 & s3 & s4 & s5 & s6 & s7 & _ & _ & _ & _ & _ & _ & _ & _ & _ & _ & _ & Hst & Hr).
  exists s7. split; [exact Hst|]. rewrite Hr. reflexivity.
Defined.

