(* ===== verification/Collector.v ===== *)
(** * The collector ([src/src/collector.rs])

    One collection cycle over injected sources: the CPU sample kept between
    cycles, the reading of every source with its error entry, the resolution of
    the firmware command, the detection of the device metadata, and the
    execution of firmware commands under a deadline.  The traits of the source
    ([SystemSource], [CommandRunner], [Clock]) are type classes over a type of
    worlds, so that every reading may change what later readings see. *)

From S2P Require Import Prelude RustStr RustFloat RustFloatFacts Model Config MetricsError MetricsCpu MetricsMemory MetricsDisk MetricsMetadata MetricsPower MetricsTemperature MetricsUptime.

Local Open Scope Z_scope.

Definition PROC_CPUINFO : PathBuf := lit "/proc/cpuinfo".
Definition DEVICE_TREE_MODEL : PathBuf := lit "/proc/device-tree/model".
Definition KERNEL_RELEASE : PathBuf := lit "/proc/sys/kernel/osrelease".
Definition HOSTNAME : PathBuf := lit "/etc/hostname".
Definition THERMAL_ZONE : PathBuf := lit "/sys/class/thermal/thermal_zone0/temp".
Definition FREQUENCY_PATHS : list PathBuf :=
  [lit "/sys/devices/system/cpu/cpu0/cpufreq/scaling_cur_freq";
   lit "/sys/devices/system/cpu/cpu0/cpufreq/cpuinfo_cur_freq"].
Definition STANDARD_VCGENCMD_PATHS : list PathBuf := [lit "/usr/bin/vcgencmd"; lit "/opt/vc/bin/vcgencmd"].
Definition CPU_WARMUP : Duration := from_secs 1.
Definition COMMAND_POLL_INTERVAL : Duration := from_millis 10.
Definition MAX_COMMAND_OUTPUT_BYTES : Z := 4096.

(** ** Interfaces *)

(** [io::ErrorKind], as far as the program tells kinds apart. *)
Inductive ErrorKind := NotFound | OtherKind.

#[export] Instance ErrorKind_eq_dec : EqDecision ErrorKind.
Proof. solve_decision. Defined.

Inductive CommandFailure :=
  | Spawn | WaitFailed | TimedOut | NonZeroExit | OutputRead | OutputTooLarge | OutputEncoding.

Class SystemSource (W : Type) := {
  read_text : PathBuf -> W -> result ErrorKind str * W;
  read_bytes : PathBuf -> W -> result ErrorKind (list Z) * W;
  is_file : PathBuf -> W -> bool * W;
  statvfs : PathBuf -> W -> result ErrorKind StatvfsValues * W;
}.

Class CommandRunner (W : Type) := {
  run_command : PathBuf -> list str -> Duration -> W -> result CommandFailure str * W;
}.

Class Clock (W : Type) `{TimeLib} := {
  now_utc : W -> ObservationTime * W;
  monotonic_now : W -> Duration * W;
  sleep : Duration -> W -> W;
}.

Record DeviceMetadata := {
  hostname : option str;
  device_model : option str;
  board_revision : option str;
  serial_number : option str;
  kernel_release : option str;
  operating_system : option str;
}.

Inductive CollectorInitError := FirmwareCommandUnavailable.
Definition CollectorInitError_display (e : CollectorInitError) : str :=
  lit "vcgencmd was not found at the configured or standard installation paths".

Record Collector := {
  root_filesystem : PathBuf;
  vcgencmd_path : PathBuf;
  command_timeout : Duration;
  previous_cpu : option CpuTimes;
  metadata : DeviceMetadata;
}.

Definition power_metrics (status : ThrottledStatus.ThrottledStatus) : PowerMetrics := {|
  throttled_raw := Some (ThrottledStatus.raw_hex status);
  undervoltage_now := Some (ThrottledStatus.undervoltage_now status);
  arm_frequency_capped_now := Some (ThrottledStatus.arm_frequency_capped_now status);
  throttled_now := Some (ThrottledStatus.throttled_now status);
  soft_temperature_limit_now := Some (ThrottledStatus.soft_temperature_limit_now status);
  undervoltage_since_boot := Some (ThrottledStatus.undervoltage_since_boot status);
  arm_frequency_capped_since_boot := Some (ThrottledStatus.arm_frequency_capped_since_boot status);
  throttled_since_boot := Some (ThrottledStatus.throttled_since_boot status);
  soft_temperature_limit_since_boot := Some (ThrottledStatus.soft_temperature_limit_since_boot status);
|}.

Definition first_non_empty_line (input : str) : option str :=
  List.find (fun line => negb (is_empty line)) (trim <$> lines input).

(** Errors of parsers are dropped by the collector. *)
Definition parsed {E A} (parse : str -> result ParseError A) (text : result E str) : result unit A :=
  input ← map_err (fun _ => tt) text; map_err (fun _ => tt) (parse input).

(** Equality of [Path]s is that of their components: repeated separators, a
    trailing one and [.] (but a leading one) do not count. *)
Definition path_components (path : PathBuf) : bool * bool * list str :=
  let parts := split_pred (Z.eqb 47) path in
  let rooted := is_absolute path in
  (rooted, negb rooted && bool_decide (head parts = Some (lit ".")),
   List.filter (fun part => negb (is_empty part) && negb (bool_decide (part = lit "."))) parts).
Definition path_eqb (a b : PathBuf) : bool := bool_decide (path_components a = path_components b).

Example path_eqb_cases :
  path_eqb (lit "/usr//bin/./vcgencmd/") (lit "/usr/bin/vcgencmd") = true
  /\ path_eqb (lit "./a") (lit "a") = false /\ path_eqb (lit "/a") (lit "a") = false.
Proof. vm_compute. done. Qed.

(** ** A collection cycle *)

Section collector.
Context {W : Type} `{SystemSource W} `{CommandRunner W} `{Clock W}.

(** The state threaded through a cycle. *)
Record Cycle := { errors : list CollectorError; sample : option CpuTimes; world : W }.
Definition Cy (A : Type) : Type := Cycle -> A * Cycle.
#[global] Instance cy_ret : MRet Cy := fun A a c => (a, c).
#[global] Instance cy_bind : MBind Cy := fun A B f m c => let '(a, c) := m c in f a c.

Definition on_world {A} (f : W -> A * W) : Cy A := fun c =>
  let '(a, w) := f (world c) in (a, {| errors := errors c; sample := sample c; world := w |}).
Definition push_error (metric_name message_text : string) : Cy unit := fun c =>
  (tt, {| errors := errors c ++ [{| metric := lit metric_name; message := lit message_text |}];
          sample := sample c; world := world c |}).
Definition get_sample : Cy (option CpuTimes) := fun c => (sample c, c).
Definition set_sample (t : CpuTimes) : Cy unit := fun c =>
  (tt, {| errors := errors c; sample := Some t; world := world c |}).
Definition do_sleep (d : Duration) : Cy unit := on_world (fun w => (tt, sleep d w)).

Definition read_cpu_sample : Cy (result unit CpuTimes) :=
  text ← on_world (read_text PROC_STAT); mret (parsed parse_proc_stat text).

Definition collect_cpu_usage : Cy (option f64) :=
  known ← get_sample;
  previous ← match known with
             | Some previous => mret (Some previous)
             | None =>
               initial ← read_cpu_sample;
               match initial with
               | Err _ =>
                 _ ← push_error "cpu.usage_percent" "aggregate CPU counters are unavailable or malformed";
                 mret None
               | Ok initial => _ ← set_sample initial; _ ← do_sleep CPU_WARMUP; mret (Some initial)
               end
             end;
  match previous with
  | None => mret None
  | Some previous =>
    current ← read_cpu_sample;
    match current with
    | Err _ =>
      _ ← push_error "cpu.usage_percent" "aggregate CPU counters are unavailable or malformed"; mret None
    | Ok current =>
      _ ← set_sample current;
      match MetricsCpu.usage_percent previous current with
      | Ok value => mret value
      | Err _ => _ ← push_error "cpu.usage_percent" "aggregate CPU counters are inconsistent"; mret None
      end
    end
  end.

Definition set_load (c : CpuMetrics) (l : LoadAverage) : CpuMetrics :=
  {| Model.usage_percent := Model.usage_percent c; load_1 := Some (one_minute l); load_5 := Some (five_minutes l);
     load_15 := Some (fifteen_minutes l); temperature_c := temperature_c c; frequency_mhz := frequency_mhz c |}.
Definition set_temperature (c : CpuMetrics) (x : f64) : CpuMetrics :=
  {| Model.usage_percent := Model.usage_percent c; load_1 := load_1 c; load_5 := load_5 c; load_15 := load_15 c;
     temperature_c := Some x; frequency_mhz := frequency_mhz c |}.
Definition set_frequency (c : CpuMetrics) (x : f64) : CpuMetrics :=
  {| Model.usage_percent := Model.usage_percent c; load_1 := load_1 c; load_5 := load_5 c; load_15 := load_15 c;
     temperature_c := temperature_c c; frequency_mhz := Some x |}.

Definition collect_load_average (cpu : CpuMetrics) : Cy CpuMetrics :=
  text ← on_world (read_text PROC_LOADAVG);
  match parsed parse_loadavg text with
  | Ok load => mret (set_load cpu load)
  | Err _ => _ ← push_error "cpu.load_average" "load averages are unavailable or malformed"; mret cpu
  end.

Definition collect_temperature (self : Collector) (cpu : CpuMetrics) : Cy CpuMetrics :=
  text ← on_world (read_text THERMAL_ZONE);
  match text with
  | Ok input =>
    match parse_millidegrees_celsius input with
    | Ok value => mret (set_temperature cpu value)
    | Err _ => _ ← push_error "cpu.temperature_c" "the thermal-zone temperature is malformed"; mret cpu
    end
  | Err NotFound =>
    output ← on_world (run_command (vcgencmd_path self) [lit "measure_temp"] (command_timeout self));
    match output with
    | Ok output =>
      match parse_vcgencmd_temperature output with
      | Ok value => mret (set_temperature cpu value)
      | Err _ => _ ← push_error "cpu.temperature_c" "the firmware temperature response is malformed"; mret cpu
      end
    | Err _ =>
      _ ← push_error "cpu.temperature_c" "the firmware temperature command failed or timed out"; mret cpu
    end
  | Err _ => _ ← push_error "cpu.temperature_c" "the thermal-zone temperature cannot be read"; mret cpu
  end.

Fixpoint collect_frequency_from (paths : list PathBuf) (cpu : CpuMetrics) : Cy CpuMetrics :=
  match paths with
  | [] => mret cpu
  | path :: paths =>
    text ← on_world (read_text path);
    match text with
    | Ok input =>
      match parse_frequency_khz input with
      | Ok value => mret (set_frequency cpu value)
      | Err _ => _ ← push_error "cpu.frequency_mhz" "the CPU frequency value is malformed"; mret cpu
      end
    | Err NotFound => collect_frequency_from paths cpu
    | Err _ => _ ← push_error "cpu.frequency_mhz" "the CPU frequency cannot be read"; mret cpu
    end
  end.
Definition collect_frequency : CpuMetrics -> Cy CpuMetrics := collect_frequency_from FREQUENCY_PATHS.

Definition collect_memory : Cy (option (MemoryMetrics * SwapMetrics)) :=
  text ← on_world (read_text MetricsMemory.PROC_MEMINFO);
  match parsed parse_meminfo text with
  | Ok memory =>
    mret (Some
      ({| mem_total_bytes := Some (Memory.total_bytes memory);
          mem_available_bytes := Some (Memory.available_bytes memory);
          mem_used_bytes := Some (Memory.used_bytes memory);
          mem_used_percent := Some (Memory.used_percent memory) |},
       {| swap_total_bytes := Some (Memory.swap_total_bytes memory);
          swap_used_bytes := Some (Memory.swap_used_bytes memory);
          swap_used_percent := Some (Memory.swap_used_percent memory) |}))
  | Err _ =>
    _ ← push_error "memory" "memory and swap information is unavailable or malformed"; mret None
  end.

Definition collect_uptime : Cy (option Z) :=
  text ← on_world (read_text PROC_UPTIME);
  match parsed parse_uptime_seconds text with
  | Ok value => mret (Some value)
  | Err _ => _ ← push_error "uptime_seconds" "system uptime is unavailable or malformed"; mret None
  end.

Definition collect_disk (self : Collector) (disk : DiskMetrics) : Cy DiskMetrics :=
  values ← on_world (statvfs (root_filesystem self));
  match map_err (fun _ => tt) values ≫= fun v =>
          map_err (fun _ => tt) (calculate_disk_metrics (root_filesystem self) v) with
  | Ok value => mret value
  | Err _ => _ ← push_error "disk" "filesystem statistics are unavailable or inconsistent"; mret disk
  end.

Definition collect_power (self : Collector) (power : PowerMetrics) : Cy PowerMetrics :=
  output ← on_world (run_command (vcgencmd_path self) [lit "get_throttled"] (command_timeout self));
  match parsed parse_throttled output with
  | Ok status => mret (power_metrics status)
  | Err _ =>
    _ ← push_error "power"
          "the firmware throttling command failed, timed out, or returned malformed data";
    mret power
  end.

Definition duration_ms (started finished : Duration) : Z :=
  let ms := as_millis (duration_saturating_sub finished started) in
  if ms <=? u64_max then ms else u64_max.

(** The body of [collect] between the two clock readings. *)
Definition collect_readings (self : Collector) : Cy TelemetryReadings :=
  let readings := TelemetryReadings_unavailable (root_filesystem self) in
  usage ← collect_cpu_usage;
  let cpu := {| Model.usage_percent := usage; load_1 := load_1 (cpu readings); load_5 := load_5 (cpu readings);
                load_15 := load_15 (cpu readings); temperature_c := temperature_c (cpu readings);
                frequency_mhz := frequency_mhz (cpu readings) |} in
  cpu ← collect_load_average cpu;
  cpu ← collect_temperature self cpu;
  cpu ← collect_frequency cpu;
  mem ← collect_memory;
  uptime ← collect_uptime;
  disk ← collect_disk self (disk readings);
  power ← collect_power self (power readings);
  mret {| uptime_seconds := uptime; cpu := cpu;
          memory := from_option fst (memory readings) mem;
          swap := from_option snd (swap readings) mem;
          disk := disk; power := power |}.

Definition collect (self : Collector) (w : W) : TelemetryState * Collector * W :=
  let '(started, w) := monotonic_now w in
  let '(observed_at, w) := now_utc w in
  let '(readings, c) := collect_readings self {| errors := []; sample := previous_cpu self; world := w |} in
  let '(finished, w) := monotonic_now (world c) in
  (TelemetryState_new observed_at readings (errors c) (duration_ms started finished),
   {| root_filesystem := root_filesystem self; vcgencmd_path := vcgencmd_path self;
      command_timeout := command_timeout self; previous_cpu := sample c; metadata := metadata self |}, w).

(** ** Construction *)

Fixpoint find_vcgencmd (candidates : list PathBuf) (configured : PathBuf) (w : W) : option PathBuf * W :=
  match candidates with
  | [] => (None, w)
  | candidate :: candidates =>
    if path_eqb candidate configured then find_vcgencmd candidates configured w
    else let '(found, w) := is_file candidate w in
         if found then (Some candidate, w) else find_vcgencmd candidates configured w
  end.
Definition resolve_vcgencmd (configured : PathBuf) (w : W) : result CollectorInitError PathBuf * W :=
  let '(found, w) := is_file configured w in
  if found then (Ok configured, w)
  else let '(path, w) := find_vcgencmd STANDARD_VCGENCMD_PATHS configured w in
       (ok_or path FirmwareCommandUnavailable, w).

Definition release_name (release : OsRelease) : option str :=
  match pretty_name release with
  | Some p => Some p
  | None =>
    match name release, MetricsMetadata.version release with
    | Some name, Some version => if negb (is_empty version) then Some (name ++ lit " " ++ version) else Some name
    | Some name, None => Some name
    | None, _ => None
    end
  end.

Definition detect_metadata (w : W) : DeviceMetadata * W :=
  let '(r, w) := read_text HOSTNAME w in
  let hostname := result_ok r ≫= parse_hostname in
  let '(r, w) := read_bytes DEVICE_TREE_MODEL w in
  let model := result_ok r ≫= parse_device_tree_model in
  let '(r, w) := read_text PROC_CPUINFO w in
  let cpuinfo := from_option parse_cpuinfo CpuInfoMetadata_default (result_ok r) in
  let '(r, w) := read_text KERNEL_RELEASE w in
  let kernel_release := result_ok r ≫= first_non_empty_line in
  let '(r, w) := read_text MetricsMetadata.OS_RELEASE w in
  let release := result_ok r ≫= fun v => result_ok (parse_os_release v) in
  let operating_system := release ≫= release_name in
  ({| hostname := hostname; device_model := model; board_revision := revision cpuinfo;
      serial_number := serial cpuinfo; kernel_release := kernel_release;
      operating_system := operating_system |}, w).

Definition with_dependencies (root_filesystem configured_vcgencmd : PathBuf) (command_timeout : Duration)
    (w : W) : result CollectorInitError Collector * W :=
  let '(path, w) := resolve_vcgencmd configured_vcgencmd w in
  match path with
  | Err e => (Err e, w)
  | Ok vcgencmd_path =>
    let '(metadata, w) := detect_metadata w in
    (Ok {| root_filesystem := root_filesystem; vcgencmd_path := vcgencmd_path;
           command_timeout := command_timeout; previous_cpu := None; metadata := metadata |}, w)
  end.

Definition Collector_new (config : CollectorConfig.t) (w : W) : result CollectorInitError Collector * W :=
  with_dependencies (CollectorConfig.root_filesystem config) (CollectorConfig.vcgencmd_path config)
    (CollectorConfig.command_timeout config) w.
End collector.
