(* ===== verification/Command.v ===== *)
(** * Firmware commands ([ProcessCommandRunner] of [src/src/collector.rs])

    The execution of one command under a deadline: the polling loop over the
    child process, and the bounded reading of its output by a second thread. *)

From S2P Require Import Prelude RustStr Config Collector.

Local Open Scope Z_scope.

(** ** Firmware commands *)

(** [read_limited_output]: the reads of the pipe as a list, [Err] for a failed
    read; an empty read and the end of the list are the end of the output.  The
    output is read to its end even when it is too large. *)
Definition finish_output (output : list Z) (too_large : bool) : result CommandFailure (list Z) :=
  if too_large then Err OutputTooLarge else Ok output.
Fixpoint read_limited_from (output : list Z) (too_large : bool) (reads : list (result unit (list Z))) :
    result CommandFailure (list Z) :=
  match reads with
  | [] | Ok [] :: _ => finish_output output too_large
  | Err _ :: _ => Err OutputRead
  | Ok buffer :: reads =>
    let count := Z.of_nat (length buffer) in
    let remaining := Z.max (MAX_COMMAND_OUTPUT_BYTES - Z.of_nat (length output)) 0 in
    read_limited_from (output ++ take (Z.to_nat (Z.min count remaining)) buffer)
      (too_large || (remaining <? count)) reads
  end.
Definition read_limited_output : list (result unit (list Z)) -> result CommandFailure (list Z) :=
  read_limited_from [] false.

(** The operating system as the runner sees it: a child with its status, its
    output pipe, read by a second thread, and the time since the start of the
    polling loop.  [None] is a call that does not return: a child that does not
    end when it is killed, and a reader whose pipe is not closed, as when a
    descendant of the child has inherited it. *)
Class Process (W : Type) := {
  spawn : PathBuf -> list str -> W -> result unit bool * W; (* whether the output is piped *)
  try_wait : W -> result unit (option bool) * W;            (* whether the exit was a success *)
  elapsed : W -> Duration * W;
  thread_sleep : Duration -> W -> W;
  kill : W -> W;
  wait : W -> option W;
  join_reader : W -> option (result unit (list (result unit (list Z))) * W); (* an error if the reader panicked *)
}.

(** How a run goes: it returns, a call it makes does not, or the fuel of its loop
    runs out. *)
Inductive Course (W A : Type) := Returns (a : A) (w : W) | Blocks | OutOfFuel.
Arguments Returns {_ _}. Arguments Blocks {_ _}. Arguments OutOfFuel {_ _}.

Section runner.
Context {W : Type} `{Process W}.

(** The child is killed, waited for, and its output read to the end. *)
Definition abandon {A} (e : CommandFailure) (w : W) : Course W (result CommandFailure A) :=
  match wait (kill w) with
  | None => Blocks
  | Some w => match join_reader w with Some (_, w) => Returns (Err e) w | None => Blocks end
  end.

(** The polling loop. *)
Fixpoint poll (fuel : nat) (timeout : Duration) (w : W) : Course W (result CommandFailure bool) :=
  match fuel with
  | O => OutOfFuel
  | S fuel =>
    match try_wait w with
    | (Ok (Some success), w) => Returns (Ok success) w
    | (Ok None, w) =>
      let '(now, w) := elapsed w in
      if now <? timeout then
        let '(now, w) := elapsed w in
        poll fuel timeout (thread_sleep (Z.min COMMAND_POLL_INTERVAL (duration_saturating_sub timeout now)) w)
      else abandon TimedOut w
    | (Err _, w) => abandon WaitFailed w
    end
  end.

(** What a child that has ended gives. *)
Definition command_output (success : bool) (reads : result unit (list (result unit (list Z)))) :
    result CommandFailure str :=
  reads ← map_err (fun _ => OutputRead) reads;
  output ← read_limited_output reads;
  if negb success then Err NonZeroExit else ok_or (utf8_decode output) OutputEncoding.

Definition finish_command (status : result CommandFailure bool) (w : W) : Course W (result CommandFailure str) :=
  match status with
  | Err e => Returns (Err e) w
  | Ok success =>
    match join_reader w with Some (reads, w) => Returns (command_output success reads) w | None => Blocks end
  end.

Definition poll_fuel (timeout : Duration) : nat := Z.to_nat (timeout / COMMAND_POLL_INTERVAL) + 2.

Definition process_run (program : PathBuf) (arguments : list str) (timeout : Duration) (w : W) :
    Course W (result CommandFailure str) :=
  match spawn program arguments w with
  | (Err _, w) => Returns (Err Spawn) w
  | (Ok false, w) => Returns (Err OutputRead) w
  | (Ok true, w) =>
    match poll (poll_fuel timeout) timeout w with
    | Returns status w => finish_command status w
    | Blocks => Blocks
    | OutOfFuel => OutOfFuel
    end
  end.
End runner.

(** ** The output *)

(** What the pipe delivers: everything up to its end, or a failed read. *)
Fixpoint stream (reads : list (result unit (list Z))) : result unit (list Z) :=
  match reads with
  | [] | Ok [] :: _ => Ok []
  | Err e :: _ => Err e
  | Ok buffer :: reads => data ← stream reads; Ok (buffer ++ data)
  end.

Definition limited (data : list Z) : result CommandFailure (list Z) :=
  if Z.of_nat (length data) <=? MAX_COMMAND_OUTPUT_BYTES then Ok data else Err OutputTooLarge.

Lemma read_limited_from_stream output too_large reads :
  Z.of_nat (length output) <= MAX_COMMAND_OUTPUT_BYTES ->
  read_limited_from output too_large reads =
    match stream reads with
    | Err _ => Err OutputRead
    | Ok data => if too_large then Err OutputTooLarge else limited (output ++ data)
    end.
Proof.
  unfold limited. revert output too_large.
  induction reads as [|[[|b buffer]|e] reads IH]; intros output too_large Ho; cbn [read_limited_from stream].
  1, 2: rewrite app_nil_r; unfold finish_output; destruct (Z.leb_spec (Z.of_nat (length output)) MAX_COMMAND_OUTPUT_BYTES); [done|lia].
  2: done.
  set (bs := b :: buffer). set (remaining := Z.max _ 0).
  assert (Z.of_nat (length output) + remaining = MAX_COMMAND_OUTPUT_BYTES) as Hr by lia.
  rewrite IH by (rewrite length_app, length_take; lia).
  destruct (stream reads) as [data|]; cbn [mbind result_bind]; [|done].
  destruct too_large; [done|]. cbn [orb].
  destruct (Z.ltb_spec remaining (Z.of_nat (length bs))).
  - rewrite !length_app. destruct (Z.leb_spec (Z.of_nat (length output + (length bs + length data))) MAX_COMMAND_OUTPUT_BYTES); [lia|done].
  - rewrite Z.min_l, Nat2Z.id, take_ge by lia. by rewrite <-app_assoc.
Qed.

(** C21: reading a command's output in pieces, of whatever sizes, and
    keeping at most the limit is the same as reading it whole and checking its
    length: it is kept unchanged up to 4096 bytes, too large beyond, and lost
    when a read fails, even after the limit. *)
Theorem read_limited_output_spec (reads : list (result unit (list Z))) :
  read_limited_output reads =
    match stream reads with
    | Err _ => Err OutputRead
    | Ok data => limited data
    end.
Proof.
  unfold read_limited_output. rewrite read_limited_from_stream by (cbn; unfold MAX_COMMAND_OUTPUT_BYTES; lia).
  by destruct (stream reads).
Qed.

(** ** The deadline *)

Section deadline.
Context {W : Type} `{Process W}.
Context (time : W -> Duration).

(** A monotonic clock, which counts from the spawn on and which a sleep advances
    by what was asked at least. *)
Class ClockLaws : Prop := {
  spawn_time : forall program arguments w, 0 <= time (spawn program arguments w).2;
  try_wait_time : forall w, time w <= time (try_wait w).2;
  elapsed_time : forall w, time w <= (elapsed w).1 <= time (elapsed w).2;
  sleep_time : forall d w, 0 <= d -> time w + d <= time (thread_sleep d w);
}.

Context `{!ClockLaws}.

(** Why the loop ended: the exit status of the child, a failed wait, or, never
    before it has passed, the deadline. *)
Definition loop_ended (timeout : Duration) (r : result CommandFailure bool) (w : W) : Prop :=
  match r with
  | Ok success => exists w0, try_wait w0 = (Ok (Some success), w)
  | Err WaitFailed => exists w0 e, try_wait w0 = (Err e, w)
  | Err TimedOut => timeout <= time w
  | Err _ => False
  end.

(** What is still done then. *)
Definition after_loop (r : result CommandFailure bool) (w : W) : Course W (result CommandFailure bool) :=
  match r with Ok success => Returns (Ok success) w | Err e => abandon e w end.

Lemma poll_terminates fuel timeout w :
  timeout - time w <= Z.of_nat fuel * COMMAND_POLL_INTERVAL ->
  exists r w', loop_ended timeout r w' /\ poll (S fuel) timeout w = after_loop r w'.
Proof.
  revert w. induction fuel as [|fuel IH]; intros w Hfuel.
  all: cbn [poll]; pose proof (try_wait_time w) as Hw; destruct (try_wait w) as [[[success|]|e] w1] eqn:Ew; cbn [snd] in Hw.
  1, 4: exists (Ok success), w1; split; [by eexists|done].
  2, 4: exists (Err WaitFailed), w1; split; [by do 2 eexists|done].
  all: pose proof (elapsed_time w1) as He; destruct (elapsed w1) as [now w2]; cbn [fst snd] in He.
  all: destruct (Z.ltb_spec now timeout); [|exists (Err TimedOut), w2; split; [cbn; lia|done]].
  - lia.
  - pose proof (elapsed_time w2) as He2. destruct (elapsed w2) as [now2 w3]. cbn [fst snd] in He2.
    apply IH. unfold duration_saturating_sub, COMMAND_POLL_INTERVAL in *.
    pose proof (sleep_time (Z.min (from_millis 10) (Z.max (timeout - now2) 0)) w3) as Hs.
    unfold from_millis in *. lia.
Qed.

(** One poll per interval of the timeout and two more are enough. *)
Lemma poll_fuel_enough timeout w :
  0 <= time w -> exists r w', loop_ended timeout r w' /\ poll (poll_fuel timeout) timeout w = after_loop r w'.
Proof.
  intros Hw. unfold poll_fuel. replace (Z.to_nat (timeout / COMMAND_POLL_INTERVAL) + 2)%nat
    with (S (S (Z.to_nat (timeout / COMMAND_POLL_INTERVAL)))) by lia.
  assert (0 < COMMAND_POLL_INTERVAL) as Hi by (unfold COMMAND_POLL_INTERVAL, from_millis; lia).
  pose proof (Z.mul_succ_div_gt timeout COMMAND_POLL_INTERVAL Hi).
  apply poll_terminates. destruct (Z.le_gt_cases 0 timeout) as [Ht|Ht]; [|nia].
  pose proof (Z.div_pos timeout COMMAND_POLL_INTERVAL Ht Hi). rewrite Nat2Z.inj_succ, Z2Nat.id by lia. lia.
Qed.

Lemma process_run_course program arguments timeout w :
  match spawn program arguments w with
  | (Err _, w1) => process_run program arguments timeout w = Returns (Err Spawn) w1
  | (Ok false, w1) => process_run program arguments timeout w = Returns (Err OutputRead) w1
  | (Ok true, _) => exists status w2, loop_ended timeout status w2
      /\ process_run program arguments timeout w =
         match status with
         | Ok success =>
           match join_reader w2 with
           | Some (reads, w3) => Returns (command_output success reads) w3
           | None => Blocks
           end
         | Err e => abandon e w2
         end
  end.
Proof.
  pose proof (spawn_time program arguments w) as Hw. unfold process_run.
  destruct (spawn program arguments w) as [[[|]|e] w1]; cbn [snd] in Hw; [|done..].
  destruct (poll_fuel_enough timeout w1 Hw) as (status & w2 & Hend & ->). exists status, w2. split; [exact Hend|].
  destruct status as [success|e]; [done|]. cbn [after_loop]. unfold abandon.
  destruct (wait (kill w2)) as [w3|]; [|done]. by destruct (join_reader w3) as [[reads w4]|].
Qed.

(** C20: the deadline of a command.  Its polling loop always ends: with the
    exit status of the child, a failed wait or, never before it has passed, the
    deadline (the fuel, one poll per interval of the timeout and two more, is
    enough).  The run then returns that result, unless the child that was killed
    does not end, or the reader of its output does not: the deadline covers
    neither. *)
Theorem process_run_deadline (program : PathBuf) (arguments : list str) (timeout : Duration) (w : W) :
  process_run program arguments timeout w <> OutOfFuel
  /\ match spawn program arguments w with
     | (Err _, w1) => process_run program arguments timeout w = Returns (Err Spawn) w1
     | (Ok false, w1) => process_run program arguments timeout w = Returns (Err OutputRead) w1
     | (Ok true, _) => exists status w2, loop_ended timeout status w2
         /\ match status with
            | Ok success =>
              (exists reads w3, join_reader w2 = Some (reads, w3)
                 /\ process_run program arguments timeout w = Returns (command_output success reads) w3)
              \/ join_reader w2 = None /\ process_run program arguments timeout w = Blocks
            | Err e =>
              (exists reads w3 w4, wait (kill w2) = Some w3 /\ join_reader w3 = Some (reads, w4)
                 /\ process_run program arguments timeout w = Returns (Err e) w4)
              \/ (wait (kill w2) = None \/ exists w3, wait (kill w2) = Some w3 /\ join_reader w3 = None)
                 /\ process_run program arguments timeout w = Blocks
            end
     end.
Proof.
  pose proof (process_run_course program arguments timeout w) as Hc.
  destruct (spawn program arguments w) as [[[|]|e] w1]; [|by rewrite Hc..].
  destruct Hc as (status & w2 & Hend & ->). destruct status as [success|e].
  - destruct (join_reader w2) as [[reads w3]|] eqn:Ej; (split; [done|]); exists (Ok success), w2;
      (split; [exact Hend|]); [left|by right]. by exists reads, w3.
  - unfold abandon. destruct (wait (kill w2)) as [w3|] eqn:Ew; [destruct (join_reader w3) as [[reads w4]|] eqn:Ej|];
      (split; [done|]); exists (Err e), w2; (split; [exact Hend|]); rewrite Ew.
    + left. by exists reads, w3, w4.
    + right. split; [|done]. right. by exists w3.
    + right. split; [by left|done].
Qed.

(** A system on which a killed child ends and its output is closed. *)
Class Responsive : Prop := {
  wait_returns : forall w, wait w <> None;
  join_returns : forall w, join_reader w <> None;
}.

Lemma process_run_returns `{!Responsive} program arguments timeout w :
  exists r w', process_run program arguments timeout w = Returns r w'.
Proof.
  pose proof (process_run_course program arguments timeout w) as Hc.
  destruct (spawn program arguments w) as [[[|]|e] w1]; [|by do 2 eexists..].
  destruct Hc as (status & w2 & _ & ->). destruct status as [success|e].
  - pose proof (join_returns w2). destruct (join_reader w2) as [[reads w3]|]; [by do 2 eexists|done].
  - unfold abandon. pose proof (wait_returns (kill w2)). destruct (wait (kill w2)) as [w3|]; [|done].
    pose proof (join_returns w3). destruct (join_reader w3) as [[reads w4]|]; [by do 2 eexists|done].
Qed.
End deadline.

(** A child that is still running for the first polls: the world is the time and
    the number of polls left before it exits; each poll takes a millisecond. *)
#[local] Instance slow_child : Process (Duration * nat) := {|
  spawn _ _ w := (Ok true, (0, w.2));
  try_wait '(t, remaining) := (Ok (if remaining is O then Some true else None), (t + from_millis 1, pred remaining));
  elapsed '(t, remaining) := (t, (t, remaining));
  thread_sleep d '(t, remaining) := (t + d, remaining);
  kill w := w; wait w := Some w;
  join_reader w := Some (Ok [Ok (utf8_encode (lit "temp=")); Ok (utf8_encode (lit "48.3'C"))], w);
|}.

Lemma slow_child_clock : ClockLaws (W := Duration * nat) fst.
Proof. split; intros; [cbn; lia|..]; destruct w as [t remaining]; cbn; unfold from_millis; lia. Qed.

Example slow_child_runs :
  exists w1 w2,
    process_run (lit "/usr/bin/vcgencmd") [lit "measure_temp"] (from_secs 2) (0, 5%nat) = Returns (Ok (lit "temp=48.3'C")) w1
    /\ process_run (lit "/usr/bin/vcgencmd") [lit "measure_temp"] (from_millis 25) (0, 5%nat) = Returns (Err TimedOut) w2.
Proof. do 2 eexists. split; vm_compute; reflexivity. Qed.

Lemma slow_child_responsive : Responsive (W := Duration * nat).
Proof. by split. Qed.

(** The same child with a descendant that keeps its output open. *)
#[local] Instance leaking_child : Process (Duration * nat) := {|
  spawn := spawn; try_wait := try_wait; elapsed := elapsed; thread_sleep := thread_sleep;
  kill := kill; wait := wait; join_reader _ := None;
|}.

Lemma process_run_deadline_witness :
  ClockLaws (W := Duration * nat) (H := leaking_child) fst
  /\ process_run (H := leaking_child) (lit "/usr/bin/vcgencmd") [lit "measure_temp"] (from_millis 25) (0, 5%nat) = Blocks
  /\ process_run (H := leaking_child) (lit "/usr/bin/vcgencmd") [lit "measure_temp"] (from_millis 25) (0, 5%nat) <> OutOfFuel.
Proof.
  assert (ClockLaws (W := Duration * nat) (H := leaking_child) fst) as Hl by (destruct slow_child_clock; by split).
  split; [exact Hl|]. split; [vm_compute; reflexivity|].
  exact (proj1 (process_run_deadline (H := leaking_child) (W := Duration * nat) fst (lit "/usr/bin/vcgencmd")
    [lit "measure_temp"] (from_millis 25) (0, 5%nat))).
Defined.
