(* ===== verification/CollectorReports.v ===== *)
(** * What a collection cycle reports

    The payload of a cycle accounts for every measurement it does not have, and
    can be serialised. *)

From S2P Require Import Prelude RustStr RustFloat RustFloatFacts Model Config MetricsError MetricsCpu MetricsMemory MetricsDisk MetricsMetadata MetricsPower MetricsTemperature MetricsUptime Collector.

Local Open Scope Z_scope.

(** ** What a cycle reports *)

Section emits.
Context {W : Type} `{SystemSource W} `{CommandRunner W} `{Clock W}.

(** [emits m P]: running [m] appends the errors [es] and returns [a], with
    [P a es]; what was reported before is kept. *)
Definition emits_at {A} (c : Cycle (W := W)) (m : Cy A) (P : A -> list CollectorError -> Prop) : Prop :=
  exists es, errors (m c).2 = errors c ++ es /\ P (m c).1 es.
Definition emits {A} (m : Cy (W := W) A) (P : A -> list CollectorError -> Prop) : Prop := forall c, emits_at c m P.

Lemma emits_at_bind {A B} c (m : Cy (W := W) A) (f : A -> Cy B) P (Q : A -> B -> list CollectorError -> Prop) :
  emits_at c m P -> (forall a, emits_at (m c).2 (f a) (Q a)) ->
  emits_at c (m ≫= f) (fun b es => exists a es1 es2, es = es1 ++ es2 /\ P a es1 /\ Q a b es2).
Proof.
  intros (es1 & He1 & HP) Hf. unfold emits_at, mbind, cy_bind. specialize (Hf (m c).1).
  destruct (m c) as [a c']. destruct Hf as (es2 & He2 & HQ). cbn [fst snd] in *.
  exists (es1 ++ es2). rewrite He2, He1, <-app_assoc. split; [done|]. by exists a, es1, es2.
Qed.

Lemma emits_at_mono {A} c (m : Cy (W := W) A) (P Q : A -> list CollectorError -> Prop) :
  (forall a es, P a es -> Q a es) -> emits_at c m P -> emits_at c m Q.
Proof. intros HPQ (es & ? & ?). exists es. split; [done|]. by apply HPQ. Qed.

Lemma emits_ret {A} (a : A) (P : A -> list CollectorError -> Prop) :
  P a [] -> emits (mret a) P.
Proof. intros Ha c. exists []. by rewrite app_nil_r. Qed.

Lemma emits_return {A} (a : A) : emits (mret a) (fun b es => b = a /\ es = []).
Proof. by apply emits_ret. Qed.

Lemma emits_push name msg {A} (a : A) (P : A -> list CollectorError -> Prop) :
  P a [{| metric := lit name; message := lit msg |}] ->
  emits (_ ← push_error name msg; mret a) P.
Proof. intros Ha c. by eexists. Qed.

(** Reading the world, the sample or the time reports nothing. *)
Lemma emits_silent {A B} (m : Cy (W := W) A) (f : A -> Cy B) (P : B -> list CollectorError -> Prop) :
  (forall c, errors (m c).2 = errors c) -> (forall a, emits (f a) P) -> emits (m ≫= f) P.
Proof.
  intros Hm Hf c. unfold emits_at, mbind, cy_bind. pose proof (Hm c) as Hc.
  destruct (m c) as [a c']. cbn in Hc. destruct (Hf a c') as (es & He & HP).
  exists es. by rewrite He, Hc.
Qed.

Lemma on_world_silent {A} (f : W -> A * W) c : errors (on_world f c).2 = errors c.
Proof. unfold on_world. by destruct (f (world c)). Qed.

Lemma emits_world {A B} (f : W -> A * W) (g : A -> Cy B) (P : B -> list CollectorError -> Prop) :
  (forall w, emits (g (f w).1) P) -> emits (on_world f ≫= g) P.
Proof.
  intros Hg c. unfold emits_at, mbind, cy_bind, on_world. pose proof (Hg (world c)) as Hc.
  destruct (f (world c)) as [a w]. apply (Hc {| errors := errors c; sample := sample c; world := w |}).
Qed.

Lemma emits_bind {A B} (m : Cy (W := W) A) (f : A -> Cy B) P (Q : A -> B -> list CollectorError -> Prop) :
  emits m P -> (forall a, emits (f a) (Q a)) ->
  emits (m ≫= f) (fun b es => exists a es1 es2, es = es1 ++ es2 /\ P a es1 /\ Q a b es2).
Proof. intros Hm Hf c. apply emits_at_bind; [apply Hm|]. intros a. apply Hf. Qed.
End emits.

(** Solves [emits] goals of the operations of a cycle branch by branch. *)
Ltac emits_step :=
  match goal with
  | |- emits (mret _) _ => apply emits_ret
  | |- emits (_ ← push_error _ _; mret _) _ => apply emits_push
  | |- emits (on_world _ ≫= _) _ => apply emits_silent; [apply on_world_silent|intros ?]
  | |- emits (match ?x with _ => _ end) _ => destruct x eqn:?
  end.

(** The metric is reported, once, exactly when [bad]. *)
Definition flagged (name : string) (bad : bool) (es : list CollectorError) : Prop :=
  metric <$> es = if bad then [lit name] else [].

Definition missing {A} (o : option A) : bool := match o with None => true | Some _ => false end.

Definition published (x : option f64) (places : Z) : Prop := roundable x places.

Section reports.
Context {W : Type} `{SystemSource W} `{CommandRunner W} `{Clock W}.

Lemma collect_load_average_emits cpu :
  emits (W := W) (collect_load_average cpu) (fun cpu' es => exists l,
    cpu' = from_option (set_load cpu) cpu l /\ flagged "cpu.load_average" (missing l) es).
Proof. unfold collect_load_average. repeat emits_step; [by eexists (Some _)|by exists None]. Qed.

Lemma collect_temperature_emits self cpu :
  emits (W := W) (collect_temperature self cpu) (fun cpu' es => exists x,
    cpu' = from_option (set_temperature cpu) cpu x /\ flagged "cpu.temperature_c" (missing x) es).
Proof. unfold collect_temperature. repeat emits_step; (by eexists (Some _)) || (by exists None). Qed.

(** What the frequency files of a host give: the first that exists decides; none
    need exist. *)
Fixpoint frequency_outcome (paths : list PathBuf) (w : W) : result unit (option f64) :=
  match paths with
  | [] => Ok None
  | path :: paths =>
    match read_text path w with
    | (Ok input, _) => map_err (fun _ => tt) (Some <$> parse_frequency_khz input)
    | (Err NotFound, w) => frequency_outcome paths w
    | (Err OtherKind, _) => Err tt
    end
  end.

(** The value of a source that may have none, and whether it failed. *)
Definition value_of (r : result unit (option f64)) : option f64 := default None (result_ok r).
Definition failed {A} (r : result unit A) : bool := negb (is_ok r).

Lemma collect_frequency_at c cpu :
  let r := frequency_outcome FREQUENCY_PATHS (world c) in
  emits_at c (collect_frequency cpu) (fun cpu' es =>
    cpu' = from_option (set_frequency cpu) cpu (value_of r) /\ flagged "cpu.frequency_mhz" (failed r) es
    /\ roundable (value_of r) 1).
Proof.
  unfold collect_frequency. cbv zeta. generalize FREQUENCY_PATHS as paths. intros paths. revert c.
  induction paths as [|path paths IH]; intros c; cbn [collect_frequency_from frequency_outcome]; [by exists []; rewrite app_nil_r|].
  unfold emits_at, mbind, cy_bind, on_world. destruct (read_text path (world c)) as [[input|[]] w].
  - destruct (parse_frequency_khz input) as [v|e] eqn:E; [|by eexists]. exists []. rewrite app_nil_r. split; [done|].
    repeat (split; [done|]). intros x [= <-]. by eapply parse_frequency_khz_published.
  - apply (IH {| errors := errors c; sample := sample c; world := w |}).
  - by eexists.
Qed.

Lemma collect_memory_emits :
  emits (W := W) collect_memory (fun v es => flagged "memory" (missing v) es
    /\ forall mem swap, v = Some (mem, swap) ->
       (exists t a u p, mem = Build_MemoryMetrics (Some t) (Some a) (Some u) (Some p) /\ roundable (Some p) 1)
       /\ exists t u p, swap = Build_SwapMetrics (Some t) (Some u) (Some p) /\ roundable (Some p) 1).
Proof.
  unfold collect_memory. repeat emits_step; [|done].
  split; [done|]. intros mem swap [= <- <-].
  match goal with E : parsed _ _ = Ok _ |- _ => unfold parsed in E; simplify_result end.
  match goal with E : parse_meminfo _ = Ok _ |- _ => apply parse_meminfo_published in E as [? ?] end.
  split; [do 4 eexists|do 3 eexists]; (split; [reflexivity|]); intros ? [= <-]; assumption.
Qed.
Lemma collect_uptime_emits :
  emits (W := W) collect_uptime (fun v es => flagged "uptime_seconds" (missing v) es).
Proof. unfold collect_uptime. by repeat emits_step. Qed.

Lemma collect_power_emits self power :
  emits (W := W) (collect_power self power) (fun power' es => exists s,
    power' = from_option power_metrics power s /\ flagged "power" (missing s) es).
Proof. unfold collect_power. repeat emits_step; [by eexists (Some _)|by exists None]. Qed.

(** What [/proc/stat] gives at a reading. *)
Definition cpu_sample (w : W) : result unit CpuTimes * W :=
  let '(text, w) := read_text PROC_STAT w in (parsed parse_proc_stat text, w).

Lemma read_cpu_sample_eq c :
  read_cpu_sample (W := W) c =
  ((cpu_sample (world c)).1, {| errors := errors c; sample := sample c; world := (cpu_sample (world c)).2 |}).
Proof. unfold read_cpu_sample, cpu_sample, on_world, mbind, cy_bind. by destruct (read_text PROC_STAT (world c)). Qed.

(** The utilisation given the sample known before: that since the sample, or over
    the warm-up second when there is none yet; no value when no counter
    advanced; an error when a reading or the counters are bad. *)
Definition usage_since (previous : CpuTimes) (w : W) : result unit (option f64) :=
  current ← (cpu_sample w).1; map_err (fun _ => tt) (MetricsCpu.usage_percent previous current).
Definition usage_outcome (known : option CpuTimes) (w : W) : result unit (option f64) :=
  match known, cpu_sample w with
  | Some previous, _ => usage_since previous w
  | None, (Ok initial, w) => usage_since initial (sleep CPU_WARMUP w)
  | None, (Err _, _) => Err tt
  end.

(** The host when the utilisation has been measured. *)
Definition usage_world (known : option CpuTimes) (w : W) : W :=
  match known, cpu_sample w with
  | Some _, (_, w) | None, (Err _, w) => w
  | None, (Ok _, w) => (cpu_sample (sleep CPU_WARMUP w)).2
  end.

Lemma collect_cpu_usage_at c :
  let r := usage_outcome (sample c) (world c) in
  emits_at c (collect_cpu_usage (W := W))
    (fun v es => v = value_of r /\ flagged "cpu.usage_percent" (failed r) es /\ roundable (value_of r) 1)
  /\ world (collect_cpu_usage c).2 = usage_world (sample c) (world c).
Proof.
  assert (forall previous current,
    roundable (value_of (map_err (fun _ => tt) (MetricsCpu.usage_percent previous current))) 1) as Hround.
  { intros previous current. destruct (MetricsCpu.usage_percent previous current) as [v|e] eqn:E; [|done].
    intros x Hx. cbn in Hx. subst. by eapply usage_percent_published. }
  unfold collect_cpu_usage, usage_outcome, usage_world, emits_at, mbind, cy_bind, get_sample. cbv beta zeta.
  destruct (sample c) as [previous|]; cbn [mret cy_ret].
  - unfold usage_since. rewrite read_cpu_sample_eq.
    destruct (cpu_sample (world c)) as [[current|e] w1]; cbn -[MetricsCpu.usage_percent]; [|by split; [eexists|]].
    specialize (Hround previous current). destruct (MetricsCpu.usage_percent previous current) as [v|e];
      (split; [|done]); [exists []; by rewrite app_nil_r|by eexists].
  - rewrite read_cpu_sample_eq. destruct (cpu_sample (world c)) as [[initial|e] w1]; cbn -[MetricsCpu.usage_percent];
      [|by split; [eexists|]].
    unfold usage_since. rewrite read_cpu_sample_eq. cbn -[MetricsCpu.usage_percent cpu_sample].
    destruct (cpu_sample (sleep CPU_WARMUP w1)) as [[current|e] w2]; cbn -[MetricsCpu.usage_percent]; [|by split; [eexists|]].
    specialize (Hround initial current). destruct (MetricsCpu.usage_percent initial current) as [v|e];
      (split; [|done]); [exists []; by rewrite app_nil_r|by eexists].
Qed.

(** The host when a cycle looks for a frequency: after the clocks, the
    utilisation, the load averages and the temperature. *)
Definition clocks_read (w : W) : W := (now_utc (monotonic_now w).2).2.
Definition load_world (w : W) : W := (read_text PROC_LOADAVG w).2.
Definition temperature_world (self : Collector) (w : W) : W :=
  match read_text THERMAL_ZONE w with
  | (Err NotFound, w) => (run_command (vcgencmd_path self) [lit "measure_temp"] (command_timeout self) w).2
  | (_, w) => w
  end.
Definition frequency_world (self : Collector) (known : option CpuTimes) (w : W) : W :=
  temperature_world self (load_world (usage_world known w)).

Lemma collect_load_average_world cpu c : world (collect_load_average cpu c).2 = load_world (world c).
Proof.
  unfold collect_load_average, load_world, mbind, cy_bind, on_world. destruct (read_text PROC_LOADAVG (world c)) as [t w].
  by destruct (parsed parse_loadavg t).
Qed.

Lemma collect_temperature_world self cpu c :
  world (collect_temperature self cpu c).2 = temperature_world self (world c).
Proof.
  unfold collect_temperature, temperature_world, mbind, cy_bind, on_world.
  destruct (read_text THERMAL_ZONE (world c)) as [[input|[]] w]; [by destruct (parse_millidegrees_celsius input)| |done].
  cbn [world]. destruct (run_command _ _ _ w) as [[output|e] w2]; [by destruct (parse_vcgencmd_temperature output)|done].
Qed.

(** The counters of a filesystem are 64-bit: what the type of the source says. *)
Class StatvfsU64 : Prop :=
  statvfs_u64 : forall path w v, (statvfs path w).1 = Ok v -> valid_statvfs v.

Lemma collect_disk_emits `{!StatvfsU64} self disk :
  emits (W := W) (collect_disk self disk) (fun disk' es => exists o,
    disk' = default disk o /\ flagged "disk" (missing o) es
    /\ forall d, o = Some d -> exists t a u p,
         d = {| mount := root_filesystem self; disk_total_bytes := Some t; disk_available_bytes := Some a;
                disk_used_bytes := Some u; disk_used_percent := Some p |} /\ roundable (Some p) 1).
Proof.
  unfold collect_disk. apply emits_world. intros w0.
  pose proof (fun v => statvfs_u64 (root_filesystem self) w0 v) as Hv.
  destruct (statvfs (root_filesystem self) w0) as [values w]. cbn [fst] in *. emits_step.
  - simplify_result. specialize (Hv _ ltac:(eassumption)). 
    apply emits_ret. exists (Some a). do 2 (split; [done|]). intros ? [= <-].
    match goal with Hd : calculate_disk_metrics _ _ = Ok _ |- _ =>
      apply calculate_disk_metrics_published in Hd as (Hmount & t & av & u & p & r & -> & Hr); [|done] end.
    cbn in Hmount. subst. do 4 eexists. split; [reflexivity|]. intros ? [= <-]. by exists r.
  - apply emits_push. by exists None.
Qed.

(** The shape of the readings of a cycle and of its errors. *)
Definition report (groups : list (string * bool)) : list str :=
  (fun g : string * bool => lit g.1) <$> List.filter snd groups.

Lemma report_cons n b gs : report ((n, b) :: gs) = (if b then [lit n] else []) ++ report gs.
Proof. by destruct b. Qed.

Record shape (self : Collector) (usage frequency : result unit (option f64)) (r : TelemetryReadings)
    (names : list str) : Prop := {
  shape_cpu : exists l t,
    cpu r = {| Model.usage_percent := value_of usage; load_1 := one_minute <$> l; load_5 := five_minutes <$> l;
               load_15 := fifteen_minutes <$> l; temperature_c := t; frequency_mhz := value_of frequency |}
    /\ roundable (value_of usage) 1 /\ roundable (value_of frequency) 1
    /\ names = report
         [("cpu.usage_percent", failed usage); ("cpu.load_average", missing l); ("cpu.temperature_c", missing t);
          ("cpu.frequency_mhz", failed frequency); ("memory", missing (mem_total_bytes (memory r)));
          ("uptime_seconds", missing (uptime_seconds r)); ("disk", missing (disk_total_bytes (disk r)));
          ("power", missing (throttled_raw (power r)))]%string;
  shape_memory :
    (memory r = MemoryMetrics_default /\ swap r = SwapMetrics_default)
    \/ (exists t a u p, memory r = Build_MemoryMetrics (Some t) (Some a) (Some u) (Some p) /\ roundable (Some p) 1)
       /\ exists t u p, swap r = Build_SwapMetrics (Some t) (Some u) (Some p) /\ roundable (Some p) 1;
  shape_disk :
    disk r = DiskMetrics_unavailable (root_filesystem self)
    \/ exists t a u p, disk r = {| mount := root_filesystem self; disk_total_bytes := Some t;
         disk_available_bytes := Some a; disk_used_bytes := Some u; disk_used_percent := Some p |}
       /\ roundable (Some p) 1;
  shape_power : power r = PowerMetrics_default \/ exists s, power r = power_metrics s;
}.

Lemma collect_readings_at `{!StatvfsU64} self c :
  let usage := usage_outcome (sample c) (world c) in
  let frequency := frequency_outcome FREQUENCY_PATHS (frequency_world self (sample c) (world c)) in
  emits_at c (collect_readings (W := W) self) (fun r es => shape self usage frequency r (metric <$> es)).
Proof.
  intros usage frequency. unfold collect_readings.
  cbn [TelemetryReadings_unavailable cpu memory swap disk power CpuMetrics_default
    load_1 load_5 load_15 temperature_c frequency_mhz].
  destruct (collect_cpu_usage_at c) as [Husage Hworld]. fold usage in Husage.
  eapply emits_at_mono; cycle 1.
  { eapply emits_at_bind; [exact Husage|intros u].
    eapply emits_at_bind; [apply collect_load_average_emits|intros c1].
    eapply emits_at_bind; [apply collect_temperature_emits|intros c2].
    eapply emits_at_bind; [apply collect_frequency_at|intros c3].
    eapply emits_at_bind; [apply collect_memory_emits|intros m].
    eapply emits_at_bind; [apply collect_uptime_emits|intros up].
    eapply emits_at_bind; [apply collect_disk_emits|intros d].
    eapply emits_at_bind; [apply collect_power_emits|intros p].
    apply emits_return. }
  cbn beta. intros r es
    (u & e1 & ? & -> & (-> & F1 & Hu) & c1 & e2 & ? & -> & (l & -> & F2) & c2 & e3 & ? & -> & (t & -> & F3)
     & c3 & e4 & ? & -> & (-> & F4 & Hf) & m & e5 & ? & -> & (F5 & Hm)
     & up & e6 & ? & -> & F6 & d & e7 & ? & -> & (od & -> & F7 & Hd) & p & e8 & ? & -> & (s & -> & F8) & -> & ->).
  rewrite ?collect_temperature_world, ?collect_load_average_world, ?Hworld in F4, Hf |- *.
  change (frequency_outcome FREQUENCY_PATHS _) with frequency in F4, Hf |- *.
  clearbody usage frequency. clear Husage Hworld. unfold flagged in *.
  rewrite !fmap_app, F1, F2, F3, F4, F5, F6, F7, F8, app_nil_r.
  split; cbn [cpu memory swap disk power uptime_seconds].
  - exists l, t. split; [by destruct (value_of frequency), l, t|]. do 2 (split; [done|]).
    rewrite !report_cons. unfold report. cbn [List.filter fmap list_fmap].
    repeat apply (f_equal2 app). all: try reflexivity.
    + destruct m as [[mem sw]|]; [|done]. by destruct (Hm _ _ eq_refl) as [(? & ? & ? & ? & -> & _) _].
    + destruct od as [d|]; [|done]. by destruct (Hd _ eq_refl) as (? & ? & ? & ? & -> & _).
    + by destruct s.
  - destruct m as [[mem sw]|]; [right; by apply Hm|by left].
  - destruct od as [d|]; [right; by apply Hd|by left].
  - destruct s as [s|]; [right; by exists s|by left].
Qed.

(** What utilisation and frequency the cycle finds. *)
Definition cycle_usage (self : Collector) (w : W) : result unit (option f64) :=
  usage_outcome (previous_cpu self) (clocks_read w).
Definition cycle_frequency (self : Collector) (w : W) : result unit (option f64) :=
  frequency_outcome FREQUENCY_PATHS (frequency_world self (previous_cpu self) (clocks_read w)).

Lemma collect_shape `{!StatvfsU64} self w :
  let s := (collect self w).1.1 in
  shape self (cycle_usage self w) (cycle_frequency self w)
    {| uptime_seconds := state_uptime_seconds s; cpu := state_cpu s; memory := state_memory s;
       swap := state_swap s; disk := state_disk s; power := state_power s |}
    (metric <$> Health.collector_errors (health s)).
Proof.
  unfold collect, cycle_usage, cycle_frequency, clocks_read.
  destruct (monotonic_now w) as [started w1]. cbn [snd]. destruct (now_utc w1) as [at_ w2].
  destruct (collect_readings_at self {| errors := []; sample := previous_cpu self; world := w2 |})
    as (es & He & Hs). cbn [sample world snd] in *.
  destruct (collect_readings _ _) as [r c]. cbn in He, Hs. destruct (monotonic_now (world c)) as [fin w3].
  cbn. rewrite He. by destruct r.
Qed.

(** The fields of a payload that one source supplies together. *)
Definition field_groups (s : TelemetryState) : list (list bool) :=
  let c := state_cpu s in let m := state_memory s in let sw := state_swap s in
  let d := state_disk s in let p := state_power s in
  [[missing (load_1 c); missing (load_5 c); missing (load_15 c)];
   [missing (mem_total_bytes m); missing (mem_available_bytes m); missing (mem_used_bytes m);
    missing (mem_used_percent m); missing (swap_total_bytes sw); missing (swap_used_bytes sw);
    missing (swap_used_percent sw)];
   [missing (disk_total_bytes d); missing (disk_available_bytes d); missing (disk_used_bytes d);
    missing (disk_used_percent d)];
   [missing (throttled_raw p); missing (undervoltage_now p); missing (arm_frequency_capped_now p);
    missing (throttled_now p); missing (soft_temperature_limit_now p); missing (undervoltage_since_boot p);
    missing (arm_frequency_capped_since_boot p); missing (throttled_since_boot p);
    missing (soft_temperature_limit_since_boot p)]].

(** C15: a payload accounts for its gaps.  Its error list names
    exactly, once and in the order of collection, the sources that failed:
    utilisation when a reading of [/proc/stat] it needs is bad or the counters are
    inconsistent, frequency when the first frequency file that exists is
    unreadable or malformed, the others when their measurements are missing.
    Utilisation and frequency are those found, and may be missing without an
    error (no counter advanced, no frequency file); a source's fields are all
    present or all missing. *)
Theorem collect_reports_failures `{!StatvfsU64} self w :
  let s := (collect self w).1.1 in
  let usage := usage_outcome (previous_cpu self) (clocks_read w) in
  let frequency := frequency_outcome FREQUENCY_PATHS (frequency_world self (previous_cpu self) (clocks_read w)) in
  metric <$> Health.collector_errors (health s) = report
    [("cpu.usage_percent", failed usage); ("cpu.load_average", missing (load_1 (state_cpu s)));
     ("cpu.temperature_c", missing (temperature_c (state_cpu s))); ("cpu.frequency_mhz", failed frequency);
     ("memory", missing (mem_total_bytes (state_memory s)));
     ("uptime_seconds", missing (state_uptime_seconds s));
     ("disk", missing (disk_total_bytes (state_disk s)));
     ("power", missing (throttled_raw (state_power s)))]%string
  /\ Model.usage_percent (state_cpu s) = value_of usage /\ frequency_mhz (state_cpu s) = value_of frequency
  /\ Forall (fun group => forallb Datatypes.id group = existsb Datatypes.id group) (field_groups s)
  /\ mount (state_disk s) = root_filesystem self.
Proof.
  intros s usage frequency. destruct (collect_shape self w) as [Hcpu Hmem Hdisk Hpower].
  fold s in Hcpu, Hmem, Hdisk, Hpower. change (cycle_usage self w) with usage in Hcpu.
  change (cycle_frequency self w) with frequency in Hcpu. clearbody usage frequency.
  cbn [cpu memory swap disk power uptime_seconds] in *.
  destruct Hcpu as (l & t & Hcpu & _ & _ & Hnames).
  unfold field_groups. rewrite Hcpu, Hnames. cbn [Model.usage_percent load_1 load_5 load_15 temperature_c frequency_mhz].
  split; [by destruct l|]. split; [done|]. split; [done|]. split.
  - apply List.Forall_cons; [by destruct l|]. apply List.Forall_cons.
    { destruct Hmem as [[-> ->]|[(? & ? & ? & ? & -> & _) (? & ? & ? & -> & _)]]; done. }
    apply List.Forall_cons; [by destruct Hdisk as [->|(? & ? & ? & ? & -> & _)]|].
    apply List.Forall_cons; [by destruct Hpower as [->|[? ->]]|constructor].
  - by destruct Hdisk as [->|(? & ? & ? & ? & -> & _)].
Qed.

(** C18: of everything a cycle measures, only a load average
    or a temperature, accepted by its parser as a finite number of any size,
    can keep a payload from being serialised, and it does when rounding takes
    it out of range; below [2^64] no measurement does. *)
Theorem collected_state_serialises `{!StatvfsU64} self w :
  let s := (collect self w).1.1 in
  let unbounded := [(load_1 (state_cpu s), 2); (load_5 (state_cpu s), 2); (load_15 (state_cpu s), 2);
                    (temperature_c (state_cpu s), 1)] in
  is_ok (rfc3339_format (observed_at s)) = true ->
  (is_ok (serialize_state s) = true <-> Forall (fun '(x, places) => roundable x places) unbounded)
  /\ (Forall (fun xp : option f64 * Z => forall v, xp.1 = Some v -> magnitude_le v 64) unbounded ->
       is_ok (serialize_state s) = true).
Proof.
  intros s unbounded Htime. destruct (collect_shape self w) as [Hcpu Hmem Hdisk Hpower].
  fold s in Hcpu, Hmem, Hdisk, Hpower. cbn [cpu memory swap disk power uptime_seconds] in *.
  assert (is_ok (serialize_state s) = true <-> Forall (fun '(x, places) => roundable x places) unbounded) as Hiff.
  { rewrite serialize_state_ok_iff. unfold float_fields, unbounded. rewrite !Forall_cons, !Forall_nil.
    destruct Hcpu as (l & t & -> & Hu & Hf & _).
    cbn [Model.usage_percent load_1 load_5 load_15 temperature_c frequency_mhz].
    assert (roundable (mem_used_percent (state_memory s)) 1 /\ roundable (swap_used_percent (state_swap s)) 1
            /\ roundable (disk_used_percent (state_disk s)) 1) as (? & ? & ?).
    { split; [|split].
      - by destruct Hmem as [[-> _]|[(? & ? & ? & ? & -> & ?) _]].
      - by destruct Hmem as [[_ ->]|[_ (? & ? & ? & -> & ?)]].
      - by destruct Hdisk as [->|(? & ? & ? & ? & -> & ?)]. }
    tauto. }
  split; [exact Hiff|]. intros Hall. apply Hiff. unfold unbounded in *.
  rewrite !Forall_cons in *. cbn [fst] in Hall.
  destruct Hall as (H1' & H2' & H3' & H4' & _).
  repeat split; try constructor; intros v Hv; apply rounded_metric_magnitude; eauto.
Qed.
End reports.

(** ** A concrete host

    A board with its counters, load, memory and root filesystem, but without a
    thermal zone, a frequency file or an uptime, and with a firmware command
    that answers; the world counts the readings of [/proc/stat]. *)

Definition host_text (path : PathBuf) (reads : nat) : result ErrorKind str :=
  if bool_decide (path = PROC_STAT) then
    Ok (lit "cpu  " ++ to_string (100 + 10 * Z.of_nat reads) ++ lit " 0 0 850 0 0 0 50" ++ [10])
  else if bool_decide (path = PROC_LOADAVG) then Ok (lit "0.50 0.25 0.10 1/100 4242")
  else if bool_decide (path = MetricsMemory.PROC_MEMINFO) then Ok legacy_meminfo
  else Err NotFound.

Definition host_disk : result ErrorKind StatvfsValues := Ok (Build_StatvfsValues 4096 1000 400 350).

Definition host_firmware (arguments : list str) : result CommandFailure str :=
  if bool_decide (arguments = [lit "measure_temp"]) then Ok (lit "temp=48.3'C") else Err TimedOut.

#[local] Instance host_source : SystemSource nat := {|
  read_text path reads := (host_text path reads, if bool_decide (path = PROC_STAT) then S reads else reads);
  read_bytes _ reads := (Err NotFound, reads);
  is_file path reads := (bool_decide (path = lit "/opt/vc/bin/vcgencmd"), reads);
  statvfs _ reads := (host_disk, reads);
|}.

#[local] Instance host_runner : CommandRunner nat := {|
  run_command _ arguments _ reads := (host_firmware arguments, reads);
|}.

#[local] Instance host_clock : Clock (H := text_time) nat := {|
  now_utc reads := ((lit "2026-08-16T12:34:56Z" : ObservationTime (H := text_time)), reads);
  monotonic_now reads := (0, reads);
  sleep _ reads := reads;
|}.

#[local] Instance host_statvfs : StatvfsU64 (W := nat).
Proof. intros path w v [= <-]. unfold valid_statvfs, is_u64, u64_max. cbn. lia. Qed.

Definition host_collector : Collector := {|
  root_filesystem := lit "/"; vcgencmd_path := lit "/opt/vc/bin/vcgencmd"; command_timeout := from_secs 2;
  previous_cpu := None;
  metadata := Build_DeviceMetadata None None None None None None;
|}.

Definition host_state : TelemetryState (H := text_time) :=
  (collect (H2 := host_clock) host_collector 0%nat).1.1.

Lemma collect_reports_failures_witness :
  StatvfsU64 (W := nat)
  /\ metric <$> Health.collector_errors (health host_state) = [lit "uptime_seconds"; lit "power"]
  /\ Forall (fun group => forallb Datatypes.id group = existsb Datatypes.id group) (field_groups host_state).
Proof.
  split; [exact host_statvfs|]. split; [vm_compute; reflexivity|].
  exact (proj1 (proj2 (proj2 (proj2 (collect_reports_failures (H2 := host_clock) host_collector 0%nat))))).
Defined.

Lemma collected_state_serialises_witness :
  StatvfsU64 (W := nat) /\ is_ok (rfc3339_format (observed_at host_state)) = true
  /\ is_ok (serialize_state host_state) = true.
Proof.
  split; [exact host_statvfs|]. split; [reflexivity|].
  destruct (collected_state_serialises (H2 := host_clock) host_collector 0%nat eq_refl) as [Hiff _].
  apply (proj2 Hiff). clear Hiff.
  repeat (apply List.Forall_cons; [intros v Hv; vm_compute in Hv; first [discriminate Hv|injection Hv as <-; eexists; vm_compute; reflexivity]|]).
  constructor.
Defined.
