(* ===== verification/CollectorSources.v ===== *)
(** * The sources of a collection cycle

    Every measurement is the one its own source gives, whatever the others
    answer; a cycle asks for a bounded number of waits; the firmware command is found
    where the documentation says. *)

From S2P Require Import Prelude RustStr RustFloat RustFloatFacts Model Config MetricsError MetricsCpu MetricsMemory MetricsDisk MetricsMetadata MetricsPower MetricsTemperature MetricsUptime Collector CollectorReports.

Local Open Scope Z_scope.

(** ** Reasoning about a cycle *)

Section cycle_logic.
Context {W : Type}.

(** [m] keeps the CPU sample and returns a value that satisfies [P]. *)
Definition ensures {A} (m : Cy (W := W) A) (P : A -> Prop) : Prop :=
  forall c, sample (m c).2 = sample c /\ P (m c).1.

Lemma ensures_bind {A B} (m : Cy (W := W) A) P (f : A -> Cy B) Q :
  ensures m P -> (forall a, P a -> ensures (f a) Q) -> ensures (m ≫= f) Q.
Proof.
  intros Hm Hf c. unfold mbind, cy_bind. destruct (Hm c) as [Hs Ha], (m c) as [a c']. destruct (Hf a Ha c') as [Hs' Hb].
  split; [etrans; [exact Hs'|exact Hs]|exact Hb].
Qed.

Lemma ensures_world {A B} (f : W -> A * W) (g : A -> Cy B) Q :
  (forall a, ensures (g a) Q) -> ensures (on_world f ≫= g) Q.
Proof.
  intros Hg. apply (ensures_bind _ (fun _ => True)); [|by intros a _]. intros c. unfold on_world. by destruct (f (world c)).
Qed.

End cycle_logic.

(** ** Independent readings *)

Section independent.
Context {W : Type} `{SystemSource W} `{CommandRunner W} `{Clock W}.
Context (text : PathBuf -> result ErrorKind str) (disk_values : PathBuf -> result ErrorKind StatvfsValues)
  (firmware : PathBuf -> list str -> Duration -> result CommandFailure str).

(** The sources but [/proc/stat] answer the same whenever they are read. *)
Class StableSource : Prop := {
  stable_text : forall p w, p <> PROC_STAT -> (read_text p w).1 = text p;
  stable_disk : forall p w, (statvfs p w).1 = disk_values p;
  stable_firmware : forall p args t w, (run_command p args t w).1 = firmware p args t;
}.

(** What each measurement must be, on its own. *)
Definition load_reference : option LoadAverage := result_ok (parsed parse_loadavg (text PROC_LOADAVG)).
Definition temperature_reference (self : Collector) : option f64 :=
  match text THERMAL_ZONE with
  | Ok input => result_ok (parse_millidegrees_celsius input)
  | Err NotFound =>
    result_ok (parsed parse_vcgencmd_temperature
      (firmware (vcgencmd_path self) [lit "measure_temp"] (command_timeout self)))
  | Err OtherKind => None
  end.
Definition frequency_reference : option f64 :=
  match List.find (fun path => bool_decide (text path <> Err NotFound)) FREQUENCY_PATHS with
  | Some path => result_ok (parsed parse_frequency_khz (text path))
  | None => None
  end.
Definition memory_reference : option Memory.MemoryMetrics :=
  result_ok (parsed parse_meminfo (text MetricsMemory.PROC_MEMINFO)).
Definition uptime_reference : option Z := result_ok (parsed parse_uptime_seconds (text PROC_UPTIME)).
Definition disk_reference (self : Collector) : DiskMetrics :=
  default (DiskMetrics_unavailable (root_filesystem self))
    (result_ok (disk_values (root_filesystem self)) ≫= fun v =>
     result_ok (calculate_disk_metrics (root_filesystem self) v)).
Definition power_reference (self : Collector) : PowerMetrics :=
  from_option power_metrics PowerMetrics_default
    (result_ok (parsed parse_throttled
      (firmware (vcgencmd_path self) [lit "get_throttled"] (command_timeout self)))).

(** The utilisation, given the sample known before: that since the sample, or over
    the warm-up second when there is none yet; with the sample known afterwards. *)
Definition utilisation (previous : CpuTimes) (r : result unit CpuTimes) : option f64 * option CpuTimes :=
  match r with
  | Ok current => (default None (result_ok (MetricsCpu.usage_percent previous current)), Some current)
  | Err _ => (None, Some previous)
  end.
Definition usage_reference (known : option CpuTimes) (w : W) : option f64 * option CpuTimes :=
  match known, cpu_sample w with
  | Some previous, (r, _) => utilisation previous r
  | None, (Ok initial, w) => utilisation initial (cpu_sample (sleep CPU_WARMUP w)).1
  | None, (Err _, _) => (None, None)
  end.

(** [m] returns [a]. *)
Definition yields {A} (m : Cy (W := W) A) (a : A) : Prop := ensures m (fun a' => a' = a).

Lemma yields_ret {A} (a : A) : yields (mret a) a.
Proof. done. Qed.

Lemma yields_push name msg {A} (a : A) : yields (_ ← push_error name msg; mret a) a.
Proof. done. Qed.

Lemma yields_bind {A B} (m : Cy (W := W) A) a (f : A -> Cy B) b :
  yields m a -> yields (f a) b -> yields (m ≫= f) b.
Proof. intros Hm Hf. eapply ensures_bind; [exact Hm|]. by intros ? ->. Qed.

Lemma yields_world {A B} (f : W -> A * W) a (g : A -> Cy B) b :
  (forall w, (f w).1 = a) -> yields (g a) b -> yields (on_world f ≫= g) b.
Proof.
  intros Hf Hg. eapply yields_bind; [|exact Hg]. intros c. unfold on_world.
  specialize (Hf (world c)). by destruct (f (world c)).
Qed.

(** What a cycle reports and keeps of [/proc/stat]. *)
Lemma collect_cpu_usage_reference c :
  let '(usage, c') := collect_cpu_usage (W := W) c in (usage, sample c') = usage_reference (sample c) (world c).
Proof.
  unfold collect_cpu_usage, usage_reference. unfold mbind, cy_bind, get_sample. cbv beta.
  destruct (sample c) as [previous|] eqn:Es; cbn [mret cy_ret].
  - rewrite read_cpu_sample_eq. destruct (cpu_sample (world c)) as [[current|e] w1]; cbn -[MetricsCpu.usage_percent]; [|by rewrite Es].
    by destruct (MetricsCpu.usage_percent previous current) as [[v|]|e].
  - rewrite read_cpu_sample_eq. destruct (cpu_sample (world c)) as [[initial|e] w1]; cbn -[MetricsCpu.usage_percent]; [|by rewrite Es].
    rewrite read_cpu_sample_eq. cbn -[MetricsCpu.usage_percent cpu_sample]. destruct (cpu_sample (sleep CPU_WARMUP w1)) as [[current|e] w2]; cbn -[MetricsCpu.usage_percent]; [|done].
    by destruct (MetricsCpu.usage_percent initial current) as [[v|]|e].
Qed.
End independent.
Arguments StableSource W {_ _} text disk_values firmware.

Section independent_proofs.
Context {W : Type} `{SystemSource W} `{CommandRunner W} `{Clock W}.
Context text disk_values firmware `{Hs : !StableSource W text disk_values firmware}.

Ltac yields_step :=
  match goal with
  | |- yields (mret _) _ => apply yields_ret
  | |- yields (_ ← push_error _ _; mret _) _ => apply yields_push
  | |- yields (on_world _ ≫= _) _ =>
    eapply yields_world;
      [intros ?; first [apply (stable_disk text disk_values firmware) | apply (stable_firmware text disk_values firmware)
                       | apply (stable_text text disk_values firmware); vm_compute; discriminate]
      |cbv beta]
  end.

Lemma yields_load cpu :
  yields (W := W) (collect_load_average cpu) (from_option (set_load cpu) cpu (load_reference text)).
Proof.
  unfold collect_load_average, load_reference. yields_step.
  destruct (parsed _ _); yields_step.
Qed.

Lemma yields_temperature self cpu :
  yields (W := W) (collect_temperature self cpu)
    (from_option (set_temperature cpu) cpu (temperature_reference text firmware self)).
Proof.
  unfold collect_temperature, temperature_reference, parsed. yields_step.
  destruct (text THERMAL_ZONE) as [input|[]]; [|yields_step|yields_step].
  - destruct (parse_millidegrees_celsius input); yields_step.
  - destruct (firmware _ _ _) as [output|]; cbn; [|yields_step].
    destruct (parse_vcgencmd_temperature output); yields_step.
Qed.

Lemma yields_frequency cpu :
  yields (W := W) (collect_frequency cpu) (from_option (set_frequency cpu) cpu (frequency_reference text)).
Proof.
  unfold collect_frequency, frequency_reference.
  assert (Forall (fun p => p <> PROC_STAT) FREQUENCY_PATHS) as Hp
    by (repeat (constructor; [vm_compute; discriminate|]); constructor).
  revert Hp. generalize FREQUENCY_PATHS as paths. induction 1 as [|path paths Hp Hps IH]; [apply yields_ret|].
  cbn [collect_frequency_from List.find].
  eapply yields_world; [intros w; by apply (stable_text text disk_values firmware)|cbv beta]. unfold parsed.
  destruct (text path) as [input|[]] eqn:E; [| |].
  - rewrite bool_decide_eq_true_2, E by done. cbn. destruct (parse_frequency_khz input); yields_step.
  - rewrite bool_decide_eq_false_2 by (intros Hne; done). exact IH.
  - rewrite bool_decide_eq_true_2, E by done. yields_step.
Qed.

Lemma yields_disk self :
  yields (W := W) (collect_disk self (DiskMetrics_unavailable (root_filesystem self)))
    (disk_reference disk_values self).
Proof.
  unfold collect_disk, disk_reference. yields_step.
  destruct (disk_values _) as [v|]; [|apply yields_push].
  cbn [map_err result_ok mbind result_bind option_bind].
  destruct (calculate_disk_metrics _ v); [apply yields_ret|apply yields_push].
Qed.

Lemma yields_power self :
  yields (W := W) (collect_power self PowerMetrics_default) (power_reference firmware self).
Proof. unfold collect_power, power_reference. yields_step. destruct (parsed _ _); yields_step. Qed.

(** The readings of a cycle but for the utilisation, which depends on the
    earlier samples. *)
Definition readings_reference (self : Collector) (usage : option f64) : TelemetryReadings := {|
  uptime_seconds := uptime_reference text;
  cpu := {| Model.usage_percent := usage; load_1 := one_minute <$> load_reference text;
            load_5 := five_minutes <$> load_reference text; load_15 := fifteen_minutes <$> load_reference text;
            temperature_c := temperature_reference text firmware self;
            frequency_mhz := frequency_reference text |};
  memory := from_option (fun m => {| mem_total_bytes := Some (Memory.total_bytes m);
              mem_available_bytes := Some (Memory.available_bytes m);
              mem_used_bytes := Some (Memory.used_bytes m);
              mem_used_percent := Some (Memory.used_percent m) |}) MemoryMetrics_default (memory_reference text);
  swap := from_option (fun m => {| swap_total_bytes := Some (Memory.swap_total_bytes m);
            swap_used_bytes := Some (Memory.swap_used_bytes m);
            swap_used_percent := Some (Memory.swap_used_percent m) |}) SwapMetrics_default (memory_reference text);
  disk := disk_reference disk_values self;
  power := power_reference firmware self;
|}.

Definition memory_pair (m : Memory.MemoryMetrics) : MemoryMetrics * SwapMetrics :=
  ({| mem_total_bytes := Some (Memory.total_bytes m); mem_available_bytes := Some (Memory.available_bytes m);
      mem_used_bytes := Some (Memory.used_bytes m); mem_used_percent := Some (Memory.used_percent m) |},
   {| swap_total_bytes := Some (Memory.swap_total_bytes m); swap_used_bytes := Some (Memory.swap_used_bytes m);
      swap_used_percent := Some (Memory.swap_used_percent m) |}).

Lemma yields_memory : yields (W := W) collect_memory (memory_pair <$> memory_reference text).
Proof.
  unfold collect_memory, memory_reference. yields_step. destruct (parsed _ _); yields_step.
Qed.

Lemma yields_uptime : yields (W := W) collect_uptime (uptime_reference text).
Proof. unfold collect_uptime, uptime_reference. yields_step. destruct (parsed _ _); yields_step. Qed.

Lemma collect_readings_yields self c :
  let '(r, c') := collect_readings (W := W) self c in
  let '(usage, known) := usage_reference (sample c) (world c) in
  r = readings_reference self usage /\ sample c' = known.
Proof.
  pose proof (collect_cpu_usage_reference c) as Hu.
  unfold collect_readings, mbind at 1, cy_bind. destruct (collect_cpu_usage c) as [usage c1].
  destruct (usage_reference _ _) as [usage' known]. injection Hu as <- <-.
  cbv zeta. match goal with |- context [(?m ≫= ?f) c1] =>
    enough (yields (m ≫= f) (readings_reference self usage)) as Hm;
      [destruct (Hm c1) as [Hs' Hr], ((m ≫= f) c1); by split|] end.
  eapply yields_bind; [apply yields_load|]. eapply yields_bind; [apply yields_temperature|].
  eapply yields_bind; [apply yields_frequency|]. eapply yields_bind; [apply yields_memory|].
  eapply yields_bind; [apply yields_uptime|]. eapply yields_bind; [apply yields_disk|].
  eapply yields_bind; [apply yields_power|]. intros c2. split; [done|]. unfold readings_reference.
  destruct (load_reference text), (temperature_reference text firmware self), (frequency_reference text),
    (memory_reference text); reflexivity.
Qed.

(** C16: one unavailable measurement never discards another.  When
    the sources are stable, every measurement of a payload is the one its own
    source gives, through its fallbacks, whatever the other sources answer; the
    utilisation is that since the sample of the cycles before, and the sample
    read is kept for the cycles after. *)
Theorem collect_reads_each_source (self : Collector) (w : W) :
  let '(s, self', _) := collect self w in
  let '(usage, known) := usage_reference (previous_cpu self) (clocks_read w) in
  let r := readings_reference self usage in
  state_cpu s = cpu r /\ state_memory s = memory r /\ state_swap s = swap r /\ state_disk s = disk r
  /\ state_power s = power r /\ state_uptime_seconds s = uptime_seconds r /\ previous_cpu self' = known.
Proof.
  unfold collect, clocks_read. destruct (monotonic_now w) as [started w1]. cbn [snd]. destruct (now_utc w1) as [at_ w2].
  pose proof (collect_readings_yields self {| errors := []; sample := previous_cpu self; world := w2 |}) as Hu.
  cbn [sample world snd] in *. destruct (collect_readings _ _) as [r c], (usage_reference _ _) as [usage known].
  destruct Hu as [-> ->]. destruct (monotonic_now _) as [fin w3]. cbn -[readings_reference]. by split_and!.
Qed.
End independent_proofs.

(** ** The cycles *)

Section cycles.
Context {W : Type} `{SystemSource W} `{CommandRunner W} `{Clock W}.

Definition cycle (c : Collector * W) : Collector * W := let '(_, self, w) := collect c.1 c.2 in (self, w).
Definition cycles (n : nat) : Collector * W -> Collector * W := Nat.iter n cycle.
End cycles.

(** ** What a cycle waits for

    Any host, with a note of the sleeps and of the runs of the firmware command,
    with their deadlines, that are asked of it.  Whether a run keeps its deadline
    is the business of [Command]. *)

Inductive Wait := Slept (d : Duration) | Ran (path : PathBuf) (arguments : list str) (deadline : Duration).

Section waits.
Context {W : Type} `{SystemSource W} `{CommandRunner W} `{Clock W}.

Definition Noted : Type := W * list Wait.
Definition noted {A} (f : W -> A * W) (w : Noted) : A * Noted := let '(a, w1) := f w.1 in (a, (w1, w.2)).
Definition note (x : Wait) (w : Noted) : Noted := (w.1, w.2 ++ [x]).

#[local] Instance noted_source : SystemSource Noted := {|
  read_text path := noted (read_text path); read_bytes path := noted (read_bytes path);
  is_file path := noted (is_file path); statvfs path := noted (statvfs path);
|}.
#[local] Instance noted_runner : CommandRunner Noted := {|
  run_command path arguments timeout w := noted (run_command path arguments timeout) (note (Ran path arguments timeout) w);
|}.
#[local] Instance noted_clock : Clock Noted := {|
  now_utc := noted now_utc; monotonic_now := noted monotonic_now;
  sleep d w := let w := note (Slept d) w in (sleep d w.1, w.2);
|}.

Lemma noted_quiet {A} (f : W -> A * W) w : (noted f w).2.2 = w.2.
Proof. unfold noted. by destruct (f w.1). Qed.

(** [waits m P]: [m] asks for waits that satisfy [P], and keeps the CPU sample. *)
Definition waits {A} (m : Cy (W := Noted) A) (P : list Wait -> Prop) : Prop :=
  forall c, exists ws, (world (m c).2).2 = (world c).2 ++ ws /\ P ws /\ sample (m c).2 = sample c.

Lemma waits_ret {A} (a : A) (P : list Wait -> Prop) : P [] -> waits (mret a) P.
Proof. intros HP c. exists []. by rewrite app_nil_r. Qed.

Lemma waits_push name msg {A} (a : A) (P : list Wait -> Prop) : P [] -> waits (_ ← push_error name msg; mret a) P.
Proof. intros HP c. exists []. by rewrite app_nil_r. Qed.

Lemma waits_quiet {A B} (f : W -> A * W) (g : A -> Cy B) P :
  (forall a, waits (g a) P) -> waits (on_world (noted f) ≫= g) P.
Proof.
  intros Hg c. unfold mbind, cy_bind, on_world. pose proof (noted_quiet f (world c)) as Hf.
  destruct (noted f (world c)) as [a w]. cbn [snd] in Hf.
  destruct (Hg a {| errors := errors c; sample := sample c; world := w |}) as (ws & Hw & HP & Hs).
  exists ws. cbn [world] in Hw. rewrite Hf in Hw. by split_and!.
Qed.

Lemma waits_run {A} path arguments timeout (g : _ -> Cy A) (P : list Wait -> Prop) :
  (forall r, waits (g r) (fun ws => P (Ran path arguments timeout :: ws))) ->
  waits (on_world (run_command path arguments timeout) ≫= g) P.
Proof.
  intros Hg c. unfold mbind, cy_bind, on_world. set (w0 := note (Ran path arguments timeout) (world c)).
  pose proof (noted_quiet (run_command path arguments timeout) w0) as Hf.
  change (run_command path arguments timeout (world c)) with (noted (run_command path arguments timeout) w0).
  destruct (noted _ w0) as [r w]. cbn [snd] in Hf.
  destruct (Hg r {| errors := errors c; sample := sample c; world := w |}) as (ws & Hw & HP & Hs).
  exists (Ran path arguments timeout :: ws). cbn [world] in Hw. rewrite Hf in Hw. split_and!; [|done|done].
  rewrite Hw. unfold w0, note. cbn [snd]. by rewrite <-app_assoc.
Qed.

Lemma waits_bind {A B} (m : Cy A) (f : A -> Cy B) (P Q R : list Wait -> Prop) :
  waits m P -> (forall a, waits (f a) Q) -> (forall ws1 ws2, P ws1 -> Q ws2 -> R (ws1 ++ ws2)) -> waits (m ≫= f) R.
Proof.
  intros Hm Hf HR c. unfold mbind, cy_bind. destruct (Hm c) as (ws1 & Hw1 & HP & Hs1). destruct (m c) as [a c'].
  destruct (Hf a c') as (ws2 & Hw2 & HQ & Hs2). cbn [snd] in *. exists (ws1 ++ ws2).
  split_and!; [by rewrite Hw2, Hw1, <-app_assoc|by apply HR|congruence].
Qed.

Ltac waits_step :=
  match goal with
  | |- waits (mret _) _ => apply waits_ret
  | |- waits (_ ← push_error _ _; mret _) _ => apply waits_push
  | |- waits (on_world (run_command _ _ _) ≫= _) _ => apply waits_run; intros ?; cbv beta
  | |- waits (on_world _ ≫= _) _ => apply waits_quiet; intros ?; cbv beta
  | |- waits (match ?x with _ => _ end) _ => destruct x
  end.

Definition nothing (ws : list Wait) : Prop := ws = [].
Definition firmware_run (self : Collector) (argument : string) : Wait :=
  Ran (vcgencmd_path self) [lit argument] (command_timeout self).
Definition maybe (x : Wait) (ws : list Wait) : Prop := ws = [] \/ ws = [x].

Lemma waits_load cpu : waits (collect_load_average cpu) nothing.
Proof. unfold collect_load_average. by repeat waits_step. Qed.

Lemma waits_temperature self cpu : waits (collect_temperature self cpu) (maybe (firmware_run self "measure_temp")).
Proof. unfold collect_temperature. repeat waits_step; first [by left|by right]. Qed.

Lemma waits_frequency cpu : waits (collect_frequency cpu) nothing.
Proof.
  unfold collect_frequency. generalize FREQUENCY_PATHS as paths.
  induction paths as [|path paths IH]; cbn [collect_frequency_from]; repeat waits_step; done || exact IH.
Qed.

Lemma waits_memory : waits collect_memory nothing.
Proof. unfold collect_memory. by repeat waits_step. Qed.

Lemma waits_uptime : waits collect_uptime nothing.
Proof. unfold collect_uptime. by repeat waits_step. Qed.

Lemma waits_disk self disk : waits (collect_disk self disk) nothing.
Proof. unfold collect_disk. by repeat waits_step. Qed.

Lemma waits_power self power : waits (collect_power self power) (fun ws => ws = [firmware_run self "get_throttled"]).
Proof. unfold collect_power. by repeat waits_step. Qed.

(** The warm-up is waited for when no sample is known, and leaves one. *)
Definition warmup (known known' : option CpuTimes) (ws : list Wait) : Prop :=
  (ws = [] \/ ws = [Slept CPU_WARMUP] /\ known = None /\ known' <> None) /\ (known <> None -> known' <> None).

Lemma cpu_sample_quiet (w : Noted) : (cpu_sample w).2.2 = w.2.
Proof.
  unfold cpu_sample. change (read_text PROC_STAT w) with (noted (read_text PROC_STAT) w).
  pose proof (noted_quiet (read_text PROC_STAT) w) as Hq. by destruct (noted _ w).
Qed.

Lemma cpu_usage_waits c :
  let c' := (collect_cpu_usage (W := Noted) c).2 in
  exists ws, (world c').2 = (world c).2 ++ ws /\ warmup (sample c) (sample c') ws.
Proof.
  destruct (collect_cpu_usage_at c) as [_ Hw]. pose proof (collect_cpu_usage_reference c) as Hu. cbv zeta.
  destruct (collect_cpu_usage c) as [v c']. cbn [snd] in *. apply (f_equal snd) in Hu. cbn [snd] in Hu. rewrite Hw, Hu.
  unfold usage_world, usage_reference, utilisation, warmup. pose proof (cpu_sample_quiet (world c)) as Hq.
  destruct (sample c) as [previous|], (cpu_sample (world c)) as [[current|e] w1]; cbn [snd] in *.
  - exists []. rewrite app_nil_r. split; [done|]. by split; [left|].
  - exists []. rewrite app_nil_r. split; [done|]. by split; [left|].
  - exists [Slept CPU_WARMUP]. split.
    + rewrite cpu_sample_quiet. unfold sleep, noted_clock, note. cbn [snd]. by rewrite Hq.
    + split; [right; split_and!; [done..|]|done]. by destruct (cpu_sample (sleep CPU_WARMUP w1)) as [[current'|e] w2].
  - exists []. rewrite app_nil_r. split; [done|]. by split; [left|].
Qed.

(** The waits of a cycle. *)
Definition cycle_waits (self : Collector) (ws : list Wait) : Prop :=
  exists u t, ws = u ++ t ++ [firmware_run self "get_throttled"]
    /\ maybe (Slept CPU_WARMUP) u /\ maybe (firmware_run self "measure_temp") t.
Definition sleeps (ws : list Wait) : nat :=
  length (List.filter (fun x => match x with Slept _ => true | Ran _ _ _ => false end) ws).
Definition warmups_left (known : option CpuTimes) : nat := match known with None => 1 | Some _ => 0 end.

Lemma sleeps_app ws1 ws2 : sleeps (ws1 ++ ws2) = (sleeps ws1 + sleeps ws2)%nat.
Proof. unfold sleeps. by rewrite List.filter_app, length_app. Qed.

Lemma readings_wait self c :
  let c' := (collect_readings (W := Noted) self c).2 in
  exists ws, (world c').2 = (world c).2 ++ ws /\ cycle_waits self ws
    /\ (sleeps ws + warmups_left (sample c') <= warmups_left (sample c))%nat.
Proof.
  cbv zeta. remember (collect_readings self c) as r eqn:Hr.
  unfold collect_readings, mbind at 1, cy_bind at 1 in Hr. cbv zeta in Hr.
  destruct (cpu_usage_waits c) as (u & Hu & Hwarm & Hkeep). destruct (collect_cpu_usage c) as [usage c1]. cbn [snd] in *.
  match type of Hr with r = ?m c1 => assert (waits m (fun ws => exists t, ws = t ++ [firmware_run self "get_throttled"]
    /\ maybe (firmware_run self "measure_temp") t)) as Hm end.
  { eapply waits_bind; [apply waits_load|intros ?|intros ? ws2 -> Hws; exact Hws].
    eapply (waits_bind _ _ _ (fun ws => ws = [firmware_run self "get_throttled"]));
      [apply waits_temperature|intros ?|intros t ws2 Ht ->; by exists t].
    eapply waits_bind; [apply waits_frequency|intros ?|intros ? ws2 -> Hws; exact Hws].
    eapply waits_bind; [apply waits_memory|intros ?|intros ? ws2 -> Hws; exact Hws].
    eapply waits_bind; [apply waits_uptime|intros ?|intros ? ws2 -> Hws; exact Hws].
    eapply waits_bind; [apply waits_disk|intros ?|intros ? ws2 -> Hws; exact Hws].
    eapply (waits_bind _ _ _ nothing); [apply waits_power|intros ?; by apply waits_ret|by intros ? ? -> ->]. }
  destruct (Hm c1) as (ws & Hw & (t & -> & Ht) & Hs). rewrite <-Hr in Hw, Hs. rewrite Hw, Hs, Hu.
  exists (u ++ t ++ [firmware_run self "get_throttled"]). split; [by rewrite <-app_assoc|]. split.
  - exists u, t. split; [done|]. split; [|done]. destruct Hwarm as [?|(? & _)]; [by left|by right].
  - rewrite !sleeps_app. destruct Ht as [->| ->], Hwarm as [->|(-> & -> & Hn)]; cbn;
      destruct (sample c1); cbn; try done; destruct (sample c); cbn; try lia; by destruct Hkeep.
Qed.

Lemma cycle_wait self (w : Noted) :
  let '(self', w') := cycle (self, w) in
  vcgencmd_path self' = vcgencmd_path self /\ command_timeout self' = command_timeout self
  /\ exists ws, w'.2 = w.2 ++ ws /\ cycle_waits self ws
      /\ (sleeps ws + warmups_left (previous_cpu self') <= warmups_left (previous_cpu self))%nat.
Proof.
  unfold cycle, collect. cbn [fst snd].
  pose proof (noted_quiet monotonic_now w) as Hq1. change (monotonic_now w) with (noted monotonic_now w).
  destruct (noted monotonic_now w) as [started w2].
  pose proof (noted_quiet now_utc w2) as Hq2. change (now_utc w2) with (noted now_utc w2).
  destruct (noted now_utc w2) as [at_ w3]. cbn [snd] in *.
  pose proof (readings_wait self {| errors := []; sample := previous_cpu self; world := w3 |}) as (ws & Hws & Hc & Hs).
  destruct (collect_readings _ _) as [r c]. cbn [snd sample world] in Hws, Hs.
  pose proof (noted_quiet monotonic_now (world c)) as Hq3. change (monotonic_now (world c)) with (noted monotonic_now (world c)).
  destruct (noted monotonic_now (world c)) as [fin w4]. cbn [fst snd vcgencmd_path command_timeout previous_cpu] in *.
  split; [done|]. split; [done|]. exists ws. split; [by rewrite Hq3, Hws, Hq2, Hq1|done].
Qed.

(** C19: what collection cycles wait for, whatever the host answers.  Each
    cycle runs the firmware command for the throttling state, at most once more
    for the temperature, each time the configured command with the configured
    deadline, and sleeps at most for the warm-up; any number of cycles sleeps at
    most once, and never when a CPU sample is already known. *)
Theorem cycles_wait_boundedly (n : nat) (self : Collector) (w : W) :
  let r := cycles (W := Noted) n (self, (w, [])) in
  exists wss, length wss = n /\ r.2.2 = concat wss /\ Forall (cycle_waits self) wss
    /\ (sleeps r.2.2 + warmups_left (previous_cpu r.1) <= warmups_left (previous_cpu self))%nat.
Proof.
  intros r.
  enough (vcgencmd_path r.1 = vcgencmd_path self /\ command_timeout r.1 = command_timeout self
    /\ exists wss, length wss = n /\ r.2.2 = concat wss /\ Forall (cycle_waits self) wss
    /\ (sleeps r.2.2 + warmups_left (previous_cpu r.1) <= warmups_left (previous_cpu self))%nat) as (_ & _ & Hr)
    by exact Hr.
  subst r. unfold cycles. induction n as [|n IH]; [split_and!; try done; exists []; by split_and!|]. rewrite Nat.iter_succ.
  revert IH. match goal with |- context [@Nat.iter n ?A ?f ?x] => generalize (@Nat.iter n A f x) end. intros [self1 w1].
  intros (Hv & Ht & wss & Hlen & Hw & Hall & Hle). cbn [fst snd] in *.
  pose proof (cycle_wait self1 w1) as Hc. destruct (cycle (self1, w1)) as [self2 w2].
  destruct Hc as (Hv' & Ht' & ws & Hws & Hc & Hs). cbn [fst snd]. split; [congruence|]. split; [congruence|].
  exists (wss ++ [ws]). rewrite Hws. split; [rewrite length_app, Hlen; cbn; lia|].
  split; [by rewrite Hw, concat_app; cbn; rewrite app_nil_r|]. split.
  - apply Forall_app. split; [done|]. constructor; [|constructor]. unfold cycle_waits, firmware_run in *. by rewrite <-Hv, <-Ht.
  - rewrite sleeps_app. lia.
Qed.
End waits.

(** ** The utilisation over the cycles *)

Section history.
Context {W : Type} `{SystemSource W} `{CommandRunner W} `{Clock W}.

Ltac ensures_step :=
  match goal with
  | |- ensures (on_world _ ≫= _) _ => apply ensures_world; intros ?; cbv beta
  | |- ensures (match ?x with _ => _ end) _ => destruct x
  | |- ensures _ _ => intros ?; done
  end.

Definition same_usage (cpu cpu' : CpuMetrics) : Prop := Model.usage_percent cpu' = Model.usage_percent cpu.

Lemma ensures_load cpu : ensures (collect_load_average cpu) (same_usage cpu).
Proof. unfold collect_load_average. repeat ensures_step. Qed.

Lemma ensures_temperature self cpu : ensures (collect_temperature self cpu) (same_usage cpu).
Proof. unfold collect_temperature. repeat ensures_step. Qed.

Lemma ensures_frequency cpu : ensures (collect_frequency cpu) (same_usage cpu).
Proof.
  unfold collect_frequency. generalize FREQUENCY_PATHS as paths.
  induction paths as [|path paths IH]; cbn [collect_frequency_from]; repeat first [exact IH|ensures_step].
Qed.

Lemma ensures_memory : ensures collect_memory (fun _ => True).
Proof. unfold collect_memory. repeat ensures_step. Qed.
Lemma ensures_uptime : ensures collect_uptime (fun _ => True).
Proof. unfold collect_uptime. repeat ensures_step. Qed.
Lemma ensures_disk self disk : ensures (collect_disk self disk) (fun _ => True).
Proof. unfold collect_disk. repeat ensures_step. Qed.
Lemma ensures_power self power : ensures (collect_power self power) (fun _ => True).
Proof. unfold collect_power. repeat ensures_step. Qed.

(** The utilisation of a payload is that of the samples, and the sample read is
    kept, whatever the other sources do. *)
Lemma collect_usage (self : Collector) (w : W) :
  let '(s, self', _) := collect self w in
  (Model.usage_percent (state_cpu s), previous_cpu self') = usage_reference (previous_cpu self) (clocks_read w).
Proof.
  unfold collect, clocks_read. destruct (monotonic_now w) as [started w1]. cbn [snd]. destruct (now_utc w1) as [at_ w2].
  pose proof (collect_cpu_usage_reference {| errors := []; sample := previous_cpu self; world := w2 |}) as Hu.
  unfold collect_readings, mbind at 1, cy_bind.
  destruct (collect_cpu_usage _) as [usage c1]. cbn [sample world snd] in *. rewrite <-Hu. clear Hu.
  cbv zeta. match goal with |- context [(?m ≫= ?f) c1] =>
    enough (ensures (m ≫= f) (fun r => Model.usage_percent (cpu r) = usage)) as Hm;
      [specialize (Hm c1); destruct ((m ≫= f) c1) as [r c2]|] end.
  { destruct Hm as [Hs Hr]. cbn [fst snd] in *. destruct (monotonic_now (world c2)) as [fin w3].
    cbn [state_cpu TelemetryState_new previous_cpu]. f_equal; [exact Hr|exact Hs]. }
  eapply ensures_bind; [apply ensures_load|intros cpu1 H1'].
  eapply ensures_bind; [apply ensures_temperature|intros cpu2 H2'].
  eapply ensures_bind; [apply ensures_frequency|intros cpu3 H3'].
  eapply ensures_bind; [apply ensures_memory|intros ? _]. eapply ensures_bind; [apply ensures_uptime|intros ? _].
  eapply ensures_bind; [apply ensures_disk|intros ? _]. eapply ensures_bind; [apply ensures_power|intros ? _].
  intros c2. split; [done|]. cbn. unfold same_usage in *. by rewrite H3', H2', H1'.
Qed.

(** The newest sample of a sequence of readings that could be parsed. *)
Definition last_good (p : CpuTimes) (rs : list (result unit CpuTimes)) : CpuTimes :=
  fold_left (fun p r => default p (result_ok r)) rs p.
Definition reading_at (c : Collector * W) : result unit CpuTimes := (cpu_sample (clocks_read c.2)).1.

(** C17: the utilisation of every payload is that since the
    newest sample of the cycles before that could be read, however many of them
    failed; whatever the other sources do. *)
Theorem usage_since_last_sample (n : nat) (self : Collector) (w : W) (p0 : CpuTimes) :
  previous_cpu self = Some p0 ->
  let at_ k := cycles k (self, w) in
  let previous := last_good p0 ((fun k => reading_at (at_ k)) <$> seq 0 n) in
  previous_cpu (at_ n).1 = Some previous
  /\ let '(s, _, _) := collect (at_ n).1 (at_ n).2 in
     Model.usage_percent (state_cpu s) = (utilisation previous (reading_at (at_ n))).1.
Proof.
  intros Hp at_ previous.
  assert (forall k, let p := last_good p0 ((fun k => reading_at (at_ k)) <$> seq 0 k) in
    previous_cpu (at_ k).1 = Some p -> let '(s, self', _) := collect (at_ k).1 (at_ k).2 in
    (Model.usage_percent (state_cpu s), previous_cpu self') = utilisation p (reading_at (at_ k))) as Hstep.
  { intros k p Hk. pose proof (collect_usage (at_ k).1 (at_ k).2) as Hu. rewrite Hk in Hu. cbn [usage_reference] in Hu.
    unfold reading_at. destruct (cpu_sample _) as [r w1]. exact Hu. }
  assert (previous_cpu (at_ n).1 = Some previous) as Hn.
  { subst previous. induction n as [|n IH]; [done|]. specialize (Hstep n IH). rewrite seq_S, fmap_app. unfold last_good in *.
    rewrite fold_left_app. cbn [fold_left fmap list_fmap].
    change (at_ (S n)) with (cycle (at_ n)). unfold cycle.
    destruct (collect (at_ n).1 (at_ n).2) as [[s self'] w']. cbn [fst]. apply (f_equal snd) in Hstep. cbn [snd] in Hstep. rewrite Hstep.
    change (0 + n)%nat with n. by destruct (reading_at (at_ n)). }
  split; [exact Hn|]. specialize (Hstep n Hn). destruct (collect (at_ n).1 (at_ n).2) as [[s self'] w'].
  by apply (f_equal fst) in Hstep.
Qed.
End history.

(** ** The firmware command *)

Section firmware_command.
Context {W : Type} `{SystemSource W}.
Context (present : PathBuf -> bool).

(** The files do not come and go during the resolution, and the spelling of a
    path does not matter. *)
Class StableFiles : Prop := {
  stable_file : forall p w, (is_file p w).1 = present p;
  same_file : forall p q, path_eqb p q = true -> present p = present q;
}.

Context `{!StableFiles}.

Lemma is_file_present p w : exists w', is_file p w = (present p, w').
Proof. rewrite (surjective_pairing (is_file p w)), stable_file. eauto. Qed.

Lemma find_vcgencmd_first candidates configured w :
  present configured = false -> (find_vcgencmd candidates configured w).1 = List.find present candidates.
Proof.
  intros Hc. revert w. induction candidates as [|p ps IH]; intros w; cbn; [done|].
  destruct (path_eqb p configured) eqn:E.
  - by rewrite IH, (same_file _ _ E), Hc.
  - destruct (is_file_present p w) as [w' ->]. destruct (present p); [done|apply IH].
Qed.

(** A collector is created exactly when the firmware command exists
    at the configured path or, failing that, at a standard one, the first that
    exists being used; it has no CPU sample yet, and no unreadable device
    metadata prevents it. *)
Theorem collector_uses_first_vcgencmd (config : CollectorConfig.t) (w : W) :
  match (Collector_new config w).1 with
  | Ok c =>
    List.find present (CollectorConfig.vcgencmd_path config :: STANDARD_VCGENCMD_PATHS) = Some (vcgencmd_path c)
    /\ root_filesystem c = CollectorConfig.root_filesystem config
    /\ command_timeout c = CollectorConfig.command_timeout config /\ previous_cpu c = None
  | Err FirmwareCommandUnavailable =>
    Forall (fun p => present p = false) (CollectorConfig.vcgencmd_path config :: STANDARD_VCGENCMD_PATHS)
  end.
Proof.
  unfold Collector_new, with_dependencies, resolve_vcgencmd.
  set (configured := CollectorConfig.vcgencmd_path config).
  destruct (is_file_present configured w) as [w1 ->]. destruct (present configured) eqn:Ec.
  - destruct (detect_metadata w1) as [m w2]. cbn. by rewrite Ec.
  - pose proof (find_vcgencmd_first STANDARD_VCGENCMD_PATHS configured w1 Ec) as Hf.
    destruct (find_vcgencmd _ _ _) as [[p|] w2]; cbn [ok_or fst] in *.
    + destruct (detect_metadata w2) as [m w3]. cbn [fst vcgencmd_path root_filesystem command_timeout previous_cpu].
      split; [|done]. cbn [List.find]. by rewrite Ec.
    + constructor; [done|]. apply List.Forall_forall. intros p Hp.
      by eapply List.find_none.
Qed.
End firmware_command.

(** ** Concrete sources *)

#[local] Existing Instances text_time host_source host_runner host_clock.

Lemma collect_reads_each_source_witness :
  StableSource nat (fun p => host_text p 0) (fun _ => host_disk) (fun _ args _ => host_firmware args)
  /\ (usage_reference (W := nat) (H2 := host_clock) None (clocks_read (H2 := host_clock) 0%nat)).1 = Some (f64_lit "100")
  /\ let '(s, _, _) := collect (H2 := host_clock) host_collector 0%nat in
     Model.usage_percent (state_cpu s) = Some (f64_lit "100")
     /\ state_disk s = disk_reference (fun _ => host_disk) host_collector.
Proof.
  assert (StableSource nat (fun p => host_text p 0) (fun _ => host_disk) (fun _ args _ => host_firmware args)) as Hs.
  { split; [|done|done]. intros p w Hp. unfold read_text, host_source, host_text, fst. by rewrite bool_decide_eq_false_2. }
  split; [exact Hs|].
  assert ((usage_reference (W := nat) (H2 := host_clock) None (clocks_read (H2 := host_clock) 0%nat)).1 = Some (f64_lit "100")) as Hu
    by (vm_compute; reflexivity).
  split; [exact Hu|].
  pose proof (collect_reads_each_source (H2 := host_clock) _ _ _ host_collector 0%nat) as Hc.
  change (previous_cpu host_collector) with (@None CpuTimes) in Hc.
  destruct (collect host_collector 0%nat) as [[s k] w']. destruct (usage_reference _ _) as [u known]. cbn [fst] in Hu.
  destruct Hc as (Hcpu & _ & _ & Hd & _). split; [rewrite Hcpu; exact Hu|exact Hd].
Defined.

#[local] Existing Instances noted_source noted_runner.

(** The first of three cycles warms up. *)
Example cycles_wait_example :
  let run name := Ran (lit "/opt/vc/bin/vcgencmd") [lit name] (from_secs 2) in
  (cycles (W := Noted (W := nat)) (H2 := noted_clock (H2 := host_clock)) 3 (host_collector, (0%nat, []))).2.2
  = [Slept CPU_WARMUP; run "measure_temp"; run "get_throttled"; run "measure_temp"; run "get_throttled";
     run "measure_temp"; run "get_throttled"]%string.
Proof. vm_compute. reflexivity. Qed.

(** A firmware command at one of the standard paths. *)
#[local] Instance firmware_source : SystemSource unit := {|
  read_text _ w := (Err NotFound, w); read_bytes _ w := (Err NotFound, w);
  is_file path w := (path_eqb path (lit "/opt/vc/bin/vcgencmd"), w); statvfs _ w := (host_disk, w);
|}.

Lemma collector_uses_first_vcgencmd_witness :
  let config := {| CollectorConfig.interval := from_secs 30; CollectorConfig.command_timeout := from_secs 5;
                   CollectorConfig.root_filesystem := lit "/"; CollectorConfig.vcgencmd_path := lit "/usr/bin/vcgencmd" |} in
  StableFiles (W := unit) (fun p => path_eqb p (lit "/opt/vc/bin/vcgencmd"))
  /\ exists c, (Collector_new (W := unit) config tt).1 = Ok c /\ vcgencmd_path c = lit "/opt/vc/bin/vcgencmd".
Proof.
  intros config.
  assert (StableFiles (W := unit) (fun p => path_eqb p (lit "/opt/vc/bin/vcgencmd"))) as Hs.
  { split; [done|]. intros p q Hpq. unfold path_eqb in *. apply bool_decide_eq_true in Hpq. by rewrite Hpq. }
  split; [exact Hs|]. pose proof (collector_uses_first_vcgencmd (W := unit) _ config tt) as Hc.
  destruct (Collector_new (W := unit) config tt).1 as [c|[]].
  - exists c. split; [done|]. destruct Hc as (Hf & _). revert Hf.
    generalize (vcgencmd_path c) as path. intros path Hf. vm_compute in Hf. injection Hf as <-. vm_compute. reflexivity.
  - exfalso. apply List.Forall_inv_tail, List.Forall_inv_tail, List.Forall_inv in Hc. vm_compute in Hc. discriminate Hc.
Defined.

Lemma usage_since_last_sample_witness :
  exists self, previous_cpu self = Some (Build_CpuTimes 100 0 0 850 0 0 0 50)
    /\ previous_cpu (cycles (W := nat) (H2 := host_clock) 3 (self, 0%nat)).1 = Some (Build_CpuTimes 120 0 0 850 0 0 0 50)
    /\ let '(s, _, _) := collect (H2 := host_clock) (cycles (W := nat) (H2 := host_clock) 3 (self, 0%nat)).1
                           (cycles (W := nat) (H2 := host_clock) 3 (self, 0%nat)).2 in
       Model.usage_percent (state_cpu s) = Some (f64_lit "100").
Proof.
  set (self := {| root_filesystem := lit "/"; vcgencmd_path := lit "/opt/vc/bin/vcgencmd"; command_timeout := from_secs 2;
    previous_cpu := Some (Build_CpuTimes 100 0 0 850 0 0 0 50); metadata := metadata host_collector |}).
  exists self. split; [reflexivity|].
  destruct (usage_since_last_sample (H2 := host_clock) 3 self 0%nat (Build_CpuTimes 100 0 0 850 0 0 0 50) eq_refl) as [Hp Hu].
  split; [rewrite Hp; vm_compute; reflexivity|].
  destruct (collect _ _) as [[s k] w']. rewrite Hu. vm_compute. reflexivity.
Defined.
