(* ===== verification/CollectorSystem.v ===== *)
(** * The system behind the collector ([src/src/collector.rs])

    The implementations of the collector's interfaces on the operating system:
    [RealSystemSource], [SystemClock] and [ProcessCommandRunner].  The calls of
    the operating system are the class [OperatingSystem]; what the theorems about
    the collector ask of a source is discharged here from what they say of a
    system whose files stay the same. *)

From S2P Require Import Prelude RustStr RustFloat Model Config MetricsDisk MetricsUptime Collector Command CollectorReports CollectorSources.

Local Open Scope Z_scope.

(** What [statvfs] fills in, as far as the program reads it. *)
Record Statvfs := { f_frsize : Z; f_blocks : Z; f_bfree : Z; f_bavail : Z }.

Class OperatingSystem (W : Type) `{TimeLib} := {
  os_read : PathBuf -> W -> result ErrorKind (list Z) * W;            (* fs::read *)
  os_metadata_is_file : PathBuf -> W -> result ErrorKind bool * W;    (* fs::metadata, is_file *)
  os_statvfs : PathBuf -> W -> result ErrorKind Statvfs * W;          (* rustix::fs::statvfs *)
  os_now_utc : W -> OffsetDateTime * W;                               (* OffsetDateTime::now_utc *)
  os_instant : W -> Duration * W;                                     (* Instant::now *)
  os_sleep : Duration -> W -> W;                                      (* thread::sleep *)
}.

(** [fs::read_to_string]: bytes that are not UTF-8 are an error of another kind
    than a missing file. *)
Definition to_text (r : result ErrorKind (list Z)) : result ErrorKind str :=
  bytes ← r; ok_or (utf8_decode bytes) OtherKind.

Definition statvfs_values (values : Statvfs) : StatvfsValues := {|
  fragment_size := f_frsize values; blocks := f_blocks values;
  blocks_free := f_bfree values; blocks_available := f_bavail values;
|}.

Section system.
Context {W : Type} `{OperatingSystem W}.

(** The Linux build of [RealSystemSource]. *)
#[export] Instance RealSystemSource : SystemSource W := {|
  Collector.read_text path w := let '(r, w) := os_read path w in (to_text r, w);
  Collector.read_bytes path w := os_read path w;
  Collector.is_file path w := let '(r, w) := os_metadata_is_file path w in (default false (result_ok r), w);
  Collector.statvfs path w := let '(r, w) := os_statvfs path w in (statvfs_values <$> r, w);
|}.

#[export] Instance SystemClock : Clock W := {|
  Collector.now_utc := os_now_utc; Collector.monotonic_now := os_instant; Collector.sleep := os_sleep;
|}.

(** The runner, on a system on which its runs return ([process_run_returns] says
    which): a collection whose run does not return does not go on either, and is
    not modelled. *)
Class RunsReturn `{Process W} : Type :=
  runs_return : forall program arguments timeout w,
    {rw : result CommandFailure str * W | process_run program arguments timeout w = Returns rw.1 rw.2}.
#[export] Instance ProcessCommandRunner `{RunsReturn} : CommandRunner W := {|
  run_command program arguments timeout w := proj1_sig (runs_return program arguments timeout w);
|}.

Lemma process_runner_run `{RunsReturn} program arguments timeout w :
  let r := run_command program arguments timeout w in
  process_run program arguments timeout w = Returns r.1 r.2.
Proof. apply (proj2_sig (runs_return program arguments timeout w)). Qed.

Definition responsive_runs `{Process W} (time : W -> Duration) `{!ClockLaws time} `{!Responsive} : RunsReturn.
Proof.
  intros program arguments timeout w. destruct (process_run program arguments timeout w) as [r w'| |] eqn:E.
  - by exists (r, w').
  - exfalso. destruct (process_run_returns time program arguments timeout w) as (r & w' & Hr). congruence.
  - exfalso. destruct (process_run_returns time program arguments timeout w) as (r & w' & Hr). congruence.
Defined.

(** ** A system whose files stay the same *)

Section quiet.
Context (files : PathBuf -> result ErrorKind (list Z)) (disks : PathBuf -> result ErrorKind Statvfs)
  (firmware : PathBuf -> list str -> Duration -> result CommandFailure str).

(** Everything but [/proc/stat] reads the same, the counters of [statvfs] are
    [u64], and a path names a file or not. *)
Class Quiet `{CommandRunner W} : Prop := {
  quiet_read : forall p w, p <> MetricsCpu.PROC_STAT -> (os_read p w).1 = files p;
  quiet_disk : forall p w, (os_statvfs p w).1 = disks p;
  quiet_command : forall p args t w, (run_command p args t w).1 = firmware p args t;
  statvfs_u64 : forall p v, disks p = Ok v -> Forall is_u64 [f_frsize v; f_blocks v; f_bfree v; f_bavail v];
}.

Context `{Quiet}.

#[export] Instance quiet_stable :
  StableSource W (fun p => to_text (files p)) (fun p => statvfs_values <$> disks p) firmware.
Proof.
  split; [| |apply quiet_command].
  - intros p w Hp. pose proof (quiet_read p w Hp) as Hr. cbn. destruct (os_read p w) as [r w']. cbn in *. by rewrite Hr.
  - intros p w. pose proof (quiet_disk p w) as Hd. cbn. destruct (os_statvfs p w) as [r w']. cbn in *. by rewrite Hd.
Qed.

#[export] Instance quiet_statvfs : StatvfsU64 (W := W).
Proof.
  intros p w v Hv. pose proof (quiet_disk p w) as Hd. cbn in Hv. destruct (os_statvfs p w) as [r w']. cbn in *. subst r.
  destruct (disks p) as [values|] eqn:E; [|done]. injection Hv as <-.
  pose proof (statvfs_u64 p values E) as Hu. rewrite !Forall_cons in Hu. unfold valid_statvfs. cbn. tauto.
Qed.
End quiet.
End system.

(** ** A concrete system *)

#[local] Existing Instances text_time.

(** A board whose uptime file is not UTF-8. *)
Definition board_file (path : PathBuf) : result ErrorKind (list Z) :=
  if bool_decide (path = THERMAL_ZONE) then Ok (utf8_encode (lit "48300"))
  else if bool_decide (path = MetricsUptime.PROC_UPTIME) then Ok [255; 49; 46; 48]
  else Err NotFound.
Definition board_disk : result ErrorKind Statvfs := Ok (Build_Statvfs 4096 1000 400 350).

#[local] Instance board : OperatingSystem (Duration * nat) := {|
  os_read path w := (board_file path, w);
  os_metadata_is_file path w := (Ok (bool_decide (path = lit "/usr/bin/vcgencmd")), w);
  os_statvfs _ w := (board_disk, w);
  os_now_utc w := ((lit "2026-08-16T12:34:56Z" : @OffsetDateTime text_time), w);
  os_instant w := (w.1, w);
  os_sleep d w := (w.1 + d, w.2);
|}.
#[local] Instance absent_firmware : CommandRunner (Duration * nat) := {| run_command _ _ _ w := (Err Spawn, w) |}.

Lemma board_quiet : Quiet board_file (fun _ => board_disk) (fun _ _ _ => Err Spawn).
Proof.
  split; [done|done|done|]. intros p v [= <-]. repeat (constructor; [unfold is_u64, u64_max; cbn; lia|]). constructor.
Qed.

Example board_payload :
  let '(s, _, _) := collect host_collector (0, 0%nat) in
  temperature_c (state_cpu s) = Some (f64_lit "48.3") /\ state_uptime_seconds s = None
  /\ disk_total_bytes (state_disk s) = Some 4096000.
Proof. vm_compute. by split_and!. Qed.
