(* ===== verification/Daemon.v ===== *)
(** * The daemon ([src/src/daemon.rs])

    The orchestration of the service: the discovery message built at the start,
    the blocking collection worker, the collection scheduler, and the
    supervision of the tasks with the error the process ends with.  The
    runtime ([tokio]) is outside the repository: the outcomes of its tasks,
    joins and timeouts are inputs. *)

From S2P Require Import Prelude RustStr Model Config Discovery Watch MqttProtocol MqttMachine MqttSupervisor Collector.

Local Open Scope Z_scope.

Definition MAX_BLOCKING_THREADS : Z := 2.
Definition COLLECTOR_DRAIN_TIMEOUT : Duration := from_secs 1.
Definition RUNTIME_SHUTDOWN_TIMEOUT : Duration := from_secs 1.
Definition SERVICE_MANAGER_STOP_BUDGET : Duration := from_secs 10.
Definition BUSY_WARNING_INTERVAL : Duration := from_secs 60.

(** The compile-time assertion of the source, which holds. *)
Definition stop_budget : bool :=
  as_secs GRACEFUL_SHUTDOWN_TIMEOUT + as_secs COLLECTOR_DRAIN_TIMEOUT + as_secs RUNTIME_SHUTDOWN_TIMEOUT
  <? as_secs SERVICE_MANAGER_STOP_BUDGET.
Example stop_budget_holds : stop_budget = true.
Proof. vm_compute. reflexivity. Qed.

(** ** Errors *)

(** [IoError] is [std::io::Error], which the program only carries. *)
Inductive DaemonError (IoError : Type) :=
  | RuntimeInitialization (source : IoError)
  | CollectorInitialization (source : CollectorInitError)
  | DiscoverySerialization (source : str)
  | StateSerialization (source : str)
  | SignalHandling (source : IoError)
  | Mqtt (source : MqttError)
  | TaskStopped (task : string)
  | TaskFailed (task : string).
Arguments RuntimeInitialization {_}. Arguments CollectorInitialization {_}.
Arguments DiscoverySerialization {_}. Arguments StateSerialization {_}. Arguments SignalHandling {_}.
Arguments Mqtt {_}. Arguments TaskStopped {_} task%_string. Arguments TaskFailed {_} task%_string.

Definition DaemonError_display {IoError} (e : DaemonError IoError) : str :=
  match e with
  | RuntimeInitialization _ => lit "the asynchronous runtime could not be initialized"
  | CollectorInitialization _ => lit "the telemetry collector could not be initialized"
  | DiscoverySerialization _ => lit "the discovery document could not be serialized"
  | StateSerialization _ => lit "a telemetry state could not be serialized"
  | SignalHandling _ => lit "the shutdown signal handler failed"
  | Mqtt _ => lit "the MQTT supervisor encountered an unrecoverable control failure"
  | TaskStopped task => lit "the " ++ lit task ++ lit " task stopped unexpectedly"
  | TaskFailed task => lit "the " ++ lit task ++ lit " task failed"
  end.

Section daemon.
Context {IoError : Type}.
Abbreviation DaemonError := (DaemonError IoError).

(** ** The discovery message *)

Definition with_some {A} (f : DiscoverySettings.t -> A -> DiscoverySettings.t) (o : option A)
    (s : DiscoverySettings.t) : DiscoverySettings.t :=
  match o with Some a => f s a | None => s end.

Definition discovery_settings (config : Config.t) (metadata : DeviceMetadata) : DiscoverySettings.t :=
  let settings := DiscoverySettings.new (DeviceConfig.id (Config.device config))
    (DeviceConfig.name (Config.device config)) (MqttConfig.base_topic (Config.mqtt config))
    (MqttConfig.discovery_prefix (Config.mqtt config)) (CollectorConfig.interval (Config.collector config)) in
  let settings := with_some DiscoverySettings.with_model (device_model metadata) settings in
  let settings := with_some DiscoverySettings.with_serial_number (serial_number metadata) settings in
  with_some DiscoverySettings.with_hardware_version (board_revision metadata) settings.

Definition discovery_message `{JsonText} (config : Config.t) (collector : Collector) :
    result DaemonError DiscoveryMessage :=
  map_err DiscoverySerialization (build_discovery_message (discovery_settings config (metadata collector))).

(** ** The tasks' outcomes *)

(** A joined task: [Err] when it panicked or was cancelled. *)
Definition Joined (A : Type) : Type := result unit A.

Definition finish_mqtt (task : Joined (result MqttError unit)) : result DaemonError unit :=
  match task with
  | Ok r => map_err Mqtt r
  | Err _ => Err (TaskFailed "MQTT supervisor")
  end.

Definition finish_collector (task : Joined (result DaemonError unit)) : result DaemonError unit :=
  match task with
  | Ok r => r
  | Err _ => Err (TaskFailed "collector worker")
  end.

(** [None]: the timeout passed first. *)
Definition finish_collector_with_timeout (task : option (Joined (result DaemonError unit))) :
    result DaemonError bool :=
  match task with
  | Some task => (fun _ => true) <$> finish_collector task
  | None => Ok false
  end.

Definition drain_collector (task : option (Joined (result DaemonError unit))) : result DaemonError unit :=
  _ ← finish_collector_with_timeout task; Ok tt.

Definition finish_task (task : Joined unit) (name : string) : result DaemonError unit :=
  map_err (fun _ => TaskFailed name) task.

Definition unexpected_mqtt (r : Joined (result MqttError unit)) : result DaemonError unit :=
  match r with
  | Ok (Ok _) => Err (TaskStopped "MQTT supervisor")
  | Ok (Err source) => Err (Mqtt source)
  | Err _ => Err (TaskFailed "MQTT supervisor")
  end.

Definition unexpected_collector (r : Joined (result DaemonError unit)) : result DaemonError unit :=
  match r with
  | Ok (Ok _) => Err (TaskStopped "collector worker")
  | Ok (Err e) => Err e
  | Err _ => Err (TaskFailed "collector worker")
  end.

Definition unexpected_task (r : Joined unit) (name : string) : result DaemonError unit :=
  match r with
  | Ok _ => Err (TaskStopped name)
  | Err _ => Err (TaskFailed name)
  end.

(** ** Supervision *)

Inductive Completion :=
  | CompletionSignal (signal : result IoError unit)
  | CompletionMqtt (r : Joined (result MqttError unit))
  | CompletionScheduler (r : Joined unit)
  | CompletionCollector (r : Joined (result DaemonError unit)).

(** The biased [select!]: the first branch in order that is ready; [None] while
    none is. *)
Definition select_completion (signal : option (result IoError unit)) (mqtt : option (Joined (result MqttError unit)))
    (scheduler : option (Joined unit)) (collector : option (Joined (result DaemonError unit))) : option Completion :=
  match signal, mqtt, scheduler, collector with
  | Some s, _, _, _ => Some (CompletionSignal s)
  | None, Some m, _, _ => Some (CompletionMqtt m)
  | None, None, Some s, _ => Some (CompletionScheduler s)
  | None, None, None, Some c => Some (CompletionCollector c)
  | None, None, None, None => None
  end.

(** What the tasks that are still running end with, after the shutdown request;
    the collector is waited for [COLLECTOR_DRAIN_TIMEOUT]. *)
Record Ends := {
  mqtt_end : Joined (result MqttError unit);
  scheduler_end : Joined unit;
  collector_end : option (Joined (result DaemonError unit));
}.

Definition service_result (completion : Completion) (ends : Ends) : result DaemonError unit :=
  let mqtt := finish_mqtt (mqtt_end ends) in
  let scheduler := finish_task (scheduler_end ends) "collection scheduler" in
  let collector := drain_collector (collector_end ends) in
  match completion with
  | CompletionSignal signal =>
    let primary := map_err SignalHandling signal in
    result_and (result_and (result_and primary mqtt) scheduler) collector
  | CompletionMqtt completed =>
    let primary := unexpected_mqtt completed in
    result_and (result_and primary scheduler) collector
  | CompletionScheduler completed =>
    let primary := unexpected_task completed "collection scheduler" in
    result_and (result_and primary mqtt) collector
  | CompletionCollector completed =>
    let primary := unexpected_collector completed in
    result_and (result_and primary mqtt) scheduler
  end.

(** [shutdown_signal]: the registrations, then the first stream that delivers,
    [None] when it closed. *)
Definition shutdown_signal (signal_stream_closed : IoError) (terminate interrupt : result IoError unit)
    (received : option unit) : result IoError unit :=
  _ ← terminate; _ ← interrupt; ok_or received signal_stream_closed.

(** ** The collection worker *)

Section tasks.
Context `{Watch}.

Inductive WorkerPc :=
  | Waiting                                              (* requests.changed() *)
  | Woken                                                (* requests.borrow_and_update() *)
  | Starting (id : Z)                                    (* busy.store(true) *)
  | Collecting (id : Z)                                  (* collector.collect_payload() *)
  | Collected (id : Z) (r : result DaemonError str)      (* states.send_replace(..) *)
  | Clearing (r : result DaemonError str)                (* busy.store(false); result? *)
  | WorkerDone (r : result DaemonError unit).

Record Worker := { pc : WorkerPc; requests_seen : seen }.

(** What the worker shares with the other tasks. *)
Record Shared := { shared_slots : Slots; busy : bool }.

Definition set_pc (p : WorkerPc) (k : Worker) : Worker := {| pc := p; requests_seen := requests_seen k |}.
Definition set_busy (b : bool) (sh : Shared) : Shared := {| shared_slots := shared_slots sh; busy := b |}.
Definition send_state (msg : StateMessage) (sh : Shared) : Shared :=
  {| shared_slots := {| states := send_replace (states (shared_slots sh)) (Some msg);
                        collection_requests := collection_requests (shared_slots sh) |};
     busy := busy sh |}.

Definition Worker_new (requests : channel Z) : Worker := {| pc := Waiting; requests_seen := mark requests |}.

(** One step of [collection_worker]; [None] while it waits.  [closed]: every
    sender of requests is gone; [payload]: what [collect_payload] returns. *)
Definition worker_step (closed : bool) (payload : result DaemonError str) (k : Worker) (sh : Shared) :
    option (Worker * Shared) :=
  let requests := collection_requests (shared_slots sh) in
  match pc k with
  | Waiting =>
    if has_changed requests (requests_seen k) then Some ({| pc := Woken; requests_seen := mark requests |}, sh)
    else if closed then Some (set_pc (WorkerDone (Ok tt)) k, sh)
    else None
  | Woken =>
    let request_id := borrow requests in
    Some ({| pc := if request_id =? 0 then Waiting else Starting request_id; requests_seen := mark requests |}, sh)
  | Starting id => Some (set_pc (Collecting id) k, set_busy true sh)
  | Collecting id => Some (set_pc (Collected id payload) k, sh)
  | Collected id r =>
    Some (set_pc (Clearing r) k,
          match r with Ok p => send_state {| request_id := id; state_payload := p |} sh | Err _ => sh end)
  | Clearing r =>
    Some (set_pc (match r with Ok _ => Waiting | Err e => WorkerDone (Err e) end) k, set_busy false sh)
  | WorkerDone _ => None
  end.

(** ** The collection scheduler *)

Inductive Scheduler :=
  | SchedulerStart
  | SchedulerLoop (last_busy_warning : option Duration)
  | SchedulerDone.

Inductive SchedulerEvent :=
  | SchedulerBegins (shutdown : bool)
  | SchedulerShutdown (c : ShutdownChange)
  | SchedulerTick (now : Duration).

Definition request_slot (sh : Shared) : Shared :=
  {| shared_slots := {| states := states (shared_slots sh);
                        collection_requests := (request_collection (collection_requests (shared_slots sh))).1 |};
     busy := busy sh |}.

(** The branch of a tick: whether it warns, the next state and the slots. *)
Definition warns (last_busy_warning : option Duration) (now : Duration) : bool :=
  match last_busy_warning with
  | None => true
  | Some last => BUSY_WARNING_INTERVAL <=? duration_saturating_sub now last
  end.

Definition scheduler_step (e : SchedulerEvent) (s : Scheduler) (sh : Shared) : option (Scheduler * Shared) :=
  match s, e with
  | SchedulerStart, SchedulerBegins shutdown =>
    if shutdown then Some (SchedulerDone, sh) else Some (SchedulerLoop None, request_slot sh)
  | SchedulerLoop last, SchedulerShutdown c =>
    Some (if stops c then SchedulerDone else SchedulerLoop last, sh)
  | SchedulerLoop last, SchedulerTick now =>
    if busy sh then Some (SchedulerLoop (if warns last now then Some now else last), sh)
    else Some (SchedulerLoop last, request_slot sh)
  | _, _ => None
  end.
End tasks.

(** ** The process *)

(** [collect_payload] of the collector. *)
Definition collect_payload `{JsonText} {W} `{SystemSource W} `{CommandRunner W} `{Clock W} (self : Collector) (w : W) :
    result DaemonError str * Collector * W :=
  let '(state, self, w) := collect self w in
  (map_err StateSerialization (document ← serialize_state state; json_to_string document), self, w).

(** [run_service]: [tasks] is how the spawned tasks run, that is which of them
    completes first and what the others end with. *)
Definition Tasks (W : Type) : Type :=
  Collector -> W -> DiscoveryMessage -> MqttSettings.t -> MqttCredentials.t -> Duration -> Completion * Ends.
Definition run_service {W} (tasks : Tasks W) (collector : Collector) (w : W) (discovery : DiscoveryMessage)
    (mqtt_settings : MqttSettings.t) (credentials : MqttCredentials.t) (interval : Duration) :
    result DaemonError unit :=
  let '(completion, ends) := tasks collector w discovery mqtt_settings credentials interval in
  service_result completion ends.

(** [build_runtime] is the runtime's. *)
Definition run `{JsonText} {W} `{SystemSource W} `{CommandRunner W} `{Clock W}
    (build_runtime : result IoError unit) (tasks : Tasks W)
    (config : Config.t) (credentials : MqttCredentials.t) (w : W) : result DaemonError unit :=
  let '(collector, w) := Collector_new (Config.collector config) w in
  collector ← map_err CollectorInitialization collector;
  discovery ← discovery_message config collector;
  let mqtt_settings := MqttSettings.new (Config.mqtt config) (DeviceConfig.id (Config.device config)) in
  let interval := CollectorConfig.interval (Config.collector config) in
  _ ← map_err RuntimeInitialization build_runtime;
  run_service tasks collector w discovery mqtt_settings credentials interval.
End daemon.
