(* ===== verification/DaemonService.v ===== *)
(** * The running service

    The supervisor, the collection worker and the collection scheduler of
    [daemon::run_service] as concurrent tasks over shared slots: a step relation
    that interleaves their atomic steps, the invariant of its runs, and the
    end-to-end promise that a published state was observed after the connection
    it is published on. *)

From Stdlib Require Import Sorted.
From S2P Require Import Prelude RustStr Config Discovery Watch MqttProtocol MqttMachine MqttSupervisor Collector Daemon.

Local Open Scope Z_scope.

(** Who asks for a collection: a new connection, or the schedule. *)
Inductive Requester := Connection | Schedule.

(** What happened, in order: a request id put into the request slot, a collection
    begun for an id, a state put into the state slot with its id. *)
Inductive Entry := Requested (by_whom : Requester) (id : Z) | Started (id : Z) | Sent (id : Z).

Definition requested_id (e : Entry) : option Z := match e with Requested _ id => Some id | _ => None end.
Definition connection_request (e : Entry) : option Z := match e with Requested Connection id => Some id | _ => None end.
Definition started_id (e : Entry) : option Z := match e with Started id => Some id | _ => None end.

Lemma seqZ_snoc m n : 0 <= n -> seqZ m (n + 1) = seqZ m n ++ [m + n].
Proof. intros Hn. by rewrite seqZ_app by lia. Qed.

Lemma StronglySorted_snoc l x :
  StronglySorted Z.lt l -> Forall (fun y => y < x) l -> StronglySorted Z.lt (l ++ [x]).
Proof.
  induction 1 as [|y l Hs IH Hy]; intros Hl; cbn; [repeat constructor|].
  apply Forall_cons in Hl as [? Hl]. constructor; [by apply IH|]. apply List.Forall_app. split; [done|]. by repeat constructor.
Qed.

Section service.
Context `{WL : WatchLaws} {IoError : Type}.
Variable accepts : nat -> bool.

Record Service := {
  mqtt_task : MqttSupervisor;
  mqtt_outcome : option (result MqttError unit);
  worker : Worker (IoError := IoError);
  scheduler : Scheduler;
  shared : Shared;
  sent_states : list StateMessage;
  log : list Entry;
}.

(** The supervisor has returned. *)
Definition mqtt_done (sv : Service) : bool := match mqtt_outcome sv with Some _ => true | None => false end.

(** The client has taken every request so far. *)
Definition mqtt_sound (sv : Service) : bool := match mqtt_outcome sv with Some (Err _) => false | _ => true end.

Definition requests_of (sv : Service) : channel Z := collection_requests (shared_slots (shared sv)).
Definition system_of (sv : Service) : System :=
  {| slots := shared_slots (shared sv); supervisor := mqtt_task sv; sent := sent_states sv |}.

(** The senders of requests are the supervisor and the scheduler. *)
Definition senders_gone (sv : Service) : bool :=
  mqtt_done sv && match scheduler sv with SchedulerDone => true | _ => false end.

Definition connects (shutdown_now : bool) (branch : Branch) : bool :=
  negb shutdown_now && match branch with Polled (Ok (IncomingConnAck Success)) _ => true | _ => false end.

(** A request that was made: the id the step left in the slot. *)
Definition new_request (by_whom : Requester) (requesting : bool) (w' : Slots) : list Entry :=
  if requesting then [Requested by_whom (borrow (collection_requests w'))] else [].

Definition scheduler_requests (e : SchedulerEvent) (s : Scheduler) (sh : Shared) : bool :=
  match s, e with
  | SchedulerStart, SchedulerBegins shutdown => negb shutdown
  | SchedulerLoop _, SchedulerTick _ => negb (busy sh)
  | _, _ => false
  end.

(** What a step of the worker puts into the state slot, and notes of it. *)
Definition worker_sends (p : WorkerPc (IoError := IoError)) (sh' : Shared) : list StateMessage :=
  match p with Collected _ (Ok _) => option_list (borrow (states (shared_slots sh'))) | _ => [] end.
Definition worker_entries (p : WorkerPc (IoError := IoError)) (sh' : Shared) : list Entry :=
  match p with Starting id => [Started id] | _ => (fun msg => Sent (request_id msg)) <$> worker_sends p sh' end.

Inductive ServiceLabel :=
  | MqttIterates (shutdown_now : bool) (branch : Branch) (polls : list Poll)
  | WorkerSteps (payload : result (DaemonError IoError) str)
  | SchedulerSteps (e : SchedulerEvent).

Inductive service_step : Service -> ServiceLabel -> Service -> Prop :=
  | service_mqtt now branch polls sv w' s' flow :
      mqtt_done sv = false -> enabled branch (system_of sv) ->
      iterate accepts now branch polls (shared_slots (shared sv)) (mqtt_task sv) = (w', s', flow) ->
      service_step sv (MqttIterates now branch polls)
        {| mqtt_task := s'; mqtt_outcome := match flow with Continue => None | Return r => Some r end;
           worker := worker sv; scheduler := scheduler sv;
           shared := {| shared_slots := w'; busy := busy (shared sv) |}; sent_states := sent_states sv;
           log := log sv ++ new_request Connection (connects now branch) w' |}
  | service_worker payload sv k' sh' :
      worker_step (senders_gone sv) payload (worker sv) (shared sv) = Some (k', sh') ->
      service_step sv (WorkerSteps payload)
        {| mqtt_task := mqtt_task sv; mqtt_outcome := mqtt_outcome sv; worker := k'; scheduler := scheduler sv;
           shared := sh'; sent_states := worker_sends (pc (worker sv)) sh' ++ sent_states sv;
           log := log sv ++ worker_entries (pc (worker sv)) sh' |}
  | service_scheduler e sv s' sh' :
      scheduler_step e (scheduler sv) (shared sv) = Some (s', sh') ->
      service_step sv (SchedulerSteps e)
        {| mqtt_task := mqtt_task sv; mqtt_outcome := mqtt_outcome sv; worker := worker sv; scheduler := s';
           shared := sh'; sent_states := sent_states sv;
           log := log sv ++ new_request Schedule (scheduler_requests e (scheduler sv) (shared sv)) (shared_slots sh') |}.

(** [run_service] after its channels and tasks are set up. *)
Definition service_start (settings : MqttSettings.t) (discovery : DiscoveryMessage) (j : Jitter) : Service :=
  let states := watch_channel None in
  let requests := watch_channel 0 in
  {| mqtt_task := MqttSupervisor_new settings discovery states j; mqtt_outcome := None;
     worker := Worker_new requests; scheduler := SchedulerStart;
     shared := {| shared_slots := {| states := states; collection_requests := requests |}; busy := false |};
     sent_states := []; log := [] |}.

(** ** The invariant *)

(** A collection for [id] began after [id] was handed out. *)
Definition observed_after_request (l : list Entry) (id : Z) (rest : list Entry -> Prop) : Prop :=
  exists l1 l2, l = l1 ++ Started id :: l2 /\ id ∈ omap requested_id l1 /\ rest l2.

Lemma observed_app l l' id (P Q : list Entry -> Prop) :
  (forall l2, P l2 -> Q (l2 ++ l')) -> observed_after_request l id P -> observed_after_request (l ++ l') id Q.
Proof.
  intros HPQ (l1 & l2 & -> & Hr & HP). exists l1, (l2 ++ l'). rewrite <-app_assoc. split_and!; [done|done|by apply HPQ].
Qed.

Definition worker_inv (b : Z) (changed : bool) (l : list Entry) (p : WorkerPc (IoError := IoError)) : Prop :=
  let starts := omap started_id l in
  Forall (fun id => id <= b) starts
  /\ (changed = true -> Forall (fun id => id < b) starts)
  /\ match p with
     | Woken => Forall (fun id => id < b) starts
     | Starting id => 1 <= id <= b /\ (changed = true -> id < b) /\ Forall (fun id' => id' < id) starts
     | Collecting id | Collected id _ => observed_after_request l id (fun _ => True)
     | _ => True
     end.

(** The ids are handed out as 1, 2, 3...; this is what the bound is for. *)
Definition counted (sv : Service) : Prop :=
  let b := borrow (requests_of sv) in
  omap requested_id (log sv) = seqZ 1 b
  /\ worker_inv b (has_changed (requests_of sv) (requests_seen (worker sv))) (log sv) (pc (worker sv))
  /\ StronglySorted Z.lt (omap started_id (log sv))
  /\ Forall (fun msg => observed_after_request (log sv) (request_id msg) (fun l2 => Sent (request_id msg) ∈ l2))
       (sent_states sv).

Definition in_progress (p : WorkerPc (IoError := IoError)) : bool :=
  match p with Collecting _ | Collected _ _ | Clearing _ => true | _ => false end.

(** The supervisor follows the machine, which was told to wait for the ids its
    connections requested. *)
Definition machine_inv (settings0 : MqttSettings.t) (payload0 : str) (sv : Service) (ops : list Op) : Prop :=
  refines_with settings0 payload0 (system_of sv) ops
  /\ omap connected_id ops = omap connection_request (log sv).

Definition service_inv (settings0 : MqttSettings.t) (payload0 : str) (sv : Service) : Prop :=
  0 <= borrow (requests_of sv) <= u64_max
  /\ (borrow (requests_of sv) < u64_max -> counted sv)
  /\ busy (shared sv) = in_progress (pc (worker sv))
  /\ borrow (states (shared_slots (shared sv))) = head (sent_states sv)
  /\ (mqtt_sound sv = true -> exists ops, machine_inv settings0 payload0 sv ops).

(** A request hands out the next id and is noticed. *)
Lemma counted_request sv sv' by_whom :
  0 <= borrow (requests_of sv) < u64_max ->
  requests_of sv' = (request_collection (requests_of sv)).1 ->
  log sv' = log sv ++ [Requested by_whom (borrow (requests_of sv'))] ->
  worker sv' = worker sv -> sent_states sv' = sent_states sv ->
  counted sv -> counted sv'.
Proof.
  intros Hb Hreq Hlog Hk Hsent (Hids & (Hle & Hlt & Hpc) & Hsort & Hobs).
  assert (borrow (requests_of sv') = borrow (requests_of sv) + 1) as Hb'
    by (rewrite Hreq, request_collection_borrow; unfold saturating_add; lia).
  rewrite Hb' in Hlog. set (b := borrow (requests_of sv)) in *. clearbody b.
  assert (omap started_id (log sv') = omap started_id (log sv)) as Hst
    by (rewrite Hlog, omap_app; cbn; by rewrite app_nil_r).
  unfold counted, worker_inv. rewrite Hb', Hst, Hk, Hsent.
  assert (Forall (fun id => id < b + 1) (omap started_id (log sv))) as Hlt1
    by (eapply Forall_impl; [exact Hle|]; intros; cbn in *; lia).
  split; [|split; [split; [|split; [done|]]|split; [done|]]].
  - rewrite Hlog, omap_app, Hids, seqZ_snoc by lia. f_equal. cbn. f_equal. lia.
  - eapply Forall_impl; [exact Hle|]. intros; cbn in *; lia.
  - destruct (pc (worker sv)); try done.
    + destruct Hpc as (? & _ & ?). split; [lia|]. split; [lia|done].
    + rewrite Hlog. by eapply observed_app; [|exact Hpc].
    + rewrite Hlog. by eapply observed_app; [|exact Hpc].
  - eapply Forall_impl; [exact Hobs|]. intros msg Hmsg. rewrite Hlog.
    eapply observed_app; [|exact Hmsg]. intros l2 Hin. apply elem_of_app. by left.
Qed.

(** Steps that leave the slots, the worker and the log alone. *)
Lemma counted_same sv sv' :
  requests_of sv' = requests_of sv -> log sv' = log sv -> worker sv' = worker sv ->
  sent_states sv' = sent_states sv -> counted sv -> counted sv'.
Proof. unfold counted. by intros -> -> -> ->. Qed.

(** The worker waits, reads the newest id, marks the collection, sends. *)
Lemma counted_worker sv sv' payload :
  worker_step (senders_gone sv) payload (worker sv) (shared sv) = Some (worker sv', shared sv') ->
  0 <= borrow (requests_of sv) ->
  log sv' = log sv ++ worker_entries (pc (worker sv)) (shared sv') ->
  sent_states sv' = worker_sends (pc (worker sv)) (shared sv') ++ sent_states sv ->
  counted sv -> counted sv' /\ borrow (requests_of sv') = borrow (requests_of sv)
    /\ (busy (shared sv) = in_progress (pc (worker sv)) -> busy (shared sv') = in_progress (pc (worker sv'))).
Proof.
  intros Hstep Hb Hlog Hsent (Hids & (Hle & Hlt & Hpc) & Hsort & Hobs).
  unfold counted, worker_inv, requests_of in *. destruct (worker sv) as [p m]. cbn [pc requests_seen] in *.
  unfold worker_step in Hstep. cbn [pc requests_seen] in Hstep.
  set (b := borrow (collection_requests (shared_slots (shared sv)))) in *.
  destruct p as [| |id|id|id r|r|r]; cbn [worker_entries worker_sends app in_progress fmap list_fmap] in *;
    rewrite ?app_nil_r in Hlog.
  - destruct (has_changed _ m) eqn:Ec; [|destruct (senders_gone sv); [|done]];
      injection Hstep as Hk Hsh; rewrite <-Hk, <-Hsh, Hlog, Hsent; cbn [pc requests_seen set_pc]; fold b.
    + rewrite changed_mark. by split_and!; [| | |apply Hlt| | | |].
    + rewrite Ec. by split_and!.
  - injection Hstep as Hk Hsh; rewrite <-Hk, <-Hsh, Hlog, Hsent; cbn [pc requests_seen set_pc]; fold b.
    rewrite changed_mark. destruct (Z.eqb_spec b 0); split_and!; try done. lia.
  - injection Hstep as Hk Hsh; rewrite <-Hk, <-Hsh, Hlog, Hsent;
      cbn [pc requests_seen set_pc set_busy shared_slots busy in_progress]; fold b.
    destruct Hpc as (Hid & Hidlt & Hids'). rewrite !omap_app. cbn [omap list_omap requested_id started_id].
    rewrite app_nil_r. split; [|done].
    split; [done|]. split; [split; [|split]|split].
    + apply Forall_app. split; [done|]. repeat constructor. lia.
    + intros Hc. apply Forall_app. split; [by apply Hlt|]. repeat constructor. by apply Hidlt.
    + exists (log sv), []. split; [done|]. split; [|done].
      rewrite Hids. apply elem_of_seqZ. lia.
    + apply StronglySorted_snoc; [done|exact Hids'].
    + eapply Forall_impl; [exact Hobs|]. intros msg Hmsg.
      eapply observed_app; [|exact Hmsg]. intros l2 Hin. apply elem_of_app. by left.
  - injection Hstep as Hk Hsh; rewrite <-Hk, <-Hsh, Hlog, Hsent; cbn [pc requests_seen set_pc]; fold b.
    by split_and!.
  - injection Hstep as Hk Hsh. rewrite <-Hsh in Hlog, Hsent. rewrite <-Hk, <-Hsh, Hlog, Hsent. destruct r as [text|e].
    2: { cbn [fmap list_fmap]. rewrite app_nil_r. cbn [pc requests_seen set_pc app]. fold b. by split_and!. }
    cbn [send_state shared_slots states]. rewrite borrow_send. cbn [option_list fmap list_fmap request_id].
    cbn [pc requests_seen set_pc send_state shared_slots collection_requests busy app]. fold b.
    rewrite !omap_app. cbn [omap list_omap requested_id started_id]. rewrite !app_nil_r.
    split; [|done]. split; [done|]. split; [done|]. split; [done|]. constructor.
    + eapply observed_app; [|exact Hpc]. intros l2 _. apply elem_of_app. right. by left.
    + eapply Forall_impl; [exact Hobs|]. intros msg Hmsg.
      eapply observed_app; [|exact Hmsg]. intros l2 Hin. apply elem_of_app. by left.
  - injection Hstep as Hk Hsh; rewrite <-Hk, <-Hsh, Hlog, Hsent; cbn [pc requests_seen set_pc set_busy shared_slots busy]; fold b.
    split; [split_and!; try done; by destruct r|]. split; [done|]. by destruct r.
  - done.
Qed.

(** Which iterations request. *)
Lemma iterate_slots now branch polls w s :
  let '(w', _, _) := iterate accepts now branch polls w s in
  states w' = states w
  /\ collection_requests w' = if connects now branch then (request_collection (collection_requests w)).1
                              else collection_requests w.
Proof.
  assert (Hfin : forall o, (finish_iteration accepts w o).1.1 = w) by done.
  assert (Hcase : forall o, let '(w', _, _) := finish_iteration accepts w o in
    states w' = states w /\ collection_requests w' = collection_requests w).
  { intros o. specialize (Hfin o). destruct (finish_iteration accepts w o) as [[w' s'] f]. cbn in Hfin. by subst. }
  unfold iterate, connects. destruct now; [done|]. cbn [negb andb].
  destruct branch as [c|[event|e] wait|[]]; try apply Hcase.
  - destruct (stops c); [done|apply Hcase].
  - destruct event as [[]| | | |]; try apply Hcase.
    unfold on_connected. destruct (request_collection (collection_requests w)) as [slot r]. by destruct (connected _ _).
  - unfold on_error. destruct (next_unit _), (next_delay _ _). destruct wait as [|c]; [apply Hcase|].
    destruct (stops c); [done|apply Hcase].
Qed.

Lemma request_bounds (c : channel Z) :
  0 <= borrow c <= u64_max -> borrow c <= borrow (request_collection c).1 <= u64_max.
Proof. rewrite request_collection_borrow. unfold saturating_add, u64_max. lia. Qed.

(** The machine is told of the requests of new connections, and of no others. *)
Lemma service_machine_step settings0 payload0 sv l sv' entries :
  sys_step accepts (system_of sv) l (system_of sv') -> log sv' = log sv ++ entries ->
  (forall ops, step_ops (shared_slots (shared sv)) (shared_slots (shared sv')) l ops ->
     omap connected_id ops = omap connection_request entries) ->
  (exists ops, machine_inv settings0 payload0 sv ops) -> exists ops, machine_inv settings0 payload0 sv' ops.
Proof.
  intros Hstep Hlog Hnew (ops & Hr & Hc). destruct (refines_step accepts _ _ _ _ _ _ Hr Hstep) as (ops' & Hr' & Hops).
  exists (ops ++ ops'). split; [exact Hr'|]. by rewrite Hlog, !omap_app, Hc, (Hnew _ Hops).
Qed.

Lemma service_machine_same settings0 payload0 sv sv' :
  system_of sv' = system_of sv -> log sv' = log sv ->
  (exists ops, machine_inv settings0 payload0 sv ops) -> exists ops, machine_inv settings0 payload0 sv' ops.
Proof. unfold machine_inv. by intros -> ->. Qed.

(** Each kind of step keeps the invariant. *)
Lemma service_inv_mqtt settings0 payload0 now branch polls sv w' s' flow :
  service_inv settings0 payload0 sv -> mqtt_done sv = false -> enabled branch (system_of sv) ->
  iterate accepts now branch polls (shared_slots (shared sv)) (mqtt_task sv) = (w', s', flow) ->
  service_inv settings0 payload0
    {| mqtt_task := s'; mqtt_outcome := match flow with Continue => None | Return r => Some r end;
       worker := worker sv; scheduler := scheduler sv;
       shared := {| shared_slots := w'; busy := busy (shared sv) |}; sent_states := sent_states sv;
       log := log sv ++ new_request Connection (connects now branch) w' |}.
Proof.
  intros (Hb & Hcount & Hbusy & Hslot & Href) Hdone Hen Hit.
  pose proof (iterate_slots now branch polls (shared_slots (shared sv)) (mqtt_task sv)) as Hw.
  rewrite Hit in Hw. destruct Hw as [Hstates Hreq].
  match goal with |- service_inv _ _ ?sv1 => set (sv' := sv1) end.
  assert (requests_of sv' = if connects now branch then (request_collection (requests_of sv)).1 else requests_of sv)
    as Hreq' by exact Hreq.
  split; [|split; [|split; [done|split; [exact (eq_trans (f_equal borrow Hstates) Hslot)|]]]].
  - rewrite Hreq'. destruct (connects now branch); [|exact Hb]. apply request_bounds in Hb as Hb2. lia.
  - rewrite Hreq'. destruct (connects now branch) eqn:E; intros Hlt.
    + apply request_bounds in Hb as Hb2. apply (counted_request sv sv' Connection); try done; [lia|apply Hcount; lia].
    + apply (counted_same sv); try done; [by unfold sv'; cbn [log new_request]; rewrite app_nil_r|by apply Hcount].
  - unfold mqtt_sound, sv' at 1. cbn [mqtt_outcome]. intros Hok.
    assert (mqtt_sound sv = true) as Hs by (unfold mqtt_sound, mqtt_done in *; by destruct (mqtt_outcome sv)).
    apply (service_machine_step _ _ sv (Iterate now branch polls) sv' (new_request Connection (connects now branch) w'));
      [|done| |by apply Href].
    + eapply (step_iterate accepts now branch polls); [done|exact Hit|]. by destruct flow as [|[[]|]].
    + cbn [step_ops]. intros ops Hops. rewrite (ops_allowed_connected _ _ _ _ Hops Hreq). by destruct (connects now branch).
Qed.

Lemma service_inv_worker settings0 payload0 payload sv k' sh' :
  service_inv settings0 payload0 sv ->
  worker_step (senders_gone sv) payload (worker sv) (shared sv) = Some (k', sh') ->
  service_inv settings0 payload0
    {| mqtt_task := mqtt_task sv; mqtt_outcome := mqtt_outcome sv; worker := k'; scheduler := scheduler sv;
       shared := sh'; sent_states := worker_sends (pc (worker sv)) sh' ++ sent_states sv;
       log := log sv ++ worker_entries (pc (worker sv)) sh' |}.
Proof.
  intros (Hb & Hcount & Hbusy & Hslot & Href) Hwk.
  match goal with |- service_inv _ _ ?sv1 => set (sv' := sv1) end.
  assert (requests_of sv' = requests_of sv
    /\ (system_of sv' = system_of sv \/ exists msg, sys_step accepts (system_of sv) (SendState msg) (system_of sv'))
    /\ borrow (states (shared_slots sh')) = head (sent_states sv')
    /\ omap connection_request (worker_entries (pc (worker sv)) sh') = []) as (Hreq & Hsend & Hslot' & Hentries).
  { unfold worker_step, requests_of, system_of, sv' in *. clear sv'. destruct (worker sv) as [p m]. cbn [pc requests_seen] in *.
    destruct p as [| |id|id|id [text|e]|r|r]; repeat case_match; simplify_eq/=; try (split_and!; (done || by left)).
    rewrite borrow_send. split; [done|]. split; [|done]. right. eexists. by apply step_send. }
  pose proof (counted_worker sv sv' payload Hwk ltac:(lia) eq_refl eq_refl) as Hcw.
  split; [by rewrite Hreq|]. split; [rewrite Hreq; intros Hlt; apply Hcw; by apply Hcount|]. split; [|split; [exact Hslot'|]].
  - unfold worker_step in Hwk. cbn [sv' worker busy shared]. destruct (pc (worker sv)) as [| |id|id|id [text|e]|r|r] eqn:E;
      repeat case_match; simplify_eq/=; try done; rewrite ?Hbusy, ?E; try done.
  - intros Hd. destruct Hsend as [Hsame|[msg Hsend]].
    + destruct (Href Hd) as (ops & Hr & Hc). exists ops. split; [by rewrite Hsame|].
      unfold sv'. cbn [log]. by rewrite omap_app, Hentries, app_nil_r.
    + eapply (service_machine_step _ _ sv _ sv' _ Hsend eq_refl); [|by apply Href]. intros ops ->. by rewrite Hentries.
Qed.

Lemma service_inv_scheduler settings0 payload0 e sv s' sh' :
  service_inv settings0 payload0 sv -> scheduler_step e (scheduler sv) (shared sv) = Some (s', sh') ->
  service_inv settings0 payload0
    {| mqtt_task := mqtt_task sv; mqtt_outcome := mqtt_outcome sv; worker := worker sv; scheduler := s';
       shared := sh'; sent_states := sent_states sv;
       log := log sv ++ new_request Schedule (scheduler_requests e (scheduler sv) (shared sv)) (shared_slots sh') |}.
Proof.
  intros (Hb & Hcount & Hbusy & Hslot & Href) Hsc.
  assert (busy sh' = busy (shared sv)
    /\ shared_slots sh' = {| states := states (shared_slots (shared sv)); collection_requests :=
         if scheduler_requests e (scheduler sv) (shared sv) then (request_collection (requests_of sv)).1
         else requests_of sv |}) as [Hbu Hreq].
  { unfold scheduler_step, scheduler_requests, requests_of in *.
    destruct (scheduler sv), e; repeat case_match; simplify_eq/=; try done; by destruct (shared_slots (shared sv)). }
  match goal with |- service_inv _ _ ?sv1 => set (sv' := sv1) end.
  assert (requests_of sv' = if scheduler_requests e (scheduler sv) (shared sv)
            then (request_collection (requests_of sv)).1 else requests_of sv) as Hreq'
    by (unfold sv', requests_of at 1; cbn [shared]; by rewrite Hreq).
  assert (borrow (states (shared_slots sh')) = head (sent_states sv)) as Hslot' by (rewrite Hreq; exact Hslot).
  unfold service_inv. rewrite Hreq'. destruct (scheduler_requests e (scheduler sv) (shared sv)) eqn:E.
  - apply request_bounds in Hb as Hb2. split; [lia|]. split; [|split; [|split; [exact Hslot'|]]].
    + intros Hlt. apply (counted_request sv sv' Schedule); try done; [lia|apply Hcount; lia].
    + unfold sv'. cbn [shared worker]. by rewrite Hbu.
    + intros Hd. eapply (service_machine_step _ _ sv RequestCollection sv' _); [|done| |by apply Href].
      * unfold system_of, sv'. cbn [shared mqtt_task sent_states]. rewrite Hreq. apply step_request.
      * by intros ops ->.
  - split; [done|]. split; [|split; [|split; [exact Hslot'|]]].
    + intros Hlt. apply (counted_same sv); try done; [by unfold sv'; cbn [log new_request]; rewrite app_nil_r|by apply Hcount].
    + unfold sv'. cbn [shared worker]. by rewrite Hbu.
    + intros Hd. apply (service_machine_same _ _ sv sv'); [| |by apply Href].
      * unfold system_of, sv', requests_of in *. cbn [shared mqtt_task sent_states]. rewrite Hreq.
        by destruct (shared_slots (shared sv)).
      * unfold sv'. cbn [log new_request]. by rewrite app_nil_r.
Qed.

Lemma service_inv_step settings0 payload0 sv l sv' :
  service_inv settings0 payload0 sv -> service_step sv l sv' -> service_inv settings0 payload0 sv'.
Proof.
  intros Hinv Hstep. destruct Hstep.
  - by apply (service_inv_mqtt _ _ now branch polls).
  - by apply (service_inv_worker _ _ payload).
  - by apply service_inv_scheduler.
Qed.

Lemma service_inv_start settings0 discovery j :
  service_inv settings0 (payload discovery) (service_start settings0 discovery j).
Proof.
  split; [cbn; autorewrite with watch; unfold u64_max; lia|]. split.
  - intros _. unfold counted. cbn. autorewrite with watch. split; [done|]. split; [|split; constructor].
    split; [constructor|]. by split.
  - split; [done|]. split; [cbn; by rewrite borrow_channel|]. intros _. exists []. split; [apply refines_initial|done].
Qed.

Lemma service_inv_run settings0 discovery j ls sv :
  Prelude.run service_step (service_start settings0 discovery j) ls sv ->
  service_inv settings0 (payload discovery) sv.
Proof.
  intros Hrun. eapply (run_invariant service_step (service_inv settings0 (payload discovery)));
    [|apply service_inv_start|exact Hrun]. intros s l s' Hi Hs. by eapply service_inv_step.
Qed.

(** C12: in every interleaving of the tasks, the request slot takes
    the ids 1, 2, 3 and so on; a collection begins only for an id already
    requested, each time for a newer one, so a burst of requests is served by one
    observation; every state put into the state slot, the one it holds included,
    carries the id of a collection begun before; and the busy flag is up exactly
    while a collection is under way. *)
Theorem worker_serves_newer_requests settings0 discovery j ls sv :
  Prelude.run service_step (service_start settings0 discovery j) ls sv ->
  borrow (requests_of sv) < u64_max ->
  omap requested_id (log sv) = seqZ 1 (borrow (requests_of sv))
  /\ StronglySorted Z.lt (omap started_id (log sv))
  /\ Forall (fun msg => observed_after_request (log sv) (request_id msg) (fun l2 => Sent (request_id msg) ∈ l2))
       (sent_states sv)
  /\ borrow (states (shared_slots (shared sv))) = head (sent_states sv)
  /\ busy (shared sv) = in_progress (pc (worker sv)).
Proof.
  intros (_ & Hcount & Hbusy & Hslot & _)%service_inv_run Hlt. destruct (Hcount Hlt) as (Hids & _ & Hsort & Hobs).
  by split_and!.
Qed.

(** A connection's request is one the machine was given. *)
Lemma session_required m ops s :
  session_of (run_ops m ops).2 = Some s -> OpConnected (required s) ∈ ops.
Proof.
  revert s. induction ops as [|op ops IH] using rev_ind; intros s Hs; [done|].
  unfold session_of in *. rewrite run_ops_app in Hs. destruct (run_ops m ops) as [m1 tr1].
  cbn [run_ops] in Hs. destruct (apply_op m1 op) as [m2 a]. cbn [snd] in *. rewrite fold_left_app in Hs. cbn [fold_left fst snd] in Hs.
  apply elem_of_app. destruct (fold_left _ tr1 None) as [s0|] eqn:E.
  - specialize (IH s0 eq_refl). destruct op; cbn [session_step fmap option_fmap option_map] in Hs; try done;
      injection Hs as <-; simpl; [right; by apply list_elem_of_singleton|by left..].
  - destruct op; try discriminate Hs. injection Hs as <-. right. by apply list_elem_of_singleton.
Qed.

(** An earlier id was handed out earlier. *)
Lemma request_before l1 l2 b r id :
  omap requested_id (l1 ++ l2) = seqZ 1 b -> id ∈ omap requested_id l1 -> 1 <= r <= id -> r ∈ omap requested_id l1.
Proof.
  intros Hids Hid Hr. rewrite omap_app in Hids.
  assert (exists n, omap requested_id l1 = seqZ 1 n) as [n Hn].
  { exists (Z.of_nat (length (omap requested_id l1))). clear -Hids. revert Hids.
    generalize (omap requested_id l1) as a, (omap requested_id l2) as c. intros a c Hac.
    assert (length a <= Z.to_nat b)%nat as Hlen.
    { apply (f_equal length) in Hac. rewrite length_app, length_seqZ in Hac. lia. }
    apply (f_equal (take (length a))) in Hac. rewrite take_app_length in Hac. rewrite Hac at 1.
    unfold seqZ. rewrite <-fmap_take, take_seq, Nat2Z.id. f_equal. f_equal. lia. }
  rewrite Hn, elem_of_seqZ in Hid |- *. lia.
Qed.

Lemma requested_omap q id (l : list Entry) : Requested q id ∈ l -> id ∈ omap requested_id l.
Proof. intros Hin. apply list_elem_of_omap. by exists (Requested q id). Qed.

(** An id is requested once, so what precedes tells who requested it. *)
Lemma requested_once l1 l2 q r :
  NoDup (omap requested_id (l1 ++ l2)) -> Requested q r ∈ l1 ++ l2 -> r ∈ omap requested_id l1 -> Requested q r ∈ l1.
Proof.
  rewrite omap_app. intros (_ & Hdisj & _)%NoDup_app [Hin|Hin%requested_omap]%elem_of_app Hr; [done|].
  by destruct (Hdisj r Hr).
Qed.

(** C1: whatever the interleaving of the tasks, a final shutdown included, and whatever the
    network does, a state that is published was observed after the connection it
    is published on was established.  The machine was told to wait, connection by
    connection, for the ids those connections put into the request slot; and when
    it publishes a state, the history of the service has the request of the
    connection of that session first, then the beginning of the collection whose
    state is published, then the sending of that state.  This as long as the MQTT
    client has taken every request (its refusal ends the daemon) and the ids have
    not reached the end of their 64 bits, where they saturate. *)
Theorem published_observation_follows_connection settings0 discovery j ls sv :
  Prelude.run service_step (service_start settings0 discovery j) ls sv ->
  mqtt_sound sv = true -> borrow (requests_of sv) < u64_max ->
  exists ops,
    protocol (mqtt_task sv) = (run_ops BootstrapMachine_default ops).1
    /\ Forall2 (issued (mqtt_task sv) (sent_states sv)) (outputs (run_ops BootstrapMachine_default ops).2)
         (requests (mqtt_task sv))
    /\ omap connected_id ops = omap connection_request (log sv)
    /\ forall ops1 id ops2, ops = ops1 ++ OpState id :: ops2 ->
         (apply_op (run_ops BootstrapMachine_default ops1).1 (OpState id)).2 = Some PublishState ->
         exists s l1 l2 l3, session_of (run_ops BootstrapMachine_default ops1).2 = Some s
           /\ log sv = l1 ++ Requested Connection (required s) :: l2 ++ Started id :: l3 /\ Sent id ∈ l3.
Proof.
  intros (_ & Hcount & _ & _ & Href)%service_inv_run Hdone Hlt.
  destruct (Href Hdone) as (ops & (_ & _ & _ & _ & Hp & Hreq & Hiss) & Hconn).
  destruct (Hcount Hlt) as (Hids & _ & _ & Hobs).
  exists ops. split; [exact Hp|]. split; [exact Hiss|]. split; [exact Hconn|]. intros ops1 id ops2 -> Hact.
  destruct (fresh_state _ _ id (machine_inv_ops ops1) Hact) as (s & Hs & _ & Hle & _). exists s.
  apply session_required in Hs as Hses.
  assert (1 <= required s) as Hr.
  { apply Forall_app in Hreq as [Hreq _]. eapply Forall_forall in Hreq; [|exact Hses]. by apply (Hreq _ eq_refl). }
  assert (Requested Connection (required s) ∈ log sv) as Hmine.
  { assert (required s ∈ omap connection_request (log sv)) as Hin.
    { rewrite <-Hconn, omap_app. apply elem_of_app. left. apply list_elem_of_omap. by eexists. }
    apply list_elem_of_omap in Hin as ([[] i| |] & Hi & [= ->]). exact Hi. }
  assert ((OpState id, Some PublishState) ∈ outputs (run_ops BootstrapMachine_default (ops1 ++ OpState id :: ops2)).2) as Hin.
  { apply list_elem_of_filter. split; [by eexists|]. rewrite run_ops_app.
    destruct (run_ops BootstrapMachine_default ops1) as [m1 tr1]. cbn [run_ops fst] in *.
    destruct (apply_op m1 (OpState id)) as [m2 a]. cbn [snd] in Hact. subst a.
    destruct (run_ops m2 ops2). apply elem_of_app. right. by left. }
  apply list_elem_of_lookup in Hin as [i Hi].
  destruct (Forall2_lookup_l _ _ _ _ _ Hiss Hi) as (r & _ & a & message & [= <-] & _ & Hmsg).
  destruct (Hmsg eq_refl) as (msg & _ & Hsent & [= ->]).
  eapply Forall_forall in Hobs; [|exact Hsent]. destruct Hobs as (l1 & l3 & Hlog & Hid & Hsend).
  rewrite Hlog in Hids, Hmine. pose proof (request_before _ _ _ (required s) _ Hids Hid ltac:(lia)) as Hbefore.
  apply (requested_once l1 (Started (request_id msg) :: l3) Connection) in Hbefore;
    [|rewrite Hids; apply NoDup_seqZ|exact Hmine].
  apply list_elem_of_split in Hbefore as (l0 & l2 & ->).
  exists l0, l2, l3. split; [exact Hs|]. split; [by rewrite Hlog, <-app_assoc|exact Hsend].
Qed.

(** ** Execution *)

Definition enabledb (branch : Branch) (sys : System) : bool :=
  match branch with
  | StatesChanged true => accepts_state (protocol (supervisor sys))
      && has_changed (states (slots sys)) (states_seen (supervisor sys))
  | StatesChanged false => accepts_state (protocol (supervisor sys))
  | _ => true
  end.

(** The step relation is a function of the label. *)
Definition service_next (sv : Service) (l : ServiceLabel) : option Service :=
  match l with
  | MqttIterates now branch polls =>
    if mqtt_done sv || negb (enabledb branch (system_of sv)) then None
    else let '(w', s', flow) := iterate accepts now branch polls (shared_slots (shared sv)) (mqtt_task sv) in
      Some {| mqtt_task := s'; mqtt_outcome := match flow with Continue => None | Return r => Some r end;
              worker := worker sv; scheduler := scheduler sv;
              shared := {| shared_slots := w'; busy := busy (shared sv) |}; sent_states := sent_states sv;
              log := log sv ++ new_request Connection (connects now branch) w' |}
  | WorkerSteps payload =>
    '(k', sh') ← worker_step (senders_gone sv) payload (worker sv) (shared sv);
    Some {| mqtt_task := mqtt_task sv; mqtt_outcome := mqtt_outcome sv; worker := k'; scheduler := scheduler sv;
            shared := sh'; sent_states := worker_sends (pc (worker sv)) sh' ++ sent_states sv;
            log := log sv ++ worker_entries (pc (worker sv)) sh' |}
  | SchedulerSteps e =>
    '(s', sh') ← scheduler_step e (scheduler sv) (shared sv);
    Some {| mqtt_task := mqtt_task sv; mqtt_outcome := mqtt_outcome sv; worker := worker sv; scheduler := s';
            shared := sh'; sent_states := sent_states sv;
            log := log sv ++ new_request Schedule (scheduler_requests e (scheduler sv) (shared sv)) (shared_slots sh') |}
  end.

Fixpoint service_run (sv : Service) (ls : list ServiceLabel) : option Service :=
  match ls with [] => Some sv | l :: ls => sv ← service_next sv l; service_run sv ls end.

Lemma service_next_step sv l sv' : service_next sv l = Some sv' -> service_step sv l sv'.
Proof.
  intros Hn. destruct l as [now branch polls|payload|e]; cbn [service_next] in Hn.
  - destruct (mqtt_done sv) eqn:Ed; [done|]. destruct (enabledb _ _) eqn:Ee; [|done]. cbn [orb negb] in Hn.
    destruct (iterate _ _ _ _ _ _) as [[w' s'] flow] eqn:Ei. injection Hn as <-.
    apply service_mqtt; [done| |done]. destruct branch as [| |[]]; cbn in *; try done. by apply andb_true_iff in Ee.
  - destruct (worker_step _ _ _ _) as [[k' sh']|] eqn:E; [|done]. injection Hn as <-. by apply service_worker.
  - destruct (scheduler_step _ _ _) as [[s' sh']|] eqn:E; [|done]. injection Hn as <-. by apply service_scheduler.
Qed.

Lemma service_run_run ls : forall sv sv', service_run sv ls = Some sv' -> Prelude.run service_step sv ls sv'.
Proof.
  induction ls as [|l ls IH]; intros sv sv' Hr; cbn in Hr; [injection Hr as <-; constructor|].
  destruct (service_next sv l) as [sv1|] eqn:E; [|done]. econstructor; [by apply service_next_step|by apply IH].
Qed.

(** ** Progress of the worker *)

(** The worker alone, when every collection gives [payload]; it stops when it
    waits. *)
Fixpoint worker_run (fuel : nat) (payload : result (DaemonError IoError) str) (k : Worker) (sh : Shared) : Worker * Shared :=
  match fuel with
  | O => (k, sh)
  | S fuel =>
    match worker_step false payload k sh with
    | Some (k, sh) => worker_run fuel payload k sh
    | None => (k, sh)
    end
  end.

(** Whether the worker will still look at the request slot before it waits. *)
Definition will_look (k : Worker (IoError := IoError)) (sh : Shared) : bool :=
  match pc k with
  | Woken => true
  | _ => has_changed (collection_requests (shared_slots sh)) (requests_seen k)
  end.

Definition alive (p : WorkerPc (IoError := IoError)) : bool :=
  match p with WorkerDone _ | Collected _ (Err _) | Clearing (Err _) => false | _ => true end.

Lemma worker_run_S fuel payload k sh :
  worker_run (S fuel) payload k sh =
  match worker_step false payload k sh with Some (k, sh) => worker_run fuel payload k sh | None => (k, sh) end.
Proof. done. Qed.

Lemma worker_run_add n m payload k sh :
  worker_run (n + m) payload k sh = let '(k, sh) := worker_run n payload k sh in worker_run m payload k sh.
Proof.
  revert k sh. induction n as [|n IH]; intros k sh; [done|]. cbn [Nat.add]. rewrite !worker_run_S.
  destruct (worker_step false payload k sh) as [[k' sh']|] eqn:E; [apply IH|].
  destruct m as [|m]; [done|]. by rewrite worker_run_S, E.
Qed.

Lemma worker_run_step n payload k sh k' sh' :
  worker_step false payload k sh = Some (k', sh') -> worker_run (S n) payload k sh = worker_run n payload k' sh'.
Proof. intros E. by rewrite worker_run_S, E. Qed.

(** The state in which the worker waits, having served the newest request. *)
Definition served (text : str) (st : channel (option StateMessage)) (rq : channel Z) : Worker (IoError := IoError) * Shared :=
  ({| pc := Waiting; requests_seen := mark rq |},
   {| shared_slots := {| states := send_replace st (Some {| request_id := borrow rq; state_payload := text |});
                         collection_requests := rq |}; busy := false |}).

Lemma worker_run_served n text st rq : worker_run n (Ok text) (served text st rq).1 (served text st rq).2 = served text st rq.
Proof.
  destruct n; [done|]. rewrite worker_run_S. unfold worker_step, served.
  cbn [pc fst snd shared_slots collection_requests requests_seen]. by rewrite changed_mark.
Qed.

Lemma worker_run_woken n text k sh :
  pc k = Woken -> borrow (collection_requests (shared_slots sh)) <> 0 ->
  worker_run (5 + n) (Ok text) k sh = served text (states (shared_slots sh)) (collection_requests (shared_slots sh)).
Proof.
  destruct k as [p m], sh as [[st rq] b]. cbn [pc shared_slots collection_requests states]. intros -> Hb%Z.eqb_neq.
  rewrite worker_run_add, worker_run_S. unfold worker_step at 1. cbn [pc shared_slots collection_requests]. rewrite Hb.
  cbn [worker_run worker_step pc set_pc set_busy send_state shared_slots busy states collection_requests requests_seen].
  apply (worker_run_served n text st rq).
Qed.

Lemma worker_run_pending n text k sh :
  pc k = Waiting -> has_changed (collection_requests (shared_slots sh)) (requests_seen k) = true ->
  borrow (collection_requests (shared_slots sh)) <> 0 ->
  worker_run (6 + n) (Ok text) k sh = served text (states (shared_slots sh)) (collection_requests (shared_slots sh)).
Proof.
  intros Hp Hc Hb. change (6 + n)%nat with (S (5 + n)). rewrite worker_run_S. unfold worker_step at 1. rewrite Hp, Hc.
  by apply worker_run_woken.
Qed.

(** C13: a pending request is served.  Wherever the worker is, and
    whatever has changed meanwhile, if collections succeed its next eleven steps
    (fewer if it waits) leave it waiting with nothing pending, the busy flag
    down and, in the state slot, a state for the newest request. *)
Theorem worker_serves_pending_request (text : str) (k : Worker) (sh : Shared) :
  alive (pc k) = true -> will_look k sh = true -> borrow (collection_requests (shared_slots sh)) <> 0 ->
  let r := worker_run 11 (Ok text) k sh in
  pc r.1 = Waiting /\ busy r.2 = false
  /\ collection_requests (shared_slots r.2) = collection_requests (shared_slots sh)
  /\ has_changed (collection_requests (shared_slots r.2)) (requests_seen r.1) = false
  /\ borrow (states (shared_slots r.2))
     = Some {| request_id := borrow (collection_requests (shared_slots sh)); state_payload := text |}.
Proof.
  intros Halive Hlook Hb r.
  assert (exists st, r = served text st (collection_requests (shared_slots sh))) as [st ->].
  2: { cbn. autorewrite with watch. by split_and!. }
  subst r. unfold will_look in Hlook. destruct k as [p m]. cbn [pc requests_seen] in *.
  destruct p as [| |id|id|id [p|e]|[p|e]|r]; try discriminate Halive; eexists.
  - by apply (worker_run_pending 5).
  - by apply (worker_run_woken 6).
  - do 4 (erewrite worker_run_step by reflexivity). eapply eq_trans; [by apply (worker_run_pending 1)|reflexivity].
  - do 3 (erewrite worker_run_step by reflexivity). eapply eq_trans; [by apply (worker_run_pending 2)|reflexivity].
  - do 2 (erewrite worker_run_step by reflexivity). eapply eq_trans; [by apply (worker_run_pending 3)|reflexivity].
  - do 1 (erewrite worker_run_step by reflexivity). eapply eq_trans; [by apply (worker_run_pending 4)|reflexivity].
Qed.
End service.

(** ** A concrete run *)

Definition example_service : Service (IoError := unit) :=
  service_start example_settings example_discovery (Jitter_new 1 2).

(** The scheduler asks for a first state; the broker accepts the connection while
    that state is being collected, so that it is not published, and the one
    asked for by the connection is. *)
Definition example_labels : list (ServiceLabel (IoError := unit)) :=
  let text := WorkerSteps (Ok (lit "{}")) in
  let event e := MqttIterates false (Polled (Ok e) Slept) [] in
  [SchedulerSteps (SchedulerBegins false); text; text; text; event (IncomingConnAck Success);
   text; text; text; event (OutgoingPublish 1); event (IncomingPubAck 1);
   event (OutgoingPublish 2); event (IncomingPubAck 2); MqttIterates false (StatesChanged true) [];
   text; text; text; SchedulerSteps (SchedulerTick (from_secs 60)); text; text; text;
   MqttIterates false (StatesChanged true) []].

Definition example_end : Service (IoError := unit) :=
  default example_service (service_run always example_service example_labels).

Lemma example_run : Prelude.run (service_step always) example_service example_labels example_end.
Proof.
  apply service_run_run. unfold example_end.
  destruct (service_run always example_service example_labels) as [sv|] eqn:E; [done|]. vm_compute in E. discriminate E.
Qed.

Lemma worker_serves_newer_requests_witness :
  (Prelude.run (service_step always) example_service example_labels example_end
   /\ borrow (requests_of example_end) < u64_max)
  /\ log example_end = [Requested Schedule 1; Started 1; Requested Connection 2; Sent 1; Started 2; Sent 2]
  /\ StronglySorted Z.lt (omap started_id (log example_end)).
Proof.
  assert (borrow (requests_of example_end) < u64_max) as Hlt by (vm_compute; reflexivity).
  split; [split; [apply example_run|exact Hlt]|]. split; [vm_compute; reflexivity|].
  apply (worker_serves_newer_requests always example_settings example_discovery (Jitter_new 1 2) example_labels);
    [apply example_run|exact Hlt].
Defined.

Lemma published_observation_follows_connection_witness :
  (Prelude.run (service_step always) example_service example_labels example_end
   /\ mqtt_sound example_end = true /\ borrow (requests_of example_end) < u64_max)
  /\ requests (mqtt_task example_end) =
       [Publish (lit "homeassistant/device/pi_one/config") AtLeastOnce true (lit "{}");
        Publish (lit "rpi/pi_one/availability") AtLeastOnce true (lit "online");
        Publish (lit "rpi/pi_one/state") AtMostOnce false (lit "{}")]
  /\ exists ops, protocol (mqtt_task example_end) = (run_ops BootstrapMachine_default ops).1.
Proof.
  assert (borrow (requests_of example_end) < u64_max) as Hlt by (vm_compute; reflexivity).
  assert (mqtt_sound example_end = true) as Hd by (vm_compute; reflexivity).
  split; [split; [apply example_run|split; [exact Hd|exact Hlt]]|]. split; [vm_compute; reflexivity|].
  destruct (published_observation_follows_connection always example_settings example_discovery (Jitter_new 1 2)
    example_labels example_end example_run Hd Hlt) as (ops & Hops & _).
  exists ops. exact Hops.
Defined.

Lemma worker_serves_pending_request_witness :
  let k : Worker (IoError := unit) := {| pc := Collecting 1; requests_seen := 1%nat |} in
  let sh : Shared := {| shared_slots := {| states := watch_channel None; collection_requests := (2%nat, 7) |}; busy := true |} in
  (alive (pc k) = true /\ will_look k sh = true /\ borrow (collection_requests (shared_slots sh)) <> 0)
  /\ borrow (states (shared_slots (worker_run 11 (Ok (lit "{}")) k sh).2))
     = Some {| request_id := 7; state_payload := lit "{}" |}.
Proof.
  intros k sh. assert (borrow (collection_requests (shared_slots sh)) <> 0) as Hb by (cbn; lia).
  split; [split; [reflexivity|split; [reflexivity|exact Hb]]|].
  exact (proj2 (proj2 (proj2 (proj2 (worker_serves_pending_request (lit "{}") k sh eq_refl eq_refl Hb))))).
Defined.
