(* ===== verification/DaemonFacts.v ===== *)
(** * What the daemon ends with and what it announces

    The result of the service for every way its tasks can end, and the agreement
    of the Discovery document with the topics the supervisor uses. *)

From S2P Require Import Prelude RustStr Model Config Discovery Watch MqttProtocol MqttMachine MqttSupervisor Collector Daemon.

Local Open Scope Z_scope.

Section result.
Context {IoError : Type}.
Implicit Types (completion : Completion (IoError := IoError)) (ends : Ends (IoError := IoError)).

(** A shutdown in which every task ended well, the collector possibly after the
    process stopped waiting for it. *)
Definition clean_ends ends : Prop :=
  mqtt_end ends = Ok (Ok tt) /\ scheduler_end ends = Ok tt
  /\ (collector_end ends = None \/ collector_end ends = Some (Ok (Ok tt))).

(** The cause of a stop that no signal asked for. *)
Definition unexpected_cause completion : option (DaemonError IoError) :=
  match completion with
  | CompletionSignal (Ok _) => None
  | CompletionSignal (Err source) => Some (SignalHandling source)
  | CompletionMqtt (Ok (Ok _)) => Some (TaskStopped "MQTT supervisor")
  | CompletionMqtt (Ok (Err source)) => Some (Mqtt source)
  | CompletionMqtt (Err _) => Some (TaskFailed "MQTT supervisor")
  | CompletionScheduler (Ok _) => Some (TaskStopped "collection scheduler")
  | CompletionScheduler (Err _) => Some (TaskFailed "collection scheduler")
  | CompletionCollector (Ok (Ok _)) => Some (TaskStopped "collector worker")
  | CompletionCollector (Ok (Err e)) => Some e
  | CompletionCollector (Err _) => Some (TaskFailed "collector worker")
  end.

(** The service succeeds exactly when a signal stopped it and
    every task then ended well, a collection still running being no error; when
    anything else stopped it, the error is that cause, whatever the remaining
    tasks end with. *)
Theorem service_result_spec completion ends :
  (service_result completion ends = Ok tt <-> completion = CompletionSignal (Ok tt) /\ clean_ends ends)
  /\ (forall e, unexpected_cause completion = Some e -> service_result completion ends = Err e)
  /\ (forall e, service_result completion ends = Err e -> unexpected_cause completion = None ->
        finish_mqtt (mqtt_end ends) = Err e
        \/ finish_task (scheduler_end ends) "collection scheduler" = Err e
        \/ drain_collector (collector_end ends) = Err e).
Proof.
  destruct ends as [[[[]|em]|[]] [[]|[]] [[[[]|ec]|[]]|]], completion as [[[]|io]|[[[]|m]|[]]|[[]|[]]|[[[]|c]|[]]];
    unfold clean_ends; cbn; split_and!; try (intros; simplify_eq; eauto; done);
    (split; [intros; simplify_eq/=; eauto|intros (? & ? & ? & ?); simplify_eq/=; naive_solver]).
Qed.
End result.

Lemma service_result_spec_witness :
  unexpected_cause (IoError := unit) (CompletionMqtt (Ok (Ok tt))) = Some (TaskStopped "MQTT supervisor")
  /\ service_result (IoError := unit) (CompletionMqtt (Ok (Ok tt))) (Build_Ends (Ok (Ok tt)) (Ok tt) None)
     = Err (TaskStopped "MQTT supervisor").
Proof.
  split; [reflexivity|].
  exact (proj1 (proj2 (service_result_spec (CompletionMqtt (Ok (Ok tt))) (Build_Ends (Ok (Ok tt)) (Ok tt) None))) _ eq_refl).
Defined.

(** ** The Discovery document *)

Lemma discovery_settings_fields (c : Config.t) (m : DeviceMetadata) :
  let s := discovery_settings c m in
  DiscoverySettings.device_id s = DeviceConfig.id (Config.device c)
  /\ DiscoverySettings.base_topic s = MqttConfig.base_topic (Config.mqtt c)
  /\ DiscoverySettings.discovery_prefix s = MqttConfig.discovery_prefix (Config.mqtt c)
  /\ DiscoverySettings.interval s = CollectorConfig.interval (Config.collector c)
  /\ DiscoverySettings.model s = device_model m
  /\ DiscoverySettings.serial_number s = serial_number m
  /\ DiscoverySettings.hardware_version s = board_revision m.
Proof. unfold discovery_settings. by destruct (device_model m), (serial_number m), (board_revision m). Qed.

(** C25: the Discovery message of an accepted configuration goes
    to the topic the supervisor publishes Discovery to, and its document names
    the very topics the supervisor publishes states and availability to, whatever
    metadata was detected; entities expire after three intervals with no
    overflow, and their ids are made of lower-case letters, digits and
    underscores. *)
Theorem discovery_message_agrees {E} `{JsonText} {IoError} (raw : RawConfig) (c : Config.t) (k : Collector) (m : DiscoveryMessage) :
  validate (io_error := E) raw = Ok c -> discovery_message (IoError := IoError) c k = Ok m ->
  let mqtt := MqttSettings.new (Config.mqtt c) (DeviceConfig.id (Config.device c)) in
  let s := discovery_settings c (metadata k) in
  topic m = MqttSettings.discovery_topic mqtt
  /\ json_to_string (discovery_document s) = Ok (payload m)
  /\ pointer ["state_topic"%string] (discovery_document s) = Some (JStr (MqttSettings.state_topic mqtt))
  /\ pointer ["availability_topic"%string] (discovery_document s) = Some (JStr (MqttSettings.availability_topic mqtt))
  /\ DiscoverySettings.expire_after_seconds s = Z.max (3 * interval_seconds (raw_collector raw)) 90
  /\ forall key d, build_components s !! key = Some d ->
       exists p n, default_entity_id d = lit p ++ lit "." ++ n /\ (p = "sensor" \/ p = "binary_sensor")%string
         /\ Forall (fun c => slug_char c = true) n.
Proof.
  intros Hv Hm. apply validate_ok_iff_parts in Hv as [Hv ->]. cbv zeta.
  destruct (discovery_settings_fields (config_of raw) (metadata k)) as (Hdev & Hbase & Hpre & Hint & _).
  unfold discovery_message, build_discovery_message in Hm. simplify_result. subst m. cbn [topic payload].
  set (s := discovery_settings (config_of raw) (metadata k)) in *. clearbody s.
  destruct Hv as (Hid & _ & _ & _ & _ & _ & _ & Hb & Hd & _ & Hi & _).
  pose proof (topic_ok_no_trailing_slash _ Hb) as Eb. pose proof (topic_ok_no_trailing_slash _ Hd) as Ed.
  assert (DiscoverySettings.state_topic s = MqttConfig.state_topic (Config.mqtt (config_of raw))) as Es
    by (unfold DiscoverySettings.state_topic, child_topic, MqttConfig.state_topic; rewrite Hbase; cbn [config_of Config.mqtt MqttConfig.base_topic]; by rewrite Eb).
  assert (DiscoverySettings.availability_topic s = MqttConfig.availability_topic (Config.mqtt (config_of raw))) as Ea
    by (unfold DiscoverySettings.availability_topic, child_topic, MqttConfig.availability_topic; rewrite Hbase; cbn [config_of Config.mqtt MqttConfig.base_topic]; by rewrite Eb).
  split; [|split; [assumption|split; [|split; [|split]]]].
  - unfold DiscoverySettings.discovery_topic, MqttSettings.new, MqttSettings.discovery_topic, MqttConfig.discovery_topic.
    rewrite Hpre, Hdev. cbn [config_of Config.mqtt Config.device MqttConfig.discovery_prefix DeviceConfig.id]. by rewrite Ed.
  - unfold MqttSettings.new, MqttSettings.state_topic. rewrite <-Es. reflexivity.
  - unfold MqttSettings.new, MqttSettings.availability_topic. rewrite <-Ea. reflexivity.
  - unfold DiscoverySettings.expire_after_seconds, MINIMUM_EXPIRE_AFTER_SECONDS, saturating_mul, u64_max.
    rewrite Hint. cbn [config_of Config.collector CollectorConfig.interval]. rewrite as_secs_from_secs. lia.
  - intros key d. apply entity_id_slug. rewrite Hdev. exact Hid.
Qed.

#[local] Instance no_text : JsonText := {| json_to_string _ := Ok (lit "{}") |}.

Lemma discovery_message_agrees_witness :
  exists c m, validate (io_error := unit) example_raw = Ok c
    /\ discovery_message (IoError := unit) c
         (Build_Collector (lit "/") (lit "/usr/bin/vcgencmd") 0 None
            (Build_DeviceMetadata None (Some (lit "Raspberry Pi 2")) None None None None)) = Ok m
    /\ topic m = lit "homeassistant/device/pi_one/config".
Proof.
  destruct (validate (io_error := unit) example_raw) as [c|e] eqn:E; [|vm_compute in E; discriminate E].
  destruct (discovery_message (IoError := unit) c
    (Build_Collector (lit "/") (lit "/usr/bin/vcgencmd") 0 None
       (Build_DeviceMetadata None (Some (lit "Raspberry Pi 2")) None None None None))) as [m|e] eqn:Em; [|discriminate Em].
  exists c, m. split; [done|]. split; [done|].
  destruct (discovery_message_agrees _ _ _ _ E Em) as (Ht & _). rewrite Ht. clear Em Ht.
  vm_compute in E. injection E as <-. vm_compute. reflexivity.
Defined.
