(* ===== verification/PacketSize.v ===== *)
(** * The size of the Discovery packet

    The MQTT client is limited to packets of [MAX_PACKET_BYTES].  The length of
    the Discovery document in terms of the configuration and the device metadata,
    the configurations whose document fits, and one that is accepted and whose
    document does not. *)

From S2P Require Import Prelude RustStr RustFloat Model JsonPrint Config Discovery Watch MqttProtocol MqttMachine MqttSupervisor MetricsDisk Collector Daemon DaemonFacts.
From stdpp Require Import sorting.

Local Open Scope Z_scope.

(** An MQTT PUBLISH packet: the fixed header with a remaining length of at most
    four bytes, the topic with its length, the packet id and the payload. *)
Definition publish_size (topic payload : str) : Z := 1 + 4 + (2 + len topic) + 2 + len payload.

Section document.
Context (pf : f64 -> str).
Implicit Types (s : DiscoverySettings.t) (d : ComponentDefinition).

(** The document of empty settings, which expires after 90 seconds. *)
Definition blank : DiscoverySettings.t := DiscoverySettings.new [] [] [] [] 0.

Definition expire_text s : str := to_string (DiscoverySettings.expire_after_seconds s).
Definition slug s : str := normalize_device_slug (DiscoverySettings.device_id s).

Lemma expire_int_text s : int_text (DiscoverySettings.expire_after_seconds s) = expire_text s.
Proof.
  unfold int_text, expire_text. destruct (Z.ltb_spec (DiscoverySettings.expire_after_seconds s) 0); [|done].
  unfold DiscoverySettings.expire_after_seconds, MINIMUM_EXPIRE_AFTER_SECONDS in *. lia.
Qed.

Lemma component_len d s :
  len (compact pf (component_json (to_config d s (slug s))))
  + (len (escaped (DiscoverySettings.device_id blank)) + len (escaped (slug blank)) + len (expire_text blank))
  = len (compact pf (component_json (to_config d blank (slug blank))))
    + (len (escaped (DiscoverySettings.device_id s)) + len (escaped (slug s)) + len (expire_text s)).
Proof.
  unfold component_json. rewrite !object_len by done. rewrite !fields_len_app.
  cbn [config_device_class config_state_class config_unit_of_measurement config_suggested_display_precision
       config_options config_payload_on config_payload_off config_value_template to_config].
  match goal with |- 1 + (?x + ?r) + _ = 1 + (?y + ?r) + _ => generalize r; intros rest end.
  unfold fields_len. cbn [foldr]. unfold field_len. cbn [fst snd config_platform config_name unique_id default_entity_id
    config_enabled_by_default entity_category expire_after to_config].
  cbn [compact]. rewrite !expire_int_text, !quoted_len, !escaped_app, !len_app. lia.
Qed.

Lemma build_components_perm s :
  map_to_list (build_components s) ≡ₚ (fun d => (key d, to_config d s (slug s))) <$> COMPONENT_DEFINITIONS.
Proof.
  apply NoDup_Permutation; [apply NoDup_map_to_list| |].
  - apply (NoDup_fmap_1 fst). rewrite <-list_fmap_compose. exact keys_NoDup.
  - intros [k c]. rewrite elem_of_map_to_list, build_components_lookup, list_elem_of_fmap. split.
    + intros (d & Hd & <- & ->). by exists d.
    + intros (d & [= -> ->] & Hd). by exists d.
Qed.

(** What a component and a document owe to the settings. *)
Definition component_own s : Z :=
  len (escaped (DiscoverySettings.device_id s)) + len (escaped (slug s)) + len (expire_text s).
Definition optional_len (name : string) (o : option str) : Z :=
  match o with Some v => 2 + len (quoted (lit name)) + 2 + len (escaped v) | None => 0 end.
Definition document_own s : Z :=
  26 * component_own s + len (escaped (DiscoverySettings.device_id s)) + len (escaped (DiscoverySettings.name s))
  + optional_len "model" (DiscoverySettings.model s) + optional_len "serial_number" (DiscoverySettings.serial_number s)
  + optional_len "hw_version" (DiscoverySettings.hardware_version s)
  + len (escaped (DiscoverySettings.state_topic s)) + len (escaped (DiscoverySettings.availability_topic s)).

Definition component_fields s : list (string * json) :=
  (fun d => (key d, component_json (to_config d s (slug s)))) <$> COMPONENT_DEFINITIONS.

Lemma components_len s :
  len (compact pf (components_json (build_components s))) = 1 + fields_len pf (component_fields s).
Proof.
  unfold components_json, component_fields. rewrite object_len.
  - f_equal. apply fields_len_perm. rewrite merge_sort_Permutation, build_components_perm, <-list_fmap_compose. done.
  - intros Hnil. apply fmap_nil_inv in Hnil. pose proof (merge_sort_Permutation key_le (map_to_list (build_components s))) as Hp.
    rewrite Hnil, build_components_perm in Hp. by apply Permutation_nil in Hp.
Qed.

Lemma component_fields_len s :
  fields_len pf (component_fields s) + 26 * component_own blank = fields_len pf (component_fields blank) + 26 * component_own s.
Proof.
  assert (forall ds, let fields s := (fun d => (key d, component_json (to_config d s (slug s)))) <$> ds in
    fields_len pf (fields s) + Z.of_nat (length ds) * component_own blank
    = fields_len pf (fields blank) + Z.of_nat (length ds) * component_own s) as H;
    [|exact (H COMPONENT_DEFINITIONS)].
  induction ds as [|d ds IH]; cbv beta zeta in *; [done|]. rewrite !fmap_cons. cbn [length].
  rewrite !fields_len_cons, Nat2Z.inj_succ, !Z.mul_succ_l. unfold field_len. cbn [fst snd].
  pose proof (component_len d s). unfold component_own in *. lia.
Qed.

Lemma optional_fields_len name (o : option str) : fields_len pf (skip_none name JStr o) = optional_len name o.
Proof. destruct o as [v|]; [|done]. unfold fields_len, field_len. cbn [skip_none foldr fst snd compact optional_len]. rewrite (quoted_len v). lia. Qed.

Lemma document_len s :
  len (compact pf (discovery_document s)) + document_own blank
  = len (compact pf (discovery_document blank)) + document_own s.
Proof.
  unfold discovery_document. rewrite !object_len by done. unfold fields_len. cbn [foldr].
  unfold field_len. cbn [fst snd].
  rewrite !components_len, !string_len. pose proof (component_fields_len s). unfold device_json. rewrite !object_len by done.
  rewrite !fields_len_app, !optional_fields_len. unfold document_own.
  unfold fields_len at 1 4. cbn [foldr]. unfold field_len. cbn [fst snd]. cbn [compact List.map RustStr.join].
  rewrite !len_app, !quoted_len. lia.
Qed.

(** The text the settings do not change. *)
Lemma document_base : len (compact pf (discovery_document blank)) - document_own blank = 10952.
Proof. vm_compute. reflexivity. Qed.

Lemma document_exact s : len (compact pf (discovery_document s)) = 10952 + document_own s.
Proof. pose proof (document_len s). pose proof document_base. lia. Qed.
End document.

(** ** Accepted configurations *)

Definition plain (c : Z) : Prop := 32 <= c /\ c <> 34 /\ c <> 92.

Lemma device_id_plain id : identifier_ok id 64 (lit "_-") -> Forall plain id.
Proof.
  intros (_ & _ & Hall). eapply Forall_impl; [exact Hall|]. intros c. cbn.
  unfold plain, is_ascii_alphanumeric, is_ascii_lowercase, is_ascii_uppercase, is_ascii_digit.
  change (lit "_-") with [95; 45]. intros [H|H]; [lia|].
  apply elem_of_cons in H as [H|H%list_elem_of_singleton]; lia.
Qed.

Lemma slug_len id : identifier_ok id 64 (lit "_-") -> 0 <= len (escaped (normalize_device_slug id)) <= 64.
Proof.
  intros Hid. pose proof (slug_ok id Hid) as Hslug. split; [apply len_nonneg|].
  rewrite escaped_same.
  - rewrite len_ascii.
    + unfold normalize_device_slug. rewrite length_fmap. pose proof (len_ge_length id). destruct Hid as (_ & ? & _). lia.
    + eapply Forall_impl; [exact Hslug|]. intros c. cbn.
      unfold slug_char, is_ascii_lowercase, is_ascii_digit, is_ascii. lia.
  - eapply Forall_impl; [exact Hslug|]. intros c. cbn.
    unfold slug_char, is_ascii_lowercase, is_ascii_digit. lia.
Qed.

(** The detected metadata a Discovery document carries. *)
Definition metadata_len (m : DeviceMetadata) : Z :=
  optional_len "model" (device_model m) + optional_len "serial_number" (serial_number m)
  + optional_len "hw_version" (board_revision m).

Lemma optional_len_nonneg name o : 0 <= optional_len name o.
Proof. destruct o as [v|]; cbn [optional_len]; [|done]. pose proof (len_nonneg (escaped v)). pose proof (len_nonneg (quoted (lit name))). lia. Qed.

(** The terms of [document_own] for an accepted configuration. *)
Lemma accepted_own (raw : RawConfig) (m : DeviceMetadata) :
  valid raw ->
  let base := len (escaped (raw_base_topic (raw_mqtt raw))) in
  2 * base + 45 <= document_own (discovery_settings (config_of raw) m) <= 2 * base + 3823 + metadata_len m
  /\ len (raw_base_topic (raw_mqtt raw)) <= base <= 2 * len (raw_base_topic (raw_mqtt raw)).
Proof.
  intros (Hid & Hname & _ & _ & _ & _ & _ & Hb & _ & _ & Hi & _). cbv zeta.
  destruct (discovery_settings_fields (config_of raw) m) as (Hdev & Hbase & _ & Hint & Em & Es & Eh).
  set (s := discovery_settings (config_of raw) m) in *.
  assert (DiscoverySettings.name s = raw_name (raw_device raw)) as En
    by (unfold s, discovery_settings; by destruct (device_model m), (serial_number m), (board_revision m)).
  clearbody s. cbn [config_of Config.device Config.mqtt Config.collector DeviceConfig.id MqttConfig.base_topic CollectorConfig.interval] in *.
  unfold document_own, component_own, slug, expire_text, metadata_len.
  unfold DiscoverySettings.state_topic, DiscoverySettings.availability_topic, DiscoverySettings.expire_after_seconds, child_topic.
  rewrite Hdev, Hbase, Hint, Em, Es, Eh, En, as_secs_from_secs, (topic_ok_no_trailing_slash _ Hb), !escaped_app, !len_app.
  unfold saturating_mul, u64_max, MINIMUM_EXPIRE_AFTER_SECONDS.
  change (len (escaped (lit "/"))) with 1. change (len (escaped (lit "state"))) with 5. change (len (escaped (lit "availability"))) with 12.
  pose proof (slug_len _ Hid). pose proof (to_string_len 5 (Z.max (Z.min (interval_seconds (raw_collector raw) * 3) 18446744073709551615) 90) ltac:(change (10 ^ Z.of_nat 6) with 1000000; lia)).
  destruct Hb as (_ & _ & _ & Hc & _). pose proof (escaped_text_len _ Hc). pose proof (escaped_len (raw_base_topic (raw_mqtt raw))).
  destruct Hname as (_ & Hn & _ & Hnc). pose proof (escaped_text_len _ Hnc). pose proof (len_nonneg (escaped (raw_name (raw_device raw)))).
  rewrite (escaped_same (raw_id (raw_device raw))) by (exact (device_id_plain _ Hid)).
  pose proof (len_nonneg (raw_id (raw_device raw))). destruct Hid as (_ & Hl & _).
  pose proof (optional_len_nonneg "model" (device_model m)). pose proof (optional_len_nonneg "serial_number" (serial_number m)).
  pose proof (optional_len_nonneg "hw_version" (board_revision m)).
  change (2 ^ 64 - 1) with 18446744073709551615. lia.
Qed.

(** C26: how large the Discovery packet of an accepted configuration is, for
    every compact JSON printer.  It names the base topic twice, so its length is
    the length of a fixed text, of the device's texts and of two base topics.
    With a base topic of at most 10,000 bytes, a prefix of at most 8,000 and
    metadata whose text takes at most 2,000 the packet respects the limit the client's options set;
    with a base topic of 27,300 bytes or more, which validation accepts, the
    payload alone exceeds it. *)
Theorem discovery_packet_size {E} `{J : JsonText} `{!CompactJson} {IoError} (raw : RawConfig) (c : Config.t)
    (k : Collector) (m : DiscoveryMessage) (credentials : MqttCredentials.t) :
  validate (io_error := E) raw = Ok c -> discovery_message (IoError := IoError) c k = Ok m ->
  let mqtt := MqttSettings.new (Config.mqtt c) (DeviceConfig.id (Config.device c)) in
  let limit := (max_packet_size (options mqtt credentials)).2 in
  let base := raw_base_topic (raw_mqtt raw) in
  10997 + 2 * len (escaped base) <= len (payload m) <= 14775 + 2 * len (escaped base) + metadata_len (metadata k)
  /\ (len base <= 10000 -> len (raw_discovery_prefix (raw_mqtt raw)) <= 8000 -> metadata_len (metadata k) <= 2000 ->
      publish_size (topic m) (payload m) <= limit)
  /\ (27300 <= len base -> limit < len (payload m)).
Proof.
  intros Hv Hm. apply validate_ok_iff_parts in Hv as [Hv ->]. cbv zeta.
  pose proof (accepted_own raw (metadata k) Hv) as [Hown Hesc].
  unfold discovery_message, build_discovery_message in Hm. simplify_result. subst m. cbn [topic payload].
  match goal with Hj : json_to_string _ = Ok ?text |- _ => apply compact_json in Hj as -> end.
  rewrite document_exact. change (max_packet_size _).2 with 65536.
  split; [lia|]. split; [|lia]. intros Hbase Hprefix Hmeta. unfold publish_size.
  destruct (discovery_settings_fields (config_of raw) (metadata k)) as (Hdev & _ & Hpre & _).
  destruct Hv as ((_ & Hl & _) & _ & _ & _ & _ & _ & _ & _ & Hp & _).
  unfold DiscoverySettings.discovery_topic. rewrite Hdev, Hpre, document_exact.
  cbn [config_of Config.device Config.mqtt DeviceConfig.id MqttConfig.discovery_prefix].
  rewrite (topic_ok_no_trailing_slash _ Hp), !len_app.
  change (len (lit "/device/")) with 8. change (len (lit "/config")) with 7. lia.
Qed.

(** A compact printer, with a float text of its own. *)
#[local] Instance compact_text : JsonText := {| json_to_string j := Ok (compact (fun _ => lit "0.0") j) |}.
#[local] Instance compact_text_compact : CompactJson.
Proof. by refine {| print_float := fun _ => lit "0.0" |}; [|intros j text [= <-]]. Qed.

Definition with_base_topic (base : str) : RawConfig := {|
  raw_device := raw_device example_raw;
  raw_mqtt := {|
    raw_host := default_host; raw_port := default_port; raw_client_id := lit "rpi.health";
    raw_username := lit "monitor"; raw_password_file := lit "/etc/rpi/password";
    raw_base_topic := base; raw_discovery_prefix := default_discovery_prefix;
    keep_alive_seconds := default_keep_alive |};
  raw_collector := RawCollector_default;
|}.

(** Twenty-eight thousand bytes of topic, a configuration of half the permitted size. *)
Definition long_topic : str := repeat 97 (Z.to_nat 28000).
Definition example_collector : Collector :=
  Build_Collector (lit "/") (lit "/usr/bin/vcgencmd") 0 None
    (Build_DeviceMetadata None (Some (lit "Raspberry Pi 2")) None None None None).

Definition no_secret : MqttCredentials.t := {| MqttCredentials.username := lit "monitor"; MqttCredentials.password := [] |}.

Lemma long_topic_accepted :
  match validate (io_error := unit) (with_base_topic long_topic) with Ok _ => true | Err _ => false end = true /\ len long_topic = 28000.
Proof. split; vm_compute; reflexivity. Qed.

Lemma discovery_packet_size_witness :
  exists c m, validate (io_error := unit) (with_base_topic long_topic) = Ok c
    /\ discovery_message (IoError := unit) c example_collector = Ok m /\ 65536 < len (payload m)
    /\ exists c' m', validate (io_error := unit) example_raw = Ok c'
      /\ discovery_message (IoError := unit) c' example_collector = Ok m'
      /\ publish_size (topic m') (payload m') <= 65536.
Proof.
  pose proof long_topic_accepted as [Ha Hlen].
  destruct (validate (io_error := unit) (with_base_topic long_topic)) as [c|e] eqn:E; [|discriminate Ha].
  destruct (discovery_message (IoError := unit) c example_collector) as [m|e] eqn:Em; [|discriminate Em].
  exists c, m. split; [done|]. split; [done|].
  destruct (discovery_packet_size _ _ _ _ no_secret E Em) as (_ & _ & Hbig).
  split; [apply Hbig; cbn [with_base_topic raw_mqtt raw_base_topic]; rewrite Hlen; vm_compute; discriminate|].
  clear c m E Em Hbig Ha Hlen.
  destruct (validate (io_error := unit) example_raw) as [c|e] eqn:E; [|vm_compute in E; discriminate E].
  destruct (discovery_message (IoError := unit) c example_collector) as [m|e] eqn:Em; [|discriminate Em].
  exists c, m. split; [done|]. split; [done|].
  destruct (discovery_packet_size _ _ _ _ no_secret E Em) as (_ & Hsmall & _).
  apply Hsmall; vm_compute; discriminate.
Defined.
