(* ===== verification/DaemonShutdown.v ===== *)
(** * The end of the service

    Once the shutdown flag is set every interleaving of the tasks comes to an
    end, and the service returns success. *)

From S2P Require Import Prelude RustStr Config Discovery Watch MqttProtocol MqttMachine MqttSupervisor Collector Daemon DaemonService.

Local Open Scope Z_scope.

(** ** The supervisor's shutdown succeeds when the client takes its requests *)

Section supervisor.
Context `{WL : WatchLaws}.

Lemma handle_event_always s e : (handle_event always s e).2 = Ok tt.
Proof. unfold handle_event, perform, always. destruct (match e with IncomingConnAck _ => _ | _ => _ end) as [p [a|]]; done. Qed.

Lemma shutdown_sequence_always polls s :
  shutdown_sequence_result (shutdown_sequence always polls s).2 = Ok tt.
Proof.
  revert s. induction polls as [|[e|e] polls IH]; intros s; [done| |done]. cbn [shutdown_sequence].
  pose proof (handle_event_always s e) as He. destruct (handle_event always s e) as [s' [[]|]]; [|done].
  destruct (_ || _); [done|apply IH].
Qed.

Lemma graceful_shutdown_always polls s : (graceful_shutdown always polls s).2 = Ok tt.
Proof.
  unfold graceful_shutdown. destruct (shutdown _) as [p [a|]]; [|done]. cbn [and_then perform always].
  match goal with |- context [shutdown_sequence always polls ?s] =>
    pose proof (shutdown_sequence_always polls s) as Hs; destruct (shutdown_sequence always polls s) as [s' r] end.
  cbn [snd] in Hs. by rewrite Hs.
Qed.
End supervisor.

(** ** The service *)

Section shutdown.
Context `{WL : WatchLaws} {IoError : Type}.
Implicit Types (sv : Service (IoError := IoError)).

(** The steps the tasks take once the flag is set and collections succeed: the
    supervisor sees it at the top of its loop, the scheduler's [select!] is
    biased towards it. *)
Definition stopping (l : ServiceLabel (IoError := IoError)) : bool :=
  match l with
  | MqttIterates shutdown_now _ _ => shutdown_now
  | WorkerSteps payload => is_ok payload
  | SchedulerSteps (SchedulerBegins shutdown) => shutdown
  | SchedulerSteps (SchedulerShutdown c) => stops c
  | SchedulerSteps (SchedulerTick _) => false
  end.

(** No task has failed. *)
Definition orderly sv : Prop :=
  match pc (worker sv) with Collected _ (Err _) | Clearing (Err _) | WorkerDone (Err _) => False | _ => True end
  /\ match mqtt_outcome sv with Some (Err _) => False | _ => True end.

(** How the tasks have ended; a collection still running is not waited for. *)
Definition ends_of sv : Ends (IoError := IoError) := {|
  mqtt_end := Ok (default (Ok tt) (mqtt_outcome sv));
  scheduler_end := Ok tt;
  collector_end := match pc (worker sv) with WorkerDone r => Some (Ok r) | _ => None end;
|}.

(** The steps each task has left. *)
Definition worker_left (changed : bool) (p : WorkerPc (IoError := IoError)) : nat :=
  let waiting := if changed then 7%nat else 1%nat in
  match p with
  | WorkerDone _ => 0
  | Waiting => waiting
  | Clearing _ => 1 + waiting
  | Collected _ _ => 2 + waiting
  | Collecting _ => 3 + waiting
  | Starting _ => 4 + waiting
  | Woken => 6
  end.
Definition scheduler_left (s : Scheduler) : nat := match s with SchedulerDone => 0 | _ => 1 end.
Definition steps_left sv : nat :=
  (if mqtt_done sv then 0 else 1) + scheduler_left (scheduler sv)
  + worker_left (has_changed (requests_of sv) (requests_seen (worker sv))) (pc (worker sv)).

Lemma steps_left_bound sv : (steps_left sv <= 13)%nat.
Proof.
  unfold steps_left, scheduler_left, worker_left.
  destruct (mqtt_done sv), (scheduler sv), (has_changed _ _), (pc (worker sv)); lia.
Qed.

(** Every step of the worker counts. *)
Lemma worker_step_left closed payload k sh k' sh' :
  worker_step (IoError := IoError) closed payload k sh = Some (k', sh') ->
  collection_requests (shared_slots sh') = collection_requests (shared_slots sh)
  /\ (worker_left (has_changed (collection_requests (shared_slots sh')) (requests_seen k')) (pc k')
      < worker_left (has_changed (collection_requests (shared_slots sh)) (requests_seen k)) (pc k))%nat.
Proof.
  intros Hstep. unfold worker_step in Hstep. destruct k as [p m]. cbn [pc requests_seen] in *.
  destruct p as [| |id|id|id [t|e]|[t|e]|r]; try done.
  - destruct (has_changed _ m) eqn:Ec; [|destruct closed; [|done]];
      injection Hstep as <- <-; cbn [pc requests_seen set_pc worker_left]; (split; [done|lia]).
  - injection Hstep as <- <-. cbn [pc requests_seen]. autorewrite with watch. destruct (_ =? 0); cbn; (split; [done|lia]).
  - injection Hstep as <- <-. cbn. split; [done|lia].
  - injection Hstep as <- <-. cbn. split; [done|lia].
  - injection Hstep as <- <-. cbn. split; [done|lia].
  - injection Hstep as <- <-. cbn. split; [done|lia].
  - injection Hstep as <- <-. cbn. split; [done|lia].
  - injection Hstep as <- <-. cbn. split; [done|lia].
Qed.

Lemma stopping_worker payload sv k' sh' :
  orderly sv -> is_ok payload = true ->
  worker_step (senders_gone sv) payload (worker sv) (shared sv) = Some (k', sh') ->
  match pc k' with Collected _ (Err _) | Clearing (Err _) | WorkerDone (Err _) => False | _ => True end.
Proof.
  intros [Ho _] Hpay Hstep. unfold worker_step in Hstep.
  destruct (pc (worker sv)) as [| |id|id|id [t|e]|[t|e]|r], payload; try done;
    repeat case_match; simplify_eq/=; try done.
Qed.

Lemma stopping_step sv l sv' :
  orderly sv -> stopping l = true -> service_step always sv l sv' ->
  orderly sv' /\ (steps_left sv' < steps_left sv)%nat.
Proof.
  intros Hord Hl Hstep. pose proof Hord as [Hok Hout].
  destruct Hstep as [now branch polls sv w' s' flow Hdone Hen Hit|payload sv k' sh' Hwk|e sv s' sh' Hsc].
  - cbn in Hl. subst now. cbn [iterate] in Hit.
    pose proof (graceful_shutdown_always polls (mqtt_task sv)) as Hg. injection Hit as <- <- <-.
    unfold steps_left. rewrite Hdone. unfold orderly, mqtt_done, requests_of.
    cbn [worker mqtt_outcome shared shared_slots scheduler]. rewrite Hg. split; [done|lia].
  - pose proof (stopping_worker payload sv k' sh' Hord Hl Hwk) as Hok'. destruct (worker_step_left _ _ _ _ _ _ Hwk) as [_ Hlt].
    unfold steps_left, orderly, mqtt_done, requests_of in *. cbn [worker mqtt_outcome shared scheduler] in *.
    split; [by split|lia].
  - unfold scheduler_step in Hsc. unfold steps_left, orderly, mqtt_done, requests_of.
    destruct (scheduler sv) as [|last|], e as [b|c|now]; cbn in Hl; try done; rewrite Hl in Hsc;
      injection Hsc as <- <-; cbn [worker mqtt_outcome shared scheduler scheduler_left]; (split; [by split|lia]).
Qed.

(** While a task has not ended, one of them can take such a step. *)
Lemma stopping_progress sv :
  orderly sv ->
  (exists l sv', stopping l = true /\ service_step always sv l sv')
  \/ mqtt_done sv = true /\ scheduler sv = SchedulerDone /\ pc (worker sv) = WorkerDone (Ok tt).
Proof.
  intros [Hok _]. destruct (mqtt_done sv) eqn:Hd.
  2: { left. destruct (iterate always true (StatesChanged false) [] (shared_slots (shared sv)) (mqtt_task sv))
         as [[w' s'] flow] eqn:E.
       exists (MqttIterates true (ShutdownChanged {| closed := true; shutdown_value := true |}) []).
       eexists. split; [done|]. by eapply service_mqtt. }
  destruct (scheduler sv) eqn:Hs.
  - left. exists (SchedulerSteps (SchedulerBegins true)). eexists. split; [done|].
    apply service_scheduler. by rewrite Hs.
  - left. exists (SchedulerSteps (SchedulerShutdown {| closed := true; shutdown_value := true |})). eexists. split; [done|].
    apply service_scheduler. by rewrite Hs.
  - destruct (worker_step (senders_gone sv) (Ok []) (worker sv) (shared sv)) as [[k' sh']|] eqn:E.
    + left. exists (WorkerSteps (Ok [])). eexists. split; [done|]. by apply service_worker.
    + right. split; [done|]. split; [done|]. unfold worker_step in E.
      assert (senders_gone sv = true) as Hg by (unfold senders_gone; by rewrite Hd, Hs). rewrite Hg in E.
      destruct (pc (worker sv)) as [| |id|id|id r|r|[[]|]]; try done. by destruct (has_changed _ _).
Qed.

Lemma orderly_result sv :
  orderly sv -> service_result (CompletionSignal (Ok tt)) (ends_of sv) = Ok tt.
Proof.
  intros [Hok Hout]. unfold service_result, ends_of. cbn [mqtt_end scheduler_end collector_end].
  destruct (mqtt_outcome sv) as [[[]|]|]; [|done|]; destruct (pc (worker sv)) as [| |id|id|id r|r|[[]|]]; done.
Qed.

(** After a shutdown request the service ends, whatever the
    interleaving of its tasks: as long as a task has not ended one of them has a
    step to take, there are at most thirteen such steps (one iteration of the
    supervisor, one of the scheduler and the rest of a collection with one for
    a pending request), and when no task fails the service returns success at
    any point it stops waiting, a collection still running included. *)
Theorem shutdown_terminates sv ls sv' :
  orderly sv -> Prelude.run (service_step always) sv ls sv' -> Forall (fun l => stopping l = true) ls ->
  (length ls <= 13)%nat
  /\ ((exists l sv'', stopping l = true /\ service_step always sv' l sv'')
      \/ mqtt_done sv' = true /\ scheduler sv' = SchedulerDone /\ pc (worker sv') = WorkerDone (Ok tt))
  /\ service_result (CompletionSignal (Ok tt)) (ends_of sv') = Ok tt.
Proof.
  intros Hord Hrun Hls.
  destruct (run_measure (service_step always) orderly (fun l => stopping l = true) steps_left sv ls sv')
    as [Hord' Hlen]; [intros s l s' Hi Hl Hs; by eapply stopping_step|done..|].
  split; [pose proof (steps_left_bound sv); lia|]. split; [by apply stopping_progress|by apply orderly_result].
Qed.
End shutdown.

(** ** A concrete shutdown, with a request pending *)

Definition shutdown_labels : list (ServiceLabel (IoError := unit)) :=
  let text := WorkerSteps (Ok (lit "{}")) in
  [SchedulerSteps (SchedulerShutdown {| closed := false; shutdown_value := true |}); text; text;
   MqttIterates true (ShutdownChanged {| closed := false; shutdown_value := true |}) [Ok (OutgoingPublish 0)]; text].

(** The end of the example, with one more request by the scheduler. *)
Definition shutdown_start : Service (IoError := unit) :=
  default example_end (service_next always example_end (SchedulerSteps (SchedulerTick (from_secs 120)))).
Definition shutdown_end : Service (IoError := unit) :=
  default shutdown_start (service_run always shutdown_start shutdown_labels).

Lemma shutdown_terminates_witness :
  (orderly shutdown_start /\ Prelude.run (service_step always) shutdown_start shutdown_labels shutdown_end
   /\ Forall (fun l => stopping l = true) shutdown_labels)
  /\ has_changed (requests_of shutdown_start) (requests_seen (worker shutdown_start)) = true
  /\ mqtt_done shutdown_end = true
  /\ service_result (CompletionSignal (Ok tt)) (ends_of shutdown_end) = Ok tt.
Proof.
  assert (orderly shutdown_start) as Ho by (split; vm_compute; exact I).
  assert (Prelude.run (service_step always) shutdown_start shutdown_labels shutdown_end) as Hr.
  { apply service_run_run. unfold shutdown_end.
    destruct (service_run always shutdown_start shutdown_labels) as [sv|] eqn:E; [done|]. vm_compute in E. discriminate E. }
  assert (Forall (fun l => stopping l = true) shutdown_labels) as Hl by by repeat constructor.
  split; [done|]. split; [vm_compute; reflexivity|]. split; [vm_compute; reflexivity|].
  exact (proj2 (proj2 (shutdown_terminates _ _ _ Ho Hr Hl))).
Defined.
