(* ===== verification/Program.v ===== *)
(** * The daemon with its collector

    The running service of [DaemonService] with the collector its worker owns: the
    payload of a collection is what [collect_payload] makes of a reading of the
    host.  Everything the daemon ever publishes is then accounted for. *)

From S2P Require Import Prelude RustStr Model Config Discovery Watch MqttProtocol MqttMachine MqttSupervisor MetricsDisk Collector CollectorReports Daemon DaemonService.

Local Open Scope Z_scope.

Section program.
Context `{WL : WatchLaws} `{JT : JsonText} {World : Type} `{SystemSource World} `{CommandRunner World} `{Clock World}.
Context {IoError : Type}.
Variable accepts : nat -> bool.
Abbreviation collected k w := (collect_payload (IoError := IoError) k w).

Record Program := { running : Service (IoError := IoError); owned : Collector }.

Definition is_collecting (p : WorkerPc (IoError := IoError)) : bool := match p with Collecting _ => true | _ => false end.
Definition is_worker (l : ServiceLabel (IoError := IoError)) : bool := match l with WorkerSteps _ => true | _ => false end.

(** A collection reads the host as it is then, whatever happened to it meanwhile,
    and keeps the collector it leaves; every other step leaves the collector
    alone. *)
Inductive program_step : Program -> ServiceLabel -> Program -> Prop :=
  | program_collects w sv k sv' :
      is_collecting (pc (worker sv)) = true ->
      service_step accepts sv (WorkerSteps (collected k w).1.1) sv' ->
      program_step {| running := sv; owned := k |} (WorkerSteps (collected k w).1.1)
        {| running := sv'; owned := (collected k w).1.2 |}
  | program_other l sv k sv' :
      is_collecting (pc (worker sv)) && is_worker l = false ->
      service_step accepts sv l sv' ->
      program_step {| running := sv; owned := k |} l {| running := sv'; owned := k |}.

Definition program_start (settings : MqttSettings.t) (discovery : DiscoveryMessage) (j : Jitter) (k : Collector) : Program :=
  {| running := service_start settings discovery j; owned := k |}.

(** What a collector is created with and keeps. *)
Definition same_device (k k' : Collector) : Prop :=
  root_filesystem k' = root_filesystem k /\ vcgencmd_path k' = vcgencmd_path k
  /\ command_timeout k' = command_timeout k /\ metadata k' = metadata k.

Lemma collect_same_device k w : same_device k (collected k w).1.2.
Proof.
  unfold collect_payload, collect. destruct (monotonic_now w) as [t w1], (now_utc w1) as [at_ w2].
  destruct (collect_readings _ _) as [r c]. destruct (monotonic_now _) as [t' w3]. by split_and!.
Qed.

(** The text of one reading of the host by the collector. *)
Definition observation (k0 : Collector) (text : str) : Prop :=
  exists k w document, same_device k0 k /\ serialize_state (collect k w).1.1 = Ok document
    /\ json_to_string document = Ok text.

Lemma collected_observation k0 k w text :
  same_device k0 k -> (collected k w).1.1 = Ok text -> observation k0 text.
Proof.
  intros Hk Hc. exists k, w. unfold collect_payload in Hc. destruct (collect k w) as [[s k'] w'] eqn:E.
  cbn [fst] in *. simplify_result. eauto.
Qed.

Definition program_inv (k0 : Collector) (p : Program) : Prop :=
  same_device k0 (owned p)
  /\ Forall (fun msg => observation k0 (state_payload msg)) (sent_states (running p))
  /\ match pc (worker (running p)) with Collected _ (Ok text) => observation k0 text | _ => True end.

(** What the worker has just collected. *)
Lemma worker_step_collected closed payload k sh k' sh' :
  worker_step (IoError := IoError) closed payload k sh = Some (k', sh') ->
  match pc k' with Collected _ r => is_collecting (pc k) = true /\ r = payload | _ => True end.
Proof. unfold worker_step. intros Hs. repeat case_match; simplify_eq/=; by try split. Qed.

Lemma program_inv_step k0 p l p' : program_inv k0 p -> program_step p l p' -> program_inv k0 p'.
Proof.
  intros (Hk & Hsent & Hpc) Hstep.
  assert (forall sv l sv', service_step accepts sv l sv' ->
    Forall (fun msg => observation k0 (state_payload msg)) (sent_states sv) ->
    match pc (worker sv) with Collected _ (Ok text) => observation k0 text | _ => True end ->
    (forall payload text, l = WorkerSteps payload -> is_collecting (pc (worker sv)) = true -> payload = Ok text ->
       observation k0 text) ->
    Forall (fun msg => observation k0 (state_payload msg)) (sent_states sv')
    /\ match pc (worker sv') with Collected _ (Ok text) => observation k0 text | _ => True end) as Hservice.
  { clear -WL. intros sv l sv' Hstep Hsent Hpc Hnew.
    destruct Hstep as [now branch polls sv w' s' flow Hdone Hen Hit|payload sv k' sh' Hwk|e sv s' sh' Hsc]; [done| |done].
    cbn [sent_states worker]. pose proof (worker_step_collected _ _ _ _ _ _ Hwk) as Hc. split.
    - unfold worker_step in Hwk. destruct (pc (worker sv)) as [| |id|id|id [text|e]|r|r]; try done.
      injection Hwk as _ <-. cbn. rewrite borrow_send. by constructor.
    - destruct (pc k') as [| |id|id|id [text|e]|r|r]; try done. destruct Hc as [Hcol Heq]. by eapply Hnew. }
  destruct Hstep as [w sv k sv' Hcol Hstep|l sv k sv' Hl Hstep]; cbn [running owned] in *.
  - split; [|eapply Hservice; [done..|]].
    + destruct Hk as (? & ? & ? & ?), (collect_same_device k w) as (? & ? & ? & ?). cbn [owned]. split_and!; congruence.
    + intros payload text [= <-] _ Htext. by eapply collected_observation.
  - split; [done|]. eapply Hservice; [done..|]. intros payload text -> Hcol. by rewrite Hcol in Hl.
Qed.

Lemma program_run settings0 discovery j k0 ls p :
  Prelude.run program_step (program_start settings0 discovery j k0) ls p ->
  program_inv k0 p /\ service_inv settings0 (payload discovery) (running p).
Proof.
  intros Hrun. split.
  - eapply (run_invariant program_step (program_inv k0)); [by intros; eapply program_inv_step| |exact Hrun].
    split; [by split_and!|]. by split.
  - eapply (run_invariant program_step (fun p => service_inv settings0 (payload discovery) (running p))
      (program_start settings0 discovery j k0)); [|apply service_inv_start|exact Hrun].
    intros s l s' Hi Hs. destruct Hs; by eapply service_inv_step.
Qed.

(** What may be handed to the broker: the Discovery document and the two
    availability messages, retained, and observations of this device. *)
Definition legitimate (settings0 : MqttSettings.t) (discovery : DiscoveryMessage) (k0 : Collector) (r : Request) : Prop :=
  match r with
  | Publish topic AtLeastOnce retain text =>
    retain = true
    /\ (topic = MqttSettings.discovery_topic settings0 /\ text = payload discovery
        \/ topic = MqttSettings.availability_topic settings0 /\ (text = lit "online" \/ text = lit "offline"))
  | Publish topic AtMostOnce retain text =>
    retain = false /\ topic = MqttSettings.state_topic settings0 /\ observation k0 text
  | DisconnectRequest => True
  end.

(** C2: whatever the network does, whatever the host answers and
    whatever the interleaving, everything the daemon publishes is the Discovery
    document or an availability message, retained and acknowledged, or the
    serialised reading of its own device, not retained, each on its own topic. *)
Theorem publications_legitimate settings0 discovery j k0 ls p :
  Prelude.run program_step (program_start settings0 discovery j k0) ls p ->
  mqtt_sound (running p) = true ->
  Forall (legitimate settings0 discovery k0) (requests (mqtt_task (running p))).
Proof.
  intros Hrun Hsound. destruct (program_run _ _ _ _ _ _ Hrun) as [(_ & Hsent & _) (_ & _ & _ & _ & Href)].
  destruct (Href Hsound) as (ops & (Hs & Hd & _ & _ & _ & _ & Hiss) & _). cbn [system_of supervisor sent] in *.
  apply Forall_forall. intros r Hr. apply list_elem_of_lookup in Hr as [i Hi].
  destruct (Forall2_lookup_r _ _ _ _ _ Hiss Hi) as (e & _ & a & message & _ & -> & Hmsg).
  unfold request_with, request_of. rewrite Hs, Hd. destruct a; cbn [legitimate]; try by eauto 6.
  destruct (Hmsg eq_refl) as (msg & -> & Hin & _). split; [done|]. split; [done|].
  eapply Forall_forall in Hsent; [|exact Hin]. exact Hsent.
Qed.

(** Runs of the program can be executed: the next step, with the host a
    collection would read. *)
Definition program_next (p : Program) (l : ServiceLabel) (w : World) : option (ServiceLabel * Program) :=
  let collects := is_collecting (pc (worker (running p))) && is_worker l in
  let l := if collects then WorkerSteps (collected (owned p) w).1.1 else l in
  sv ← service_next accepts (running p) l;
  Some (l, {| running := sv; owned := if collects then (collected (owned p) w).1.2 else owned p |}).

Fixpoint program_exec (p : Program) (steps : list (ServiceLabel * World)) : option (list ServiceLabel * Program) :=
  match steps with
  | [] => Some ([], p)
  | (l, w) :: steps => '(l, p) ← program_next p l w; '(ls, p) ← program_exec p steps; Some (l :: ls, p)
  end.

Lemma program_next_step p l w l' p' : program_next p l w = Some (l', p') -> program_step p l' p'.
Proof.
  unfold program_next. destruct p as [sv k]. cbn [running owned]. intros Hn.
  destruct (is_collecting (pc (worker sv)) && is_worker l) eqn:E;
    apply bind_Some in Hn as (sv' & Hsv & [= <- <-]); apply service_next_step in Hsv.
  - apply program_collects; [by apply andb_true_iff in E as [? _]|done].
  - by apply program_other.
Qed.

Lemma program_exec_run steps : forall p ls p', program_exec p steps = Some (ls, p') -> Prelude.run program_step p ls p'.
Proof.
  induction steps as [|[l w] steps IH]; intros p ls p' He; cbn in He; [injection He as <- <-; constructor|].
  apply bind_Some in He as ([l' p1] & H1' & He). apply bind_Some in He as ([ls' p2] & H2' & [= <- <-]).
  econstructor; [by eapply program_next_step|by apply IH].
Qed.
End program.

(** ** A concrete run *)

#[local] Existing Instances host_source host_runner host_clock.
#[local] Instance braces : JsonText := {| json_to_string _ := Ok (lit "{}") |}.

(** A first collection, a connection with its bootstrap, a collection for it, and
    a shutdown. *)
Definition program_steps : list (ServiceLabel (IoError := unit) * nat) :=
  let work := (WorkerSteps (Ok []), 0%nat) in
  let event e := (MqttIterates false (Polled (Ok e) Slept) [], 0%nat) in
  [(SchedulerSteps (SchedulerBegins false), 0%nat); event (IncomingConnAck Success); work; work; work; work; work; work;
   event (OutgoingPublish 1); event (IncomingPubAck 1); event (OutgoingPublish 2); event (IncomingPubAck 2);
   (MqttIterates false (StatesChanged true) [], 0%nat); event (OutgoingPublish 0);
   (MqttIterates true (ShutdownChanged {| closed := false; shutdown_value := true |}) [], 0%nat)].

Abbreviation program_result := (program_exec (IoError := unit) (H2 := host_clock) always
  (program_start (IoError := unit) example_settings example_discovery (Jitter_new 1 2) host_collector) program_steps).

Definition program_outcome (o : option (list (ServiceLabel (IoError := unit)) * Program (IoError := unit))) : bool * list Request :=
  match o with
  | Some (_, p) => (mqtt_sound (running p), requests (mqtt_task (running p)))
  | None => (false, [])
  end.

Lemma program_example : program_outcome program_result =
  (true,
   [Publish (lit "homeassistant/device/pi_one/config") AtLeastOnce true (lit "{}");
    Publish (lit "rpi/pi_one/availability") AtLeastOnce true (lit "online");
    Publish (lit "rpi/pi_one/state") AtMostOnce false (lit "{}");
    Publish (lit "rpi/pi_one/availability") AtLeastOnce true (lit "offline")]).
Proof. vm_compute. reflexivity. Qed.

Lemma publications_legitimate_witness :
  exists ls p, program_result = Some (ls, p) /\ mqtt_sound (running p) = true
    /\ requests (mqtt_task (running p)) =
       [Publish (lit "homeassistant/device/pi_one/config") AtLeastOnce true (lit "{}");
        Publish (lit "rpi/pi_one/availability") AtLeastOnce true (lit "online");
        Publish (lit "rpi/pi_one/state") AtMostOnce false (lit "{}");
        Publish (lit "rpi/pi_one/availability") AtLeastOnce true (lit "offline")]
    /\ Forall (legitimate (H2 := host_clock) example_settings example_discovery host_collector)
         (requests (mqtt_task (running p))).
Proof.
  pose proof program_example as Ho. destruct program_result as [[ls p]|] eqn:E; [|discriminate (f_equal fst Ho)].
  pose proof (f_equal fst Ho) as Hs. pose proof (f_equal snd Ho) as Hr. cbn [program_outcome fst snd] in Hs, Hr. clear Ho.
  exists ls, p. split; [reflexivity|]. split; [exact Hs|]. split; [exact Hr|].
  apply (publications_legitimate (H2 := host_clock) always example_settings example_discovery (Jitter_new 1 2)
    host_collector ls p); [|exact Hs].
  exact (program_exec_run (H2 := host_clock) always program_steps _ _ _ E).
Defined.
