(* ===== verification/Supervision.v ===== *)
(** * The whole daemon ([daemon::run_service])

    The tasks of the service with the task that supervises them: the shutdown
    channel, the waits at which each loop notices it, the completion the
    supervision selects and the ends it joins.  The parts are those of
    [MqttSupervisor], [Daemon] and [Program]; this file adds when each of them
    may move and, for the end of the service, how long its waits last. *)

From S2P Require Import Prelude RustStr Model Config Discovery Watch MqttProtocol MqttMachine MqttSupervisor MetricsDisk Collector CollectorReports Daemon DaemonService DaemonShutdown Program.

Local Open Scope Z_scope.

#[export] Instance scheduler_done_dec (s : Scheduler) : Decision (s = SchedulerDone).
Proof. destruct s; [by right..|by left]. Defined.

Section supervision.
Context `{WL : WatchLaws} `{JT : JsonText} {World : Type} `{SystemSource World} `{CommandRunner World} `{Clock World}.
Context {IoError : Type}.
Variable accepts : nat -> bool.
Abbreviation collected k w := (collect_payload (IoError := IoError) k w).
Abbreviation Program := (Program (IoError := IoError)).
Abbreviation ServiceLabel := (ServiceLabel (IoError := IoError)).
Abbreviation Completion := (Completion (IoError := IoError)).
Abbreviation Ends := (Ends (IoError := IoError)).

(** Where the loop of [MqttSupervisor::run] is: at its top, in its [select!], or
    in the wait after a connection error. *)
Inductive LoopPc := AtTop | Selecting | Retrying.

(** Where [run_service] is: in its [select!], in the joins after it, whose timeout
    on the collector may have [expired], or at its end with what it joined. *)
Inductive MainPc :=
  | Supervising
  | Stopping (completion : Completion) (expired : bool)
  | Finished (completion : Completion) (ends : Ends).

Record RunningDaemon := {
  program : Program;
  shutdown_flag : channel bool;
  loop_pc : LoopPc;
  loop_seen : seen;            (* the supervisor's receiver of the flag *)
  scheduler_seen : seen;       (* the scheduler's receiver of the flag *)
  main : MainPc;
}.

Definition service_of (d : RunningDaemon) : Service := running (program d).
Definition worker_pc (d : RunningDaemon) : WorkerPc := pc (worker (service_of d)).

(** What a completed [changed()] finds; the sender lives as long as [run_service]. *)
Definition change_of (d : RunningDaemon) : ShutdownChange :=
  {| closed := false; shutdown_value := borrow (shutdown_flag d) |}.
Definition found (d : RunningDaemon) (c : ShutdownChange) : bool :=
  negb (closed c) && eqb (shutdown_value c) (borrow (shutdown_flag d)).
Definition loop_changed (d : RunningDaemon) : bool := has_changed (shutdown_flag d) (loop_seen d).
Definition scheduler_changed (d : RunningDaemon) : bool := has_changed (shutdown_flag d) (scheduler_seen d).

(** How the tasks have ended, those that have. *)
Definition mqtt_ended (d : RunningDaemon) : option (Joined (result MqttError unit)) :=
  Ok <$> mqtt_outcome (service_of d).
Definition scheduler_ended (d : RunningDaemon) : option (Joined unit) :=
  match scheduler (service_of d) with SchedulerDone => Some (Ok tt) | _ => None end.
Definition collector_ended (d : RunningDaemon) : option (Joined (result (DaemonError IoError) unit)) :=
  match worker_pc d with WorkerDone r => Some (Ok r) | _ => None end.

(** Whether a task may take a step now.  The [select!]s are biased towards the
    shutdown, except for the one in the wait after an error; the branch of the
    states is taken when they changed or when the worker, their sender, is gone.
    An iteration that meets a connection error is taken at the end of its wait:
    what it does before touches nothing that other tasks see. *)
Definition permits (d : RunningDaemon) (l : ServiceLabel) : bool :=
  match l with
  | MqttIterates true _ _ => match loop_pc d with AtTop => borrow (shutdown_flag d) | _ => false end
  | MqttIterates false branch _ =>
    match loop_pc d, branch with
    | Selecting, ShutdownChanged c => loop_changed d && found d c
    | Selecting, Polled (Ok _) _ => negb (loop_changed d)
    | Selecting, StatesChanged alive => negb (loop_changed d) && (alive || bool_decide (is_Some (collector_ended d)))
    | Retrying, Polled (Err _) Slept => true
    | Retrying, Polled (Err _) (Interrupted c) => loop_changed d && found d c
    | _, _ => false
    end
  | WorkerSteps _ => true
  | SchedulerSteps (SchedulerBegins b) => eqb b (borrow (shutdown_flag d))
  | SchedulerSteps (SchedulerShutdown c) => scheduler_changed d && found d c
  | SchedulerSteps (SchedulerTick _) => negb (scheduler_changed d)
  end.

(** Whether a step consumed the change of the flag. *)
Definition loop_looks (l : ServiceLabel) : bool :=
  match l with
  | MqttIterates false (ShutdownChanged _) _ | MqttIterates false (Polled (Err _) (Interrupted _)) _ => true
  | _ => false
  end.
Definition scheduler_looks (l : ServiceLabel) : bool :=
  match l with SchedulerSteps (SchedulerShutdown _) => true | _ => false end.
Definition is_mqtt (l : ServiceLabel) : bool := match l with MqttIterates _ _ _ => true | _ => false end.

Definition after_step (d : RunningDaemon) (l : ServiceLabel) (p : Program) : RunningDaemon := {|
  program := p; shutdown_flag := shutdown_flag d;
  loop_pc := if is_mqtt l then AtTop else loop_pc d;
  loop_seen := if loop_looks l then mark (shutdown_flag d) else loop_seen d;
  scheduler_seen := if scheduler_looks l then mark (shutdown_flag d) else scheduler_seen d;
  main := main d;
|}.
Definition set_loop_pc (v : LoopPc) (d : RunningDaemon) : RunningDaemon := {|
  program := program d; shutdown_flag := shutdown_flag d; loop_pc := v; loop_seen := loop_seen d;
  scheduler_seen := scheduler_seen d; main := main d |}.
Definition set_main (v : MainPc) (d : RunningDaemon) : RunningDaemon := {|
  program := program d; shutdown_flag := shutdown_flag d; loop_pc := loop_pc d; loop_seen := loop_seen d;
  scheduler_seen := scheduler_seen d; main := v |}.
Definition request_shutdown (d : RunningDaemon) : RunningDaemon := {|
  program := program d; shutdown_flag := send_replace (shutdown_flag d) true; loop_pc := loop_pc d;
  loop_seen := loop_seen d; scheduler_seen := scheduler_seen d; main := main d |}.

(** What the joins give once the supervisor and the scheduler have ended: with the
    collector's end, which they wait for, or without it when the timeout on it has
    [expired]; whatever it does after that is not looked at. *)
Definition joined (d : RunningDaemon) (expired : bool) : option Ends :=
  mqtt ← mqtt_ended d; scheduler ← scheduler_ended d;
  collector ← if expired then Some None else Some <$> collector_ended d;
  Some {| mqtt_end := mqtt; scheduler_end := scheduler; collector_end := collector |}.

(** The joins still wait for the collector. *)
Definition draining (d : RunningDaemon) : bool :=
  match main d with Stopping _ false => negb (bool_decide (is_Some (collector_ended d))) | _ => false end.

Inductive DaemonLabel :=
  | Task (l : ServiceLabel)
  | LoopSelects
  | LoopFails
  | Completes (signal : option (result IoError unit))
  | DrainExpires
  | Joins.

Inductive daemon_step : RunningDaemon -> DaemonLabel -> RunningDaemon -> Prop :=
  | daemon_task d l p :
      permits d l = true -> program_step accepts (program d) l p ->
      daemon_step d (Task l) (after_step d l p)
  | daemon_selects d :
      loop_pc d = AtTop -> mqtt_done (service_of d) = false -> borrow (shutdown_flag d) = false ->
      daemon_step d LoopSelects (set_loop_pc Selecting d)
  | daemon_fails d :
      loop_pc d = Selecting -> loop_changed d = false ->
      daemon_step d LoopFails (set_loop_pc Retrying d)
  | daemon_completes d signal completion :
      main d = Supervising ->
      select_completion signal (mqtt_ended d) (scheduler_ended d) (collector_ended d) = Some completion ->
      daemon_step d (Completes signal) (set_main (Stopping completion false) (request_shutdown d))
  | daemon_drain_expires d completion :
      main d = Stopping completion false -> draining d = true ->
      daemon_step d DrainExpires (set_main (Stopping completion true) d)
  | daemon_joins d expired completion ends :
      main d = Stopping completion expired -> joined d expired = Some ends ->
      daemon_step d Joins (set_main (Finished completion ends) d).

(** [run_service] after its channels and tasks are set up. *)
Definition daemon_start (settings : MqttSettings.t) (discovery : DiscoveryMessage) (j : Jitter) (k : Collector) : RunningDaemon :=
  let shutdown := watch_channel false in {|
  program := program_start settings discovery j k; shutdown_flag := shutdown; loop_pc := AtTop;
  loop_seen := mark shutdown; scheduler_seen := mark shutdown; main := Supervising |}.

(** What [run_service] returns, once it has. *)
Definition daemon_result (d : RunningDaemon) : option (result (DaemonError IoError) unit) :=
  match main d with Finished completion ends => Some (service_result completion ends) | _ => None end.

(** Its tasks run as a program: whatever holds of the runs of [Program], and so of
    [DaemonService], holds of the daemon. *)
Lemma daemon_program_run d ls d' :
  Prelude.run daemon_step d ls d' ->
  exists ls', Prelude.run (program_step accepts) (program d) ls' (program d').
Proof.
  induction 1 as [d|d1 l d2 ls d3 Hstep _ [ls' IH]]; [exists []; constructor|].
  destruct Hstep as [d l p _ Hp|d _ _ _|d _ _|d signal c _ _|d c _ _|d expired c ends _ _]; [|by exists ls'..].
  exists (l :: ls'). by econstructor.
Qed.

(** ** The invariant *)

Definition requested (d : RunningDaemon) : bool := match main d with Supervising => false | _ => true end.
Definition flag_at (b : bool) : channel bool :=
  if b then send_replace (watch_channel false) true else watch_channel false.

(** The error a worker carries or ended with. *)
Definition failure_of (p : WorkerPc (IoError := IoError)) : option (DaemonError IoError) :=
  match p with Collected _ (Err e) | Clearing (Err e) | WorkerDone (Err e) => Some e | _ => None end.

(** A reading of the device that does not serialise. *)
Definition unserialisable (k0 : Collector) (e : DaemonError IoError) : Prop :=
  exists k w, same_device k0 k /\ (collected k w).1.1 = Err e.

(** Why the supervision stopped, and what it joined. *)
Definition cause (d : RunningDaemon) (c : Completion) : Prop :=
  match c with
  | CompletionSignal _ => True
  | CompletionMqtt r => exists e, r = Ok (Err e) /\ mqtt_outcome (service_of d) = Some (Err e)
  | CompletionScheduler _ => False
  | CompletionCollector r => exists e, r = Ok (Err e) /\ worker_pc d = WorkerDone (Err e)
  end.
Definition agrees (d : RunningDaemon) (ends : Ends) : Prop :=
  Some (mqtt_end ends) = mqtt_ended d /\ Some (scheduler_end ends) = scheduler_ended d
  /\ (collector_end ends = None \/ collector_end ends = collector_ended d).

Record daemon_inv (k0 : Collector) (d : RunningDaemon) : Prop := {
  inv_program : program_inv k0 (program d);
  inv_flag : shutdown_flag d = flag_at (requested d);
  inv_loop_seen : mqtt_done (service_of d) = false -> loop_seen d = mark (flag_at false);
  inv_scheduler_seen : scheduler (service_of d) <> SchedulerDone -> scheduler_seen d = mark (flag_at false);
  inv_loop_pc : mqtt_done (service_of d) = true -> loop_pc d = AtTop;
  inv_mqtt_ok : mqtt_outcome (service_of d) = Some (Ok tt) ->
    requested d = true /\ status (mqtt_task (service_of d)) = StatusStopped;
  inv_mqtt_err : forall e, mqtt_outcome (service_of d) = Some (Err e) ->
    accepts (length (requests (mqtt_task (service_of d)))) = false;
  inv_scheduler : scheduler (service_of d) = SchedulerDone -> requested d = true;
  inv_worker : worker_pc d = WorkerDone (Ok tt) ->
    mqtt_done (service_of d) = true /\ scheduler (service_of d) = SchedulerDone;
  inv_failure : forall e, failure_of (worker_pc d) = Some e -> unserialisable k0 e;
  inv_main : match main d with
             | Supervising => True
             | Stopping c _ => cause d c
             | Finished c ends => cause d c /\ agrees d ends
             end;
}.

Lemma program_step_service (p : Program) l p' : program_step accepts p l p' -> service_step accepts (running p) l (running p').
Proof. by intros []. Qed.

Lemma flag_unset d k0 : daemon_inv k0 d -> requested d = false -> borrow (shutdown_flag d) = false.
Proof. intros Hi Hr. rewrite (inv_flag k0 d Hi), Hr. apply borrow_channel. Qed.

Lemma flag_set d k0 : daemon_inv k0 d -> requested d = true -> borrow (shutdown_flag d) = true.
Proof. intros Hi Hr. rewrite (inv_flag k0 d Hi), Hr. apply borrow_send. Qed.

(** Who has not looked sees a change exactly when the shutdown was requested. *)
Lemma loop_changed_requested d k0 :
  daemon_inv k0 d -> mqtt_done (service_of d) = false -> loop_changed d = requested d.
Proof.
  intros Hi Hd. unfold loop_changed. rewrite (inv_flag k0 d Hi), (inv_loop_seen k0 d Hi Hd).
  destruct (requested d); [apply changed_send|apply changed_mark].
Qed.

Lemma scheduler_changed_requested d k0 :
  daemon_inv k0 d -> scheduler (service_of d) <> SchedulerDone -> scheduler_changed d = requested d.
Proof.
  intros Hi Hd. unfold scheduler_changed. rewrite (inv_flag k0 d Hi), (inv_scheduler_seen k0 d Hi Hd).
  destruct (requested d); [apply changed_send|apply changed_mark].
Qed.

Lemma found_stops d c k0 : daemon_inv k0 d -> requested d = true -> found d c = true -> stops c = true.
Proof.
  intros Hi Hr Hf. apply andb_true_iff in Hf as [_ Hf%eqb_prop]. unfold stops.
  by rewrite Hf, (flag_set d k0), orb_true_r.
Qed.

(** A permitted iteration looks at the flag, or ends without an error, only when
    the shutdown was requested. *)
Lemma permitted_iteration d k0 now branch polls :
  daemon_inv k0 d -> mqtt_done (service_of d) = false -> permits d (MqttIterates now branch polls) = true ->
  now || loop_looks (MqttIterates now branch polls) = true -> requested d = true.
Proof.
  intros Hi Hd Hp Hl. destruct (requested d) eqn:Er; [done|]. pose proof (flag_unset d k0 Hi Er) as Hf.
  pose proof (loop_changed_requested d k0 Hi Hd) as Hc. rewrite Er in Hc. cbn [permits] in Hp. rewrite Hc, Hf in Hp.
  destruct now; [by destruct (loop_pc d)|]. by destruct (loop_pc d), branch as [c|[e|e] [|c]|[]].
Qed.

(** An iteration that looks at a requested shutdown returns. *)
Lemma looking_returns now branch polls w s :
  match branch with ShutdownChanged c | Polled _ (Interrupted c) => stops c = true | _ => True end ->
  now || loop_looks (MqttIterates now branch polls) = true ->
  exists w' s' r, iterate accepts now branch polls w s = (w', s', Return r).
Proof.
  intros Hs Hl. unfold iterate. destruct now; [by do 3 eexists|].
  destruct branch as [c|[e|e] [|c]|[]]; try discriminate Hl; rewrite ?Hs; [by do 3 eexists|].
  unfold on_error. destruct (next_unit _), (next_delay _ _). rewrite Hs. by do 3 eexists.
Qed.

(** What has ended stays ended. *)
Lemma service_step_ended sv l sv' :
  service_step (IoError := IoError) accepts sv l sv' ->
  (forall r, mqtt_outcome sv = Some r -> mqtt_outcome sv' = Some r /\ mqtt_task sv' = mqtt_task sv)
  /\ (scheduler sv = SchedulerDone -> scheduler sv' = SchedulerDone)
  /\ (forall r, pc (worker sv) = WorkerDone r -> pc (worker sv') = WorkerDone r).
Proof.
  intros [now branch polls sv0 w' s' flow Hd _ _|payload sv0 k' sh' Hk|e sv0 s' sh' Hs];
    cbn [mqtt_outcome mqtt_task scheduler worker]; (split; [|split]; try done).
  - intros r Hr. unfold mqtt_done in Hd. by rewrite Hr in Hd.
  - intros r Hr. unfold worker_step in Hk. by rewrite Hr in Hk.
  - intros Hr. unfold scheduler_step in Hs. by rewrite Hr in Hs.
Qed.

Lemma service_step_other sv l sv' :
  service_step (IoError := IoError) accepts sv l sv' -> is_mqtt l = false -> mqtt_outcome sv' = mqtt_outcome sv.
Proof. by intros []. Qed.

(** Who ends a task. *)
Lemma service_step_mqtt_ends sv l sv' r :
  service_step (IoError := IoError) accepts sv l sv' -> mqtt_done sv = false -> mqtt_outcome sv' = Some r ->
  exists now branch polls w', l = MqttIterates now branch polls
    /\ iterate accepts now branch polls (shared_slots (shared sv)) (mqtt_task sv) = (w', mqtt_task sv', Return r).
Proof.
  intros [now branch polls sv0 w' s' flow Hd _ Hit|payload sv0 k' sh' _|e sv0 s' sh' _] Hdone Hr;
    cbn [mqtt_outcome mqtt_task] in *; [|unfold mqtt_done in Hdone; by rewrite Hr in Hdone..].
  destruct flow as [|r']; [done|]. injection Hr as <-. by exists now, branch, polls, w'.
Qed.

Lemma service_step_scheduler_ends sv l sv' :
  service_step (IoError := IoError) accepts sv l sv' -> scheduler sv <> SchedulerDone -> scheduler sv' = SchedulerDone ->
  l = SchedulerSteps (SchedulerBegins true) \/ exists c, l = SchedulerSteps (SchedulerShutdown c) /\ stops c = true.
Proof.
  intros [now branch polls sv0 w' s' flow _ _ _|payload sv0 k' sh' _|e sv0 s' sh' Hs] Hn Hd; cbn [scheduler] in *; try done.
  unfold scheduler_step in Hs. subst s'.
  destruct (scheduler sv0) as [|last|], e as [[]|c|now]; repeat case_match; simplify_eq/=; eauto.
Qed.

Lemma worker_step_failure closed payload k sh k' sh' :
  worker_step (IoError := IoError) closed payload k sh = Some (k', sh') ->
  (forall e, failure_of (pc k') = Some e ->
     failure_of (pc k) = Some e \/ is_collecting (pc k) = true /\ payload = Err e)
  /\ (pc k' = WorkerDone (Ok tt) -> closed = true).
Proof.
  unfold worker_step. intros Hs. destruct (pc k) as [| |id|id|id [text|e]|[text|e]|r] eqn:E;
    repeat case_match; simplify_eq/=; split; intros; simplify_eq/=; try done; eauto.
  destruct payload; simplify_eq/=; eauto.
Qed.

Lemma main_stable d d' :
  main d' = main d ->
  (forall r, mqtt_outcome (service_of d) = Some r -> mqtt_outcome (service_of d') = Some r) ->
  (scheduler (service_of d) = SchedulerDone -> scheduler (service_of d') = SchedulerDone) ->
  (forall r, worker_pc d = WorkerDone r -> worker_pc d' = WorkerDone r) ->
  match main d with Supervising => True | Stopping c _ => cause d c | Finished c ends => cause d c /\ agrees d ends end ->
  match main d' with Supervising => True | Stopping c _ => cause d' c | Finished c ends => cause d' c /\ agrees d' ends end.
Proof.
  intros -> Hm Hs Hw.
  assert (forall c, cause d c -> cause d' c) as Hcause.
  { intros [signal|r|r|r]; cbn; [done| |done|]; intros (e & Hr & He); exists e; eauto. }
  destruct (main d) as [|c expired|c ends]; [done|by apply Hcause|]. intros [Hc (Hme & Hse & Hce)]. split; [by apply Hcause|].
  unfold agrees, mqtt_ended, scheduler_ended, collector_ended in *. split; [|split].
  - destruct (mqtt_outcome (service_of d)) as [r|] eqn:E; [|done]. by rewrite (Hm r eq_refl).
  - destruct (scheduler (service_of d)); try done. by rewrite Hs.
  - destruct Hce as [?|Hce]; [by left|]. destruct (worker_pc d) as [| |id|id|id r|r|r] eqn:E; try by left.
    right. by rewrite (Hw r eq_refl).
Qed.

(** The outcome of the supervisor, when it is new. *)
Lemma mqtt_ends_for_a_cause d k0 l p r :
  daemon_inv k0 d -> permits d l = true -> program_step accepts (program d) l p ->
  mqtt_done (service_of d) = false -> mqtt_outcome (running p) = Some r ->
  match r with
  | Ok _ => requested d = true /\ status (mqtt_task (running p)) = StatusStopped
  | Err _ => accepts (length (requests (mqtt_task (running p)))) = false
  end.
Proof.
  intros Hi Hp Hstep Hdone Hr.
  destruct (service_step_mqtt_ends _ _ _ _ (program_step_service _ _ _ Hstep) Hdone Hr) as (now & branch & polls & w' & -> & Hit).
  pose proof (supervisor_returns_only_on_shutdown accepts now branch polls (shared_slots (shared (running (program d))))
    (mqtt_task (running (program d)))) as Hret.
  rewrite Hit in Hret. destruct r as [[]|e]; [|exact Hret]. destruct Hret as [Hst Hret]. split; [|exact Hst].
  eapply permitted_iteration; [exact Hi|exact Hdone|exact Hp|].
  destruct Hret as [->|Hret]; [done|]. destruct now; [done|]. by destruct branch as [c|[e|e] [|c]|b].
Qed.

Lemma service_step_iterates sv now branch polls sv' :
  service_step (IoError := IoError) accepts sv (MqttIterates now branch polls) sv' ->
  mqtt_done sv = false /\ exists w' flow,
    iterate accepts now branch polls (shared_slots (shared sv)) (mqtt_task sv) = (w', mqtt_task sv', flow)
    /\ mqtt_outcome sv' = match flow with Continue => None | Return r => Some r end.
Proof. inversion 1; subst. split; [done|]. by do 2 eexists. Qed.

(** What an iteration leaves to the other tasks. *)
Lemma service_step_iterates_frame sv now branch polls sv' :
  service_step (IoError := IoError) accepts sv (MqttIterates now branch polls) sv' ->
  worker sv' = worker sv /\ scheduler sv' = scheduler sv
  /\ requests_of sv' = if connects now branch then (request_collection (requests_of sv)).1 else requests_of sv.
Proof.
  inversion 1 as [now1 branch1 polls1 sv1 w' s' flow Hd Hen Hit| |]; subst. split; [done|]. split; [done|].
  pose proof (iterate_slots accepts now branch polls (shared_slots (shared sv)) (mqtt_task sv)) as Hw.
  rewrite Hit in Hw. by destruct Hw as [_ Hw].
Qed.

Lemma loop_looks_ends d k0 l p :
  daemon_inv k0 d -> permits d l = true -> program_step accepts (program d) l p -> loop_looks l = true ->
  mqtt_done (running p) = true.
Proof.
  intros Hi Hp Hstep%program_step_service Hl. destruct l as [now branch polls| |]; [|discriminate Hl..].
  destruct (service_step_iterates _ _ _ _ _ Hstep) as (Hd & w' & flow & Hit & Hout).
  assert (now || loop_looks (MqttIterates now branch polls) = true) as Hl' by by rewrite Hl, orb_true_r.
  pose proof (permitted_iteration d k0 now branch polls Hi Hd Hp Hl') as Hr.
  destruct (looking_returns now branch polls (shared_slots (shared (running (program d)))) (mqtt_task (running (program d))))
    as (w2 & s2 & r & Hit2); [|done|].
  - cbn [permits] in Hp. destruct now; [done|].
    destruct (loop_pc d), branch as [c|[e|e] [|c]|b]; try done;
      apply andb_true_iff in Hp as [_ Hp]; by eapply found_stops.
  - rewrite Hit2 in Hit. injection Hit as _ _ <-. unfold mqtt_done. by rewrite Hout.
Qed.

Lemma scheduler_looks_ends d k0 l p :
  daemon_inv k0 d -> permits d l = true -> program_step accepts (program d) l p ->
  scheduler (service_of d) <> SchedulerDone ->
  (scheduler (running p) = SchedulerDone -> requested d = true)
  /\ (scheduler_looks l = true -> scheduler (running p) = SchedulerDone).
Proof.
  intros Hi Hp Hstep%program_step_service Hn. pose proof (scheduler_changed_requested d k0 Hi Hn) as Hc. split.
  - intros Hd. destruct (service_step_scheduler_ends _ _ _ Hstep Hn Hd) as [->|(c & -> & _)]; cbn [permits] in Hp.
    + destruct (requested d) eqn:Er; [done|]. by rewrite (flag_unset d k0) in Hp.
    + by apply andb_true_iff in Hp as [<- _].
  - intros Hl. destruct l as [| |[b|c|now]]; try discriminate Hl. cbn [permits] in Hp.
    apply andb_true_iff in Hp as [Hr Hf]. rewrite Hc in Hr. pose proof (found_stops d c k0 Hi Hr Hf) as Hs.
    inversion Hstep as [| |e sv s' sh' Hsc]; subst. cbn [scheduler]. unfold service_of in Hn.
    unfold scheduler_step in Hsc. rewrite Hs in Hsc. destruct (scheduler (running (program d))); try done. by injection Hsc as <-.
Qed.

Lemma permitted_worker d k0 l p :
  daemon_inv k0 d -> program_step accepts (program d) l p ->
  (pc (worker (running p)) = WorkerDone (Ok tt) -> mqtt_done (running p) = true /\ scheduler (running p) = SchedulerDone)
  /\ forall e, failure_of (pc (worker (running p))) = Some e -> unserialisable k0 e.
Proof.
  intros Hi Hstep. pose proof (inv_program k0 d Hi) as (Hk & _ & _).
  pose proof (inv_worker k0 d Hi) as Hw. pose proof (inv_failure k0 d Hi) as Hf. unfold worker_pc, service_of in *.
  destruct (service_step_ended _ _ _ (program_step_service _ _ _ Hstep)) as (Hm & Hs & _).
  assert (mqtt_done (running (program d)) = true -> mqtt_done (running p) = true) as Hmd.
  { unfold mqtt_done. destruct (mqtt_outcome (running (program d))) as [r|] eqn:E; [|done].
    by destruct (Hm r eq_refl) as [-> _]. }
  destruct (program d) as [sv k] eqn:Ep. cbn [running owned] in *.
  assert (forall payload k' sh', worker_step (senders_gone sv) payload (worker sv) (shared sv) = Some (k', sh') ->
    worker (running p) = k' -> (is_collecting (pc (worker sv)) = true -> forall e, payload = Err e -> unserialisable k0 e) ->
    (pc k' = WorkerDone (Ok tt) -> mqtt_done (running p) = true /\ scheduler (running p) = SchedulerDone)
    /\ forall e, failure_of (pc k') = Some e -> unserialisable k0 e) as Hwork.
  { intros payload k' sh' Hwk _ Hnew. destruct (worker_step_failure _ _ _ _ _ _ Hwk) as [Hfail Hdone]. split.
    - intros Hpc. apply Hdone in Hpc. unfold senders_gone in Hpc. apply andb_true_iff in Hpc as [Hd Hsd].
      split; [by apply Hmd|]. destruct (scheduler sv); try done. by apply Hs.
    - intros e He. destruct (Hfail e He) as [He'|[Hc ->]]; [by apply Hf|by eapply Hnew]. }
  inversion Hstep as [w sv1 k1 sv2 Hcol Hserv|l1 sv1 k1 sv2 Hl Hserv]; subst; cbn [running] in *.
  - inversion Hserv as [|payload sv3 k' sh' Hwk|]; subst. cbn [worker] in *. eapply Hwork; [exact Hwk|done|].
    intros _ e He. by exists k, w.
  - inversion Hserv as [now branch polls sv3 w' s' flow Hd Hen Hit|payload sv3 k' sh' Hwk|e sv3 s' sh' Hsc]; subst;
      cbn [worker] in *.
    + split; [|done]. intros Hpc. destruct (Hw Hpc) as [Hd' Hs']. split; [by apply Hmd|by apply Hs].
    + eapply Hwork; [exact Hwk|done|]. intros Hcol. by rewrite Hcol in Hl.
    + split; [|done]. intros Hpc. destruct (Hw Hpc) as [Hd' Hs']. split; [by apply Hmd|by apply Hs].
Qed.

Lemma daemon_inv_task k0 d l p :
  daemon_inv k0 d -> permits d l = true -> program_step accepts (program d) l p -> daemon_inv k0 (after_step d l p).
Proof.
  intros Hi Hp Hstep. pose proof (program_step_service _ _ _ Hstep) as Hserv.
  destruct (service_step_ended _ _ _ Hserv) as (Hm & Hs & Hw).
  destruct (permitted_worker d k0 l p Hi Hstep) as [Hwdone Hwfail].
  assert (mqtt_done (running p) = false -> mqtt_done (service_of d) = false) as Hmd.
  { unfold mqtt_done, service_of. destruct (mqtt_outcome (running (program d))) as [r|]; [|done].
    by destruct (Hm r eq_refl) as [-> _]. }
  assert (scheduler (running p) <> SchedulerDone -> scheduler (service_of d) <> SchedulerDone) as Hsd by eauto.
  split; cbn [after_step program shutdown_flag loop_pc loop_seen scheduler_seen main] in *;
    unfold service_of, worker_pc in *; cbn [after_step program] in *.
  - eapply program_inv_step; [apply (inv_program k0 d Hi)|exact Hstep].
  - apply (inv_flag k0 d Hi).
  - intros Hd. destruct (loop_looks l) eqn:E; [|by apply (inv_loop_seen k0 d Hi), Hmd].
    by rewrite (loop_looks_ends d k0 l p) in Hd.
  - intros Hd. destruct (scheduler_looks l) eqn:E; [|by apply (inv_scheduler_seen k0 d Hi), Hsd].
    destruct (scheduler_looks_ends d k0 l p Hi Hp Hstep (Hsd Hd)) as [_ Hl]. by apply Hl in E.
  - intros Hd. destruct (is_mqtt l) eqn:E; [done|]. apply (inv_loop_pc k0 d Hi). unfold service_of.
    unfold mqtt_done in *. by rewrite <-(service_step_other _ _ _ Hserv E).
  - intros Hr. destruct (mqtt_done (running (program d))) eqn:Ed.
    + unfold mqtt_done in *. destruct (mqtt_outcome (running (program d))) as [r|] eqn:Er; [|done].
      destruct (Hm r eq_refl) as [Hm' ->]. apply (inv_mqtt_ok k0 d Hi). unfold service_of. congruence.
    + exact (mqtt_ends_for_a_cause d k0 l p _ Hi Hp Hstep Ed Hr).
  - intros e He. destruct (mqtt_done (running (program d))) eqn:Ed.
    + unfold mqtt_done in *. destruct (mqtt_outcome (running (program d))) as [r|] eqn:Er; [|done].
      destruct (Hm r eq_refl) as [Hm' ->]. apply (inv_mqtt_err k0 d Hi e). unfold service_of. congruence.
    + exact (mqtt_ends_for_a_cause d k0 l p _ Hi Hp Hstep Ed He).
  - intros Hd. destruct (decide (scheduler (running (program d)) = SchedulerDone)) as [E|E].
    + by apply (inv_scheduler k0 d Hi).
    + destruct (scheduler_looks_ends d k0 l p Hi Hp Hstep E) as [Hl _]. by apply Hl.
  - exact Hwdone.
  - exact Hwfail.
  - apply (main_stable d (after_step d l p)); [done| |exact Hs|exact Hw|exact (inv_main k0 d Hi)].
    intros r Hr. by destruct (Hm r Hr).
Qed.

(** What the [select!] of [run_service] selects has a cause. *)
Lemma selected_cause d k0 signal c :
  daemon_inv k0 d -> requested d = false ->
  select_completion signal (mqtt_ended d) (scheduler_ended d) (collector_ended d) = Some c -> cause d c.
Proof.
  intros Hi Hr Hc. pose proof (inv_mqtt_ok k0 d Hi) as Hok. pose proof (inv_scheduler k0 d Hi) as Hsch.
  pose proof (inv_worker k0 d Hi) as Hwk. unfold select_completion, mqtt_ended, scheduler_ended, collector_ended in Hc.
  rewrite Hr in *. destruct signal; [by injection Hc as <-|].
  destruct (mqtt_outcome (service_of d)) as [[[]|e]|] eqn:Em; [by destruct (Hok eq_refl) as [? _]|injection Hc as <-; by exists e|].
  cbn [fmap option_fmap option_map] in Hc.
  destruct (decide (scheduler (service_of d) = SchedulerDone)) as [Es|Es]; [by discriminate (Hsch Es)|].
  assert (match worker_pc d with WorkerDone r => Some (CompletionCollector (Ok r)) | _ => None end = Some c) as Hc'
    by (destruct (scheduler (service_of d)); try done; by destruct (worker_pc d)).
  destruct (worker_pc d) as [| |id|id|id r|r|[[]|e]] eqn:Ew; try discriminate Hc'; injection Hc' as <-;
    [by destruct (Hwk eq_refl)|by exists e].
Qed.

Lemma daemon_inv_step k0 d l d' : daemon_inv k0 d -> daemon_step d l d' -> daemon_inv k0 d'.
Proof.
  intros Hi Hstep.
  destruct Hstep as [d l p Hp Hstep|d Htop Hd Hf|d Hsel Hc|d signal c Hmain Hc|d c Hmain _|d expired c ends Hmain Hj].
  - by apply daemon_inv_task.
  - destruct Hi. split; try done. cbn. intros Hd'. change (mqtt_done (service_of d) = true) in Hd'. congruence.
  - pose proof (inv_loop_pc k0 d Hi) as Hl. destruct Hi. split; try done. cbn. intros Hd'. specialize (Hl Hd'). congruence.
  - assert (requested d = false) as Hr by (unfold requested; by rewrite Hmain).
    pose proof (selected_cause d k0 signal c Hi Hr Hc) as Hcause.
    pose proof (inv_flag k0 d Hi) as Hflag. rewrite Hr in Hflag.
    pose proof (inv_mqtt_ok k0 d Hi) as Hok. destruct Hi. split; try done; cbn; [by rewrite Hflag|].
    intros Hm. by destruct (Hok Hm).
  - assert (requested d = true) as Hr by (unfold requested; by rewrite Hmain).
    pose proof (inv_main k0 d Hi) as Hc. rewrite Hmain in Hc. pose proof (inv_flag k0 d Hi) as Hflag. rewrite Hr in Hflag.
    pose proof (inv_mqtt_ok k0 d Hi) as Hok. destruct Hi. split; try done; cbn [set_main main].
    intros Hm. by destruct (Hok Hm).
  - assert (requested d = true) as Hr by (unfold requested; by rewrite Hmain).
    pose proof (inv_main k0 d Hi) as Hc. rewrite Hmain in Hc. pose proof (inv_flag k0 d Hi) as Hflag. rewrite Hr in Hflag.
    pose proof (inv_mqtt_ok k0 d Hi) as Hok. destruct Hi. split; try done; cbn [set_main main]; [|split; [exact Hc|]].
    { intros Hm. by destruct (Hok Hm). }
    unfold joined in Hj. apply bind_Some in Hj as (m & Hm & Hj). apply bind_Some in Hj as (s & Hs & Hj).
    apply bind_Some in Hj as (o & Ho & [= <-]). unfold agrees. cbn [mqtt_end scheduler_end collector_end].
    split; [by rewrite <-Hm|]. split; [by rewrite <-Hs|]. destruct expired; [left; by injection Ho as <-|right].
    apply fmap_Some in Ho as (x & Hx & ->). done.
Qed.

Lemma daemon_inv_start settings discovery j k0 : daemon_inv k0 (daemon_start settings discovery j k0).
Proof. by split; try done; cbn; split_and!. Qed.

Lemma daemon_inv_run settings discovery j k0 ls d :
  Prelude.run daemon_step (daemon_start settings discovery j k0) ls d -> daemon_inv k0 d.
Proof.
  intros Hrun. eapply (run_invariant daemon_step (daemon_inv k0)); [|apply daemon_inv_start|exact Hrun].
  intros s l s' Hi Hs. by eapply daemon_inv_step.
Qed.

(** ** Why the service stops *)

Lemma collected_failure k w e :
  (collected k w).1.1 = Err e ->
  exists text, e = StateSerialization text
    /\ (document ← serialize_state (collect k w).1.1; json_to_string document) = Err text.
Proof.
  unfold collect_payload. destruct (collect k w) as [[s k'] w']. cbn [fst].
  destruct (document ← serialize_state s; json_to_string document) as [t|text]; [done|]. intros [= <-]. by exists text.
Qed.

(** A reading of the device this collector was made for that cannot be published. *)
Definition unpublishable (k0 : Collector) (text : str) : Prop :=
  exists k w, same_device k0 k /\ (document ← serialize_state (collect k w).1.1; json_to_string document) = Err text.

Lemma unserialisable_unpublishable k0 e :
  unserialisable k0 e -> exists text, e = StateSerialization text /\ unpublishable k0 text.
Proof.
  intros (k & w & Hk & Hc). destruct (collected_failure k w e Hc) as (text & -> & Hd). exists text.
  split; [done|]. by exists k, w.
Qed.

(** The joins went on without the collector's end. *)
Definition gave_up (d : RunningDaemon) : bool :=
  match main d with
  | Stopping _ expired => expired
  | Finished _ ends => match collector_end ends with None => true | Some _ => false end
  | Supervising => false
  end.

(** Then the timeout on it expired, while the collector was running. *)
Lemma gave_up_expired d0 ls d :
  Prelude.run daemon_step d0 ls d -> gave_up d0 = false -> gave_up d = true ->
  exists before after d1, ls = before ++ DrainExpires :: after
    /\ Prelude.run daemon_step d0 before d1 /\ collector_ended d1 = None.
Proof.
  induction 1 as [d|d1 l d2 ls d3 Hstep _ IH]; intros Hb Ha; [congruence|].
  destruct (gave_up d2) eqn:E.
  - exists [], ls, d1. assert (l = DrainExpires /\ collector_ended d1 = None) as [-> Hc].
    2: { split; [done|]. split; [constructor|exact Hc]. }
    destruct Hstep as [d l p _ _|d _ _ _|d _ _|d signal c _ _|d c Hmain Hd|d expired c ends Hmain Hj];
      unfold gave_up in *; cbn [main after_step set_loop_pc set_main] in *; try congruence.
    + split; [done|]. unfold draining in Hd. rewrite Hmain in Hd. apply negb_true_iff, bool_decide_eq_false in Hd.
      by apply eq_None_not_Some.
    + rewrite Hmain in Hb. subst expired. unfold joined in Hj.
      apply bind_Some in Hj as (m & _ & Hj). apply bind_Some in Hj as (s & _ & Hj).
      apply bind_Some in Hj as (o & Ho & [= <-]). cbn [collector_end] in E. by apply fmap_Some in Ho as (x & _ & ->).
  - destruct (IH eq_refl Ha) as (before & after & d' & -> & Hrun & Hc). exists (l :: before), after, d'.
    split; [done|]. split; [by econstructor|exact Hc].
Qed.

(** C3: the daemon stops for a cause.  In every interleaving of its
    tasks, whatever the network and the host do, when the service returns success
    a shutdown signal was delivered, the supervisor was told and has stopped, the
    scheduler has ended, and the worker has ended without a failure unless it was
    still running when the timeout on it expired (its end is then not looked at);
    when it returns an error, the signal handler failed, the MQTT client refused a
    request, or a reading of this device could not be serialised.  No task stops
    by itself. *)
Theorem service_stops_for_a_cause settings discovery j k0 ls d completion ends :
  Prelude.run daemon_step (daemon_start settings discovery j k0) ls d -> main d = Finished completion ends ->
  match service_result completion ends with
  | Ok _ => completion = CompletionSignal (Ok tt)
      /\ mqtt_outcome (service_of d) = Some (Ok tt) /\ status (mqtt_task (service_of d)) = StatusStopped
      /\ scheduler (service_of d) = SchedulerDone
      /\ (worker_pc d = WorkerDone (Ok tt)
          \/ exists before after d1, ls = before ++ DrainExpires :: after
               /\ Prelude.run daemon_step (daemon_start settings discovery j k0) before d1
               /\ forall r, worker_pc d1 <> WorkerDone r)
  | Err (SignalHandling source) => completion = CompletionSignal (Err source)
  | Err (Mqtt _) => accepts (length (requests (mqtt_task (service_of d)))) = false
  | Err (StateSerialization text) => unpublishable k0 text
  | Err _ => False
  end.
Proof.
  intros Hrun Hmain. pose proof (daemon_inv_run _ _ _ _ _ _ Hrun) as Hi.
  pose proof (gave_up_expired _ _ _ Hrun eq_refl) as Hexp. unfold gave_up in Hexp. rewrite Hmain in Hexp.
  pose proof (inv_main k0 d Hi) as Hm. rewrite Hmain in Hm. destruct Hm as [Hc (Hme & Hse & Hce)].
  pose proof (inv_mqtt_ok k0 d Hi) as Hok. pose proof (inv_mqtt_err k0 d Hi) as Herr.
  assert (forall e, worker_pc d = WorkerDone (Err e) -> exists text, e = StateSerialization text /\ unpublishable k0 text) as Hfail.
  { intros e He. apply unserialisable_unpublishable, (inv_failure k0 d Hi). by rewrite He. }
  unfold mqtt_ended, scheduler_ended, collector_ended in *. destruct ends as [m s c]. cbn [mqtt_end scheduler_end collector_end] in *.
  destruct (mqtt_outcome (service_of d)) as [rm|] eqn:Em; [|done]. injection Hme as ->.
  destruct (scheduler (service_of d)) eqn:Es; try done. injection Hse as ->.
  assert (match c with None => True | Some c => exists r, c = Ok r /\ worker_pc d = WorkerDone r end) as Hc'.
  { destruct c as [c|]; [|done]. destruct Hce as [?|Hce]; [done|]. destruct (worker_pc d) as [| |id|id|id r|r|r]; try done.
    injection Hce as ->. by exists r. }
  clear Hce. destruct completion as [signal|r|r|r]; cbn [cause] in Hc; [| |done|].
  - destruct signal as [[]|source]; [|done]. destruct rm as [[]|e]; [|by apply (Herr e)].
    destruct (Hok eq_refl) as [_ Hst]. destruct c as [c|].
    + destruct Hc' as ([[]|e] & -> & Hw); [split_and!; try done; by left|].
      destruct (Hfail e Hw) as (text & -> & Hu). exact Hu.
    + split_and!; try done. right. destruct (Hexp eq_refl) as (before & after & d1 & -> & Hrun1 & Hd1).
      exists before, after, d1. split; [done|]. split; [exact Hrun1|]. intros r Hr. by rewrite Hr in Hd1.
  - destruct Hc as (e & -> & Hrm). apply (Herr e). congruence.
  - destruct Hc as (e & -> & Hw). destruct (Hfail e Hw) as (text & -> & Hu). exact Hu.
Qed.

(** ** The end of the service *)

(** The steps each part has left once the shutdown was requested. *)
Definition loop_left (d : RunningDaemon) : nat :=
  if mqtt_done (service_of d) then 0 else match loop_pc d with Retrying => 2 | _ => 1 end.
Definition main_left (d : RunningDaemon) : nat :=
  match main d with Stopping _ true => 1 | Finished _ _ => 0 | _ => 2 end.
Definition worker_steps_left (d : RunningDaemon) : nat :=
  worker_left (has_changed (requests_of (service_of d)) (requests_seen (worker (service_of d)))) (worker_pc d).
Definition daemon_left (d : RunningDaemon) : nat :=
  loop_left d + scheduler_left (scheduler (service_of d)) + worker_steps_left d + main_left d.

Lemma daemon_left_bound d : (daemon_left d <= 16)%nat.
Proof.
  unfold daemon_left, loop_left, scheduler_left, worker_steps_left, worker_left, main_left.
  destruct (mqtt_done _), (loop_pc d), (scheduler _), (has_changed _ _), (worker_pc d), (main d) as [|? []|]; lia.
Qed.

(** After the request nobody asks for a collection, and no iteration leads back
    to where it began. *)
Lemma stopping_iteration d k0 now branch polls p :
  daemon_inv k0 d -> requested d = true -> permits d (MqttIterates now branch polls) = true ->
  program_step accepts (program d) (MqttIterates now branch polls) p ->
  connects now branch = false
  /\ (loop_left (after_step d (MqttIterates now branch polls) p) < loop_left d)%nat.
Proof.
  intros Hi Hr Hp Hstep%program_step_service.
  destruct (service_step_iterates _ _ _ _ _ Hstep) as (Hd & w' & flow & Hit & Hout).
  change (running (program d)) with (service_of d) in *.
  pose proof (loop_changed_requested d k0 Hi Hd) as Hc. rewrite Hr in Hc. cbn [permits] in Hp. rewrite Hc in Hp.
  assert (forall w1 s1 r, iterate accepts now branch polls (shared_slots (shared (service_of d))) (mqtt_task (service_of d))
            = (w1, s1, Return r) ->
    (loop_left (after_step d (MqttIterates now branch polls) p) < loop_left d)%nat) as Hreturn.
  { intros w1 s1 r Hit2. rewrite Hit2 in Hit. injection Hit as _ _ <-. unfold loop_left. rewrite Hd.
    change (service_of (after_step d (MqttIterates now branch polls) p)) with (running p).
    unfold mqtt_done. rewrite Hout. destruct (loop_pc d); lia. }
  assert (forall c, found d c = true -> stops c = true) as Hstops by (intros c; by eapply found_stops).
  assert (match branch with ShutdownChanged c | Polled _ (Interrupted c) => stops c = true | _ => True end ->
    now || loop_looks (MqttIterates now branch polls) = true ->
    (loop_left (after_step d (MqttIterates now branch polls) p) < loop_left d)%nat) as Hlook.
  { intros Hs Hl. destruct (looking_returns now branch polls (shared_slots (shared (service_of d)))
      (mqtt_task (service_of d)) Hs Hl) as (w1 & s1 & r & Hit2). by eapply Hreturn. }
  destruct now; [split; [done|]; by eapply Hreturn|].
  destruct (loop_pc d) eqn:El, branch as [c|[e|e] [|c]|b]; try done; (split; [done|]).
  - apply Hlook; [by apply Hstops|done].
  - unfold loop_left. rewrite Hd, El. cbn [after_step loop_pc is_mqtt].
    destruct (mqtt_done (service_of (after_step _ _ _))); lia.
  - apply Hlook; [by apply Hstops|done].
Qed.

Lemma service_step_works sv payload sv' :
  service_step (IoError := IoError) accepts sv (WorkerSteps payload) sv' ->
  mqtt_outcome sv' = mqtt_outcome sv /\ scheduler sv' = scheduler sv
  /\ worker_step (senders_gone sv) payload (worker sv) (shared sv) = Some (worker sv', shared sv').
Proof. by inversion 1; subst. Qed.

Lemma service_step_schedules sv e sv' :
  service_step (IoError := IoError) accepts sv (SchedulerSteps e) sv' ->
  mqtt_outcome sv' = mqtt_outcome sv /\ worker sv' = worker sv
  /\ scheduler_step e (scheduler sv) (shared sv) = Some (scheduler sv', shared sv').
Proof. by inversion 1; subst. Qed.

(** A step of the scheduler after the request is its last. *)
Lemma stopping_schedule d k0 e p :
  daemon_inv k0 d -> requested d = true -> permits d (SchedulerSteps e) = true ->
  program_step accepts (program d) (SchedulerSteps e) p ->
  scheduler (service_of d) <> SchedulerDone /\ scheduler (running p) = SchedulerDone
  /\ shared (running p) = shared (service_of d).
Proof.
  intros Hi Hr Hp Hstep%program_step_service. destruct (service_step_schedules _ _ _ Hstep) as (_ & _ & Hsc).
  change (running (program d)) with (service_of d) in *.
  assert (scheduler (service_of d) <> SchedulerDone) as Hn by (intros E; rewrite E in Hsc; by destruct e).
  pose proof (scheduler_changed_requested d k0 Hi Hn) as Hc. rewrite Hr in Hc. cbn [permits] in Hp.
  split; [done|]. unfold scheduler_step in Hsc. destruct e as [b|c|now]; [| |by rewrite Hc in Hp].
  - rewrite (flag_set d k0 Hi Hr) in Hp. apply eqb_prop in Hp as ->.
    destruct (scheduler (service_of d)); try done. by injection Hsc as <- <-.
  - rewrite Hc in Hp. cbn [andb] in Hp. rewrite (found_stops d c k0 Hi Hr Hp) in Hsc.
    destruct (scheduler (service_of d)); try done. by injection Hsc as <- <-.
Qed.

Lemma stopping_daemon_step k0 d l d' :
  daemon_inv k0 d /\ requested d = true -> daemon_step d l d' ->
  (daemon_inv k0 d' /\ requested d' = true) /\ requests_of (service_of d') = requests_of (service_of d)
  /\ (daemon_left d' < daemon_left d)%nat.
Proof.
  intros [Hi Hr] Hstep. pose proof (daemon_inv_step k0 d l d' Hi Hstep) as Hi'.
  destruct Hstep as [d l p Hp Hstep|d Htop Hd Hf|d Hsel Hc|d signal c Hmain Hc|d c Hmain Hd|d expired c ends Hmain Hj].
  - split; [done|]. unfold daemon_left, worker_steps_left, worker_pc.
    change (service_of (after_step d l p)) with (running p). change (main_left (after_step d l p)) with (main_left d).
    pose proof (program_step_service _ _ _ Hstep) as Hserv. destruct l as [now branch polls|payload|e].
    + destruct (stopping_iteration d k0 now branch polls p Hi Hr Hp Hstep) as [Hcon Hlt].
      destruct (service_step_iterates_frame _ _ _ _ _ Hserv) as (Hw & Hs & Hq).
      rewrite Hcon in Hq. rewrite Hw, Hs, Hq. split; [done|]. unfold service_of in *. lia.
    + destruct (service_step_works _ _ _ Hserv) as (Hm & Hs & Hk).
      destruct (worker_step_left _ _ _ _ _ _ Hk) as [Hq Hlt]. unfold requests_of, service_of.
      split; [exact Hq|]. unfold loop_left, mqtt_done, service_of. cbn [after_step program loop_pc is_mqtt].
      rewrite Hm, Hs. lia.
    + destruct (service_step_schedules _ _ _ Hserv) as (Hm & Hw & _).
      destruct (stopping_schedule d k0 e p Hi Hr Hp Hstep) as (Hn & Hs & Hsh).
      unfold requests_of. rewrite Hsh, Hw, Hs. split; [done|].
      unfold loop_left, mqtt_done, service_of. cbn [after_step program loop_pc is_mqtt]. rewrite Hm.
      unfold service_of in Hn. destruct (scheduler (running (program d))); try done; cbn [scheduler_left]; lia.
  - by rewrite (flag_set d k0) in Hf.
  - pose proof (inv_loop_pc k0 d Hi) as Hl. destruct (mqtt_done (service_of d)) eqn:Ed; [by rewrite Hl in Hsel|].
    pose proof (loop_changed_requested d k0 Hi Ed). congruence.
  - unfold requested in Hr. by rewrite Hmain in Hr.
  - split; [done|]. split; [done|].
    change (loop_left d + scheduler_left (scheduler (service_of d)) + worker_steps_left d + 1 < daemon_left d)%nat.
    unfold daemon_left, main_left. rewrite Hmain. lia.
  - split; [done|]. split; [done|].
    change (loop_left d + scheduler_left (scheduler (service_of d)) + worker_steps_left d + 0 < daemon_left d)%nat.
    unfold daemon_left, main_left. rewrite Hmain. destruct expired; lia.
Qed.

(** ** Time

    The daemon with the time that passes.  A step takes none; time passes only
    while nothing that the stop needs can go on at once, and never beyond the end
    of a wait that is running: the sleep of the retry, the timeout of the farewell
    and the timeout on the collector.  The worker takes the time it takes. *)
Record Timed := {
  timed : RunningDaemon;
  retry_left : Duration;       (* of the sleep after a connection error *)
  farewell_left : Duration;    (* of the graceful shutdown *)
  drain_left : Duration;       (* of the wait for the collector *)
}.

(** The loop has the shutdown before it and takes its leave. *)
Definition leaving (d : RunningDaemon) : bool :=
  negb (mqtt_done (service_of d)) &&
  match loop_pc d with
  | AtTop => permits d (MqttIterates true (ShutdownChanged (change_of d)) [])
  | Selecting => permits d (MqttIterates false (ShutdownChanged (change_of d)) [])
  | Retrying => false
  end.

(** What can go on at once: the loop from its top and out of the wait of the
    retry, the scheduler at its start and at a shutdown, and [run_service] when a
    task has ended and when the joins have. *)
Definition loop_ready (d : RunningDaemon) : bool :=
  negb (mqtt_done (service_of d)) &&
  match loop_pc d with
  | AtTop => negb (borrow (shutdown_flag d))
  | Selecting => false
  | Retrying => permits d (MqttIterates false (Polled (Err NetworkTimeout) (Interrupted (change_of d))) [])
  end.
Definition scheduler_ready (d : RunningDaemon) : bool :=
  match scheduler (service_of d) with
  | SchedulerStart => true
  | SchedulerLoop _ => permits d (SchedulerSteps (SchedulerShutdown (change_of d)))
  | SchedulerDone => false
  end.
Definition main_ready (d : RunningDaemon) : bool :=
  match main d with
  | Supervising =>
    bool_decide (is_Some (select_completion (IoError := IoError) None (mqtt_ended d) (scheduler_ended d) (collector_ended d)))
  | Stopping _ expired => bool_decide (is_Some (joined d expired))
  | Finished _ _ => false
  end.
Definition ready (d : RunningDaemon) : bool := loop_ready d || scheduler_ready d || main_ready d.

(** Whether [run_service] has returned. *)
Definition finished (d : RunningDaemon) : Prop := daemon_result d <> None.
#[export] Instance finished_dec d : Decision (finished d).
Proof. unfold finished. destruct (daemon_result d); [by left|by right; intros ?]. Defined.

Inductive TimedLabel := Acts (l : DaemonLabel) | Passes (t : Duration).

(** The sleep ends, and the timeout on the collector expires, when they are over. *)
Definition due (s : Timed) (l : DaemonLabel) : bool :=
  match l with
  | Task (MqttIterates false (Polled (Err _) Slept) _) => retry_left s =? 0
  | DrainExpires => drain_left s =? 0
  | _ => true
  end.

(** The delay of the next retry, as [on_error] computes it. *)
Definition retry_delay (s : MqttSupervisor) : Duration :=
  default 0 (next_delay (backoff s) (next_unit (jitter s)).2).2.

(** The waits a step begins. *)
Definition act (s : Timed) (l : DaemonLabel) (d : RunningDaemon) : Timed := {|
  timed := d;
  retry_left := match l with LoopFails => retry_delay (mqtt_task (service_of d)) | _ => retry_left s end;
  farewell_left := if leaving d && negb (leaving (timed s)) then GRACEFUL_SHUTDOWN_TIMEOUT else farewell_left s;
  drain_left := match l with Completes _ => COLLECTOR_DRAIN_TIMEOUT | _ => drain_left s end;
|}.
Definition pass (s : Timed) (t : Duration) : Timed := {|
  timed := timed s; retry_left := duration_saturating_sub (retry_left s) t;
  farewell_left := duration_saturating_sub (farewell_left s) t; drain_left := duration_saturating_sub (drain_left s) t |}.

Inductive timed_step : Timed -> TimedLabel -> Timed -> Prop :=
  | timed_acts s l d :
      daemon_step (timed s) l d -> due s l = true -> timed_step s (Acts l) (act s l d)
  | timed_passes s t :
      0 < t -> ready (timed s) = false -> ~ finished (timed s) ->
      (loop_pc (timed s) = Retrying -> t <= retry_left s) ->
      (leaving (timed s) = true -> t <= farewell_left s) ->
      (draining (timed s) = true -> t <= drain_left s) ->
      timed_step s (Passes t) (pass s t).

Definition timed_start (d : RunningDaemon) : Timed :=
  {| timed := d; retry_left := 0; farewell_left := 0; drain_left := 0 |}.

Definition elapsed (l : TimedLabel) : Duration := match l with Passes t => t | Acts _ => 0 end.
Definition steps (l : TimedLabel) : Z := match l with Acts _ => 1 | Passes _ => 0 end.

(** What a timed daemon does is what the daemon does. *)
Lemma timed_run s ls s' :
  Prelude.run timed_step s ls s' ->
  exists ls', Prelude.run daemon_step (timed s) ls' (timed s').
Proof.
  induction 1 as [s|s1 l s2 ls s3 Hstep _ [ls' IH]]; [exists []; constructor|].
  destruct Hstep as [s l d Hd _|s t _ _ _ _ _ _]; [|by exists ls']. exists (l :: ls'). by econstructor.
Qed.

(** No wait is longer than its limit. *)
Definition within (s : Timed) : Prop :=
  0 <= farewell_left s <= GRACEFUL_SHUTDOWN_TIMEOUT /\ 0 <= drain_left s <= COLLECTOR_DRAIN_TIMEOUT.

Lemma limits : 0 <= GRACEFUL_SHUTDOWN_TIMEOUT /\ 0 <= COLLECTOR_DRAIN_TIMEOUT.
Proof. split; vm_compute; discriminate. Qed.

Lemma within_step s l s' : within s -> timed_step s l s' -> within s'.
Proof.
  intros [Hf Hd] Hstep. pose proof limits as [HG HC]. unfold within.
  destruct Hstep as [s l d _ _|s t Ht _ _ _ _ _]; cbn [act pass farewell_left drain_left].
  - split; [destruct (leaving d && _); lia|destruct l; lia].
  - unfold duration_saturating_sub. lia.
Qed.

Definition stopping (k0 : Collector) (s : Timed) : Prop :=
  (daemon_inv k0 (timed s) /\ requested (timed s) = true) /\ within s.

Lemma leaving_stopping d k0 :
  daemon_inv k0 d -> requested d = true ->
  leaving d = negb (mqtt_done (service_of d)) && match loop_pc d with Retrying => false | _ => true end.
Proof.
  intros Hi Hr. unfold leaving. destruct (mqtt_done (service_of d)) eqn:Ed; [done|]. cbn [permits].
  pose proof (loop_changed_requested d k0 Hi Ed) as Hc. rewrite Hr in Hc. pose proof (flag_set d k0 Hi Hr) as Hf.
  destruct (loop_pc d); [by rewrite Hf| |done]. rewrite Hc. unfold found. cbn. by rewrite eqb_reflx.
Qed.

(** When nothing can go on at once, the stop waits for the farewell or, the other
    tasks having ended, for the collector. *)
Lemma idle_waits d k0 :
  daemon_inv k0 d -> requested d = true -> ready d = false -> ~ finished d ->
  leaving d = true \/ mqtt_done (service_of d) = true /\ draining d = true.
Proof.
  intros Hi Hr Hready Hf. rewrite (leaving_stopping d k0 Hi Hr).
  apply orb_false_iff in Hready as [Hready Hmain]. apply orb_false_iff in Hready as [Hloop Hsched].
  assert (found d (change_of d) = true) as Hfound by (unfold found; cbn; by rewrite eqb_reflx).
  destruct (mqtt_done (service_of d)) eqn:Ed.
  - right. split; [done|]. unfold main_ready, scheduler_ready, draining, joined in *.
    destruct (main d) as [|c expired|c ends] eqn:Em; [unfold requested in Hr; by rewrite Em in Hr| |].
    2: { exfalso. apply Hf. unfold finished, daemon_result. by rewrite Em. }
    assert (scheduler (service_of d) = SchedulerDone) as Es.
    { destruct (scheduler (service_of d)) as [|last|] eqn:Es; [done| |done].
      pose proof (scheduler_changed_requested d k0 Hi ltac:(by rewrite Es)) as Hc. rewrite Hr in Hc.
      cbn [permits] in Hsched. by rewrite Hc, Hfound in Hsched. }
    unfold mqtt_done, mqtt_ended, scheduler_ended in *. rewrite Es in Hmain.
    destruct (mqtt_outcome (service_of d)) as [r|]; [|done].
    destruct expired; [by apply bool_decide_eq_false in Hmain; destruct Hmain; eexists|].
    destruct (collector_ended d) as [x|]; [|done]. apply bool_decide_eq_false in Hmain. destruct Hmain. by eexists.
  - left. unfold loop_ready in Hloop. rewrite Ed in Hloop. destruct (loop_pc d) eqn:El; try done.
    pose proof (loop_changed_requested d k0 Hi Ed) as Hc. rewrite Hr in Hc. cbn [permits] in Hloop.
    by rewrite El, Hc, Hfound in Hloop.
Qed.

(** How long the stop may still take. *)
Definition stop_left (s : Timed) : Duration :=
  (if mqtt_done (service_of (timed s)) then 0
   else match loop_pc (timed s) with Retrying => GRACEFUL_SHUTDOWN_TIMEOUT | _ => farewell_left s end)
  + match main (timed s) with Stopping _ false => drain_left s | _ => 0 end.

Lemma stopping_loop d k0 l d' :
  daemon_inv k0 d -> requested d = true -> daemon_step d l d' ->
  (loop_pc d' = AtTop \/ loop_pc d' = loop_pc d)
  /\ (mqtt_done (service_of d) = true -> mqtt_done (service_of d') = true)
  /\ match main d' with
     | Stopping _ false => exists c, main d = Stopping c false
     | _ => True
     end.
Proof.
  intros Hi Hr Hstep. pose proof (flag_set d k0 Hi Hr) as Hf.
  destruct Hstep as [d l p Hp Hstep|d _ _ Hb|d Hsel Hc|d signal c Hmain _|d c Hmain _|d expired c ends Hmain _].
  - destruct (service_step_ended _ _ _ (program_step_service _ _ _ Hstep)) as (Hm & _ & _).
    split; [cbn; destruct (is_mqtt l); [by left|by right]|]. split.
    + change (service_of (after_step d l p)) with (running p). unfold mqtt_done, service_of.
      destruct (mqtt_outcome (running (program d))) as [r|]; [|done]. by destruct (Hm r eq_refl) as [-> _].
    + cbn [after_step main]. destruct (main d) as [|c []|]; try done. by eexists.
  - congruence.
  - pose proof (inv_loop_pc k0 d Hi) as Hl. destruct (mqtt_done (service_of d)) eqn:Ed; [by rewrite Hl in Hsel|].
    pose proof (loop_changed_requested d k0 Hi Ed). congruence.
  - unfold requested in Hr. by rewrite Hmain in Hr.
  - split; [by right|]. by split.
  - split; [by right|]. by split.
Qed.

Lemma timed_stopping_step k0 s l s' :
  stopping k0 s -> timed_step s l s' ->
  stopping k0 s' /\ requests_of (service_of (timed s')) = requests_of (service_of (timed s))
  /\ Z.of_nat (daemon_left (timed s')) + steps l <= Z.of_nat (daemon_left (timed s))
  /\ stop_left s' + elapsed l <= stop_left s.
Proof.
  intros [[Hi Hr] Hw] Hstep. pose proof (within_step _ _ _ Hw Hstep) as Hw'. destruct Hw as [Hwf Hwd].
  destruct Hstep as [s l d Hd Hdue|s t Ht Hready Hf Hretry Hleave Hdrain].
  - destruct (stopping_daemon_step k0 _ l d (conj Hi Hr) Hd) as ([Hi' Hr'] & Hq & Hlt).
    split; [done|]. split; [exact Hq|]. cbn [act timed steps elapsed]. split; [lia|].
    destruct (stopping_loop _ k0 l d Hi Hr Hd) as (Hpc & Hdone & Hmain). destruct Hw' as [Hwf' Hwd'].
    unfold stop_left. cbn [act timed drain_left farewell_left] in *.
    rewrite !(leaving_stopping _ k0) in * by done.
    assert (match l with Completes _ => COLLECTOR_DRAIN_TIMEOUT | _ => drain_left s end = drain_left s) as ->.
    { destruct l; try done. inversion Hd as [| | |d1 sig c Hm _| |]; subst. unfold requested in Hr. by rewrite Hm in Hr. }
    assert (match main d with Stopping _ false => drain_left s | _ => 0 end
            <= match main (timed s) with Stopping _ false => drain_left s | _ => 0 end) as Hdr.
    { destruct (main d) as [|c []|]; [..|destruct Hmain as [c' ->]; lia|]; destruct (main (timed s)) as [|? []|]; lia. }
    destruct (mqtt_done (service_of (timed s))) eqn:Ed; [rewrite Hdone by done; lia|].
    destruct (mqtt_done (service_of d)); cbn [negb andb] in *; [destruct (loop_pc (timed s)); lia|].
    destruct Hpc as [->|Hpc]; [|rewrite Hpc]; destruct (loop_pc (timed s)); cbn [negb andb] in *; lia.
  - split; [done|]. split; [done|]. cbn [pass timed steps elapsed]. split; [lia|].
    destruct (idle_waits _ k0 Hi Hr Hready Hf) as [Hl|[Hd Hdr]];
      unfold stop_left; cbn [pass timed drain_left farewell_left] in *; unfold duration_saturating_sub.
    + specialize (Hleave Hl). rewrite (leaving_stopping _ k0 Hi Hr) in Hl. apply andb_true_iff in Hl as [Hl Hpc].
      apply negb_true_iff in Hl as ->. destruct (loop_pc (timed s)), (main (timed s)) as [|? []|]; try discriminate Hpc; lia.
    + specialize (Hdrain Hdr). rewrite Hd. unfold draining in Hdr. destruct (main (timed s)) as [|? []|]; try discriminate Hdr. lia.
Qed.

Lemma program_iterates (q : Program) now branch polls :
  mqtt_done (running q) = false -> enabled branch (system_of (running q)) ->
  exists p, program_step accepts q (MqttIterates now branch polls) p.
Proof.
  intros Hd Hen. destruct q as [sv k]. cbn [running] in *.
  destruct (iterate accepts now branch polls (shared_slots (shared sv)) (mqtt_task sv)) as [[w' s'] flow] eqn:E.
  eexists. apply program_other; [by rewrite andb_false_r|]. by eapply service_mqtt.
Qed.

Lemma program_schedules (q : Program) e s' sh' :
  scheduler_step e (scheduler (running q)) (shared (running q)) = Some (s', sh') ->
  exists p, program_step accepts q (SchedulerSteps e) p.
Proof.
  intros Hs. destruct q as [sv k]. cbn [running] in *.
  eexists. apply program_other; [by rewrite andb_false_r|]. by apply service_scheduler.
Qed.

(** A step without the worker and without an answer of the broker. *)
Definition unaided (l : TimedLabel) : Prop :=
  match l with
  | Acts (Task (WorkerSteps _)) => False
  | Acts (Task (MqttIterates _ _ polls)) => polls = []
  | _ => True
  end.

(** What the tasks that are ready do. *)
Lemma ready_acts d k0 :
  daemon_inv k0 d -> requested d = true -> ready d = true ->
  exists l d', daemon_step d l d' /\ unaided (Acts l) /\ forall s, due s l = true.
Proof.
  intros Hi Hr Hready. pose proof (flag_set d k0 Hi Hr) as Hflag.
  apply orb_true_iff in Hready as [[Hready|Hready]%orb_true_iff|Hready].
  - unfold loop_ready in Hready. apply andb_true_iff in Hready as [Hd%negb_true_iff Hready].
    destruct (loop_pc d); [by rewrite Hflag in Hready|done|].
    destruct (program_iterates (program d) false (Polled (Err NetworkTimeout) (Interrupted (change_of d))) [] Hd I) as [p Hp].
    exists (Task (MqttIterates false (Polled (Err NetworkTimeout) (Interrupted (change_of d))) [])). eexists.
    split; [by apply daemon_task|done].
  - unfold scheduler_ready in Hready. destruct (scheduler (service_of d)) as [|last|] eqn:E; [| |done].
    + destruct (program_schedules (program d) (SchedulerBegins true) SchedulerDone (shared (service_of d))) as [p Hs];
        [unfold service_of in *; by rewrite E|].
      exists (Task (SchedulerSteps (SchedulerBegins true))). eexists.
      split; [apply daemon_task; [cbn [permits]; by rewrite Hflag|exact Hs]|done].
    + destruct (program_schedules (program d) (SchedulerShutdown (change_of d)) SchedulerDone (shared (service_of d)))
        as [p Hs]; [unfold service_of in *; rewrite E; cbn; by rewrite Hflag|].
      exists (Task (SchedulerSteps (SchedulerShutdown (change_of d)))). eexists. split; [by apply daemon_task|done].
  - unfold main_ready in Hready. destruct (main d) as [|c expired|] eqn:Em; [unfold requested in Hr; by rewrite Em in Hr| |done].
    apply bool_decide_eq_true in Hready as [ends Hends]. exists Joins. eexists. split; [by eapply daemon_joins|done].
Qed.

(** The farewell can end, and ends with its timeout if nobody answers. *)
Lemma leaving_acts d :
  leaving d = true -> exists l d', daemon_step d l d' /\ unaided (Acts l) /\ forall s, due s l = true.
Proof.
  intros [Hd%negb_true_iff Hl]%andb_true_iff. destruct (loop_pc d); [| |done].
  - destruct (program_iterates (program d) true (ShutdownChanged (change_of d)) [] Hd I) as [p Hp].
    eexists. eexists. split; [by eapply daemon_task|done].
  - destruct (program_iterates (program d) false (ShutdownChanged (change_of d)) [] Hd I) as [p Hp].
    eexists. eexists. split; [by eapply daemon_task|done].
Qed.

(** Steps left, waits that are running counted. *)
Definition stop_measure (s : Timed) : nat :=
  3 * daemon_left (timed s) + (if 0 <? farewell_left s then 1 else 0) + (if 0 <? drain_left s then 1 else 0).

(** Until [run_service] returns, something happens: a step, or the end of a wait. *)
Lemma timed_stopping_progress k0 s :
  stopping k0 s -> ~ finished (timed s) ->
  exists l s', unaided l /\ timed_step s l s' /\ stopping k0 s' /\ (stop_measure s' < stop_measure s)%nat.
Proof.
  intros Hs Hf. pose proof Hs as [[Hi Hr] [Hwf Hwd]].
  assert (forall l d, daemon_step (timed s) l d -> unaided (Acts l) -> due s l = true ->
    exists l s', unaided l /\ timed_step s l s' /\ stopping k0 s' /\ (stop_measure s' < stop_measure s)%nat) as Hact.
  { intros l d Hd Hl Hdue. exists (Acts l), (act s l d). assert (timed_step s (Acts l) (act s l d)) as Hstep by by apply timed_acts.
    split; [exact Hl|]. split; [exact Hstep|]. destruct (timed_stopping_step _ _ _ _ Hs Hstep) as (Hs' & _ & Hlt & _).
    split; [exact Hs'|]. unfold stop_measure. cbn [steps] in Hlt. repeat case_match; lia. }
  assert (forall t, ready (timed s) = false -> 0 < t -> (leaving (timed s) = true -> t <= farewell_left s) ->
    (draining (timed s) = true -> t <= drain_left s) -> 0 < farewell_left s <= t \/ 0 < drain_left s <= t ->
    exists l s', unaided l /\ timed_step s l s' /\ stopping k0 s' /\ (stop_measure s' < stop_measure s)%nat) as Hpass.
  { intros t Hready Ht Hl Hd Hend. exists (Passes t), (pass s t). assert (timed_step s (Passes t) (pass s t)) as Hstep.
    { apply timed_passes; try done. intros Hp. exfalso. destruct (idle_waits _ k0 Hi Hr Hready Hf) as [Hlv|[Hdone _]].
      - unfold leaving in Hlv. by rewrite Hp, andb_false_r in Hlv.
      - by rewrite (inv_loop_pc k0 _ Hi Hdone) in Hp. }
    split; [done|]. split; [exact Hstep|]. destruct (timed_stopping_step _ _ _ _ Hs Hstep) as (Hs' & _).
    split; [exact Hs'|]. unfold stop_measure. cbn [pass timed farewell_left drain_left]. unfold duration_saturating_sub.
    repeat case_match; lia. }
  destruct (ready (timed s)) eqn:Eready.
  { destruct (ready_acts _ k0 Hi Hr Eready) as (l & d & Hd & Hl & Hdue). by eapply Hact. }
  destruct (draining (timed s)) eqn:Edr; [destruct (Z.eqb_spec (drain_left s) 0) as [E0|E0]|].
  - pose proof Edr as Hm. unfold draining in Hm. destruct (main (timed s)) as [|c []|] eqn:Em; try discriminate Hm.
    eapply (Hact DrainExpires); [by apply daemon_drain_expires|done|]. cbn. by rewrite E0.
  - destruct (leaving (timed s)) eqn:El; [destruct (Z.eqb_spec (farewell_left s) 0)|].
    + destruct (leaving_acts _ El) as (l & d & Hd & Hl & Hdue). by eapply Hact.
    + apply (Hpass (Z.min (farewell_left s) (drain_left s))); lia || done.
    + apply (Hpass (drain_left s)); lia || done.
  - destruct (idle_waits _ k0 Hi Hr Eready Hf) as [El|[_ Hd]]; [|congruence].
    destruct (Z.eqb_spec (farewell_left s) 0).
    + destruct (leaving_acts _ El) as (l & d & Hd & Hl & Hdue). by eapply Hact.
    + apply (Hpass (farewell_left s)); lia || done.
Qed.

(** C4: the daemon stops when it is told to.  Once the shutdown was
    requested (a signal was delivered, or a task failed), whatever the network,
    the host and the MQTT client do, every run of the tasks and of their
    supervision, in which time passes only while nothing the stop needs can go on
    at once and no wait outlasts its limit, takes at most sixteen steps, asks for
    no further collection, and takes less time, the timeout of the runtime after
    it included, than the service manager allows; the wait of the retry does not
    delay it.  And every such run can be continued, without a step of the
    collection worker or an answer of the broker, to one in which the service has
    returned. *)
Theorem requested_shutdown_completes settings discovery j k0 ls s ls' s' :
  Prelude.run timed_step (timed_start (daemon_start settings discovery j k0)) ls s -> requested (timed s) = true ->
  Prelude.run timed_step s ls' s' ->
  total steps ls' <= 16
  /\ requests_of (service_of (timed s')) = requests_of (service_of (timed s))
  /\ total elapsed ls' + RUNTIME_SHUTDOWN_TIMEOUT < SERVICE_MANAGER_STOP_BUDGET
  /\ exists ls'' s'', Forall unaided ls'' /\ Prelude.run timed_step s' ls'' s'' /\ finished (timed s'').
Proof.
  intros Hstart Hr Hrun. destruct (timed_run _ _ _ Hstart) as [ls0 Hd].
  assert (stopping k0 s) as Hs.
  { split; [split; [exact (daemon_inv_run _ _ _ _ _ _ Hd)|done]|].
    eapply (run_invariant timed_step within); [exact within_step| |exact Hstart]. pose proof limits. unfold within. cbn. lia. }
  assert (stopping k0 s' /\ requests_of (service_of (timed s')) = requests_of (service_of (timed s))) as [Hs' Hq].
  { apply (run_invariant timed_step (fun s1 => stopping k0 s1
      /\ requests_of (service_of (timed s1)) = requests_of (service_of (timed s))) s ls' s'); [|done|exact Hrun].
    intros s1 l s2 [Hs1 Hq1] Hstep. destruct (timed_stopping_step _ _ _ _ Hs1 Hstep) as (? & ? & _). split; [done|congruence]. }
  pose proof (run_potential timed_step (stopping k0) (fun s => Z.of_nat (daemon_left (timed s))) steps s ls' s') as Hsteps.
  pose proof (run_potential timed_step (stopping k0) stop_left elapsed s ls' s') as Htime.
  split; [|split; [exact Hq|split]].
  - pose proof (daemon_left_bound (timed s)). enough (Z.of_nat (daemon_left (timed s')) + total steps ls'
      <= Z.of_nat (daemon_left (timed s))) by lia. apply Hsteps; [|exact Hs|exact Hrun].
    intros s1 l s2 Hs1 Hstep. destruct (timed_stopping_step _ _ _ _ Hs1 Hstep) as (? & _ & ? & _). by split.
  - assert (stop_left s' + total elapsed ls' <= stop_left s) as Hle.
    { apply Htime; [|exact Hs|exact Hrun].
      intros s1 l s2 Hs1 Hstep. destruct (timed_stopping_step _ _ _ _ Hs1 Hstep) as (? & _ & _ & ?). by split. }
    destruct Hs as [_ [Hf1 Hd1]], Hs' as [_ [Hf2 Hd2]]. pose proof limits.
    assert (0 <= stop_left s') by (unfold stop_left; repeat case_match; lia).
    assert (stop_left s <= GRACEFUL_SHUTDOWN_TIMEOUT + COLLECTOR_DRAIN_TIMEOUT) by (unfold stop_left; repeat case_match; lia).
    change SERVICE_MANAGER_STOP_BUDGET with (GRACEFUL_SHUTDOWN_TIMEOUT + COLLECTOR_DRAIN_TIMEOUT + from_secs 6).
    change RUNTIME_SHUTDOWN_TIMEOUT with (from_secs 1). unfold from_secs, nanos_per_sec. lia.
  - destruct (run_reaches timed_step (stopping k0) (fun s => finished (timed s)) unaided stop_measure)
      with (s := s') as (ls'' & s'' & Hp & Hr'' & _ & Hf); [|exact Hs'|by exists ls'', s''].
    intros s1 Hs1 Hf. by apply timed_stopping_progress.
Qed.

(** Runs can be executed: the next state, with the host a collection would read. *)
Definition daemon_next (d : RunningDaemon) (l : DaemonLabel) (w : World) : option (DaemonLabel * RunningDaemon) :=
  match l with
  | Task l =>
    if permits d l then '(l, p) ← program_next accepts (program d) l w; Some (Task l, after_step d l p) else None
  | LoopSelects =>
    match loop_pc d with
    | AtTop => if mqtt_done (service_of d) || borrow (shutdown_flag d) then None else Some (l, set_loop_pc Selecting d)
    | _ => None
    end
  | LoopFails =>
    match loop_pc d with
    | Selecting => if loop_changed d then None else Some (l, set_loop_pc Retrying d)
    | _ => None
    end
  | Completes signal =>
    match main d with
    | Supervising =>
      completion ← select_completion signal (mqtt_ended d) (scheduler_ended d) (collector_ended d);
      Some (l, set_main (Stopping completion false) (request_shutdown d))
    | _ => None
    end
  | DrainExpires =>
    match main d with
    | Stopping completion false => if draining d then Some (l, set_main (Stopping completion true) d) else None
    | _ => None
    end
  | Joins =>
    match main d with
    | Stopping completion expired => ends ← joined d expired; Some (l, set_main (Finished completion ends) d)
    | _ => None
    end
  end.

Fixpoint daemon_exec (d : RunningDaemon) (steps : list (DaemonLabel * World)) : option (list DaemonLabel * RunningDaemon) :=
  match steps with
  | [] => Some ([], d)
  | (l, w) :: steps => '(l, d) ← daemon_next d l w; '(ls, d) ← daemon_exec d steps; Some (l :: ls, d)
  end.

Lemma program_next_permits d l w l' p :
  program_next accepts (program d) l w = Some (l', p) -> permits d l' = permits d l.
Proof.
  unfold program_next. intros Hn. apply bind_Some in Hn as (sv & _ & [= <- _]).
  destruct (is_collecting _); [|done]. by destruct l.
Qed.

Lemma daemon_next_step d l w l' d' : daemon_next d l w = Some (l', d') -> daemon_step d l' d'.
Proof.
  destruct l as [l| | |signal| |]; cbn [daemon_next]; intros Hn.
  - destruct (permits d l) eqn:Ep; [|done]. apply bind_Some in Hn as ([l1 p] & Hp & [= <- <-]).
    apply daemon_task; [|by eapply program_next_step]. by rewrite (program_next_permits _ _ _ _ _ Hp).
  - destruct (loop_pc d) eqn:El; try done. destruct (mqtt_done (service_of d)) eqn:Ed, (borrow (shutdown_flag d)) eqn:Ef; try done.
    injection Hn as <- <-. by apply daemon_selects.
  - destruct (loop_pc d) eqn:El; try done. destruct (loop_changed d) eqn:Ec; [done|]. injection Hn as <- <-. by apply daemon_fails.
  - destruct (main d) eqn:Em; try done. apply bind_Some in Hn as (c & Hc & [= <- <-]). by apply daemon_completes.
  - destruct (main d) as [|c []|] eqn:Em; try done. destruct (draining d) eqn:Ed; [|done]. injection Hn as <- <-.
    by apply daemon_drain_expires.
  - destruct (main d) eqn:Em; try done. apply bind_Some in Hn as (ends & He & [= <- <-]). by eapply daemon_joins.
Qed.

Lemma daemon_exec_run steps : forall d ls d', daemon_exec d steps = Some (ls, d') -> Prelude.run daemon_step d ls d'.
Proof.
  induction steps as [|[l w] steps IH]; intros d ls d' He; cbn in He; [injection He as <- <-; constructor|].
  apply bind_Some in He as ([l1 d1] & H1' & He). apply bind_Some in He as ([ls2 d2] & H2' & [= <- <-]).
  econstructor; [by eapply daemon_next_step|by apply IH].
Qed.

(** A run in which no wait ends by itself takes no time. *)
Definition immediate (l : DaemonLabel) : bool :=
  match l with Task (MqttIterates false (Polled (Err _) Slept) _) | DrainExpires => false | _ => true end.

Lemma immediate_due s l : immediate l = true -> due s l = true.
Proof. destruct l as [[[] [c|[e|e] [|c]|b] polls| |]| | | | |]; done. Qed.

Lemma run_timed d ls d' :
  Prelude.run daemon_step d ls d' -> forallb immediate ls = true ->
  forall s, timed s = d -> exists s', Prelude.run timed_step s (Acts <$> ls) s' /\ timed s' = d'.
Proof.
  induction 1 as [d|d1 l d2 ls d3 Hstep _ IH]; intros Hls s Hs; [exists s; split; [constructor|done]|].
  cbn [forallb] in Hls. apply andb_true_iff in Hls as [Hl Hls]. subst d1.
  destruct (IH Hls (act s l d2) eq_refl) as (s' & Hrun & Hs'). exists s'. split; [|exact Hs'].
  rewrite fmap_cons. econstructor; [apply timed_acts; [exact Hstep|by apply immediate_due]|exact Hrun].
Qed.
End supervision.

(** ** A concrete run *)

#[local] Existing Instances host_source host_runner host_clock.
#[local] Instance braces : JsonText := {| json_to_string _ := Ok (lit "{}") |}.

(** A first collection, a connection with its bootstrap and a collection for it,
    a lost connection, a signal while the supervisor waits to retry, and the end
    of every task. *)
Definition daemon_steps : list (DaemonLabel (IoError := unit) * nat) :=
  let at_host l := (l, 0%nat) in
  let work := at_host (Task (WorkerSteps (Ok []))) in
  let branch b polls := [at_host LoopSelects; at_host (Task (MqttIterates false b polls))] in
  let event e := branch (Polled (Ok e) Slept) [] in
  let told := {| closed := false; shutdown_value := true |} in
  [at_host (Task (SchedulerSteps (SchedulerBegins false)))] ++ event (IncomingConnAck Success)
  ++ [work; work; work; work; work; work]
  ++ event (OutgoingPublish 1) ++ event (IncomingPubAck 1) ++ event (OutgoingPublish 2) ++ event (IncomingPubAck 2)
  ++ branch (StatesChanged true) [] ++ event (OutgoingPublish 0)
  ++ [at_host LoopSelects; at_host LoopFails; at_host (Completes (Some (Ok tt)));
      at_host (Task (SchedulerSteps (SchedulerShutdown told)));
      at_host (Task (MqttIterates false (Polled (Err NetworkTimeout) (Interrupted told)) []));
      work; at_host Joins].
Definition daemon_before : list (DaemonLabel (IoError := unit) * nat) := take 24 daemon_steps.

Abbreviation example_daemon :=
  (daemon_start (IoError := unit) example_settings example_discovery (Jitter_new 1 2) host_collector).
Abbreviation example_exec d steps := (daemon_exec (IoError := unit) (H2 := host_clock) always d steps).

Definition outcome_of (o : option (list (DaemonLabel (IoError := unit)) * RunningDaemon (IoError := unit))) :
    option (result (DaemonError unit) unit) :=
  match o with Some (_, d) => daemon_result d | None => None end.
Definition requested_of (o : option (list (DaemonLabel (IoError := unit)) * RunningDaemon (IoError := unit))) : bool :=
  match o with Some (ls, d) => requested d && forallb immediate ls | None => false end.

Lemma daemon_example : outcome_of (example_exec example_daemon daemon_steps) = Some (Ok tt).
Proof. vm_compute. reflexivity. Qed.

Lemma daemon_example_stops : requested_of (example_exec example_daemon daemon_before) = true.
Proof. vm_compute. reflexivity. Qed.

Lemma service_stops_for_a_cause_witness :
  exists ls d completion ends,
    Prelude.run (daemon_step (H2 := host_clock) always) example_daemon ls d /\ main d = Finished completion ends
    /\ service_result completion ends = Ok tt
    /\ completion = CompletionSignal (Ok tt) /\ status (mqtt_task (service_of d)) = StatusStopped.
Proof.
  pose proof daemon_example as Ho. destruct (example_exec example_daemon daemon_steps) as [[ls d]|] eqn:E; [|discriminate Ho].
  cbn [outcome_of] in Ho. unfold daemon_result in Ho. destruct (main d) as [| |completion ends] eqn:Em; try discriminate Ho.
  injection Ho as Ho. exists ls, d, completion, ends.
  assert (Prelude.run (daemon_step (H2 := host_clock) always) example_daemon ls d) as Hrun
    by exact (daemon_exec_run (H2 := host_clock) always daemon_steps _ _ _ E).
  pose proof (service_stops_for_a_cause (H2 := host_clock) always example_settings example_discovery (Jitter_new 1 2)
    host_collector ls d completion ends Hrun Em) as Hc.
  rewrite Ho in Hc. destruct Hc as (Hc & _ & Hs & _).
  split; [exact Hrun|]. split; [exact Em|]. split; [exact Ho|]. split; [exact Hc|exact Hs].
Defined.

Lemma requested_shutdown_completes_witness :
  exists ls s,
    Prelude.run (timed_step (H2 := host_clock) always) (timed_start example_daemon) ls s /\ requested (timed s) = true
    /\ exists ls' s', Forall unaided ls' /\ Prelude.run (timed_step (H2 := host_clock) always) s ls' s'
         /\ finished (timed s').
Proof.
  pose proof daemon_example_stops as Hr. destruct (example_exec example_daemon daemon_before) as [[ls d]|] eqn:E; [|discriminate Hr].
  cbn [requested_of] in Hr. apply andb_true_iff in Hr as [Hr Hls].
  assert (Prelude.run (daemon_step (H2 := host_clock) always) example_daemon ls d) as Hrun
    by exact (daemon_exec_run (H2 := host_clock) always daemon_before _ _ _ E).
  destruct (run_timed (H2 := host_clock) always _ _ _ Hrun Hls (timed_start example_daemon) eq_refl) as (s & Hrun' & Hs).
  rewrite <-Hs in Hr. exists (Acts <$> ls), s. split; [exact Hrun'|]. split; [exact Hr|].
  destruct (requested_shutdown_completes (H2 := host_clock) always example_settings example_discovery (Jitter_new 1 2)
    host_collector _ s [] s Hrun' Hr (run_nil _ s)) as (_ & _ & _ & ls' & s' & Hp & Hrun2 & Hf).
  exists ls', s'. split; [exact Hp|]. split; [exact Hrun2|exact Hf].
Defined.
