(* ===== verification/Recovery.v ===== *)
(** * The daemon can always come back

    From every state of the running daemon, whatever the network and the host did
    before, a few steps of a cooperative broker and of the tasks lead to a session
    that has published Discovery, availability and a state observed for it: no
    course of events leaves the daemon unable to publish. *)

From S2P Require Import Prelude RustStr Model Config Discovery Watch MqttProtocol MqttMachine MqttSupervisor MetricsDisk Collector CollectorReports Daemon DaemonService DaemonShutdown Program Supervision.

Local Open Scope Z_scope.

Section recovery.
Context `{WL : WatchLaws} `{JT : JsonText} {World : Type} `{SystemSource World} `{CommandRunner World} `{Clock World}.
Context {IoError : Type}.
Abbreviation collected k w := (collect_payload (IoError := IoError) k w).
Abbreviation RunningDaemon := (RunningDaemon (IoError := IoError)).
Abbreviation Worker := (Worker (IoError := IoError)).
Abbreviation step := (daemon_step (IoError := IoError) always).
Context (settings0 : MqttSettings.t) (discovery : DiscoveryMessage) (jitter0 : Jitter) (k0 : Collector).

Definition reachable (d : RunningDaemon) : Prop :=
  exists ls, Prelude.run step (daemon_start settings0 discovery jitter0 k0) ls d.

Lemma reachable_step d l d' : reachable d -> step d l d' -> reachable d'.
Proof. intros [ls Hr] Hs. exists (ls ++ [l]). by eapply run_snoc. Qed.

Lemma reachable_inv d : reachable d -> daemon_inv always k0 d.
Proof. intros [ls Hr]. by eapply daemon_inv_run. Qed.

Lemma reachable_service d : reachable d -> service_inv settings0 (payload discovery) (service_of d).
Proof. intros [ls Hr]. destruct (daemon_program_run _ _ _ _ Hr) as [ls' Hp]. by apply program_run in Hp as [_ ?]. Qed.

(** The worker's receiver notices every request. *)
Definition notices {A} (c : channel A) (m : seen) : Prop := forall a, has_changed (send_replace c a) m = true.

Lemma notices_mark {A} (c : channel A) : notices c (mark c).
Proof. intros a. apply changed_send. Qed.

Lemma notices_changed {A} (c : channel A) m : has_changed c m = true -> notices c m.
Proof. intros Hc a. by apply changed_stays. Qed.

Lemma notices_send {A} (c : channel A) m a : notices c m -> notices (send_replace c a) m.
Proof. intros Hn. apply notices_changed, Hn. Qed.

Definition worker_notices (sv : Service (IoError := IoError)) : Prop := notices (requests_of sv) (requests_seen (worker sv)).

Lemma worker_notices_step sv l sv' : worker_notices sv -> service_step always sv l sv' -> worker_notices sv'.
Proof.
  intros Hn Hs. destruct l as [now branch polls|payload|e].
  - destruct (service_step_iterates_frame _ _ _ _ _ _ Hs) as (Hw & _ & Hq). unfold worker_notices. rewrite Hw, Hq.
    destruct (connects now branch); [by apply notices_send|done].
  - destruct (service_step_works _ _ _ _ Hs) as (_ & _ & Hk). unfold worker_notices, requests_of in *.
    unfold worker_step in Hk. destruct (pc (worker sv)) as [| |id|id|id [t|e]|[t|e]|r]; repeat case_match;
      try discriminate Hk; injection Hk as <- <-; try done; apply notices_mark.
  - destruct (service_step_schedules _ _ _ _ Hs) as (_ & Hw & Hk). unfold worker_notices, requests_of in *. rewrite Hw.
    unfold scheduler_step in Hk. destruct (scheduler sv), e; repeat case_match;
      try discriminate Hk; injection Hk as _ <-; try done; by apply notices_send.
Qed.

Lemma reachable_notices d : reachable d -> worker_notices (service_of d).
Proof.
  intros [ls Hr]. destruct (daemon_program_run _ _ _ _ Hr) as [ls' Hp].
  eapply (run_invariant (program_step always) (fun p => worker_notices (running p))); [| |exact Hp].
  - intros p l p' Hn Hs. eapply worker_notices_step; [exact Hn|by eapply program_step_service].
  - apply notices_mark.
Qed.

(** ** A daemon between two steps of its loop *)

Record rests (d : RunningDaemon) (w : Slots) (s : MqttSupervisor) (k : Worker) : Prop := {
  rest_reachable : reachable d;
  rest_running : requested d = false;
  rest_loop : loop_pc d <> Retrying;
  rest_slots : shared_slots (shared (service_of d)) = w;
  rest_task : mqtt_task (service_of d) = s;
  rest_outcome : mqtt_outcome (service_of d) = None;
  rest_worker : worker (service_of d) = k;
}.

Lemma rest_not_done d w s k : rests d w s k -> mqtt_done (service_of d) = false.
Proof. intros Hd. unfold mqtt_done. by rewrite (rest_outcome _ _ _ _ Hd). Qed.

(** The branches a cooperative environment completes. *)
Definition offered (branch : Branch) : bool :=
  match branch with Polled (Ok _) _ | StatesChanged true => true | _ => false end.

(** An iteration from the [select!]. *)
Lemma rest_selected d w s k branch w' s' :
  rests d w s k -> loop_pc d = Selecting -> offered branch = true ->
  enabled branch (Build_System w s (sent_states (service_of d))) ->
  iterate always false branch [] w s = (w', s', Continue) ->
  can_reach step 1 (fun d' => rests d' w' s' k) d.
Proof.
  intros Hd Hl Ho Hen Hit. pose proof (rest_not_done _ _ _ _ Hd) as Hdone.
  pose proof (reachable_inv d (rest_reachable _ _ _ _ Hd)) as Hinv.
  pose proof (loop_changed_requested _ d k0 Hinv Hdone) as Hc. rewrite (rest_running _ _ _ _ Hd) in Hc.
  destruct (program_iterates always (program d) false branch []) as [p Hp]; [done| |].
  { change (running (program d)) with (service_of d). unfold system_of.
    rewrite (rest_slots _ _ _ _ Hd), (rest_task _ _ _ _ Hd). exact Hen. }
  assert (step d (Task (MqttIterates false branch [])) (after_step d (MqttIterates false branch []) p)) as Hstep.
  { apply daemon_task; [|exact Hp]. cbn [permits]. rewrite Hl, Hc. by destruct branch as [c|[e|e] wt|[]]. }
  eapply can_reach_step; [exact Hstep|]. pose proof (program_step_service _ _ _ _ Hp) as Hs.
  change (running (program d)) with (service_of d) in Hs.
  inversion Hs as [now1 branch1 polls1 sv1 w1 s1 flow Hd1 Hen1 Hit1 Eq1 Eq2 Eq3| |]; subst.
  rewrite (rest_slots _ _ _ _ Hd), (rest_task _ _ _ _ Hd), Hit in Hit1. injection Hit1 as <- <- <-.
  assert (service_of (after_step d (MqttIterates false branch []) p) = running p) as Esv by done.
  split; rewrite ?Esv, <-?Eq3; try done.
  - by eapply reachable_step; [apply (rest_reachable _ _ _ _ Hd)|].
  - apply (rest_running _ _ _ _ Hd).
  - apply (rest_worker _ _ _ _ Hd).
Qed.

Lemma rest_iterates d w s k branch w' s' :
  rests d w s k -> offered branch = true ->
  (forall sent, enabled branch (Build_System w s sent)) ->
  iterate always false branch [] w s = (w', s', Continue) ->
  can_reach step 2 (fun d' => rests d' w' s' k) d.
Proof.
  intros Hd Ho Hen Hit. destruct (loop_pc d) eqn:El.
  - assert (borrow (shutdown_flag d) = false) as Hf
      by (eapply flag_unset; [apply reachable_inv, Hd|apply (rest_running _ _ _ _ Hd)]).
    pose proof (daemon_selects always d El (rest_not_done _ _ _ _ Hd) Hf) as Hs.
    apply (can_reach_trans _ 1 1 (eq (set_loop_pc Selecting d))); [by eapply can_reach_step|]. intros d1 <-.
    eapply rest_selected; [|done|exact Ho|apply Hen|exact Hit].
    destruct Hd. split; try done. by eapply reachable_step.
  - apply (can_reach_weaken _ 1 _ (fun d' => rests d' w' s' k)); [lia|done|]. by eapply rest_selected.
  - by destruct (rest_loop _ _ _ _ Hd).
Qed.

(** A delivery of the client's event loop. *)
Lemma rest_delivers d w s k e w' s' :
  rests d w s k -> deliver w s e = (w', s', Continue) -> can_reach step 2 (fun d' => rests d' w' s' k) d.
Proof. intros Hd Hit. eapply (rest_iterates d w s k (Polled (Ok e) Slept)); [exact Hd|done|done|exact Hit]. Qed.

(** A step of the worker, with the host [h] if it collects. *)
Lemma rest_works d w s k payload k' sh' (h : World) :
  rests d w s k ->
  (is_collecting (pc k) = true -> payload = (collected (owned (program d)) h).1.1) ->
  worker_step false payload k (shared (service_of d)) = Some (k', sh') ->
  exists l d', step d l d' /\ rests d' (shared_slots sh') s k'.
Proof.
  intros Hd Hpay Hk.
  assert (service_step always (service_of d) (WorkerSteps payload)
    {| mqtt_task := mqtt_task (service_of d); mqtt_outcome := mqtt_outcome (service_of d); worker := k';
       scheduler := scheduler (service_of d); shared := sh';
       sent_states := worker_sends (pc (worker (service_of d))) sh' ++ sent_states (service_of d);
       log := log (service_of d) ++ worker_entries (pc (worker (service_of d))) sh' |}) as Hs.
  { apply service_worker. rewrite (rest_worker _ _ _ _ Hd). unfold senders_gone. by rewrite (rest_not_done _ _ _ _ Hd). }
  match type of Hs with service_step _ _ _ ?sv' => set (sv := sv') in * end.
  assert (exists o, program_step always (program d) (WorkerSteps payload) {| running := sv; owned := o |}) as [o Hp].
  { unfold service_of in *. pose proof (rest_worker _ _ _ _ Hd) as Hw. unfold service_of in Hw.
    destruct (program d) as [sv0 k1]. cbn [running owned] in *.
    destruct (is_collecting (pc k)) eqn:Ec.
    - rewrite (Hpay eq_refl) in *. eexists. apply program_collects; [by rewrite Hw|exact Hs].
    - eexists. apply program_other; [by rewrite Hw, Ec|exact Hs]. }
  exists (Task (WorkerSteps payload)). eexists. assert (step d (Task (WorkerSteps payload))
    (after_step d (WorkerSteps payload) {| running := sv; owned := o |})) as Hstep by by apply daemon_task.
  split; [exact Hstep|]. destruct Hd. split; try done. by eapply reachable_step.
Qed.

(** The wait after a connection error ends. *)
Lemma running_rests d :
  reachable d -> requested d = false ->
  can_reach step 1 (fun d' => exists w s, rests d' w s (worker (service_of d))
    /\ collection_requests w = requests_of (service_of d)) d.
Proof.
  intros Hr Hq. pose proof (reachable_inv d Hr) as Hi.
  assert (mqtt_outcome (service_of d) = None) as Hout.
  { destruct (mqtt_outcome (service_of d)) as [[[]|e]|] eqn:E; [|by pose proof (inv_mqtt_err always k0 d Hi e E)|done].
    destruct (inv_mqtt_ok always k0 d Hi E) as [Hq' _]. congruence. }
  assert (mqtt_done (service_of d) = false) as Hdone by (unfold mqtt_done; by rewrite Hout).
  destruct (loop_pc d) eqn:El.
  1, 2: apply can_reach_now; do 2 eexists; split; [by split; rewrite ?El|done].
  set (branch := Polled (Err NetworkTimeout) Slept).
  destruct (program_iterates always (program d) false branch [] Hdone I) as [p Hp].
  assert (step d (Task (MqttIterates false branch [])) (after_step d (MqttIterates false branch []) p)) as Hstep
    by (apply daemon_task; [cbn [permits]; by rewrite El|exact Hp]).
  eapply can_reach_step; [exact Hstep|]. pose proof (program_step_service _ _ _ _ Hp) as Hs.
  destruct (service_step_iterates_frame _ _ _ _ _ _ Hs) as (Hw & _ & Hreq).
  destruct (service_step_iterates _ _ _ _ _ _ Hs) as (_ & w' & flow & Hit & Hout').
  do 2 eexists. split; [|exact Hreq]. split; try done; [by eapply reachable_step|].
  change (mqtt_outcome (running p) = None). rewrite Hout'.
  pose proof (supervisor_returns_only_on_shutdown always false branch []
    (shared_slots (shared (running (program d)))) (mqtt_task (running (program d)))) as Hret.
  rewrite Hit in Hret. destruct flow as [|[[]|e]]; [done| |done]. by destruct Hret as [_ [?|?]].
Qed.

(** ** The worker serves the newest request *)

Section serving.
Context (h : World) (rq : channel Z) (s : MqttSupervisor).

(** The text of a reading of the host [h] by the daemon's collector. *)
Definition reading (text : str) : Prop := exists k, same_device k0 k /\ (collected k h).1.1 = Ok text.

(** What the worker still does for the newest request. *)
Definition pursuing (k : Worker) : Prop :=
  let changed := has_changed rq (requests_seen k) = true in
  match pc k with
  | Waiting | Clearing (Ok _) => changed
  | Woken => True
  | Starting id | Collecting id => changed \/ id = borrow rq
  | Collected id (Ok text) => changed \/ id = borrow rq /\ reading text
  | _ => False
  end.

Definition awaits (w : Slots) : Prop := collection_requests w = rq /\ notices (states w) (states_seen s).
Definition delivered (w : Slots) : Prop :=
  has_changed (states w) (states_seen s) = true
  /\ exists text, borrow (states w) = Some {| request_id := borrow rq; state_payload := text |} /\ reading text.

Lemma pursuing_step text k sh :
  reading text -> borrow rq <> 0 -> awaits (shared_slots sh) -> pursuing k ->
  exists k' sh', worker_step false (Ok text) k sh = Some (k', sh') /\ awaits (shared_slots sh')
    /\ (pursuing k' \/ delivered (shared_slots sh')).
Proof.
  intros Htext Hrq [Hr Hn] Hp. unfold worker_step, pursuing, awaits, delivered in *. destruct k as [p m], sh as [[st rq'] b].
  cbn [pc requests_seen shared_slots collection_requests states] in *. subst rq'.
  destruct p as [| |id|id|id [t|e]|[t|e]|r]; try done.
  - rewrite Hp. do 2 eexists. split; [reflexivity|]. split; [done|by left].
  - do 2 eexists. split; [reflexivity|]. split; [done|]. left. cbn. rewrite (proj2 (Z.eqb_neq _ _) Hrq). by right.
  - do 2 eexists. split; [reflexivity|]. split; [done|]. by left.
  - do 2 eexists. split; [reflexivity|]. split; [done|]. left. cbn. destruct Hp as [?| ->]; [by left|by right].
  - do 2 eexists. split; [reflexivity|]. cbn. split; [split; [done|by apply notices_send]|].
    destruct Hp as [?|[-> Ht]]; [by left|]. right. split; [apply Hn|]. exists t. by rewrite borrow_send.
  - do 2 eexists. split; [reflexivity|]. split; [done|by left].
Qed.

Definition serving (d : RunningDaemon) : Prop := exists w k, rests d w s k /\ awaits w /\ pursuing k.
Definition holds_reading (d : RunningDaemon) : Prop := exists w k, rests d w s k /\ awaits w /\ delivered w.

Lemma serving_delivers d :
  (forall k, same_device k0 k -> is_ok (collected k h).1.1 = true) -> borrow rq <> 0 ->
  serving d -> can_reach step 12 holds_reading d.
Proof.
  intros Hok Hrq Hd. apply (can_reach_weaken _ (1 + worker_steps_left d) _ holds_reading); [|done|].
  { unfold worker_steps_left, worker_left. destruct (worker_pc d); repeat case_match; lia. }
  apply (can_reach_measure step serving); [|exact Hd]. clear d Hd. intros d (w & k & Hd & Hw & Hk). right.
  pose proof (inv_program always k0 d (reachable_inv d (rest_reachable _ _ _ _ Hd))) as (Hdev & _ & _).
  destruct ((collected (owned (program d)) h).1.1) as [text|e] eqn:Ec; [|specialize (Hok _ Hdev); by rewrite Ec in Hok].
  pose proof (rest_slots _ _ _ _ Hd) as Hslots. rewrite <-Hslots in Hw.
  destruct (pursuing_step text k (shared (service_of d))) as (k' & sh' & Hstep & Hw' & Hp');
    [by exists (owned (program d))|done|exact Hw|exact Hk|].
  destruct (rest_works d w s k (Ok text) k' sh' h Hd) as (l & d' & Hs & Hd'); [by rewrite Ec|exact Hstep|].
  exists l, d'. split; [exact Hs|]. destruct Hp' as [Hp'|Hdel]; [right|left; by exists (shared_slots sh'), k'].
  split; [by exists (shared_slots sh'), k'|]. destruct (worker_step_left _ _ _ _ _ _ Hstep) as [_ Hlt].
  unfold worker_steps_left, worker_pc, requests_of.
  rewrite (rest_worker _ _ _ _ Hd), (rest_worker _ _ _ _ Hd'), (rest_slots _ _ _ _ Hd'). exact Hlt.
Qed.
End serving.

(** ** A session from any state *)

(** A worker that has not failed takes up a new request. *)
Lemma worker_pursues d (h : World) :
  reachable d -> requested d = false -> failure_of (worker_pc d) = None ->
  pursuing h (request_collection (requests_of (service_of d))).1 (worker (service_of d)).
Proof.
  intros Hr Hq Hf. pose proof (reachable_inv d Hr) as Hi.
  pose proof (reachable_notices d Hr (saturating_add (borrow (requests_of (service_of d))) 1)) as Hc.
  change (send_replace _ _) with (request_collection (requests_of (service_of d))).1 in Hc.
  unfold pursuing, worker_pc in *. destruct (pc (worker (service_of d))) as [| |id|id|id [t|e]|[t|e]|[[]|e]] eqn:E;
    try done; try by left.
  destruct (inv_worker always k0 d Hi) as [_ Hs]; [done|].
  pose proof (inv_scheduler always k0 d Hi Hs). congruence.
Qed.

(** The bootstrap of a new connection, up to the state it waits for. *)
Lemma rest_bootstraps d w s k :
  rests d w s k -> 0 <= borrow (collection_requests w) < u64_max ->
  exists w1 s5, can_reach step 10 (fun d' => rests d' w1 s5 k) d
    /\ collection_requests w1 = (request_collection (collection_requests w)).1
    /\ states_seen s5 = mark (states w1) /\ phase (protocol s5) = AwaitFreshState
    /\ required_request (protocol s5) = borrow (collection_requests w) + 1
    /\ borrow (collection_requests w1) = borrow (collection_requests w) + 1
    /\ settings s5 = settings s
    /\ requests s5 = requests s ++
         [Publish (MqttSettings.discovery_topic (settings s)) AtLeastOnce true (discovery_payload s);
          Publish (MqttSettings.availability_topic (settings s)) AtLeastOnce true (lit "online")].
Proof.
  intros Hd Hb.
  destruct (bootstrap_deliveries w s 1 2) as (w1 & s1 & s2 & s3 & s4 & s5 & E1 & Hw1 & _ & E2 & E3 & E4 & E5 & Hseen & Hph & Hrq & Hset & Hr);
    [done|done|done|].
  exists w1, s5. split.
  - apply (can_reach_trans _ 2 8 (fun d' => rests d' w1 s1 k)); [by eapply rest_delivers|]. clear d Hd. intros d Hd.
    apply (can_reach_trans _ 2 6 (fun d' => rests d' w1 s2 k)); [by eapply rest_delivers|]. clear d Hd. intros d Hd.
    apply (can_reach_trans _ 2 4 (fun d' => rests d' w1 s3 k)); [by eapply rest_delivers|]. clear d Hd. intros d Hd.
    apply (can_reach_trans _ 2 2 (fun d' => rests d' w1 s4 k)); [by eapply rest_delivers|]. clear d Hd. intros d Hd.
    by eapply rest_delivers.
  - pose proof (iterate_slots always false (Polled (Ok (IncomingConnAck Success)) Slept) [] w s) as Hw.
    unfold deliver in E1. rewrite E1 in Hw. by destruct Hw as [_ Hw].
Qed.

(** The session publishes the delivered state and is online. *)
Lemma rest_publishes d w s k msg :
  rests d w s k -> phase (protocol s) = AwaitFreshState -> required_request (protocol s) = request_id msg ->
  has_changed (states w) (states_seen s) = true -> borrow (states w) = Some msg ->
  can_reach step 4 (fun d' => exists s', rests d' w s' k /\ status s' = StatusOnline
    /\ requests s' = requests s ++ [Publish (MqttSettings.state_topic (settings s)) AtMostOnce false (state_payload msg)]) d.
Proof.
  intros Hd Hph Hrq Hc Hmsg. destruct (fresh_state_online w s msg Hph Hmsg Hrq) as (s6 & s7 & E6 & E7 & Hon & Hr7).
  apply (can_reach_trans _ 2 2 (fun d' => rests d' w s6 k)).
  - eapply (rest_iterates d w s k (StatesChanged true)); [exact Hd|done| |exact E6].
    intros sent. split; [|done]. unfold accepts_state. cbn. by rewrite Hph.
  - intros d' Hd'. apply (can_reach_weaken _ 2 _ (fun d' => rests d' w s7 k)); [done| |by eapply rest_delivers].
    intros d'' Hd''. by exists s7.
Qed.

(** C6: the daemon can always come back.  From every state it can be
    in before a shutdown is requested and a collection has failed, whatever the
    network, the host and the interleaving were until then, at most 27 steps (a
    broker that accepts the connection and acknowledges, and the tasks) lead to a
    session that is online and whose last publications are Discovery,
    availability and a reading of the host as it is then, collected for a request
    newer than any before; provided the readings of that host can be serialised
    and the request ids have not reached the end of their 64 bits. *)
Theorem daemon_can_recover (ls : list DaemonLabel) (d : RunningDaemon) (h : World) :
  Prelude.run step (daemon_start settings0 discovery jitter0 k0) ls d ->
  requested d = false -> failure_of (worker_pc d) = None -> borrow (requests_of (service_of d)) < u64_max ->
  (forall k, same_device k0 k -> is_ok (collected k h).1.1 = true) ->
  can_reach step 27 (fun d' => status (mqtt_task (service_of d')) = StatusOnline /\ requested d' = false
    /\ exists text earlier, reading h text
      /\ borrow (states (shared_slots (shared (service_of d'))))
         = Some {| request_id := borrow (requests_of (service_of d)) + 1; state_payload := text |}
      /\ requests (mqtt_task (service_of d')) = earlier ++
           [Publish (MqttSettings.discovery_topic settings0) AtLeastOnce true (payload discovery);
            Publish (MqttSettings.availability_topic settings0) AtLeastOnce true (lit "online");
            Publish (MqttSettings.state_topic settings0) AtMostOnce false text]) d.
Proof.
  intros Hrun Hq Hf Hlt Hok. assert (reachable d) as Hr by by exists ls.
  pose proof (worker_pursues d h Hr Hq Hf) as Hpursue.
  apply (can_reach_trans _ 1 26 _ _ d (running_rests d Hr Hq)). intros d1 (w & s & Hd1 & Hreq).
  destruct (reachable_service d1 (rest_reachable _ _ _ _ Hd1)) as ([Hb _] & _ & _ & _ & Href).
  unfold requests_of in Hb. rewrite (rest_slots _ _ _ _ Hd1), Hreq in Hb.
  destruct (Href ltac:(unfold mqtt_sound; by rewrite (rest_outcome _ _ _ _ Hd1))) as (ops & (Hset & Hdisc & _) & _).
  cbn [system_of supervisor] in Hset, Hdisc. rewrite (rest_task _ _ _ _ Hd1) in Hset, Hdisc.
  destruct (rest_bootstraps d1 w s _ Hd1) as (w1 & s5 & Hboot & Hreq1 & Hseen & Hph & Hrq & Hid & Hset5 & Hr5); [by rewrite Hreq|].
  rewrite Hreq in *. apply (can_reach_trans _ 10 16 _ _ d1 Hboot). clear Hboot. intros d2 Hd2.
  apply (can_reach_trans _ 12 4 (holds_reading h (collection_requests w1) s5)).
  { apply serving_delivers; [exact Hok|lia|]. do 2 eexists. split; [exact Hd2|].
    split; [split; [done|rewrite Hseen; apply notices_mark]|by rewrite Hreq1]. }
  clear d2 Hd2. intros d2 (w2 & k2 & Hd2 & _ & Hc & text & Hmsg & Htext).
  eapply can_reach_weaken; [reflexivity| |eapply (rest_publishes d2 w2 s5 k2); [exact Hd2|exact Hph| |exact Hc|exact Hmsg]];
    [|cbn; congruence].
  intros d' (s' & Hd' & Hon & Hr'). rewrite (rest_task _ _ _ _ Hd'), (rest_slots _ _ _ _ Hd'). split; [exact Hon|].
  split; [apply (rest_running _ _ _ _ Hd')|]. exists text, (requests s). split; [exact Htext|].
  split; [by rewrite Hmsg, Hid|]. rewrite Hr', Hr5, <-app_assoc, Hset5, Hset, Hdisc. reflexivity.
Qed.
End recovery.

(** ** A concrete recovery

    A host without any source, whose readings are all unavailable, after a session
    that lost its connection. *)

#[local] Instance bare_source : SystemSource nat := {|
  read_text _ reads := (Err NotFound, reads);
  read_bytes _ reads := (Err NotFound, reads);
  is_file _ reads := (false, reads);
  statvfs _ reads := (Err NotFound, reads);
|}.
#[local] Instance bare_runner : CommandRunner nat := {|
  run_command _ _ _ reads := (Err TimedOut, reads);
|}.
#[local] Existing Instances text_time host_clock.
#[local] Instance braces : JsonText := {| json_to_string _ := Ok (lit "{}") |}.

Definition lost_connection : list (DaemonLabel (IoError := unit) * nat) := take 23 daemon_steps.

Abbreviation bare_daemon :=
  (daemon_start (IoError := unit) example_settings example_discovery (Jitter_new 1 2) host_collector).
Abbreviation bare_exec := (daemon_exec (IoError := unit) (H2 := host_clock) always bare_daemon lost_connection).

Definition recoverable (o : option (list (DaemonLabel (IoError := unit)) * RunningDaemon (IoError := unit))) : bool :=
  match o with
  | Some (_, d) => negb (requested d) && match loop_pc d with Retrying => true | _ => false end
      && match failure_of (worker_pc d) with None => true | _ => false end
      && (borrow (requests_of (service_of d)) <? u64_max)
  | None => false
  end.

Lemma bare_example : recoverable bare_exec = true.
Proof. vm_compute. reflexivity. Qed.

Lemma bare_readings k :
  same_device host_collector k -> is_ok ((collect_payload (IoError := unit) (W := nat) k 0%nat).1.1) = true.
Proof. destruct k as [r v t [p|] m]; intros (Hr & Hv & Ht & Hm); cbn in Hr, Hv, Ht, Hm; subst; vm_compute; reflexivity. Qed.

Lemma daemon_can_recover_witness :
  exists ls d, Prelude.run (daemon_step (H2 := host_clock) always) bare_daemon ls d /\ loop_pc d = Retrying
    /\ can_reach (daemon_step (H2 := host_clock) always) 27
         (fun d' => status (mqtt_task (service_of d')) = StatusOnline) d.
Proof.
  pose proof bare_example as Ho. destruct bare_exec as [[ls d]|] eqn:E; [|discriminate Ho].
  cbn [recoverable] in Ho. apply andb_true_iff in Ho as [Ho Hlt%Z.ltb_lt].
  apply andb_true_iff in Ho as [Ho Hf]. apply andb_true_iff in Ho as [Hq%negb_true_iff Hl].
  assert (Prelude.run (daemon_step (H2 := host_clock) always) bare_daemon ls d) as Hrun
    by exact (daemon_exec_run (H2 := host_clock) always lost_connection _ _ _ E).
  exists ls, d. split; [exact Hrun|]. split; [by destruct (loop_pc d)|].
  eapply (can_reach_weaken _ 27 27); [reflexivity| |apply (daemon_can_recover (H2 := host_clock) example_settings
    example_discovery (Jitter_new 1 2) host_collector ls d 0%nat Hrun Hq)].
  - intros d' (Hon & _). exact Hon.
  - by destruct (failure_of (worker_pc d)).
  - exact Hlt.
  - exact bare_readings.
Defined.
