(* ===== verification/Availability.v ===== *)
(** * The end of a session as the broker sees it

    What a daemon that stopped with success leaves on the availability topic:
    when a connection was up, the retained offline message was the last
    publication handed to the client; when none was, the broker has published the
    last will, which is the same message. *)

From S2P Require Import Prelude RustStr Model Config Discovery Watch MqttProtocol MqttMachine MqttSupervisor MetricsDisk Collector CollectorReports Daemon DaemonService DaemonShutdown Program Supervision.

Local Open Scope Z_scope.

Section availability.
Context `{WL : WatchLaws} `{JT : JsonText} {World : Type} `{SystemSource World} `{CommandRunner World} `{Clock World}.
Context {IoError : Type}.
Variable accepts : nat -> bool.
Implicit Types (w : Slots) (s : MqttSupervisor).
Abbreviation RunningDaemon := (RunningDaemon (IoError := IoError)).
Abbreviation DaemonLabel := (DaemonLabel (IoError := IoError)).
Abbreviation step := (daemon_step (IoError := IoError) accepts).

(** ** Whether a connection is up *)

(** From the events alone: accepted, and no error since. *)
Definition up_after (branch : Branch) (up : bool) : bool :=
  match branch with
  | Polled (Ok (IncomingConnAck Success)) _ => true
  | Polled (Err _) _ => false
  | _ => up
  end.
Definition up_next (up : bool) (l : DaemonLabel) : bool :=
  match l with Task (MqttIterates false branch _) => up_after branch up | _ => up end.
Definition connection_up (ls : list DaemonLabel) : bool := fold_left up_next ls false.

(** The client reports the end of a connection it was asked to end only. *)
Definition solicited (l : DaemonLabel) : Prop :=
  match l with Task (MqttIterates false (Polled (Ok OutgoingDisconnect) _) _) => False | _ => True end.

(** The phases of the loop, by whether a connection is up. *)
Definition session_phase (up : bool) (m : BootstrapMachine) : Prop :=
  if up then live (phase m) = true else phase m = Disconnected.

Definition offline_message (topic : str) : Request := Publish topic AtLeastOnce true OFFLINE_PAYLOAD.
Definition farewell (s : MqttSupervisor) : Prop :=
  exists earlier tail, requests s = earlier ++ offline_message (MqttSettings.availability_topic (settings s)) :: tail
    /\ (tail = [] \/ tail = [DisconnectRequest]).

(** ** Iterations *)

Lemma perform_protocol s a text : protocol (perform accepts s a text).1 = protocol s.
Proof. unfold perform. by destruct (accepts _). Qed.

Lemma state_phase up m id : session_phase up m -> session_phase up (state_available m id).1.
Proof. unfold session_phase, state_available. destruct up, (phase m) eqn:E; try discriminate; repeat case_match; cbn; by rewrite ?E. Qed.

Lemma publish_phase w s up :
  session_phase up (protocol s) -> session_phase up (protocol (publish_current_state accepts w s).1).
Proof.
  intros Hs. unfold publish_current_state. destruct (borrow (states w)) as [msg|]; [|done]. cbn [protocol set_states_seen].
  apply (state_phase up _ (request_id msg)) in Hs. destruct (state_available _ _) as [m [a|]]; [|done].
  by rewrite perform_protocol.
Qed.

Lemma event_phase up s e :
  session_phase up (protocol s) -> e <> OutgoingDisconnect -> session_phase up (protocol (handle_event accepts s e).1).
Proof.
  intros Hs He. unfold handle_event.
  assert (forall o : BootstrapMachine * option ProtocolAction, session_phase up o.1 ->
    session_phase up (protocol (let '(p, action) := o in
      let s := set_protocol p s in match action with Some action => perform accepts s action None | None => (s, Ok tt) end).1)) as Ho.
  { intros [m [a|]] Hm; [by rewrite perform_protocol|done]. }
  apply Ho. destruct e as [c|p|p| |]; try done; unfold session_phase, publish_acknowledged, outgoing_publish in *;
    destruct up, (phase (protocol s)) eqn:E; try discriminate; repeat case_match; cbn; by rewrite ?E.
Qed.

Lemma finish_phase w o up w' s' :
  session_phase up (protocol o.1) -> finish_iteration accepts w o = (w', s', Continue) -> session_phase up (protocol s').
Proof.
  intros Hs Hf. unfold finish_iteration, continue_or_return in Hf. destruct o as [s [[]|e]]; [|done].
  cbn [and_then fst] in *. destruct (just_became_online (protocol s)) as [p became] eqn:Ej.
  injection Ej as <- <-. destruct (became_online (protocol s)).
  - injection Hf as _ <- _. apply publish_phase. exact Hs.
  - case_match; injection Hf as _ <-; exact Hs.
Qed.

(** ** The graceful shutdown *)

(** The phases of a shutdown that has published the offline message: before and
    after the disconnection was handed over. *)
Definition leaving (p : Phase) : bool :=
  match p with ShutdownAwaitOfflineOutgoing _ | ShutdownAwaitOfflineAck _ => true | _ => false end.
Definition left (p : Phase) : bool := match p with DisconnectQueued | Stopped => true | _ => false end.

Definition says (s s' : MqttSupervisor) (tail : list Request) : Prop :=
  settings s' = settings s /\ requests s' = requests s ++ tail.

Lemma says_nothing s s' : settings s' = settings s -> requests s' = requests s -> says s s' [].
Proof. unfold says. intros -> ->. by rewrite app_nil_r. Qed.

Lemma event_left s e :
  left (phase (protocol s)) = true ->
  let s' := (handle_event accepts s e).1 in says s s' [] /\ left (phase (protocol s')) = true.
Proof.
  intros Hl. unfold handle_event, publish_acknowledged, outgoing_publish, disconnected.
  destruct e as [c|p|p| |], (phase (protocol s)) eqn:E; try discriminate Hl; cbn;
    (split; [by apply says_nothing|]); by rewrite ?E.
Qed.

Lemma event_leaving s e :
  leaving (phase (protocol s)) = true ->
  let s' := (handle_event accepts s e).1 in
  says s s' [] /\ (leaving (phase (protocol s')) = true \/ left (phase (protocol s')) = true)
  \/ says s s' [DisconnectRequest] /\ left (phase (protocol s')) = true.
Proof.
  intros Hl. unfold handle_event, publish_acknowledged, outgoing_publish, disconnected, perform.
  destruct e as [c|p|p| |], (phase (protocol s)) as [| | | | | | | |[]|q| |] eqn:E; try discriminate Hl;
    repeat case_match; simplify_eq/=; rewrite ?E;
    first [left; split; [by apply says_nothing|by eauto]|by right].
Qed.

Lemma sequence_left polls s :
  left (phase (protocol s)) = true -> says s (shutdown_sequence accepts polls s).1 [].
Proof.
  revert s. induction polls as [|[e|e] polls IH]; intros s Hl; cbn [shutdown_sequence]; try by apply says_nothing.
  destruct (event_left s e Hl) as [[Hs Hr] Hl']. destruct (handle_event accepts s e) as [s1 [[]|]]; [|by split].
  destruct (_ || _); [by split|]. destruct (IH s1 Hl') as [Hs' Hr']. cbn [fst] in *.
  split; [congruence|]. by rewrite Hr', Hr, !app_nil_r.
Qed.

Lemma sequence_leaving polls s :
  leaving (phase (protocol s)) = true ->
  exists tail, says s (shutdown_sequence accepts polls s).1 tail /\ (tail = [] \/ tail = [DisconnectRequest]).
Proof.
  revert s. induction polls as [|[e|e] polls IH]; intros s Hl; cbn [shutdown_sequence];
    try (exists []; split; [by apply says_nothing|by left]).
  assert (forall s1 t1, says s s1 t1 -> (t1 = [] \/ t1 = [DisconnectRequest]) ->
    (leaving (phase (protocol s1)) = true /\ t1 = [] \/ left (phase (protocol s1)) = true) ->
    exists tail, says s (shutdown_sequence accepts polls s1).1 tail /\ (tail = [] \/ tail = [DisconnectRequest])) as Hnext.
  { intros s1 t1 [Hs Hr] Ht1 [[Hl1 ->]|Hl1].
    - destruct (IH s1 Hl1) as (t & [Hs' Hr'] & Ht). exists t. split; [|done]. split; [congruence|].
      by rewrite Hr', Hr, app_nil_r.
    - destruct (sequence_left polls s1 Hl1) as [Hs' Hr']. exists t1. split; [|done]. split; [congruence|].
      by rewrite Hr', Hr, app_nil_r. }
  pose proof (event_leaving s e Hl) as He. destruct (handle_event accepts s e) as [s1 r]. cbn [fst] in He.
  assert (exists t1, says s s1 t1 /\ (t1 = [] \/ t1 = [DisconnectRequest])
    /\ (leaving (phase (protocol s1)) = true /\ t1 = [] \/ left (phase (protocol s1)) = true)) as (t1 & Hs1 & Ht1 & Hp1).
  { destruct He as [[Hs1 [Hp|Hp]]|[Hs1 Hp]]; eauto 10. }
  destruct r as [[]|]; [|by exists t1]. destruct (_ || _); [by exists t1|]. by eapply Hnext.
Qed.

Lemma graceful_farewell polls s s' :
  live (phase (protocol s)) = true -> graceful_shutdown accepts polls s = (s', Ok tt) ->
  settings s' = settings s /\ farewell s'.
Proof.
  intros Hl Hg. unfold graceful_shutdown in Hg. cbn [protocol set_status] in Hg.
  assert (exists skip, shutdown (protocol s) = (set_phase (ShutdownAwaitOfflineOutgoing skip) (protocol s), Some PublishOffline))
    as [skip Es] by (unfold shutdown; destruct (phase (protocol s)); try discriminate Hl; by eexists).
  rewrite Es in Hg. unfold perform in Hg. cbn [requests set_protocol set_status] in Hg.
  destruct (accepts _); [|done]. cbn [and_then] in Hg.
  match type of Hg with context [shutdown_sequence accepts polls ?s1] =>
    destruct (sequence_leaving polls s1) as (tail & [Hs Hr] & Ht); [done|];
    destruct (shutdown_sequence accepts polls s1) as [s2 r] end.
  cbn [fst] in *. destruct (shutdown_sequence_result r) as [[]|]; [|done]. injection Hg as <-. cbn [settings set_status].
  split; [exact Hs|]. exists (requests s), tail. split; [|exact Ht]. cbn [requests settings set_status]. rewrite Hr, Hs.
  unfold offline_message. cbn. by rewrite <-app_assoc.
Qed.

(** ** Runs *)

Definition phase_after (up : bool) (flow : Flow) (s : MqttSupervisor) : Prop :=
  match flow with
  | Continue => session_phase up (protocol s)
  | Return (Ok _) => up = true -> farewell s
  | Return (Err _) => True
  end.

Lemma finish_after up w o : session_phase up (protocol o.1) ->
  let '(_, s', flow) := finish_iteration accepts w o in phase_after up flow s'.
Proof.
  intros Ho. destruct (finish_iteration accepts w o) as [[w' s'] flow] eqn:E.
  destruct flow as [|[[]|e]]; [by eapply finish_phase| |done].
  unfold finish_iteration, continue_or_return in E. by destruct (and_then _ _) as [s1 [[]|]].
Qed.

Lemma graceful_after up polls w s : session_phase up (protocol s) ->
  let '(_, s', flow) := return_outcome w (graceful_shutdown accepts polls s) in phase_after up flow s'.
Proof.
  intros Hs. unfold return_outcome. destruct (graceful_shutdown accepts polls s) as [s' [[]|e]] eqn:E; [|done].
  cbn. intros ->. by eapply graceful_farewell.
Qed.

Lemma iterate_after (now : bool) branch polls w s (up : bool) :
  session_phase up (protocol s) ->
  now = true \/ match branch with Polled (Ok OutgoingDisconnect) _ => False | _ => True end ->
  let '(_, s', flow) := iterate accepts now branch polls w s in
  phase_after (if now then up else up_after branch up) flow s'.
Proof.
  intros Hs Hb. unfold iterate. destruct now; [by apply graceful_after|]. destruct Hb as [?|Hb]; [done|].
  destruct branch as [c|[e|e] wait|[]]; cbn [up_after].
  - destruct (stops c); [by apply graceful_after|by apply finish_after].
  - destruct e as [[]| | | |]; try done; try (apply finish_after; by apply event_phase).
    unfold on_connected. destruct (request_collection _) as [slot r]. cbn [connected]. unfold perform, continue_or_return.
    by destruct (accepts _).
  - unfold on_error. destruct (next_unit _), (next_delay _ _). destruct wait as [|c]; [by apply finish_after|].
    destruct (stops c); [done|by apply finish_after].
  - apply finish_after. by apply publish_phase.
  - by apply finish_after.
Qed.

(** What a daemon has said, by whether a connection is up. *)
Definition spoken (up : bool) (d : RunningDaemon) : Prop :=
  match mqtt_outcome (service_of d) with
  | None => session_phase up (protocol (mqtt_task (service_of d)))
  | Some (Ok _) => up = true -> farewell (mqtt_task (service_of d))
  | Some (Err _) => True
  end.

Lemma spoken_step up d l d' : spoken up d -> solicited l -> step d l d' -> spoken (up_next up l) d'.
Proof.
  intros Hd Hl Hstep. destruct Hstep as [d l p Hp Hstep|d _ _ _|d _ _|d signal c _ _|d c _ _|d expired c ends _ _]; try done.
  apply program_step_service in Hstep. unfold spoken in *. change (service_of (after_step d l p)) with (running p).
  unfold service_of in *. destruct Hstep as [now branch polls sv w' s' flow Hdone Hen Hit|payload sv k' sh' _|e sv s' sh' _];
    [|done..].
  cbn [mqtt_outcome mqtt_task] in *.
  assert (session_phase up (protocol (mqtt_task sv))) as Hs by (unfold mqtt_done in Hdone; by destruct (mqtt_outcome sv)).
  pose proof (iterate_after now branch polls (shared_slots (shared sv)) (mqtt_task sv) up Hs) as Ha. rewrite Hit in Ha.
  assert (phase_after (if now then up else up_after branch up) flow s') as Hflow
    by (apply Ha; destruct now; [by left|right; by destruct branch as [c|[[]|e]|b]]).
  cbn [up_next]. destruct flow as [|[]]; destruct now; exact Hflow.
Qed.

Lemma spoken_run up d ls d' :
  spoken up d -> Forall solicited ls -> Prelude.run step d ls d' -> spoken (fold_left up_next ls up) d'.
Proof.
  intros Hd Hls Hrun. revert up Hd Hls. induction Hrun as [d|d1 l d2 ls d3 Hs _ IH]; intros up Hd Hls; [done|].
  apply Forall_cons in Hls as [Hl Hls]. apply IH; [by eapply spoken_step|done].
Qed.

(** A successful end of the service is a successful end of the supervisor. *)
Lemma success_supervisor k0 (d : RunningDaemon) : daemon_inv accepts k0 d -> daemon_result d = Some (Ok tt) ->
  mqtt_outcome (service_of d) = Some (Ok tt).
Proof.
  intros Hi Hres. pose proof (inv_main accepts k0 d Hi) as Hm. unfold daemon_result in Hres.
  destruct (main d) as [|c|c ends]; try done. destruct Hm as [Hc (Hme & _ & _)]. unfold mqtt_ended in Hme.
  destruct (mqtt_outcome (service_of d)) as [[[]|e]|]; [done| |done]. injection Hme as Hme. exfalso.
  unfold service_result in Hres. rewrite Hme in Hres. destruct c as [[[]|?]|r|r|r]; cbn [cause] in Hc; try done.
  - destruct Hc as (? & -> & _). done.
  - destruct Hc as (? & -> & _). done.
Qed.

(** C5: a daemon that stops with success leaves the device offline.  In
    every run in which the client reports the end of a connection it was asked to
    end only, if a connection was up at the end (accepted, and no error since) the
    last thing handed to the client is the retained offline message on the
    availability topic, to be acknowledged, and at most the disconnection after
    it, whether or not the broker answers; if none was, the broker publishes
    the last will, which is the same message. *)
Theorem clean_stop_goes_offline settings0 discovery j k0 ls (d : RunningDaemon) (credentials : MqttCredentials.t) :
  Prelude.run step (daemon_start settings0 discovery j k0) ls d -> Forall solicited ls ->
  daemon_result d = Some (Ok tt) ->
  let offline := offline_message (MqttSettings.availability_topic settings0) in
  (connection_up ls = true -> exists earlier tail,
     requests (mqtt_task (service_of d)) = earlier ++ offline :: tail /\ (tail = [] \/ tail = [DisconnectRequest]))
  /\ (fun will => Publish (will_topic will) (will_qos will) (will_retain will) (will_message will))
       <$> last_will (options settings0 credentials) = Some offline.
Proof.
  intros Hrun Hls Hres offline. split; [|done]. intros Hup.
  pose proof (success_supervisor k0 d (daemon_inv_run _ _ _ _ _ _ _ Hrun) Hres) as Hout.
  assert (spoken false (daemon_start settings0 discovery j k0)) as Hstart by done.
  pose proof (spoken_run _ _ _ _ Hstart Hls Hrun) as Hsp. unfold spoken in Hsp. rewrite Hout in Hsp.
  destruct (Hsp Hup) as (earlier & tail & Hr & Ht). exists earlier, tail. split; [|exact Ht]. rewrite Hr. unfold offline.
  destruct (daemon_program_run _ _ _ _ Hrun) as [ls' Hp]. apply program_run in Hp as [_ (_ & _ & _ & _ & Href)].
  destruct (Href ltac:(unfold mqtt_sound; change (running (program d)) with (service_of d); by rewrite Hout)) as (ops & (Hset & _) & _).
  cbn [system_of supervisor] in Hset. change (running (program d)) with (service_of d) in Hset. by rewrite Hset.
Qed.
End availability.

(** ** A concrete stop

    A signal while the session is online, with a broker that acknowledges. *)

#[local] Existing Instances text_time host_source host_runner host_clock.
#[local] Instance braces : JsonText := {| json_to_string _ := Ok (lit "{}") |}.

Definition stop_steps : list (DaemonLabel (IoError := unit) * nat) :=
  let at_host l := (l, 0%nat) in
  let told := {| closed := false; shutdown_value := true |} in
  take 21 daemon_steps ++
  [at_host (Completes (Some (Ok tt)));
   at_host (Task (MqttIterates true (ShutdownChanged told)
     [Ok (OutgoingPublish 3); Ok (IncomingPubAck 3); Ok OutgoingDisconnect]));
   at_host (Task (SchedulerSteps (SchedulerShutdown told))); at_host (Task (WorkerSteps (Ok []))); at_host Joins].

Abbreviation stop_exec := (daemon_exec (IoError := unit) (H2 := host_clock) always
  (daemon_start (IoError := unit) example_settings example_discovery (Jitter_new 1 2) host_collector) stop_steps).

Definition solicitedb (l : DaemonLabel (IoError := unit)) : bool :=
  match l with Task (MqttIterates false (Polled (Ok OutgoingDisconnect) _) _) => false | _ => true end.
Definition stop_outcome (o : option (list (DaemonLabel (IoError := unit)) * RunningDaemon (IoError := unit))) :
    bool * option (result (DaemonError unit) unit) :=
  match o with
  | Some (ls, d) => (forallb solicitedb ls && connection_up ls, daemon_result d)
  | None => (false, None)
  end.

Lemma stop_example : stop_outcome stop_exec = (true, Some (Ok tt)).
Proof. vm_compute. reflexivity. Qed.

Lemma clean_stop_goes_offline_witness :
  exists ls d earlier tail,
    Prelude.run (daemon_step (H2 := host_clock) always)
      (daemon_start (IoError := unit) example_settings example_discovery (Jitter_new 1 2) host_collector) ls d
    /\ connection_up ls = true
    /\ requests (mqtt_task (service_of d)) =
       earlier ++ Publish (MqttSettings.availability_topic example_settings) AtLeastOnce true (lit "offline") :: tail.
Proof.
  pose proof stop_example as Ho. destruct stop_exec as [[ls d]|] eqn:E; [|discriminate (f_equal fst Ho)].
  pose proof (f_equal fst Ho) as Hs. pose proof (f_equal snd Ho) as Hr. cbn [stop_outcome fst snd] in Hs, Hr. clear Ho.
  apply andb_true_iff in Hs as [Hs Hup].
  assert (Forall solicited ls) as Hsol.
  { apply Forall_forall. intros l Hl. rewrite forallb_forall in Hs. specialize (Hs l (proj1 (list_elem_of_In _ _) Hl)).
    by destruct l as [[[] [|[[]|]|] ?| |]| | | | |]. }
  assert (Prelude.run (daemon_step (H2 := host_clock) always)
    (daemon_start (IoError := unit) example_settings example_discovery (Jitter_new 1 2) host_collector) ls d) as Hrun
    by exact (daemon_exec_run (H2 := host_clock) always stop_steps _ _ _ E).
  destruct (clean_stop_goes_offline (H2 := host_clock) always example_settings example_discovery (Jitter_new 1 2)
    host_collector ls d {| MqttCredentials.username := []; MqttCredentials.password := [] |} Hrun Hsol Hr) as [Hlast _].
  destruct (Hlast Hup) as (earlier & tail & Heq & _). exists ls, d, earlier, tail.
  split; [exact Hrun|]. split; [exact Hup|]. exact Heq.
Defined.
