(* ===== verification/Cli.v ===== *)
(** * The command-line contract ([src/src/cli.rs])

    The parsed arguments and the process exit codes; [clap], which parses the
    arguments, is outside the repository. *)

From S2P Require Import Prelude RustStr Config.

Local Open Scope Z_scope.

Definition DEFAULT_CONFIG_PATH : PathBuf := lit "/etc/rpi-health-mqtt/config.toml".
Definition SUCCESS : Z := 0.
Definition USAGE_ERROR : Z := 2.
Definition CONFIG_ERROR : Z := 3.
Definition DIAGNOSTIC_ERROR : Z := 4.
Definition COLLECTION_ERROR : Z := 5.
Definition RUNTIME_ERROR : Z := 6.

Inductive Command := Check (skip_mqtt : bool) | PrintOnce.

Module Cli.
Record t := { config : PathBuf; command : option Command }.
End Cli.
