(* ===== verification/Diagnostics.v ===== *)
(** * Preflight diagnostics ([src/src/diagnostics.rs])

    The checks of [rpi-health-mqtt check]: credentials, process identity,
    architecture, one collected snapshot, device metadata, power flags and a
    connection probe that publishes nothing; their order, their statuses and the
    exit code of the report.  What the probe's event loop delivers is an input;
    the process id and the probe's sequence number are arguments. *)

From stdpp Require Import sorting.
From S2P Require Import Prelude RustStr Model Config Watch MqttProtocol MqttMachine MqttSupervisor MetricsDisk Collector Cli.

Local Open Scope Z_scope.

Definition MQTT_PROBE_TIMEOUT : Duration := from_secs 3.
Definition MQTT_CONNECTION_TIMEOUT_SECONDS : Z := 3.
Definition MQTT_REQUEST_CAPACITY : Z := 4.
Definition MQTT_MAX_PACKET_BYTES : Z := 64 * 1024.
Definition MQTT_PROBE_CLIENT_ID_LIMIT : Z := 128.
Definition CREDENTIALS_CHECK : string := "credentials".
Definition IDENTITY_CHECK : string := "runtime identity".
Definition ARCHITECTURE_CHECK : string := "architecture".
Definition COLLECTOR_CHECK : string := "collector".
Definition METADATA_CHECK : string := "metadata".
Definition POWER_CHECK : string := "power".
Definition MQTT_CHECK : string := "mqtt".

(** ** Reports *)

Inductive CheckStatus := Pass | Warning | Failure | Skipped.

#[export] Instance CheckStatus_eq_dec : EqDecision CheckStatus.
Proof. solve_decision. Defined.

Definition label (s : CheckStatus) : str :=
  match s with
  | Pass => lit "PASS" | Warning => lit "WARNING" | Failure => lit "FAILURE" | Skipped => lit "SKIPPED"
  end.

Record DiagnosticCheck := { check_name : string; check_status : CheckStatus; check_summary : str }.
Definition DiagnosticCheck_new (name : string) (status : CheckStatus) (summary : string) : DiagnosticCheck :=
  {| check_name := name; check_status := status; check_summary := lit summary |}.

Record DiagnosticReport := { checks : list DiagnosticCheck }.

Definition has_failures (r : DiagnosticReport) : bool :=
  existsb (fun check => bool_decide (check_status check = Failure)) (checks r).
Definition exit_code (r : DiagnosticReport) : Z := if has_failures r then DIAGNOSTIC_ERROR else SUCCESS.

(** [Display]: one line per check. *)
Definition DiagnosticReport_display (r : DiagnosticReport) : str :=
  join [10] ((fun check => lit "[" ++ label (check_status check) ++ lit "] " ++ lit (check_name check)
                           ++ lit ": " ++ check_summary check) <$> checks r).

(** ** Credentials *)

Section credentials.
Context `{FileSystem}.

Definition credential_failure_summary (error : ConfigError io_error) : string :=
  match error with
  | CredentialRead _ _ => "credential file could not be read"
  | CredentialNotAFile _ => "credential path is not a regular file"
  | CredentialTooLarge _ => "credential file exceeds the 64 KiB limit"
  | CredentialEncoding _ => "credential file is not valid UTF-8"
  | CredentialEmpty _ => "credential file is empty"
  | CredentialTooLong _ => "credential exceeds the MQTT UTF-8 field limit"
  | CredentialPermissions _ => "credential file grants access beyond its owner and group"
  | _ => "credential validation could not be completed"
  end.

Definition load_credentials (config : Config.t) : DiagnosticCheck * option MqttCredentials.t :=
  match MqttCredentials_load (Config.mqtt config) with
  | Ok credentials =>
    (DiagnosticCheck_new CREDENTIALS_CHECK Pass "credential file is readable and passes permission checks",
     Some credentials)
  | Err error => (DiagnosticCheck_new CREDENTIALS_CHECK Failure (credential_failure_summary error), None)
  end.
End credentials.

(** ** Process identity *)

Record ProcessIdentity := { effective_uid : Z; effective_gid : Z; supplementary_groups : list Z }.

(** [collect::<Result<Vec<_>, _>>()]. *)
Fixpoint parse_all (fields : list str) : option (list Z) :=
  match fields with
  | [] => Some []
  | f :: fields => v ← parse_u32 f; vs ← parse_all fields; Some (v :: vs)
  end.

Definition parse_status_numbers (status : str) (field : string) : option (list Z) :=
  rest ← head (omap (strip_prefix (lit field)) (lines status));
  values ← parse_all (split_ascii_whitespace rest);
  if bool_decide (field = "Groups:"%string) || negb (bool_decide (values = [])) then Some values else None.

Definition parse_process_identity (status : str) : option ProcessIdentity :=
  uid ← parse_status_numbers status "Uid:";
  gid ← parse_status_numbers status "Gid:";
  groups ← parse_status_numbers status "Groups:";
  effective_uid ← uid !! 1%nat;
  effective_gid ← gid !! 1%nat;
  Some {| effective_uid := effective_uid; effective_gid := effective_gid; supplementary_groups := groups |}.

(** [Vec::dedup]: runs of equal elements become one. *)
Fixpoint dedup {A} `{EqDecision A} (l : list A) : list A :=
  match l with
  | [] => []
  | x :: l => match dedup l with
              | y :: l' => if bool_decide (x = y) then y :: l' else x :: y :: l'
              | [] => [x]
              end
  end.

Definition identity_check (identity : option ProcessIdentity) : DiagnosticCheck :=
  match identity with
  | Some identity =>
    if effective_uid identity =? 0 then
      DiagnosticCheck_new IDENTITY_CHECK Failure
        "process has effective UID 0; run it as the dedicated service account"
    else if (effective_gid identity =? 0) || bool_decide (0 ∈ supplementary_groups identity) then
      DiagnosticCheck_new IDENTITY_CHECK Warning "process is non-root but retains membership in group 0"
    else
      let groups := dedup (merge_sort Z.le (supplementary_groups identity)) in
      {| check_name := IDENTITY_CHECK; check_status := Pass;
         check_summary := lit "effective UID " ++ to_string (effective_uid identity)
           ++ lit ", effective GID " ++ to_string (effective_gid identity)
           ++ lit ", supplementary groups [" ++ join (lit ", ") (to_string <$> groups) ++ lit "]" |}
  | None =>
    DiagnosticCheck_new IDENTITY_CHECK Failure
      "effective UID, GID, and supplementary groups could not be read"
  end.

(** The Linux version; [status] is the text of [/proc/self/status]. *)
Definition check_runtime_identity (status : option str) : DiagnosticCheck :=
  identity_check (status ≫= parse_process_identity).

Definition architecture_check (architecture : str) (is_armv7 : bool) : DiagnosticCheck :=
  if is_armv7 then
    {| check_name := ARCHITECTURE_CHECK; check_status := Pass;
       check_summary := lit "running on supported ARM architecture (" ++ architecture ++ lit ")" |}
  else
    {| check_name := ARCHITECTURE_CHECK; check_status := Warning;
       check_summary := lit "running on " ++ architecture ++ lit "; deploy the ARMv7 build to Raspberry Pi 2" |}.

(** ** The snapshot *)

Definition str_le (s t : str) : Prop := str_leb s t = true.
#[export] Instance str_le_dec s t : Decision (str_le s t) := decide (str_leb s t = true).

Definition check_power (power : PowerMetrics) : DiagnosticCheck :=
  if has_current_problem power then
    DiagnosticCheck_new POWER_CHECK Warning
      "a current undervoltage, throttling, frequency-cap, or thermal-limit flag is active"
  else if has_historical_problem power then
    DiagnosticCheck_new POWER_CHECK Warning
      "a historical undervoltage, throttling, frequency-cap, or thermal-limit flag is set"
  else match throttled_raw power with
       | Some _ => DiagnosticCheck_new POWER_CHECK Pass "firmware power flags are available and clear"
       | None => DiagnosticCheck_new POWER_CHECK Skipped
                   "power flags are unavailable; the collector result reports the cause"
       end.

Section snapshot.
Context `{TimeLib}.

Definition snapshot_check (errors : list CollectorError) : DiagnosticCheck :=
  if bool_decide (errors = []) then
    DiagnosticCheck_new COLLECTOR_CHECK Pass "one complete snapshot was collected"
  else
    let metrics := dedup (merge_sort str_le (metric <$> errors)) in
    {| check_name := COLLECTOR_CHECK;
       check_status := if bool_decide (metrics = [lit "cpu.frequency_mhz"]) then Warning else Failure;
       check_summary := lit "snapshot reported " ++ to_string (Z.of_nat (length metrics))
         ++ lit " unavailable metric source(s): " ++ join (lit ", ") metrics |}.

Definition missing_name (name : string) {A} (o : option A) : list str :=
  match o with None => [lit name] | Some _ => [] end.

Definition metadata_check (metadata : DeviceMetadata) : DiagnosticCheck :=
  let missing_metadata :=
    missing_name "model" (device_model metadata) ++ missing_name "board revision" (board_revision metadata)
    ++ missing_name "kernel release" (kernel_release metadata)
    ++ missing_name "operating system" (operating_system metadata) in
  if bool_decide (missing_metadata = []) then
    DiagnosticCheck_new METADATA_CHECK Pass
      "model, board revision, kernel release, and operating system metadata are available"
  else
    {| check_name := METADATA_CHECK; check_status := Warning;
       check_summary := lit "metadata unavailable: " ++ join (lit ", ") missing_metadata |}.

Definition check_snapshot (metadata : DeviceMetadata) (snapshot : TelemetryState) : list DiagnosticCheck :=
  [snapshot_check (Health.collector_errors (health snapshot)); metadata_check metadata;
   check_power (state_power snapshot)].
End snapshot.

(** ** The connection probe *)

Module MqttProbeFailure.
Inductive t := Rejected | Unreachable | TimedOut | Protocol | ControlQueue.
End MqttProbeFailure.

Definition mqtt_failure_check (failure : MqttProbeFailure.t) : DiagnosticCheck :=
  DiagnosticCheck_new MQTT_CHECK Failure
    match failure with
    | MqttProbeFailure.Rejected =>
      "broker rejected the diagnostic connection; verify credentials and connection policy"
    | MqttProbeFailure.Unreachable => "broker address could not be resolved or reached before the deadline"
    | MqttProbeFailure.TimedOut => "broker connection timed out after three seconds"
    | MqttProbeFailure.Protocol => "broker returned an invalid or unsupported MQTT response"
    | MqttProbeFailure.ControlQueue => "diagnostic MQTT control queue was unavailable"
    end.

Definition classify_connection_error (error : ConnectionError) : MqttProbeFailure.t :=
  match error with
  | ConnectionRefused _ => MqttProbeFailure.Rejected
  | NetworkTimeout | FlushTimeout => MqttProbeFailure.TimedOut
  | ConnectionIo => MqttProbeFailure.Unreachable
  | MqttState | NotConnAck | RequestsDone => MqttProbeFailure.Protocol
  end.

(** The client id of a probe: at most the limit, the sequence number, which the
    source counts up in a [u64], at its end. *)
Definition probe_suffix (process_id sequence : Z) : str :=
  lit "-check-" ++ to_string process_id ++ lit "-" ++ to_string sequence.
(** [&base[..n]]: [None] when [n] is not on a character boundary, where the
    source panics. *)
Fixpoint byte_prefix (n : Z) (s : str) : option str :=
  if n =? 0 then Some []
  else match s with
       | [] => None
       | c :: s => if char_len c <=? n then cons c <$> byte_prefix (n - char_len c) s else None
       end.
Definition unique_probe_client_id (base : str) (process_id sequence : Z) : option str :=
  let suffix := probe_suffix process_id sequence in
  let prefix_length := saturating_sub MQTT_PROBE_CLIENT_ID_LIMIT (len suffix) in
  prefix ← byte_prefix (Z.min (len base) prefix_length) base;
  Some (prefix ++ suffix).

Definition probe_options (config : MqttConfig.t) (credentials : MqttCredentials.t) (process_id sequence : Z) :
    option MqttOptions :=
  client_id ← unique_probe_client_id (MqttConfig.client_id config) process_id sequence;
  Some {| options_client_id := client_id;
          options_host := MqttConfig.host config;
          options_port := MqttConfig.port config;
          clean_session := true;
          options_keep_alive := Z.min (MqttConfig.keep_alive config) (from_secs 30);
          options_credentials := (MqttCredentials.username credentials, MqttCredentials.password credentials);
          last_will := None;
          max_packet_size := (MQTT_MAX_PACKET_BYTES, MQTT_MAX_PACKET_BYTES);
          request_channel_capacity := MQTT_REQUEST_CAPACITY;
          inflight := 1 |}.

(** The probe's loop over what the event loop delivers before the deadline, with
    the requests it hands to the client; [accepts n]: the queue takes the [n]-th
    request. *)
Fixpoint probe_loop (accepts : nat -> bool) (connected : bool) (requests : list Request) (polls : list Poll) :
    list Request * result MqttProbeFailure.t unit :=
  match polls with
  | [] => (requests, Err MqttProbeFailure.TimedOut)
  | Ok (IncomingConnAck Success) :: polls =>
    if accepts (length requests) then probe_loop accepts true (requests ++ [DisconnectRequest]) polls
    else (requests, Err MqttProbeFailure.ControlQueue)
  | Ok OutgoingDisconnect :: polls =>
    if connected then (requests, Ok tt) else probe_loop accepts connected requests polls
  | Ok _ :: polls => probe_loop accepts connected requests polls
  | Err error :: _ => (requests, if connected then Ok tt else Err (classify_connection_error error))
  end.

(** What a probe meets for its options: which requests the client's queue takes,
    and what the event loop delivers before the deadline. *)
Definition Network : Type := MqttOptions -> (nat -> bool) * list Poll.

(** The program's part in a probe; [None] where it panics. *)
Definition probe_mqtt (network : Network) (process_id sequence : Z) (config : MqttConfig.t)
    (credentials : MqttCredentials.t) : option (list Request * result MqttProbeFailure.t unit) :=
  options ← probe_options config credentials process_id sequence;
  Some (probe_loop (network options).1 false [] (network options).2).

Definition check_mqtt (network : Network) (process_id sequence : Z) (config : MqttConfig.t)
    (credentials : MqttCredentials.t) : option DiagnosticCheck :=
  probe ← probe_mqtt network process_id sequence config credentials;
  Some match probe.2 with
       | Ok _ => DiagnosticCheck_new MQTT_CHECK Pass
                   "authenticated clean-session connection succeeded without publishing"
       | Err failure => mqtt_failure_check failure
       end.

(** ** The run *)

Inductive MqttProbe := ProbeEnabled | ProbeSkipped.

Section run.
Context `{FileSystem} {W : Type} `{SystemSource W} `{CommandRunner W} `{Clock W}.

(** The checks on the snapshot of a collector, or those in its place. *)
Definition snapshot_checks (config : CollectorConfig.t) (w : W) : list DiagnosticCheck :=
  match Collector_new config w with
  | (Ok collector, w) =>
    let metadata := metadata collector in
    let '(snapshot, _, _) := collect collector w in
    check_snapshot metadata snapshot
  | (Err _, _) =>
    [DiagnosticCheck_new COLLECTOR_CHECK Failure "vcgencmd was not found at the configured or standard locations";
     DiagnosticCheck_new METADATA_CHECK Skipped
       "hardware metadata was not checked because the collector could not start";
     DiagnosticCheck_new POWER_CHECK Skipped "power flags were not checked because the collector could not start"]
  end.

Definition broker_check (network : Network) (process_id sequence : Z) (config : MqttConfig.t) (mqtt_probe : MqttProbe)
    (credentials : option MqttCredentials.t) : option DiagnosticCheck :=
  match mqtt_probe with
  | ProbeSkipped => Some (DiagnosticCheck_new MQTT_CHECK Skipped "broker connectivity was explicitly skipped")
  | ProbeEnabled =>
    match credentials with
    | Some credentials => check_mqtt network process_id sequence config credentials
    | None => Some (DiagnosticCheck_new MQTT_CHECK Skipped "broker connectivity requires a valid credential file")
    end
  end.

(** [None] where the program panics. *)
Definition run_checks (config : Config.t) (mqtt_probe : MqttProbe) (status : option str) (architecture : str)
    (is_armv7 : bool) (network : Network) (process_id sequence : Z) (w : W) : option DiagnosticReport :=
  let '(credential_check, credentials) := load_credentials config in
  let first := [credential_check; check_runtime_identity status; architecture_check architecture is_armv7] in
  let snapshot := snapshot_checks (Config.collector config) w in
  mqtt ← broker_check network process_id sequence (Config.mqtt config) mqtt_probe credentials;
  Some {| checks := first ++ snapshot ++ [mqtt] |}.
End run.
