(* ===== verification/DiagnosticsFacts.v ===== *)
(** * The preflight diagnostics: verdicts

    What the checks read, what the connection probe concludes and asks for, and
    when the report lets the command succeed. *)

From stdpp Require Import sorting.
From S2P Require Import Prelude RustStr Model Config Watch MqttProtocol MqttMachine MqttSupervisor MetricsDisk Collector CollectorReports Cli Diagnostics.

Local Open Scope Z_scope.

(** ** Process identity *)

(** A field of [/proc/self/status]: its name, then numbers, each after some
    white space, and possibly white space at the end. *)
Definition status_line (field : string) (items : list (str * Z)) (trailing : str) : str :=
  lit field ++ concat ((fun item : str * Z => item.1 ++ to_string item.2) <$> items) ++ trailing.

Definition gap (s : str) : Prop := s <> [] /\ Forall (fun c => is_ascii_whitespace c = true /\ c <> 10 /\ c <> 13) s.

Lemma head_omap_find {A} (f : str -> option A) (p : str -> bool) (ls : list str) l a :
  (forall s, p s = true <-> is_Some (f s)) -> List.find p ls = Some l -> f l = Some a -> head (omap f ls) = Some a.
Proof.
  intros Hp Hf Ha. induction ls as [|s ls IH]; [done|]. cbn in *. destruct (p s) eqn:E.
  - injection Hf as ->. by rewrite Ha.
  - destruct (f s) eqn:Es; [|by apply IH]. assert (p s = true) by (apply Hp; by rewrite Es). congruence.
Qed.

Lemma split_ascii_blank g s :
  Forall (fun c => is_ascii_whitespace c = true) g -> split_ascii_whitespace (g ++ s) = split_ascii_whitespace s.
Proof.
  unfold split_ascii_whitespace. induction 1 as [|c g Hc _ IH]; [done|]. cbn. by rewrite Hc, <-IH.
Qed.

Lemma split_ascii_word w c s :
  w <> [] -> none is_ascii_whitespace w -> is_ascii_whitespace c = true ->
  split_ascii_whitespace (w ++ c :: s) = w :: split_ascii_whitespace s.
Proof.
  intros Hw Hn Hc. unfold split_ascii_whitespace. rewrite split_pred_app by done. by destruct w.
Qed.

Lemma split_ascii_single w : w <> [] -> none is_ascii_whitespace w -> split_ascii_whitespace w = [w].
Proof. intros Hw Hn. unfold split_ascii_whitespace. rewrite split_pred_none by done. by destruct w. Qed.

Lemma ascii_whitespace_whitespace c : is_whitespace c = false -> is_ascii_whitespace c = false.
Proof. unfold is_whitespace, is_ascii_whitespace. lia. Qed.

Lemma to_string_word_ascii n : to_string n <> [] /\ none is_ascii_whitespace (to_string n).
Proof.
  destruct (word_to_string n) as [Hne Hn]. split; [done|].
  eapply Forall_impl; [exact Hn|]. apply ascii_whitespace_whitespace.
Qed.

Lemma split_numbers items trailing :
  Forall (fun item : str * Z => gap item.1) items -> Forall (fun c => is_ascii_whitespace c = true) trailing ->
  split_ascii_whitespace (concat ((fun item : str * Z => item.1 ++ to_string item.2) <$> items) ++ trailing)
  = (to_string ∘ snd) <$> items.
Proof.
  intros Hi Ht. induction Hi as [|[g n] items [Hg1 Hg] Hi IH].
  { cbn [fmap list_fmap concat app]. by rewrite <-(app_nil_r trailing), split_ascii_blank. }
  cbn -[split_ascii_whitespace to_string] in *. rewrite <-!app_assoc, split_ascii_blank
    by (eapply Forall_impl; [exact Hg|]; intros ? [? _]; done).
  destruct (to_string_word_ascii n) as [Hne Hn].
  destruct (concat _ ++ trailing) as [|c s] eqn:E.
  - rewrite app_nil_r, split_ascii_single by done. by rewrite <-IH.
  - rewrite <-IH. assert (is_ascii_whitespace c = true) as Hc.
    { destruct Hi as [|[g' n'] items' [Hg1' Hg'] _].
      - cbn in E. subst. by inversion Ht.
      - cbn in E. destruct g' as [|c' g']; [done|]. injection E as <- _. inversion Hg'. tauto. }
    rewrite split_ascii_word by done. f_equal. symmetry.
    apply (split_ascii_blank [c] s). by repeat constructor.
Qed.

Lemma parse_u32_to_string n : 0 <= n <= u32_max -> parse_u32 (to_string n) = Some n.
Proof. intros Hn. apply parse_unsigned_print; unfold u32_max in *; lia. Qed.

Lemma parse_all_numbers ns : Forall (fun n => 0 <= n <= u32_max) ns -> parse_all (to_string <$> ns) = Some ns.
Proof.
  induction 1 as [|n ns Hn _ IH]; [done|].
  change (parse_all (to_string <$> (n :: ns)))
    with (v ← parse_u32 (to_string n); vs ← parse_all (to_string <$> ns); Some (v :: vs)).
  by rewrite parse_u32_to_string, IH.
Qed.

Lemma parse_status_numbers_line ls field items trailing :
  Forall (fun l => none (Z.eqb 10) l /\ strip_cr l = l) ls ->
  List.find (starts_with (lit field)) ls = Some (status_line field items trailing) ->
  Forall (fun item : str * Z => gap item.1 /\ 0 <= item.2 <= u32_max) items ->
  Forall (fun c => is_ascii_whitespace c = true) trailing ->
  parse_status_numbers (terminated ls []) field
  = if bool_decide (field = "Groups:"%string) || negb (bool_decide (items = [])) then Some (snd <$> items) else None.
Proof.
  intros Hls Hfind Hitems Htrail. apply Forall_and in Hls as [Hls Hcr]. apply Forall_and in Hitems as [Hgap Hnum].
  unfold parse_status_numbers. rewrite lines_terminated by done.
  assert (strip_cr <$> ls = ls) as -> by (clear -Hcr; induction Hcr; [done|]; cbn; by f_equal).
  rewrite app_nil_r.
  erewrite (head_omap_find (strip_prefix (lit field)) (starts_with (lit field)) ls);
    [|intros s; unfold starts_with; apply bool_decide_eq_true|exact Hfind|by apply strip_prefix_Some].
  cbn [mbind option_bind]. rewrite split_numbers by done. rewrite list_fmap_compose, parse_all_numbers.
  2: { by apply Forall_fmap. }
  cbn [mbind option_bind]. by destruct items.
Qed.

(** The values of a field, when it has a line. *)
Definition field_line (ls : list str) (field : string) (items : list (str * Z)) : Prop :=
  exists trailing, Forall (fun c => is_ascii_whitespace c = true) trailing
    /\ List.find (starts_with (lit field)) ls = Some (status_line field items trailing)
    /\ Forall (fun item : str * Z => gap item.1 /\ 0 <= item.2 <= u32_max) items.

(** The process identity is read from [/proc/self/status] as the
    kernel writes it: the effective ids are the second numbers of the first
    [Uid:] and [Gid:] lines, the groups all numbers of the first [Groups:] line,
    which may have none; the identity fails the check exactly when the effective
    user is root. *)
Theorem parse_process_identity_reads ls uids gids groups :
  Forall (fun l => none (Z.eqb 10) l /\ strip_cr l = l) ls ->
  field_line ls "Uid:" uids -> field_line ls "Gid:" gids -> field_line ls "Groups:" groups ->
  let identity := parse_process_identity (terminated ls []) in
  identity = (u ← snd <$> uids !! 1%nat; g ← snd <$> gids !! 1%nat;
              Some (Build_ProcessIdentity u g (snd <$> groups)))
  /\ (check_status (identity_check identity) = Failure <->
       uids !! 1%nat = None \/ gids !! 1%nat = None \/ exists s, uids !! 1%nat = Some (s, 0)).
Proof.
  intros Hls (tu & Htu & Hu & Hui) (tg & Htg & Hg & Hgi) (ts & Hts & Hs & Hsi) identity.
  assert (identity = (u ← snd <$> uids !! 1%nat; g ← snd <$> gids !! 1%nat;
              Some (Build_ProcessIdentity u g (snd <$> groups)))) as ->.
  { unfold identity, parse_process_identity.
    rewrite (parse_status_numbers_line ls "Uid:" uids tu), (parse_status_numbers_line ls "Gid:" gids tg),
      (parse_status_numbers_line ls "Groups:" groups ts) by done.
    destruct uids as [|? [|[? u] uids]], gids as [|? [|[? g] gids]]; reflexivity. }
  split; [done|].
  destruct (uids !! 1%nat) as [[s u]|]; cbn; [|naive_solver].
  destruct (gids !! 1%nat) as [[s' g]|]; cbn; [|naive_solver].
  destruct (Z.eqb_spec u 0) as [->|Hu0]; cbn; [naive_solver|].
  destruct (_ || _); cbn; (split; [done|]); intros [?|[?|[? [= _ ?]]]]; done.
Qed.

Definition example_status : list str :=
  [lit "Name:" ++ [9] ++ lit "rpi"; lit "Uid:" ++ [9] ++ lit "1000" ++ [9] ++ lit "1001";
   lit "Gid:" ++ [9] ++ lit "0" ++ [9] ++ lit "4"; lit "Groups:" ++ [9] ++ lit "20 0 "].

Lemma parse_process_identity_reads_witness :
  parse_process_identity (terminated example_status []) = Some (Build_ProcessIdentity 1001 4 [20; 0]).
Proof.
  eapply eq_trans.
  { apply (parse_process_identity_reads example_status [([9], 1000); ([9], 1001)] [([9], 0); ([9], 4)]
      [([9], 20); ([32], 0)]).
    - repeat constructor.
    - exists []. split; [constructor|]. split; [reflexivity|]. repeat constructor; done.
    - exists []. split; [constructor|]. split; [reflexivity|]. repeat constructor; done.
    - exists [32]. split; [by repeat constructor|]. split; [reflexivity|]. repeat constructor; done. }
  reflexivity.
Defined.

(** ** The connection probe *)

Lemma byte_prefix_ascii n s :
  Forall (fun c => is_ascii c = true) s -> byte_prefix (Z.of_nat n) s = if (n <=? length s)%nat then Some (take n s) else None.
Proof.
  intros Hs. revert n. induction Hs as [|c s Hc Hs IH]; intros [|n]; try reflexivity.
  cbn [byte_prefix length take]. assert (char_len c = 1) as -> by (unfold is_ascii, char_len in *; destruct (Z.ltb_spec c 128); lia).
  destruct (Z.eqb_spec (Z.of_nat (S n)) 0); [lia|]. destruct (Z.leb_spec 1 (Z.of_nat (S n))); [|lia].
  replace (Z.of_nat (S n) - 1) with (Z.of_nat n) by lia. rewrite IH. cbn [Nat.leb]. by destruct (n <=? length s)%nat.
Qed.

Lemma print_digits_length fuel radix n (acc : str) : (length (print_digits fuel radix n acc) <= fuel + length acc)%nat.
Proof.
  revert n acc. induction fuel as [|fuel IH]; intros n acc; cbn [print_digits]; [lia|].
  case_match; [cbn; lia|]. etrans; [apply IH|]. cbn. lia.
Qed.

Lemma to_string_length_u64 n : is_u64 n -> (length (to_string n) <= 64)%nat.
Proof.
  intros Hn. unfold to_string, print_radix. etrans; [apply print_digits_length|].
  assert (0 <= Z.log2 n) by apply Z.log2_nonneg. enough (Z.log2 n < 64) by (cbn [length]; lia). unfold is_u64, u64_max in Hn.
  destruct (decide (n = 0)) as [->|]; [done|]. apply Z.log2_lt_pow2; lia.
Qed.

Definition is_u32 (n : Z) : Prop := 0 <= n <= u32_max.

Definition identifier_char (c : Z) : Prop := is_ascii_alphanumeric c = true \/ c ∈ lit "._-".

Lemma identifier_char_ascii s : Forall identifier_char s -> Forall (fun c => is_ascii c = true) s.
Proof.
  intros Hs. eapply Forall_impl; [exact Hs|]. intros c [Hc|Hc].
  - unfold is_ascii_alphanumeric, is_ascii_digit, is_ascii_uppercase, is_ascii_lowercase, is_ascii in *. lia.
  - assert (Forall (fun c => is_ascii c = true) (lit "._-")) as Hp by by repeat constructor.
    rewrite Forall_forall in Hp. by apply Hp.
Qed.

Lemma to_string_identifier n : 0 <= n -> Forall identifier_char (to_string n) /\ none (Z.eqb 45) (to_string n).
Proof.
  intros Hn. pose proof (to_string_digits n Hn) as Hd. split; (eapply Forall_impl; [exact Hd|]); intros c Hc.
  - left. unfold is_ascii_alphanumeric. by rewrite Hc.
  - unfold is_ascii_digit in Hc. apply Z.eqb_neq. lia.
Qed.

Lemma to_string_inj n m : 0 <= n -> 0 <= m -> to_string n = to_string m -> n = m.
Proof. intros Hn Hm E. by rewrite <-(to_string_value n), <-(to_string_value m), E. Qed.

Section probe_suffix.
Context (process_id sequence : Z) (Hp : is_u32 process_id) (Hs : is_u64 sequence).

Lemma probe_suffix_ok :
  Forall identifier_char (probe_suffix process_id sequence) /\ probe_suffix process_id sequence <> []
  /\ len (probe_suffix process_id sequence) <= MQTT_PROBE_CLIENT_ID_LIMIT.
Proof using Hp Hs.
  unfold is_u32, is_u64 in *. destruct (to_string_identifier process_id) as [Hpc _]; [lia|].
  destruct (to_string_identifier sequence) as [Hsc _]; [lia|].
  assert (Forall identifier_char (lit "-check-") /\ Forall identifier_char (lit "-")) as [Hc1 Hc2].
  { split; repeat (constructor; [first [by left|right; by eapply bool_decide_eq_true_1]|]); constructor. }
  assert (Forall identifier_char (probe_suffix process_id sequence)) as Hall.
  { unfold probe_suffix. repeat (apply Forall_app; split; [assumption|]). assumption. }
  split; [exact Hall|]. split; [done|].
  rewrite len_ascii by (by apply identifier_char_ascii).
  pose proof (to_string_length_u64 process_id ltac:(unfold is_u64, u32_max, u64_max in *; lia)).
  pose proof (to_string_length_u64 sequence Hs).
  enough (length (to_string process_id) <= 33)%nat.
  { unfold probe_suffix. rewrite !length_app. unfold MQTT_PROBE_CLIENT_ID_LIMIT.
    change (length (lit "-check-")) with 7%nat. change (length (lit "-")) with 1%nat. lia. }
  unfold to_string, print_radix. etrans; [apply print_digits_length|]. pose proof (Z.log2_nonneg process_id).
  enough (Z.log2 process_id < 32) by (cbn [length]; lia).
  destruct (decide (process_id = 0)) as [->|]; [done|]. apply Z.log2_lt_pow2; unfold u32_max in *; lia.
Qed.
End probe_suffix.

Lemma probe_client_id_some base p s :
  Forall identifier_char base -> is_u32 p -> is_u64 s ->
  exists n, unique_probe_client_id base p s = Some (take n base ++ probe_suffix p s)
    /\ len (take n base ++ probe_suffix p s) <= MQTT_PROBE_CLIENT_ID_LIMIT.
Proof.
  intros Hb Hp Hs. destruct (probe_suffix_ok p s Hp Hs) as (Hc & _ & Hl).
  pose proof (identifier_char_ascii _ Hb) as Ha. unfold unique_probe_client_id. cbv zeta.
  set (suffix := probe_suffix p s) in *. pose proof (len_nonneg suffix) as Hnn.
  exists (Z.to_nat (Z.min (len base) (saturating_sub MQTT_PROBE_CLIENT_ID_LIMIT (len suffix)))).
  unfold saturating_sub. set (n := Z.min _ _).
  assert (0 <= n <= Z.of_nat (length base)) as Hn by (unfold n; rewrite len_ascii by done; lia).
  rewrite <-(Z2Nat.id n) at 1 by lia. rewrite byte_prefix_ascii by done.
  destruct (Nat.leb_spec (Z.to_nat n) (length base)); [|lia]. cbn [mbind option_bind]. split; [done|].
  rewrite len_app, (len_ascii (take _ _)) by (by apply Forall_take). rewrite length_take. unfold n. lia.
Qed.

Lemma probe_suffix_split a p s :
  a ++ probe_suffix p s = ((a ++ lit "-check") ++ 45 :: to_string p) ++ 45 :: to_string s.
Proof. unfold probe_suffix. by rewrite <-!app_assoc. Qed.

Lemma probe_suffix_inj a p s a' p' s' :
  is_u32 p -> is_u64 s -> is_u32 p' -> is_u64 s' -> a ++ probe_suffix p s = a' ++ probe_suffix p' s' -> p = p' /\ s = s'.
Proof.
  unfold is_u32, is_u64. intros Hp Hs Hp' Hs'. rewrite !probe_suffix_split. intros E.
  apply (last_piece_inj (Z.eqb 45)) in E as [E Es]; [|done|apply to_string_identifier; lia..].
  apply (last_piece_inj (Z.eqb 45)) in E as [_ Ep]; [|done|apply to_string_identifier; lia..].
  split; apply to_string_inj; (done || lia).
Qed.

Lemma probe_options_exist raw credentials p s :
  valid raw -> is_u32 p -> is_u64 s ->
  exists n o, probe_options (Config.mqtt (config_of raw)) credentials p s = Some o
    /\ options_client_id o = take n (raw_client_id (raw_mqtt raw)) ++ probe_suffix p s /\ len (options_client_id o) <= 128
    /\ clean_session o = true /\ last_will o = None.
Proof.
  intros (_ & _ & _ & _ & (_ & _ & Hb) & _) Hp Hs. set (base := raw_client_id (raw_mqtt raw)) in *.
  destruct (probe_client_id_some base p s Hb Hp Hs) as (n & E1 & Hl).
  exists n. unfold probe_options. change (MqttConfig.client_id (Config.mqtt (config_of raw))) with base.
  rewrite E1. cbn [mbind option_bind]. eexists. split; [reflexivity|]. by split_and!.
Qed.

(** For an accepted configuration the probe never panics on its
    client id, whatever the process id and the sequence number: the id is itself
    a valid client id, two probes that differ in process or sequence have
    different ones, and the connection is a clean session without a last will. *)
Theorem probe_options_valid {E} (raw : RawConfig) (c : Config.t) (credentials : MqttCredentials.t) p s :
  validate (io_error := E) raw = Ok c -> is_u32 p -> is_u64 s ->
  exists o, probe_options (Config.mqtt c) credentials p s = Some o
    /\ identifier_ok (options_client_id o) 128 (lit "._-")
    /\ clean_session o = true /\ last_will o = None
    /\ forall p' s' o', is_u32 p' -> is_u64 s' -> probe_options (Config.mqtt c) credentials p' s' = Some o' ->
         options_client_id o' = options_client_id o -> p' = p /\ s' = s.
Proof.
  intros Hv Hp Hs. apply validate_ok_iff_parts in Hv as [Hv ->].
  pose proof Hv as (_ & _ & _ & _ & (_ & _ & Hb) & _).
  destruct (probe_options_exist raw credentials p s Hv Hp Hs) as (n & o & Ho & Hid & Hl & Hclean & Hwill).
  exists o. split; [done|]. destruct (probe_suffix_ok p s Hp Hs) as (Hc & Hne & _).
  split; [|split; [done|split; [done|]]].
  - split; [|split; [done|]]; rewrite Hid.
    + by intros [_ ?]%app_nil.
    + apply Forall_app. split; [by apply Forall_take|done].
  - intros p' s' o' Hp' Hs' Ho' Eid. destruct (probe_options_exist raw credentials p' s' Hv Hp' Hs') as (n' & o'' & Ho'' & Hid' & _).
    rewrite Ho' in Ho''. injection Ho'' as <-. rewrite Hid, Hid' in Eid. by eapply probe_suffix_inj.
Qed.

Lemma probe_options_valid_witness :
  exists c o, validate (io_error := unit) example_raw = Ok c
    /\ probe_options (Config.mqtt c) (MqttCredentials.Build_t [] []) 4242 1 = Some o
    /\ options_client_id o = lit "rpi.health-check-4242-1" /\ last_will o = None.
Proof.
  destruct (validate (io_error := unit) example_raw) as [c|e] eqn:E; [|vm_compute in E; discriminate E].
  destruct (probe_options_valid example_raw c (MqttCredentials.Build_t [] []) 4242 1 E) as (o & Ho & _ & _ & Hw & _);
    [unfold is_u32, u32_max; lia|unfold is_u64, u64_max; lia|].
  exists c, o. split; [done|]. split; [done|]. split; [|done].
  vm_compute in E. injection E as <-. vm_compute in Ho. injection Ho as <-. vm_compute. reflexivity.
Defined.

Section probe.
Context (accepts : nat -> bool).

Definition acknowledges (p : Poll) : bool := match p with Ok (IncomingConnAck Success) => true | _ => false end.
Definition closes (p : Poll) : bool := match p with Ok OutgoingDisconnect | Err _ => true | _ => false end.


(** The part of a list before the first element that satisfies [f], and from it. *)
Fixpoint before_first {A} (f : A -> bool) (l : list A) : list A :=
  match l with [] => [] | x :: l => if f x then [] else x :: before_first f l end.
Fixpoint from_first {A} (f : A -> bool) (l : list A) : list A :=
  match l with [] => [] | x :: l' => if f x then l else from_first f l' end.

(** The first request of [requests] the client does not take, if any. *)
Definition refused (requests : list nat) : option nat := List.find (fun n => negb (accepts n)) requests.

(** The loop once the connection was acknowledged. *)
Lemma probe_loop_connected n after :
  let acks := length (List.filter acknowledges (before_first closes after)) in
  probe_loop accepts true (replicate n DisconnectRequest) after =
  match refused (seq n acks) with
  | Some k => (replicate k DisconnectRequest, Err MqttProbeFailure.ControlQueue)
  | None => (replicate (n + acks) DisconnectRequest,
             if existsb closes after then Ok tt else Err MqttProbeFailure.TimedOut)
  end.
Proof.
  revert n. induction after as [|p after IH]; intros n; [cbn; by rewrite Nat.add_0_r|].
  destruct p as [[[]| | | |]|]; cbn [probe_loop before_first closes existsb acknowledges List.filter length seq];
    try exact (IH n); try (by cbn; rewrite Nat.add_0_r).
  rewrite length_replicate. unfold refused. cbn [List.find]. destruct (accepts n) eqn:E; [|done]. cbn [negb].
  specialize (IH (S n)). rewrite <-replicate_S_end, IH, Nat.add_succ_r. done.
Qed.

Lemma probe_loop_before polls :
  probe_loop accepts false [] polls
  = probe_loop accepts false [] (from_first (fun p => acknowledges p || negb (is_ok p)) polls).
Proof. induction polls as [|p polls IH]; [done|]. by destruct p as [[[]| | | |]|]. Qed.

Lemma probe_loop_requests connected n polls :
  exists m, (probe_loop accepts connected (replicate n DisconnectRequest) polls).1 = replicate m DisconnectRequest.
Proof.
  revert connected n. induction polls as [|p polls IH]; intros connected n; [by exists n|].
  destruct p as [[[]|pk|pk| |]|e]; cbn; try apply IH; try (by exists n); [|by destruct connected; [exists n|apply IH]].
  destruct (accepts _); [|by exists n]. specialize (IH true (S n)). by rewrite <-replicate_cons_app in *.
Qed.

(** C23: whatever the broker does, the probe hands the client nothing but
    disconnections, so it publishes nothing; and its verdict for every course of
    the connection.  What comes before the first acknowledgement of the connection
    or error counts for nothing; an error gives its category, silence a timeout.
    Once acknowledged, one disconnection is asked for each acknowledgement: the
    probe fails at the first the client does not take, passes when a
    disconnection goes out or the connection ends before the deadline, and is
    timed out otherwise. *)
Theorem probe_verdict polls :
  (exists n, (probe_loop accepts false [] polls).1 = replicate n DisconnectRequest)
  /\ probe_loop accepts false [] polls
     = match from_first (fun p => acknowledges p || negb (is_ok p)) polls with
       | [] => ([], Err MqttProbeFailure.TimedOut)
       | Err e :: _ => ([], Err (classify_connection_error e))
       | Ok _ :: after =>
         let acks := S (length (List.filter acknowledges (before_first closes after))) in
         match refused (seq 0 acks) with
         | Some k => (replicate k DisconnectRequest, Err MqttProbeFailure.ControlQueue)
         | None => (replicate acks DisconnectRequest,
                    if existsb closes after then Ok tt else Err MqttProbeFailure.TimedOut)
         end
       end.
Proof.
  split; [apply (probe_loop_requests false 0)|]. rewrite probe_loop_before.
  destruct (from_first _ polls) as [|p after] eqn:E; [done|].
  assert (acknowledges p || negb (is_ok p) = true) as Hp.
  { revert E. induction polls as [|q polls IH]; [done|]. cbn [from_first].
    destruct (acknowledges q || negb (is_ok q)) eqn:Eq; [by intros [= <- _]|exact IH]. }
  destruct p as [[[]| | | |]|e]; try discriminate Hp; [|done]. cbn [probe_loop length seq].
  unfold refused. cbn [List.find]. destruct (accepts 0%nat); [|done]. cbn [negb].
  apply (probe_loop_connected 1).
Qed.
End probe.

(** Two acknowledgements, of which the second finds the queue full; a broker that
    ends the connection. *)
Example probe_courses :
  probe_loop (fun n => bool_decide (n = 0%nat)) false [] [Ok OtherEvent; Ok (IncomingConnAck Success); Ok (IncomingConnAck Success)]
    = ([DisconnectRequest], Err MqttProbeFailure.ControlQueue)
  /\ probe_loop (fun _ => true) false [] [Ok OutgoingDisconnect; Ok (IncomingConnAck Success); Err NetworkTimeout]
    = ([DisconnectRequest], Ok tt).
Proof. by vm_compute. Qed.

(** ** The report *)

Section dedup.
Context {A : Type} `{EqDecision A}.
Implicit Types (l : list A).

Lemma elem_of_dedup x l : x ∈ dedup l <-> x ∈ l.
Proof.
  induction l as [|y l IH]; [done|]. cbn. rewrite elem_of_cons, <-IH. clear IH.
  destruct (dedup l) as [|z l']; [set_solver|]. destruct (bool_decide_reflect (y = z)) as [->|_]; rewrite !elem_of_cons; tauto.
Qed.

Lemma dedup_constant x l : dedup l = [x] <-> l <> [] /\ Forall (fun y => y = x) l.
Proof.
  split.
  - intros E. assert (forall y, y ∈ l <-> y ∈ [x]) as H by (intros; by rewrite <-E, elem_of_dedup).
    split; [intros ->; by cbn in E|]. apply Forall_forall. intros y Hy. by apply H, list_elem_of_singleton in Hy.
  - intros [Hne Hl]. induction Hl as [|y l -> Hl IH]; [done|]. cbn. destruct Hl as [|y l -> Hl]; [done|].
    rewrite IH by done. by rewrite bool_decide_true.
Qed.
End dedup.

Lemma snapshot_check_failure `{TimeLib} errors :
  check_status (snapshot_check errors) = Failure <-> ~ Forall (fun e => metric e = lit "cpu.frequency_mhz") errors.
Proof.
  unfold snapshot_check. destruct (bool_decide_reflect (errors = [])) as [->|Hne].
  { split; [done|]. intros Hn. by destruct Hn. }
  cbn [check_status].
  assert (dedup (merge_sort str_le (metric <$> errors)) = [lit "cpu.frequency_mhz"]
          <-> Forall (fun e => metric e = lit "cpu.frequency_mhz") errors) as Hiff.
  { rewrite dedup_constant. pose proof (merge_sort_Permutation str_le (metric <$> errors)) as Hp.
    rewrite (Forall_Permutation _ _ (fun _ => iff_refl _) _ _ Hp), Forall_fmap. split; [by intros [_ ?]|].
    intros Hall. split; [|exact Hall]. intros E. rewrite E in Hp. apply Permutation_nil_l in Hp. by destruct errors. }
  rewrite <-Hiff. case_bool_decide as Hc; (split; [|done]); [done|]. by intros _.
Qed.

Lemma metadata_check_passes metadata : check_status (metadata_check metadata) <> Failure.
Proof. unfold metadata_check. by case_match. Qed.

Lemma check_power_passes power : check_status (check_power power) <> Failure.
Proof. unfold check_power. by repeat case_match. Qed.

Lemma architecture_check_passes architecture is_armv7 : check_status (architecture_check architecture is_armv7) <> Failure.
Proof. by destruct is_armv7. Qed.

Lemma exit_code_success r : exit_code r = SUCCESS <-> Forall (fun c => check_status c <> Failure) (checks r).
Proof.
  unfold exit_code, has_failures.
  assert (existsb (fun check => bool_decide (check_status check = Failure)) (checks r) = false
          <-> Forall (fun c => check_status c <> Failure) (checks r)) as <-.
  { rewrite existsb_false. apply Forall_proper; [|done]. intros c. apply bool_decide_eq_false. }
  by destruct (existsb _ _).
Qed.

Lemma identity_check_failure identity :
  check_status (identity_check identity) <> Failure
  <-> exists i, identity = Some i /\ effective_uid i <> 0.
Proof.
  destruct identity as [i|]; cbn; [|naive_solver]. destruct (Z.eqb_spec (effective_uid i) 0) as [E|E]; cbn; [naive_solver|].
  destruct (_ || _); cbn; naive_solver.
Qed.

Section report.
Context `{FileSystem} {W : Type} `{SystemSource W} `{CommandRunner W} `{Clock W}.
Implicit Types (w : W).

(** A collector starts, and its snapshot lacks at most the clock frequency. *)
Definition snapshot_usable (config : CollectorConfig.t) w : Prop :=
  exists k, (Collector_new config w).1 = Ok k
    /\ Forall (fun e => metric e = lit "cpu.frequency_mhz")
         (Health.collector_errors (health (collect k (Collector_new config w).2).1.1)).

Lemma snapshot_checks_failure config w :
  Forall (fun c => check_status c <> Failure) (snapshot_checks config w) <-> snapshot_usable config w.
Proof.
  unfold snapshot_checks, snapshot_usable. destruct (Collector_new config w) as [[k|e] w1]; cbn [fst snd].
  - destruct (collect k w1) as [[s k'] w2] eqn:Ek. unfold check_snapshot. rewrite !Forall_cons, Forall_nil.
    pose proof (metadata_check_passes (metadata k)). pose proof (check_power_passes (state_power s)).
    pose proof (snapshot_check_failure (Health.collector_errors (health s))) as Hs.
    assert (Decision (Forall (fun e => metric e = lit "cpu.frequency_mhz") (Health.collector_errors (health s))))
      as Hd by apply _. split.
    + intros (Hns & _). exists k. split; [done|]. rewrite Ek. destruct Hd; [done|tauto].
    + intros (? & [= <-] & Hall). rewrite Ek in Hall. tauto.
  - split; [|by intros (? & ? & _)]. intros Hf. inversion_clear Hf as [|?? Hne _]. by destruct Hne.
Qed.

Lemma load_credentials_spec config :
  check_name (load_credentials config).1 = CREDENTIALS_CHECK
  /\ (load_credentials config).2 = result_ok (MqttCredentials_load (Config.mqtt config))
  /\ (check_status (load_credentials config).1 <> Failure <-> is_Some (load_credentials config).2).
Proof.
  unfold load_credentials. destruct (MqttCredentials_load _); cbn; (split; [done|]); (split; [done|]).
  - split; [by eexists|done].
  - split; [done|by intros [? ?]].
Qed.

Lemma snapshot_checks_names config w :
  check_name <$> snapshot_checks config w = [COLLECTOR_CHECK; METADATA_CHECK; POWER_CHECK].
Proof.
  unfold snapshot_checks. destruct (Collector_new config w) as [[k|e] w1]; [|done].
  destruct (collect k w1) as [[s k'] w2]. unfold check_snapshot, snapshot_check, metadata_check, check_power. cbn.
  by repeat case_match.
Qed.

Lemma identity_check_name identity : check_name (identity_check identity) = IDENTITY_CHECK.
Proof. unfold identity_check. by repeat case_match. Qed.

(** The broker accepts a probe. *)
Definition broker_reachable (network : Network) p s (config : MqttConfig.t) (credentials : MqttCredentials.t) : Prop :=
  exists o, probe_options config credentials p s = Some o
    /\ (probe_loop (network o).1 false [] (network o).2).2 = Ok tt.

Lemma broker_check_passes raw network p s probe credentials :
  valid raw -> is_u32 p -> is_u64 s ->
  exists c, broker_check network p s (Config.mqtt (config_of raw)) probe credentials = Some c /\ check_name c = MQTT_CHECK
    /\ (check_status c <> Failure <->
         probe = ProbeSkipped \/ credentials = None
         \/ exists k, credentials = Some k /\ broker_reachable network p s (Config.mqtt (config_of raw)) k).
Proof.
  intros Hv Hp Hs. destruct probe, credentials as [k|]; try by (eexists; split; [reflexivity|]; cbn; naive_solver).
  destruct (probe_options_exist raw k p s Hv Hp Hs) as (n & o & Ho & _).
  cbn [broker_check]. unfold check_mqtt, probe_mqtt, broker_reachable. rewrite Ho. cbn [mbind option_bind].
  eexists. split; [reflexivity|]. destruct (probe_loop _ _ _ _).2 as [[]|failure] eqn:E.
  - split; [done|]. split; [intros _; right; right; eauto|done].
  - split; [by destruct failure|]. split; [by destruct failure|].
    intros [?|[?|(? & [= <-] & o' & Ho' & ?)]]; try done. rewrite Ho in Ho'. injection Ho' as <-. congruence.
Qed.

(** Nothing the command checks stands in the way of a start. *)
Definition checks_pass config probe status network p s w : Prop :=
  exists credentials identity, MqttCredentials_load (Config.mqtt config) = Ok credentials
    /\ status ≫= parse_process_identity = Some identity /\ effective_uid identity <> 0
    /\ snapshot_usable (Config.collector config) w
    /\ (probe = ProbeSkipped \/ broker_reachable network p s (Config.mqtt config) credentials).

Lemma run_checks_cases raw probe status architecture is_armv7 network p s w :
  valid raw -> is_u32 p -> is_u64 s ->
  exists report, run_checks (config_of raw) probe status architecture is_armv7 network p s w = Some report
    /\ check_name <$> checks report
       = [CREDENTIALS_CHECK; IDENTITY_CHECK; ARCHITECTURE_CHECK; COLLECTOR_CHECK; METADATA_CHECK; POWER_CHECK; MQTT_CHECK]
    /\ (exit_code report = SUCCESS \/ exit_code report = DIAGNOSTIC_ERROR)
    /\ (exit_code report = SUCCESS <-> checks_pass (config_of raw) probe status network p s w).
Proof.
  intros Hv Hp Hs. unfold run_checks, checks_pass.
  destruct (load_credentials_spec (config_of raw)) as (Hcn & Hcr & Hcs).
  destruct (load_credentials (config_of raw)) as [cc cr]. cbn [fst snd] in *.
  destruct (broker_check_passes raw network p s probe cr Hv Hp Hs) as (c & -> & Hname & Hc).
  cbn [mbind option_bind]. eexists. split; [reflexivity|].
  split; [|split; [unfold exit_code; destruct (has_failures _); auto|]].
  - cbn [checks]. rewrite !fmap_app, snapshot_checks_names. unfold check_runtime_identity.
    cbn -[identity_check]. rewrite Hcn, Hname, identity_check_name. by destruct is_armv7.
  - rewrite exit_code_success. cbn [checks]. rewrite !Forall_app, Forall_singleton, snapshot_checks_failure, Hc, !Forall_cons, Forall_nil, Hcs, Hcr.
    unfold check_runtime_identity. rewrite identity_check_failure.
    pose proof (architecture_check_passes architecture is_armv7). split.
    + intros (([k Hk] & (i & Hi & Hui) & _) & Hsnap & Hb). apply result_ok_Some in Hk.
      rewrite Hk in Hb. exists k, i. split_and!; try done. cbn in Hb. destruct Hb as [|[|(? & [= <-] & ?)]]; auto; done.
    + intros (k & i & Hk & Hi & Hui & Hsnap & Hb). rewrite Hk. cbn [result_ok].
      split; [|split; [done|destruct Hb; eauto]]. split; [by eexists|]. split; [by eauto|done].
Qed.

(** C22: for an accepted configuration the diagnostics never panic and
    report seven checks in a fixed order; the command succeeds exactly when the
    credentials load, the process has a readable identity that is not root, a
    collector starts and its snapshot lacks at most the clock frequency, and
    the broker, unless the probe is skipped, accepts a connection. *)
Theorem run_checks_outcome {E} raw config probe status architecture is_armv7 network p s w :
  validate (io_error := E) raw = Ok config -> is_u32 p -> is_u64 s ->
  exists report, run_checks config probe status architecture is_armv7 network p s w = Some report
    /\ check_name <$> checks report
       = [CREDENTIALS_CHECK; IDENTITY_CHECK; ARCHITECTURE_CHECK; COLLECTOR_CHECK; METADATA_CHECK; POWER_CHECK; MQTT_CHECK]
    /\ (exit_code report = SUCCESS \/ exit_code report = DIAGNOSTIC_ERROR)
    /\ (exit_code report = SUCCESS <->
         exists credentials identity, MqttCredentials_load (Config.mqtt config) = Ok credentials
           /\ status ≫= parse_process_identity = Some identity /\ effective_uid identity <> 0
           /\ snapshot_usable (Config.collector config) w
           /\ (probe = ProbeSkipped \/ broker_reachable network p s (Config.mqtt config) credentials)).
Proof. intros Hv Hp Hs. apply validate_ok_iff_parts in Hv as [Hv ->]. by apply run_checks_cases. Qed.
End report.

Section secrecy.
Context {W : Type} `{SystemSource W} `{CommandRunner W} `{Clock W}.
Implicit Types (w : W).

(** C24: the report does not depend on the password: with two credential
    files that are both accepted and a network that answers both the same way,
    the diagnostics report the same. *)
Theorem report_hides_password (F1 F2 : FileSystem) config probe status architecture is_armv7 network p s w c1 c2 :
  MqttCredentials_load (H := F1) (Config.mqtt config) = Ok c1 ->
  MqttCredentials_load (H := F2) (Config.mqtt config) = Ok c2 ->
  (forall o1 o2, probe_options (Config.mqtt config) c1 p s = Some o1 ->
     probe_options (Config.mqtt config) c2 p s = Some o2 -> network o1 = network o2) ->
  run_checks (H := F1) config probe status architecture is_armv7 network p s w
  = run_checks (H := F2) config probe status architecture is_armv7 network p s w.
Proof.
  intros H1' H2' Hn. unfold run_checks, load_credentials. rewrite H1', H2'.
  assert (broker_check network p s (Config.mqtt config) probe (Some c1)
          = broker_check network p s (Config.mqtt config) probe (Some c2)) as ->; [|done].
  destruct probe; [|done]. cbn [broker_check]. unfold check_mqtt, probe_mqtt.
  unfold probe_options in *. destruct (unique_probe_client_id _ _ _); cbn [mbind option_bind] in *; [|done].
  by rewrite (Hn _ _ eq_refl eq_refl).
Qed.
End secrecy.

(** ** A concrete run *)

#[local] Existing Instances host_source host_runner host_clock.

Definition secret_file (password : string) : FileSystem :=
  one_file (lit "/etc/rpi/password") (Build_FileMetadata true 10 384) (utf8_encode (lit password)).
Definition accepting_network : Network := fun _ => (fun _ => true, [Ok (IncomingConnAck Success); Ok OutgoingDisconnect]).

Lemma run_checks_outcome_witness :
  exists config report, validate (io_error := unit) example_raw = Ok config
    /\ run_checks (H := secret_file "secret") (H3 := host_clock) config ProbeEnabled (Some (terminated example_status []))
         (lit "arm") true accepting_network 4242 1 0%nat = Some report
    /\ check_status <$> checks report = [Pass; Warning; Pass; Failure; Warning; Skipped; Pass]
    /\ exit_code report = DIAGNOSTIC_ERROR.
Proof.
  destruct (validate (io_error := unit) example_raw) as [c|e] eqn:E; [|vm_compute in E; discriminate E].
  destruct (run_checks_outcome (H := secret_file "secret") (H3 := host_clock) example_raw c ProbeEnabled
    (Some (terminated example_status [])) (lit "arm") true accepting_network 4242 1 0%nat E) as (r & Hr & _ & _ & _);
    [unfold is_u32, u32_max; lia|unfold is_u64, u64_max; lia|].
  exists c, r. split; [done|]. split; [done|]. vm_compute in E. injection E as <-. vm_compute in Hr. injection Hr as <-.
  split; reflexivity.
Defined.

Lemma report_hides_password_witness :
  exists config, validate (io_error := unit) example_raw = Ok config
    /\ run_checks (H := secret_file "one") (H3 := host_clock) config ProbeEnabled None (lit "arm") true
         accepting_network 4242 1 0%nat
       = run_checks (H := secret_file "another") (H3 := host_clock) config ProbeEnabled None (lit "arm") true
           accepting_network 4242 1 0%nat.
Proof.
  destruct (validate (io_error := unit) example_raw) as [c|e] eqn:E; [|vm_compute in E; discriminate E].
  exists c. split; [done|]. vm_compute in E. injection E as <-.
  eapply report_hides_password; [vm_compute; reflexivity|vm_compute; reflexivity|].
  intros. reflexivity.
Defined.
