(* ===== verification/Main.v ===== *)
(** * The process ([src/src/main.rs])

    The command a process runs and the exit code it ends with.  [clap], which
    parses the arguments, the asynchronous runtime and the running service are
    inputs; everything in between is composed from the other files. *)

From S2P Require Import Prelude RustStr Model Config Discovery Watch MqttProtocol MqttMachine MqttSupervisor Collector CollectorReports Daemon Cli Diagnostics DiagnosticsFacts.

Local Open Scope Z_scope.

(** A line of standard output or standard error. *)
Inductive Output := Stdout (line : str) | Stderr (line : str).

Definition show_config_error `{FileSystem} (show_io : io_error -> str) (e : ConfigError io_error) : Output :=
  Stderr (lit "Configuration error: " ++ ConfigError_display show_io e).

(** What surrounds the process: the runtimes the builders return, the daemon's
    tasks as they run, the process's own identity and sequence, and its network. *)
Record Surroundings (IoError W : Type) := {
  diagnostic_runtime : result IoError unit;
  daemon_runtime : result IoError unit;
  daemon_tasks : Tasks (IoError := IoError) W;
  process_status : option str;
  target_architecture : str;
  target_is_arm : bool;
  network_of : Network;
  process_id_of : Z;
  probe_sequence : Z;
}.
Arguments diagnostic_runtime {_ _}. Arguments daemon_runtime {_ _}. Arguments daemon_tasks {_ _}.
Arguments process_status {_ _}. Arguments target_architecture {_ _}. Arguments target_is_arm {_ _}.
Arguments network_of {_ _}. Arguments process_id_of {_ _}. Arguments probe_sequence {_ _}.

Section main.
Context `{FileSystem} `{TomlParser} `{JsonText} {W : Type} `{SystemSource W} `{CommandRunner W} `{Clock W}.
Context {IoError : Type}.
Context (show_io : io_error -> str) (json_to_string_pretty : json -> result str str).
Context (env : Surroundings IoError W).

(** [None]: the program panics. *)
Definition run_diagnostics (config : Config.t) (skip_mqtt : bool) (w : W) : option (list Output * Z) :=
  match diagnostic_runtime env with
  | Err _ => Some ([Stdout (lit "[FAILURE] runtime: diagnostic runtime could not start")], DIAGNOSTIC_ERROR)
  | Ok _ =>
    let mqtt_probe := if skip_mqtt then ProbeSkipped else ProbeEnabled in
    report ← run_checks config mqtt_probe (process_status env) (target_architecture env) (target_is_arm env)
               (network_of env) (process_id_of env) (probe_sequence env) w;
    Some ([Stdout (DiagnosticReport_display report)], exit_code report)
  end.

Definition print_once (config : CollectorConfig.t) (w : W) : list Output * Z :=
  match Collector_new config w with
  | (Err error, _) => ([Stderr (lit "Collection error: " ++ CollectorInitError_display error)], COLLECTION_ERROR)
  | (Ok collector, w) =>
    match (document ← serialize_state (collect collector w).1.1; json_to_string_pretty document) with
    | Ok json => ([Stdout json], SUCCESS)
    | Err error =>
      ([Stderr (lit "Collection error: state serialization failed: " ++ error)], COLLECTION_ERROR)
    end
  end.

Definition run (cli : Cli.t) (w : W) : option (list Output * Z) :=
  match Config_load (Cli.config cli) with
  | Err error => Some ([show_config_error show_io error], CONFIG_ERROR)
  | Ok config =>
    match Cli.command cli with
    | Some PrintOnce => Some (print_once (Config.collector config) w)
    | Some (Check skip_mqtt) => run_diagnostics config skip_mqtt w
    | None =>
      match MqttCredentials_load (Config.mqtt config) with
      | Ok credentials =>
        match Daemon.run (daemon_runtime env) (daemon_tasks env) config credentials w with
        | Ok _ => Some ([], SUCCESS)
        | Err error => Some ([Stderr (lit "Runtime error: " ++ DaemonError_display error)], RUNTIME_ERROR)
        end
      | Err error => Some ([show_config_error show_io error], CONFIG_ERROR)
      end
    end
  end.

(** An error of [clap], with the text it prints. *)
Record ClapError := { use_stderr : bool; clap_exit_code : Z; rendered : str }.

Definition u8_try_from (n : Z) : option Z := if (0 <=? n) && (n <=? 255) then Some n else None.

Definition main (parsed : result ClapError Cli.t) (w : W) : option (list Output * Z) :=
  match parsed with
  | Ok cli => run cli w
  | Err error =>
    let code := if use_stderr error then clap_exit_code error else SUCCESS in
    let output := if use_stderr error then Stderr (rendered error) else Stdout (rendered error) in
    Some ([output], default 2 (u8_try_from code))
  end.

(** ** Exit codes *)

Lemma Config_load_validated path config :
  Config_load path = Ok config -> exists raw, valid raw /\ config = config_of raw.
Proof.
  unfold Config_load, Config_parse. intros Hl. simplify_result.
  do 2 (case_match; [done|]). simplify_result. case_match; [done|]. simplify_result.
  eexists. by apply (validate_ok_iff_parts (io_error := io_error)).
Qed.

(** One collection can be made and printed. *)
Definition snapshot_printable (config : CollectorConfig.t) (w : W) : Prop :=
  exists collector json, (Collector_new config w).1 = Ok collector
    /\ (document ← serialize_state (collect collector (Collector_new config w).2).1.1;
        json_to_string_pretty document) = Ok json.

Lemma print_once_cases config w :
  (snd (print_once config w) = SUCCESS /\ snapshot_printable config w
   /\ exists json, fst (print_once config w) = [Stdout json])
  \/ (snd (print_once config w) = COLLECTION_ERROR /\ ~ snapshot_printable config w
      /\ exists line, fst (print_once config w) = [Stderr line]).
Proof.
  unfold print_once, snapshot_printable. destruct (Collector_new config w) as [[k|e] w1]; cbn [fst snd].
  - destruct (serialize_state _ ≫= _) as [json|e] eqn:E.
    + left. split; [done|]. split; [by eauto|by eexists].
    + right. split; [done|]. split; [|by eexists]. intros (k' & json & [= <-] & Hj). by rewrite E in Hj.
  - right. split; [done|]. split; [|by eexists]. by intros (? & ? & ? & _).
Qed.

(** Closes [code ∈ codes -> _] for a code that is not one of them. *)
Local Ltac other_code :=
  let Hin := fresh in intros Hin; exfalso; revert Hin;
  match goal with |- ?P -> False => exact (bool_decide_eq_false_1 P eq_refl) end.

(** The cause an exit code stands for. *)
Definition cause (cli : Cli.t) (w : W) (code : Z) : Prop :=
  let loaded := Config_load (Cli.config cli) in
  if code =? CONFIG_ERROR then
    (exists e, loaded = Err e)
    \/ exists config e, loaded = Ok config /\ Cli.command cli = None
         /\ MqttCredentials_load (Config.mqtt config) = Err e
  else exists config, loaded = Ok config /\
    match Cli.command cli with
    | Some (Check skip_mqtt) =>
      let passes := is_ok (diagnostic_runtime env) = true
        /\ checks_pass config (if skip_mqtt then ProbeSkipped else ProbeEnabled) (process_status env)
             (network_of env) (process_id_of env) (probe_sequence env) w in
      (code = SUCCESS /\ passes) \/ (code = DIAGNOSTIC_ERROR /\ ~ passes)
    | Some PrintOnce =>
      (code = SUCCESS /\ snapshot_printable (Config.collector config) w)
      \/ (code = COLLECTION_ERROR /\ ~ snapshot_printable (Config.collector config) w)
    | None => exists credentials, MqttCredentials_load (Config.mqtt config) = Ok credentials
        /\ let service := Daemon.run (daemon_runtime env) (daemon_tasks env) config credentials w in
           (code = SUCCESS /\ service = Ok tt) \/ (code = RUNTIME_ERROR /\ exists e, service = Err e)
    end.

(** C14: a command never panics, and its exit code says why it ended:
    3 for a configuration, or for the daemon a credential file, that is refused,
    4 exactly for a failed diagnostic, 5 for a collection that cannot be made or
    printed, 6 for a daemon that fails, 0 otherwise.  Errors of the
    configuration, the collection and the daemon are one line on standard error
    with nothing on standard output. *)
Theorem run_exit_code (cli : Cli.t) (w : W) :
  is_u32 (process_id_of env) -> is_u64 (probe_sequence env) ->
  exists output code, run cli w = Some (output, code) /\ cause cli w code
    /\ (code ∈ [CONFIG_ERROR; COLLECTION_ERROR; RUNTIME_ERROR] -> exists line, output = [Stderr line]).
Proof.
  intros Hp Hs. unfold run, cause. destruct (Config_load (Cli.config cli)) as [config|e] eqn:Hl.
  2: { do 2 eexists. split; [reflexivity|]. split; [left; by eexists|by eexists]. }
  destruct (Cli.command cli) as [[skip_mqtt|]|].
  - unfold run_diagnostics. destruct (diagnostic_runtime env) as [u|e].
    2: { do 2 eexists. split; [reflexivity|]. split; [|other_code].
         exists config. split; [done|]. right. split; [done|]. by intros [? _]. }
    destruct (Config_load_validated _ _ Hl) as (raw & Hv & ->).
    destruct (run_checks_cases raw (if skip_mqtt then ProbeSkipped else ProbeEnabled) (process_status env)
      (target_architecture env) (target_is_arm env) (network_of env) _ _ w Hv Hp Hs) as (r & -> & _ & Hcode & Hiff).
    cbn [mbind option_bind]. do 2 eexists. split; [reflexivity|].
    destruct Hcode as [E|E]; rewrite E in Hiff |- *; (split; [|other_code]).
    + exists (config_of raw). split; [done|]. left. split; [done|]. split; [done|]. by apply Hiff.
    + exists (config_of raw). split; [done|]. right. split; [done|]. intros [_ Hpass]. by apply Hiff in Hpass.
  - exists (print_once (Config.collector config) w).1, (print_once (Config.collector config) w).2.
    split; [by destruct (print_once (Config.collector config) w)|].
    destruct (print_once_cases (Config.collector config) w) as [(-> & Hp' & Ho)|(-> & Hp' & Ho)].
    + split; [|other_code]. exists config. eauto.
    + split; [|done]. exists config. eauto.
  - destruct (MqttCredentials_load (Config.mqtt config)) as [k|e] eqn:Hk.
    2: { do 2 eexists. split; [reflexivity|]. split; [right; by exists config, e|by eexists]. }
    destruct (Daemon.run _ _ _ _ _) as [[]|e] eqn:Hd.
    + do 2 eexists. split; [reflexivity|]. split; [|other_code].
      exists config. split; [done|]. exists k. rewrite Hd. auto.
    + do 2 eexists. split; [reflexivity|]. split; [|by eexists].
      exists config. split; [done|]. exists k. rewrite Hd. eauto.
Qed.
End main.

(** ** A concrete run *)

#[local] Existing Instances host_source host_runner host_clock.

#[local] Instance one_document : TomlParser := {|
  toml_from_str _ := Ok {|
    toml_device := {| raw_id := lit "pi_one"; raw_name := lit "Raspberry Pi" |};
    toml_mqtt := {| toml_host := None; toml_port := None; toml_client_id := lit "rpi.health";
                    toml_username := lit "monitor"; toml_password_file := lit "/etc/rpi/password";
                    toml_base_topic := lit "rpi/pi_one"; toml_discovery_prefix := None;
                    toml_keep_alive_seconds := None |};
    toml_collector := None |};
|}.
#[local] Instance configured : FileSystem :=
  one_file DEFAULT_CONFIG_PATH (Build_FileMetadata true 9 420) (utf8_encode (lit "[device]")).
#[local] Instance braces : JsonText := {| json_to_string _ := Ok (lit "{}") |}.

Definition example_surroundings : Surroundings unit nat := {|
  diagnostic_runtime := Ok tt; daemon_runtime := Ok tt; daemon_tasks _ _ _ _ _ _ := (CompletionSignal (Ok tt), Build_Ends (Ok (Ok tt)) (Ok tt) None);
  process_status := Some (terminated example_status []); target_architecture := lit "arm"; target_is_arm := true;
  network_of := accepting_network; process_id_of := 4242; probe_sequence := 1;
|}.

Lemma run_exit_code_witness :
  let env := example_surroundings in
  is_u32 (process_id_of env) /\ is_u64 (probe_sequence env)
  /\ run (H5 := host_clock) (fun _ => []) json_to_string env (Cli.Build_t DEFAULT_CONFIG_PATH (Some PrintOnce)) 0%nat
     = Some ([Stdout (lit "{}")], SUCCESS)
  /\ cause (H5 := host_clock) json_to_string env (Cli.Build_t DEFAULT_CONFIG_PATH (Some PrintOnce)) 0%nat SUCCESS
  /\ cause (H5 := host_clock) json_to_string env (Cli.Build_t (lit "/missing") None) 0%nat CONFIG_ERROR.
Proof.
  assert (is_u32 (process_id_of example_surroundings)) as Hp by (unfold is_u32, u32_max; cbn; lia).
  assert (is_u64 (probe_sequence example_surroundings)) as Hs by (unfold is_u64, u64_max; cbn; lia).
  split; [done|]. split; [done|].
  destruct (run_exit_code (H5 := host_clock) (fun _ => []) json_to_string example_surroundings
    (Cli.Build_t DEFAULT_CONFIG_PATH (Some PrintOnce)) 0%nat Hp Hs) as (o1 & c1 & H1 & Hc1 & _).
  destruct (run_exit_code (H5 := host_clock) (fun _ => []) json_to_string example_surroundings
    (Cli.Build_t (lit "/missing") None) 0%nat Hp Hs) as (o2 & c2 & H2 & Hc2 & _).
  assert (Some (o1, c1) = Some ([Stdout (lit "{}")], SUCCESS)) as [= -> ->].
  { rewrite <-H1. vm_compute. reflexivity. }
  assert (c2 = CONFIG_ERROR) as ->.
  { vm_compute in H2. injection H2 as _ <-. reflexivity. }
  split; [exact H1|]. split; [exact Hc1|exact Hc2].
Defined.
